(** * cursor2jira: the Markdown-to-Jira converter of [cursor_to_jira_converter.py]

    A shallow embedding of [CursorToJiraConverter.convert_text], of the
    helpers it calls and of the extraction of the Markdown from the
    clipboard HTML, followed by the properties established about them.

    Conventions of the model.
    - A Python [str] is a [list ascii]; a character is a code point below
      256 (the Latin-1 range).  [isspace], [\s], [\d] and [\w] are Python's
      Unicode predicates restricted to that range.
    - [re] patterns are kept as syntax trees and run by a backtracking
      matcher that lists the successful runs in Python's priority order;
      the first run of the list is the match Python reports.
    - The two [while] loops of [_convert_lists_with_nesting] are indexed
      loops over [lines]; they are modelled with the index, with
      [lines[i]] as a lookup that may raise [IndexError], and with fuel.
      Results live in [outcome].
    - The extraction functions trace their work with [print]; the trace
      goes to the standard output and is left out, and with it the
      handlers of [UnicodeEncodeError], which only a [print] can raise.
    - The XML parser is not part of the program: [ET.fromstring] is a
      parameter of [extract_markdown_from_html], and the functions that
      walk the parsed tree are modelled over a type of elements with the
      [iter], [itertext], [findall] and [get] of [ElementTree]. *)

From Stdlib Require Import Ascii String.
From Stdlib Require Import Numbers.DecimalString Numbers.DecimalNat.
From Stdlib Require Import List Bool Arith Lia PeanoNat.
Import ListNotations.

(* ================================================================= *)
(** ** Python strings *)

Definition str : Type := list ascii.

(** String literals of the source. *)
Definition lit (s : string) : str := list_ascii_of_string s.
Arguments lit s%_string.

Definition nl : ascii := "010"%char.

(** [str.isspace] on one character (code points below 256): TAB..CR,
    FS..US, SPACE, NEL and NBSP. *)
Definition isspace (c : ascii) : bool :=
  let n := nat_of_ascii c in
  ((9 <=? n) && (n <=? 13)) || ((28 <=? n) && (n <=? 32))
  || (n =? 133) || (n =? 160).

(** [==] on strings. *)
Fixpoint eqb_str (a b : str) : bool :=
  match a, b with
  | [], [] => true
  | x :: a', y :: b' => Ascii.eqb x y && eqb_str a' b'
  | _, _ => false
  end.

(** [s.startswith(p)] *)
Fixpoint startswith (p s : str) : bool :=
  match p, s with
  | [], _ => true
  | x :: p', y :: s' => Ascii.eqb x y && startswith p' s'
  | _ :: _, [] => false
  end.

(** [s.endswith(p)] *)
Definition endswith (p s : str) : bool := startswith (rev p) (rev s).

(** [old in s] *)
Fixpoint contains (old s : str) : bool :=
  startswith old s ||
  match s with
  | [] => false
  | _ :: s' => contains old s'
  end.

(** [s.lstrip()], [s.rstrip()], [s.strip()] *)
Fixpoint lstrip (s : str) : str :=
  match s with
  | [] => []
  | c :: s' => if isspace c then lstrip s' else s
  end.

Fixpoint rstrip (s : str) : str :=
  match s with
  | [] => []
  | c :: s' =>
      match rstrip s' with
      | [] => if isspace c then [] else [c]
      | r => c :: r
      end
  end.

Definition strip (s : str) : str := rstrip (lstrip s).

(** [s.replace(old, new)]: the occurrences of [old] are found left to
    right and do not overlap.  [skip] counts the characters of an
    occurrence that are still to be passed over. *)
Fixpoint replace_aux (old new : str) (skip : nat) (s : str) : str :=
  match s with
  | [] => []
  | c :: s' =>
      match skip with
      | S k => replace_aux old new k s'
      | O =>
          if startswith old s
          then new ++ replace_aux old new (pred (length old)) s'
          else c :: replace_aux old new 0 s'
      end
  end.

Definition replace (old new s : str) : str :=
  match old with
  | [] => new ++ flat_map (fun c => c :: new) s
  | _ :: _ => replace_aux old new 0 s
  end.

(** [s.replace(old, new, 1)] *)
Fixpoint replace_first (old new s : str) : str :=
  if startswith old s then new ++ skipn (length old) s
  else match s with
       | [] => []
       | c :: s' => c :: replace_first old new s'
       end.

(** [s.split(sep)] for a one-character separator. *)
Fixpoint split (sep : ascii) (s : str) : list str :=
  match s with
  | [] => [[]]
  | c :: s' =>
      if Ascii.eqb c sep then [] :: split sep s'
      else match split sep s' with
           | [] => [[c]]
           | w :: ws => (c :: w) :: ws
           end
  end.

(** [sep.join(ws)] *)
Fixpoint join (sep : str) (ws : list str) : str :=
  match ws with
  | [] => []
  | w :: ws' =>
      match ws' with
      | [] => w
      | _ :: _ => w ++ sep ++ join sep ws'
      end
  end.

(** [s[1:-1]] *)
Definition slice_1_m1 (s : str) : str := removelast (tl s).

(** [str(n)] for a non-negative integer, as an f-string prints it. *)
Definition str_of_nat (n : nat) : str :=
  lit (NilEmpty.string_of_uint (Nat.to_uint n)).

(** A document given line by line: ['\n'.join(lines)]. *)
Definition unlines (ls : list string) : str := join [nl] (map lit ls).

(** [sorted(xs, key=len, reverse=True)]: stable, longest first. *)
Fixpoint insert_by_len (x : str) (ys : list str) : list str :=
  match ys with
  | [] => [x]
  | y :: ys' =>
      if length x <? length y then y :: insert_by_len x ys'
      else x :: ys
  end.

Definition sorted_len_desc (xs : list str) : list str :=
  fold_right insert_by_len [] xs.

(* ================================================================= *)
(** ** Outcomes of the indexed loops *)

Inductive exn : Type := IndexError.

Inductive outcome (A : Type) : Type :=
| Ok (a : A)
| Raised (e : exn)
| OutOfFuel.

Arguments Ok {A} a.
Arguments Raised {A} e.
Arguments OutOfFuel {A}.

Definition bind {A B} (m : outcome A) (f : A -> outcome B) : outcome B :=
  match m with
  | Ok a => f a
  | Raised e => Raised e
  | OutOfFuel => OutOfFuel
  end.

Notation "x <- m ;; k" := (bind m (fun x => k))
  (at level 61, m at next level, right associativity).

(** [xs[i]] *)
Definition index {A} (xs : list A) (i : nat) : outcome A :=
  match nth_error xs i with
  | Some x => Ok x
  | None => Raised IndexError
  end.

(* ================================================================= *)
(** ** The fragment of Python's [re] that the converter uses *)

Inductive re : Type :=
| Eps
| Chr (c : ascii)
| Cls (p : ascii -> bool)
| Seq (r1 r2 : re)
| Alt (r1 r2 : re)
| Rep (greedy : bool) (lo : nat) (p : ascii -> bool)  (* [p{lo,}], [p{lo,}?] *)
| Grp (n : nat) (r : re)
| Bol                                                  (* [^] *)
| Eol                                                  (* [$] *)
| NegLook (r : re).                                    (* [(?!r)] *)

Fixpoint lits (s : str) : re :=
  match s with
  | [] => Eps
  | c :: s' => Seq (Chr c) (lits s')
  end.

Fixpoint seqs (rs : list re) : re :=
  match rs with
  | [] => Eps
  | r :: rs' => match rs' with [] => r | _ :: _ => Seq r (seqs rs') end
  end.

(** Character classes. *)
Definition cls_d (c : ascii) : bool :=
  let n := nat_of_ascii c in (48 <=? n) && (n <=? 57).
Definition cls_s : ascii -> bool := isspace.
Definition cls_dot (c : ascii) : bool := negb (Ascii.eqb c nl).
Definition cls_w (c : ascii) : bool :=
  let n := nat_of_ascii c in
  cls_d c || ((65 <=? n) && (n <=? 90)) || ((97 <=? n) && (n <=? 122))
  || (n =? 95) || (n =? 170) || (n =? 178) || (n =? 179) || (n =? 181)
  || (n =? 185) || (n =? 186) || ((188 <=? n) && (n <=? 190))
  || ((192 <=? n) && (n <=? 214)) || ((216 <=? n) && (n <=? 246))
  || (248 <=? n).
Definition one_of (cs : str) (c : ascii) : bool :=
  existsb (Ascii.eqb c) cs.
Definition none_of (cs : str) (c : ascii) : bool := negb (one_of cs c).

(** Captured groups, most recent first. *)
Definition captures : Type := list (nat * str).

Fixpoint group (n : nat) (caps : captures) : str :=
  match caps with
  | [] => []
  | (m, s) :: caps' => if n =? m then s else group n caps'
  end.

(** A point of a run: the character before the cursor ([None] at the very
    start of the subject), the text after it, and the groups so far. *)
Definition mstate : Type := (option ascii * str * captures)%type.

Definition at_bol (multiline : bool) (prev : option ascii) : bool :=
  match prev with
  | None => true
  | Some c => multiline && Ascii.eqb c nl
  end.

Definition at_eol (multiline : bool) (s : str) : bool :=
  match s with
  | [] => true
  | c :: s' =>
      Ascii.eqb c nl && (multiline || match s' with [] => true | _ => false end)
  end.

(** The cursors reachable by consuming 0, 1, 2, ... characters of class
    [p], fewest first. *)
Fixpoint rep_opts (p : ascii -> bool) (prev : option ascii) (s : str)
  : list (option ascii * str) :=
  (prev, s) ::
  match s with
  | c :: s' => if p c then rep_opts p (Some c) s' else []
  | [] => []
  end.

(** All runs of [r] from a cursor, in the order a backtracking matcher
    tries them. *)
Fixpoint ms (ml : bool) (r : re) (prev : option ascii) (s : str)
  (caps : captures) : list mstate :=
  match r with
  | Eps => [(prev, s, caps)]
  | Chr c =>
      match s with
      | x :: s' => if Ascii.eqb x c then [(Some x, s', caps)] else []
      | [] => []
      end
  | Cls p =>
      match s with
      | x :: s' => if p x then [(Some x, s', caps)] else []
      | [] => []
      end
  | Seq r1 r2 =>
      flat_map (fun st : mstate =>
                  let '(pv, s', caps') := st in ms ml r2 pv s' caps')
               (ms ml r1 prev s caps)
  | Alt r1 r2 => ms ml r1 prev s caps ++ ms ml r2 prev s caps
  | Rep greedy lo p =>
      let opts := skipn lo (rep_opts p prev s) in
      map (fun o : option ascii * str => (fst o, snd o, caps))
          (if greedy then rev opts else opts)
  | Grp n r1 =>
      map (fun st : mstate =>
             let '(pv, s', caps') := st in
             (pv, s', (n, firstn (length s - length s') s) :: caps'))
          (ms ml r1 prev s caps)
  | Bol => if at_bol ml prev then [(prev, s, caps)] else []
  | Eol => if at_eol ml s then [(prev, s, caps)] else []
  | NegLook r1 =>
      match ms ml r1 prev s caps with
      | [] => [(prev, s, caps)]
      | _ :: _ => []
      end
  end.

(** The match that starts at the cursor, if any: its length and groups. *)
Definition match_at (ml : bool) (r : re) (prev : option ascii) (s : str)
  : option (nat * captures) :=
  match ms ml r prev s [] with
  | (_, s', caps) :: _ => Some (length s - length s', caps)
  | [] => None
  end.

(** [re.match(r, s)] used as a condition. *)
Definition re_match (r : re) (s : str) : bool :=
  match match_at false r None s with
  | Some _ => true
  | None => false
  end.

(** Replacement templates: literal text and [\n] group references. *)
Inductive titem : Type :=
| TLit (s : str)
| TGrp (n : nat).

Definition expand (t : list titem) (caps : captures) : str :=
  flat_map (fun it => match it with
                      | TLit s => s
                      | TGrp n => group n caps
                      end) t.

(** [re.sub]: leftmost matches, not overlapping.  Every pattern of the
    converter consumes at least one character, so only non-empty matches
    are replaced. *)
Fixpoint sub_aux (ml : bool) (r : re) (repl : captures -> str)
  (skip : nat) (prev : option ascii) (s : str) : str :=
  match s with
  | [] => []
  | c :: s' =>
      match skip with
      | S k => sub_aux ml r repl k (Some c) s'
      | O =>
          match match_at ml r prev s with
          | Some (S n, caps) =>
              repl ((0, firstn (S n) s) :: caps)
              ++ sub_aux ml r repl n (Some c) s'
          | _ => c :: sub_aux ml r repl 0 (Some c) s'
          end
      end
  end.

Definition re_sub (ml : bool) (r : re) (repl : captures -> str) (s : str)
  : str :=
  sub_aux ml r repl 0 None s.

(** [re.finditer]: the groups of the successive matches. *)
Fixpoint finditer_aux (ml : bool) (r : re) (skip : nat)
  (prev : option ascii) (s : str) : list captures :=
  match s with
  | [] => []
  | c :: s' =>
      match skip with
      | S k => finditer_aux ml r k (Some c) s'
      | O =>
          match match_at ml r prev s with
          | Some (S n, caps) =>
              ((0, firstn (S n) s) :: caps)
              :: finditer_aux ml r n (Some c) s'
          | _ => finditer_aux ml r 0 (Some c) s'
          end
      end
  end.

Definition re_finditer (r : re) (s : str) : list captures :=
  finditer_aux false r 0 None s.

(* ================================================================= *)
(** ** [CursorToJiraConverter] *)

(** [self.jira_emoticons] *)
Definition jira_emoticons : list str :=
  [ lit "(y)"; lit "(n)"; lit "(i)"; lit "(!)"; lit "(?)"; lit "(on)";
    lit "(off)"; lit "(*)"; lit "(*r)"; lit "(*g)"; lit "(*b)"; lit "(*y)";
    lit "(flag)"; lit "(flagoff)"; lit "(+)"; lit "(-)"; lit "(x)";
    lit "(/)" ].

(** The regular expressions of the source. *)

(** [^## (.+)$] and the like, for a given run of [#]. *)
Definition re_header (hashes : str) : re :=
  seqs [Bol; lits hashes; Chr " "; Grp 1 (Rep true 1 cls_dot); Eol].

(** [`(.+?)`] *)
Definition re_code_inline : re :=
  seqs [Chr "`"; Grp 1 (Rep false 1 cls_dot); Chr "`"].

(** [^(?!G)[\s]*[-*+]\s+(.+)$], where the guard [G] is the alternation
    of the literals [**], [#*] and [#**]. *)
Definition re_unordered_list : re :=
  seqs [Bol;
        NegLook (Alt (lits (lit "**")) (Alt (lits (lit "#*")) (lits (lit "#**"))));
        Rep true 0 cls_s; Cls (one_of (lit "-*+")); Rep true 1 cls_s;
        Grp 1 (Rep true 1 cls_dot); Eol].

(** [^[\s]*\d+\.\s+(.+)$] *)
Definition re_ordered_list : re :=
  seqs [Bol; Rep true 0 cls_s; Rep true 1 cls_d; Chr "."; Rep true 1 cls_s;
        Grp 1 (Rep true 1 cls_dot); Eol].

(** [```(\w+)?\n(.*?)\n```] *)
Definition re_code_block : re :=
  seqs [lits (lit "```"); Alt (Grp 1 (Rep true 1 cls_w)) Eps; Chr nl;
        Grp 2 (Rep false 0 cls_dot); Chr nl; lits (lit "```")].

(** [```\n(.*?)\n```] *)
Definition re_code_block_no_lang : re :=
  seqs [lits (lit "```"); Chr nl; Grp 1 (Rep false 0 cls_dot); Chr nl;
        lits (lit "```")].

(** [\[([^\]]+)\]\(([^)]+)\)] *)
Definition re_link : re :=
  seqs [Chr "["; Grp 1 (Rep true 1 (none_of (lit "]"))); Chr "]"; Chr "(";
        Grp 2 (Rep true 1 (none_of (lit ")"))); Chr ")"].

(** [^\|(.+)\|$] *)
Definition re_table_cells : re :=
  seqs [Bol; Chr "|"; Grp 1 (Rep true 1 cls_dot); Chr "|"; Eol].

(** [^\|[\s\-\|]+\|$] *)
Definition cls_sep (c : ascii) : bool := cls_s c || one_of (lit "-|") c.
Definition re_table_separator : re :=
  seqs [Bol; Chr "|"; Rep true 1 cls_sep; Chr "|"; Eol].

(** [^---$] *)
Definition re_hr : re := seqs [Bol; lits (lit "---"); Eol].

(** [^>\s*(.+)$] *)
Definition re_blockquote : re :=
  seqs [Bol; Chr ">"; Rep true 0 cls_s; Grp 1 (Rep true 1 cls_dot); Eol].

(** [~~(.+?)~~] *)
Definition re_strikethrough : re :=
  seqs [lits (lit "~~"); Grp 1 (Rep false 1 cls_dot); lits (lit "~~")].

(** [\*\*(.+?)\*\*] *)
Definition re_bold : re :=
  seqs [lits (lit "**"); Grp 1 (Rep false 1 cls_dot); lits (lit "**")].

(** [\*([^*\n]+?)\*] *)
Definition re_italic : re :=
  seqs [Chr "*"; Grp 1 (Rep false 1 (none_of ("*"%char :: [nl]))); Chr "*"].

(** [^\d+\.\s+] *)
Definition re_numbered : re :=
  seqs [Bol; Rep true 1 cls_d; Chr "."; Rep true 1 cls_s].

(** [^[\s]*[-*+]\s+] *)
Definition re_bullet : re :=
  seqs [Bol; Rep true 0 cls_s; Cls (one_of (lit "-*+")); Rep true 1 cls_s].

(** [_convert_code_block] *)
Definition _convert_code_block (m : captures) : str :=
  let lang := group 1 m in
  let code := group 2 m in
  match lang with
  | _ :: _ =>
      lit "{code:" ++ lang ++ lit "}" ++ [nl] ++ code ++ [nl] ++ lit "{code}"
  | [] => lit "{code}" ++ [nl] ++ code ++ [nl] ++ lit "{code}"
  end.

(** [_convert_code_block_no_lang] *)
Definition _convert_code_block_no_lang (m : captures) : str :=
  let code := group 1 m in
  lit "{code}" ++ [nl] ++ code ++ [nl] ++ lit "{code}".

(** [_convert_table_header] *)
Definition _convert_table_header (m : captures) : str :=
  let content := group 1 m in
  let cells := map strip (split "|" content) in
  lit "||" ++ join (lit "||") cells ++ lit "||".

(** [_convert_table_row] *)
Definition _convert_table_row (m : captures) : str :=
  let content := group 1 m in
  let cells := map strip (split "|" content) in
  lit "|" ++ join (lit "|") cells ++ lit "|".

(** The second component of an entry of [self.patterns]: a template
    string or one of the methods above. *)
Inductive replacement : Type :=
| Template (t : list titem)
| Callable (f : captures -> str).

(** [self.patterns], in the insertion order of the dictionary. *)
Definition patterns : list (string * (re * replacement)) :=
  [ ("h2", (re_header (lit "##"), Template [TLit (lit "h2. "); TGrp 1]));
    ("h3", (re_header (lit "###"), Template [TLit (lit "h3. "); TGrp 1]));
    ("h4", (re_header (lit "####"), Template [TLit (lit "h4. "); TGrp 1]));
    ("h5", (re_header (lit "#####"), Template [TLit (lit "h5. "); TGrp 1]));
    ("h6", (re_header (lit "######"), Template [TLit (lit "h6. "); TGrp 1]));
    ("code_inline",
      (re_code_inline, Template [TLit (lit "{{"); TGrp 1; TLit (lit "}}")]));
    ("unordered_list",
      (re_unordered_list, Template [TLit (lit "* "); TGrp 1]));
    ("ordered_list", (re_ordered_list, Template [TLit (lit "# "); TGrp 1]));
    ("code_block", (re_code_block, Callable _convert_code_block));
    ("code_block_no_lang",
      (re_code_block_no_lang, Callable _convert_code_block_no_lang));
    ("link",
      (re_link, Template [TLit (lit "["); TGrp 1; TLit (lit "|"); TGrp 2;
                          TLit (lit "]")]));
    ("table_header", (re_table_cells, Callable _convert_table_header));
    ("table_separator", (re_table_separator, Template []));
    ("table_row", (re_table_cells, Callable _convert_table_row));
    ("hr", (re_hr, Template [TLit (lit "----")]));
    ("blockquote",
      (re_blockquote,
       Template [TLit (lit "{quote}"); TGrp 1; TLit (lit "{quote}")]));
    ("strikethrough",
      (re_strikethrough, Template [TLit (lit "-"); TGrp 1; TLit (lit "-")]))
  ]%string.

(** A dictionary from strings to strings in insertion order;
    [d[k] = v]. *)
Definition dict : Type := list (str * str).

Fixpoint dict_set (d : dict) (k v : str) : dict :=
  match d with
  | [] => [(k, v)]
  | (k', v') :: d' =>
      if eqb_str k k' then (k', v) :: d' else (k', v') :: dict_set d' k v
  end.

(** [_convert_table_line] *)
Definition _convert_table_line (line : str) : str :=
  let content := strip line in
  if startswith (lit "|") content && endswith (lit "|") content then
    let content := slice_1_m1 content in
    let cells := map strip (split "|" content) in
    if startswith (lit "||") (strip line) || contains (lit "||") line
    then lit "||" ++ join (lit "||") cells ++ lit "||"
    else lit "|" ++ join (lit "|") cells ++ lit "|"
  else line.

(** The state of the first loop of [_convert_line]. *)
Record placeholders : Type := mkPh {
  ph_text : str;        (* [converted] *)
  ph_dict : dict;       (* [emoticon_placeholders] / [bold_placeholders] *)
  ph_count : nat        (* [emoticon_count] / [bold_count] *)
}.

Definition emoticon_placeholder (n : nat) : str :=
  lit "__EMOTICON_PLACEHOLDER_" ++ str_of_nat n ++ lit "__".

Definition bold_placeholder (n : nat) : str :=
  lit "__BOLD_PLACEHOLDER_" ++ str_of_nat n ++ lit "__".

Definition emoticon_step (acc : placeholders) (emoticon : str)
  : placeholders :=
  if contains emoticon (ph_text acc) then
    let placeholder := emoticon_placeholder (ph_count acc) in
    let escaped := "\"%char :: emoticon in
    mkPh (replace emoticon placeholder (ph_text acc))
         (dict_set (ph_dict acc) placeholder escaped)
         (S (ph_count acc))
  else acc.

Definition bold_step (acc : placeholders) (m : captures) : placeholders :=
  let placeholder := bold_placeholder (ph_count acc) in
  mkPh (replace_first (group 0 m) placeholder (ph_text acc))
       (dict_set (ph_dict acc) placeholder
                 (lit "*" ++ group 1 m ++ lit "*"))
       (S (ph_count acc)).

(** [for placeholder, replacement in d.items():
       converted = converted.replace(placeholder, replacement)] *)
Definition restore (d : dict) (converted : str) : str :=
  fold_left (fun acc kv => replace (fst kv) (snd kv) acc) d converted.

Definition skipped_patterns : list string :=
  ["code_block"; "code_block_no_lang"; "table_header"; "table_row"]%string.

Definition apply_pattern (converted : str)
  (entry : string * (re * replacement)) : str :=
  let '(pattern_name, (pattern, repl)) := entry in
  if existsb (String.eqb pattern_name) skipped_patterns then converted
  else match repl with
       | Callable f => re_sub true pattern f converted
       | Template t => re_sub false pattern (expand t) converted
       end.

(** [_convert_line] *)
Definition _convert_line (line : str) : str :=
  let converted := line in
  (* emoticons first *)
  let sorted_emoticons := sorted_len_desc jira_emoticons in
  let e := fold_left emoticon_step sorted_emoticons (mkPh converted [] 0) in
  let converted := ph_text e in
  let emoticon_placeholders := ph_dict e in
  (* bold to placeholders; the matches are those of the string the loop
     started from *)
  let b := fold_left bold_step (re_finditer re_bold converted)
                     (mkPh converted [] 0) in
  let converted := ph_text b in
  let bold_placeholders := ph_dict b in
  (* italic *)
  let converted :=
    re_sub false re_italic (expand [TLit (lit "_"); TGrp 1; TLit (lit "_")])
           converted in
  let converted := restore bold_placeholders converted in
  (* the other patterns *)
  let converted := fold_left apply_pattern patterns converted in
  let converted := restore emoticon_placeholders converted in
  if startswith (lit "#*") (strip line) then converted else converted.

(** The tests on a stripped line that the list pass repeats. *)
Definition is_ordinal (stripped : str) : bool :=
  (startswith (lit "#") stripped && negb (startswith (lit "##") stripped))
  || re_match re_numbered stripped.

Definition starts_marker (stripped : str) : bool :=
  startswith (lit "*") stripped || startswith (lit "-") stripped
  || startswith (lit "+") stripped.

(** The inner [while j < len(lines)] of [_convert_lists_with_nesting]:
    returns [j], [converted_lines] and [found_hr_after_list]. *)
Fixpoint lookahead (fuel : nat) (lines : list str) (j : nat)
  (converted_lines : list str) : outcome (nat * list str * bool) :=
  match fuel with
  | O => OutOfFuel
  | S fuel' =>
      if j <? length lines then
        next_line <- index lines j ;;
        let next_stripped := strip next_line in
        if eqb_str next_stripped (lit "---") then
          Ok (j, converted_lines, true)
        else if starts_marker next_stripped
                || (startswith (lit "   ") next_line
                    && starts_marker next_stripped) then
          let indent_level := length next_line - length (lstrip next_line) in
          let sub_content :=
            if starts_marker next_stripped
            then strip (skipn 1 next_stripped)
            else strip (skipn 1 next_stripped) in
          let item :=
            if 6 <=? indent_level then lit "#** " ++ sub_content
            else lit "#* " ++ sub_content in
          lookahead fuel' lines (S j) (converted_lines ++ [item])
        else if is_ordinal next_stripped then
          Ok (j, converted_lines, false)
        else if eqb_str next_stripped [] then
          lookahead fuel' lines (S j) converted_lines
        else Ok (j, converted_lines, false)
      else Ok (j, converted_lines, false)
  end.

(** The outer [while i < len(lines)]. *)
Fixpoint lists_loop (fuel : nat) (lines : list str) (i : nat)
  (converted_lines : list str) : outcome (list str) :=
  match fuel with
  | O => OutOfFuel
  | S fuel' =>
      if i <? length lines then
        line <- index lines i ;;
        let stripped := strip line in
        if is_ordinal stripped then
          let converted_lines :=
            if startswith (lit "#") stripped then
              let content := strip (skipn 1 stripped) in
              converted_lines ++ [lit "# " ++ content]
            else
              let content := re_sub false re_numbered (expand []) stripped in
              converted_lines ++ [lit "# " ++ content] in
          r <- lookahead (S (length lines)) lines (i + 1) converted_lines ;;
          let '(j, converted_lines, found_hr_after_list) := r in
          let converted_lines :=
            if found_hr_after_list then converted_lines ++ [[]]
            else converted_lines in
          lists_loop fuel' lines j converted_lines
        else if re_match re_bullet line
                && negb (startswith (lit "---") stripped) then
          let indent_level := length line - length (lstrip line) in
          let content := strip (skipn 1 stripped) in
          if 2 <=? indent_level then
            lists_loop fuel' lines (i + 1)
                       (converted_lines ++ [lit "<<<JIRALIST2>>>" ++ content])
          else
            lists_loop fuel' lines (i + 1)
                       (converted_lines ++ [lit "* " ++ content])
        else lists_loop fuel' lines (i + 1) (converted_lines ++ [line])
      else Ok converted_lines
  end.

(** [_convert_lists_with_nesting] *)
Definition _convert_lists_with_nesting (lines : list str)
  : outcome (list str) :=
  lists_loop (S (length lines)) lines 0 [].

(** The state of the [for line in lines] loop of [convert_text]. *)
Record blocks : Type := mkBlocks {
  converted_lines : list str;
  in_code_block : bool;
  in_table : bool
}.

Definition emit (st : blocks) (l : str) : blocks :=
  mkBlocks (converted_lines st ++ [l]) (in_code_block st) (in_table st).

(** One iteration of that loop. *)
Definition block_step (st : blocks) (line : str) : blocks :=
  if startswith (lit "```") (strip line) then
    if negb (in_code_block st) then
      let lang := strip (skipn 3 (strip line)) in
      let opening :=
        match lang with
        | _ :: _ => lit "{code:" ++ lang ++ lit "}"
        | [] => lit "{code}"
        end in
      mkBlocks (converted_lines st ++ [opening]) true (in_table st)
    else
      mkBlocks (converted_lines st ++ [lit "{code}"]) false (in_table st)
  else if in_code_block st then emit st line
  else if contains (lit "|") line && startswith (lit "|") (strip line) then
    let st := if negb (in_table st)
              then mkBlocks (converted_lines st) (in_code_block st) true
              else st in
    if eqb_str (strip line) (lit "|")
       || re_match re_table_separator (strip line)
    then st
    else emit st (_convert_table_line line)
  else
    let st := if in_table st
              then mkBlocks (converted_lines st) (in_code_block st) false
              else st in
    emit st (_convert_line line).

(** [convert_text] *)
Definition convert_text (text : str) : outcome str :=
  let lines := split nl text in
  lines <- _convert_lists_with_nesting lines ;;
  let st := fold_left block_step lines (mkBlocks [] false false) in
  let final_result := join [nl] (converted_lines st) in
  Ok (replace (lit "<<<JIRALIST2>>>") (lit "** ") final_result).

(* ================================================================= *)
(** ** The list pass read as a two-mode scan

    The same control flow as the two indexed loops, written over the
    lines that remain: [norm false] is the outer loop at its cursor,
    [norm true] the look-ahead that follows an ordinal head. *)

(** What the outer loop appends for an ordinal head. *)
Definition ordinal_out (line : str) : str :=
  let stripped := strip line in
  if startswith (lit "#") stripped
  then lit "# " ++ strip (skipn 1 stripped)
  else lit "# " ++ re_sub false re_numbered (expand []) stripped.

(** What it appends for a bullet that no ordinal head owns. *)
Definition bullet_out (line : str) : str :=
  let indent_level := length line - length (lstrip line) in
  let content := strip (skipn 1 (strip line)) in
  if 2 <=? indent_level then lit "<<<JIRALIST2>>>" ++ content
  else lit "* " ++ content.

(** What the look-ahead appends for a sub-item. *)
Definition sub_item_out (next_line : str) : str :=
  let indent_level := length next_line - length (lstrip next_line) in
  let sub_content := strip (skipn 1 (strip next_line)) in
  if 6 <=? indent_level then lit "#** " ++ sub_content
  else lit "#* " ++ sub_content.

(** One iteration of the outer loop, given what follows in either mode. *)
Definition top (line : str) (after_head after_other : list str)
  : list str :=
  let stripped := strip line in
  if is_ordinal stripped then ordinal_out line :: after_head
  else if re_match re_bullet line && negb (startswith (lit "---") stripped)
  then bullet_out line :: after_other
  else line :: after_other.

Fixpoint norm (in_run : bool) (lines : list str) : list str :=
  match lines with
  | [] => []
  | line :: rest =>
      let here := top line (norm true rest) (norm false rest) in
      if in_run then
        let stripped := strip line in
        if eqb_str stripped (lit "---") then [] :: here
        else if starts_marker stripped
                || (startswith (lit "   ") line && starts_marker stripped)
        then sub_item_out line :: norm true rest
        else if is_ordinal stripped then here
        else if eqb_str stripped [] then norm true rest
        else here
      else here
  end.

(** The block loop and the final placeholder resolution of
    [convert_text], applied to the lines the list pass returned. *)
Definition finish (lines : list str) : str :=
  replace (lit "<<<JIRALIST2>>>") (lit "** ")
          (join [nl]
                (converted_lines
                   (fold_left block_step lines (mkBlocks [] false false)))).

(* ================================================================= *)
(** ** Vocabulary of the statements *)

(** A line that the look-ahead passes over or consumes: not the rule
    [---], and either blank or starting, once stripped, with a bullet
    marker. *)
Definition consumed (l : str) : bool :=
  negb (eqb_str (strip l) (lit "---"))
  && (starts_marker (strip l) || eqb_str (strip l) []).

(** What the look-ahead appends for a run of such lines. *)
Definition items_out (mid : list str) : list str :=
  flat_map (fun l => if starts_marker (strip l) then [sub_item_out l] else [])
           mid.

(** The mode in which the list pass leaves a line, given the mode in
    which it reads it: [true] while the look-ahead that follows an
    ordinal head is still open. *)
Definition next_mode (in_run : bool) (line : str) : bool :=
  let stripped := strip line in
  let here := is_ordinal stripped in
  if in_run then
    if eqb_str stripped (lit "---") then here
    else if starts_marker stripped
            || (startswith (lit "   ") line && starts_marker stripped)
    then true
    else if is_ordinal stripped then here
    else if eqb_str stripped [] then true
    else here
  else here.

(** The lines end inside the look-ahead of an ordinal head. *)
Definition in_run_after (lines : list str) : bool :=
  fold_left next_mode lines false.

(** Indentation of a sub-item: a number of spaces, or one tab. *)
Inductive indent : Type :=
| Spaces (n : nat)
| OneTab.

Definition indent_str (i : indent) : str :=
  match i with
  | Spaces n => repeat " "%char n
  | OneTab => ["009"%char]
  end.

(** The depth marker that goes with an indentation. *)
Definition tier (i : indent) : str :=
  match i with
  | Spaces n => if n <? 6 then lit "#* " else lit "#** "
  | OneTab => lit "#* "
  end.

(** A sub-item line: indentation, bullet marker, the rest of the line. *)
Record sub_item : Type := mkSub {
  si_indent : indent;
  si_marker : ascii;
  si_body : str
}.

Definition sub_item_line (x : sub_item) : str :=
  indent_str (si_indent x) ++ si_marker x :: si_body x.

Definition sub_item_ok (x : sub_item) : bool :=
  one_of (lit "-*+") (si_marker x)
  && negb (eqb_str (si_marker x :: rstrip (si_body x)) (lit "---")).

(** The lines after an ordinal head: blank lines (white space only) and
    sub-items. *)
Definition entry : Type := (str + sub_item)%type.

Definition entry_ok (e : entry) : bool :=
  match e with
  | inl ws => forallb isspace ws
  | inr x => sub_item_ok x
  end.

Definition entry_line (e : entry) : str :=
  match e with
  | inl ws => ws
  | inr x => sub_item_line x
  end.

Definition entry_out (e : entry) : list str :=
  match e with
  | inl _ => []
  | inr x => [tier (si_indent x) ++ strip (si_body x)]
  end.

(** Characters on which no inline rule can start: none of [(], [*], the
    backtick, [[], [~], and not a newline. *)
Definition inline_free (c : ascii) : bool :=
  none_of (lit "(*`[~" ++ [nl]) c.

(** A first character on which no list, block or start-anchored rule can
    start: not white space, not a digit, none of [#], [-], [+], [|],
    [>]. *)
Definition neutral_start (c : ascii) : bool :=
  negb (isspace c) && negb (cls_d c) && none_of (lit "#-+|>") c.

(** A line that no rule of the converter reacts to. *)
Definition plain_line (l : str) : bool :=
  match l with
  | [] => true
  | c :: _ => neutral_start c
  end && forallb inline_free l.

(** [c not in s] *)
Definition absent (c : ascii) (s : str) : bool :=
  forallb (fun x => negb (Ascii.eqb x c)) s.

(** The pattern has to read the character [c] first. *)
Fixpoint first_chr (c : ascii) (r : re) : bool :=
  match r with
  | Chr c' => Ascii.eqb c' c
  | Seq r1 _ => first_chr c r1
  | Grp _ r1 => first_chr c r1
  | _ => false
  end.

(** A line that neither the list pass nor the block loop classifies: it
    is empty, or its first character is neutral and neither [*] nor a
    backtick. *)
Definition neutral_line (l : str) : bool :=
  match l with
  | [] => true
  | c :: _ => neutral_start c && none_of (lit "*`") c
  end.

(** The prefix of a converted header of level [n]. *)
Definition header_prefix (n : nat) : str :=
  lit "h" ++ str_of_nat n ++ lit ". ".

(** A parenthesised token: [(], a body without parentheses, [)]. *)
Definition token_shaped (e : str) : bool :=
  match e with
  | [] => false
  | c :: r =>
      Ascii.eqb c "("
      && match r with [] => false | _ :: _ => true end
      && Ascii.eqb (last r " "%char) ")"
      && absent "(" (removelast r) && absent ")" (removelast r)
  end.

(** The pattern can match the empty string. *)
Fixpoint nullable (r : re) : bool :=
  match r with
  | Eps | Bol | Eol | NegLook _ => true
  | Chr _ | Cls _ => false
  | Seq r1 r2 => nullable r1 && nullable r2
  | Alt r1 r2 => nullable r1 || nullable r2
  | Rep _ lo _ => lo =? 0
  | Grp _ r1 => nullable r1
  end.

(** A line cut into pieces: characters of plain text and tokens of the
    catalogue; on the way through [_convert_line] a token is held by a
    placeholder and comes back escaped. *)
Inductive piece : Type :=
| Txt (c : ascii)
| Tok (e : str)
| Hold (k : nat)
| Esc (e : str).

Definition render_piece (p : piece) : str :=
  match p with
  | Txt c => [c]
  | Tok e => e
  | Hold k => emoticon_placeholder k
  | Esc e => "\"%char :: e
  end.

Definition render (ps : list piece) : str := flat_map render_piece ps.

(** The same line with a backslash in front of every token. *)
Definition escape (p : piece) : piece :=
  match p with
  | Tok e => Esc e
  | _ => p
  end.

(** A character of plain text next to tokens: no inline rule starts on
    it, and it is neither an underscore nor [<]. *)
Definition char_context (c : ascii) : bool :=
  inline_free c && negb (Ascii.eqb c "_") && negb (Ascii.eqb c "<").

Definition in_catalogue (e : str) : bool :=
  existsb (eqb_str e) jira_emoticons.

(** The pieces of an input line. *)
Definition input_piece (p : piece) : bool :=
  match p with
  | Txt c => char_context c
  | Tok e => in_catalogue e
  | Hold _ | Esc _ => false
  end.

(** The pieces of a line at any stage. *)
Definition good (p : piece) : bool :=
  match p with
  | Txt c => char_context c
  | Tok e | Esc e => in_catalogue e
  | Hold _ => true
  end.

Definition no_tok (p : piece) : bool :=
  match p with Tok _ => false | _ => true end.

Definition no_esc (p : piece) : bool :=
  match p with Esc _ => false | _ => true end.

(** The first loop of [_convert_line] on pieces: the token [e] goes to
    the placeholder number [n]. *)
Definition swap (e : str) (n : nat) (p : piece) : piece :=
  match p with
  | Tok t => if eqb_str e t then Hold n else p
  | _ => p
  end.

Definition has_tok (e : str) (ps : list piece) : bool :=
  existsb (fun p => match p with Tok t => eqb_str e t | _ => false end) ps.

Definition alloc (st : list piece * list str) (e : str)
  : list piece * list str :=
  if has_tok e (fst st)
  then (map (swap e (length (snd st))) (fst st), snd st ++ [e])
  else st.

(** [emoticon_placeholders] after the tokens [es] were found, in that
    order, counting from [k]. *)
Fixpoint dict_from (k : nat) (es : list str) : dict :=
  match es with
  | [] => []
  | e :: es' => (emoticon_placeholder k, "\"%char :: e) :: dict_from (S k) es'
  end.

(** The last loop of [_convert_line] on pieces. *)
Definition fill (k : nat) (e : str) (p : piece) : piece :=
  match p with
  | Hold j => if j =? k then Esc e else p
  | _ => p
  end.

Fixpoint fill_from (k : nat) (es : list str) (ps : list piece)
  : list piece :=
  match es with
  | [] => ps
  | e :: es' => fill_from (S k) es' (map (fill k e) ps)
  end.

(** What a piece of the line stands for, given the tokens found. *)
Inductive stands_for (es : list str) : piece -> piece -> Prop :=
| sf_txt c : stands_for es (Txt c) (Txt c)
| sf_tok e : stands_for es (Tok e) (Tok e)
| sf_hold e k : nth_error es k = Some e -> stands_for es (Tok e) (Hold k).

(** Every token that is still in the line is one of [L]. *)
Definition tok_in (L : list str) (p : piece) : bool :=
  match p with
  | Tok t => existsb (fun e => eqb_str e t) L
  | _ => true
  end.

(** What a piece has become once the placeholders numbered from [k] on
    have been restored. *)
Definition resolve (k : nat) (es : list str) (p : piece) : piece :=
  match p with
  | Hold j =>
      if k <=? j then
        match nth_error es (j - k) with
        | Some e => Esc e
        | None => p
        end
      else p
  | _ => p
  end.

(** *** Lines inside a document *)





(* ================================================================= *)
(** ** [CursorToJiraConverter]: the emoticon helper and the extraction
       of the Markdown from the clipboard HTML *)

(** [_escape_jira_emoticons] *)
Definition _escape_jira_emoticons (text : str) : str :=
  let sorted_emoticons := sorted_len_desc jira_emoticons in
  fold_left (fun text emoticon =>
               let escaped := "\"%char :: emoticon in
               replace emoticon escaped text)
            sorted_emoticons text.

(** *** The regular-expression fallbacks of the HTML extraction *)

(** The double quote. *)
Definition dq : ascii := "034"%char.

(** [.] under [re.DOTALL] *)
Definition cls_any (c : ascii) : bool := true.

(** The name of the attribute, the equals sign and the opening quote. *)
Definition attr_open : str := lit "data-markdown-raw=" ++ [dq].

(** The pattern of a [data-markdown-raw] attribute: the name, the equals
    sign, and between double quotes the longest text without a double
    quote, which is group 1. *)
Definition re_markdown_raw : re :=
  seqs [lits attr_open; Grp 1 (Rep true 0 (none_of [dq])); Chr dq].

(** [[1-6]] *)
Definition cls_level : ascii -> bool := one_of (lit "123456").

(** [<h([1-6])[^>]*>(.*?)</h[1-6]>] *)
Definition re_html_header : re :=
  seqs [lits (lit "<h"); Grp 1 (Cls cls_level);
        Rep true 0 (none_of (lit ">")); Chr ">";
        Grp 2 (Rep false 0 cls_any);
        lits (lit "</h"); Cls cls_level; Chr ">"].

(** [<[^>]+>] *)
Definition re_tag : re :=
  seqs [Chr "<"; Rep true 1 (none_of (lit ">")); Chr ">"].

(** The chain of [replace] calls that decodes [&quot;], [&lt;], [&gt;] and
    [&amp;], in this order. *)
Definition decode_entities (s : str) : str :=
  replace (lit "&amp;") (lit "&")
    (replace (lit "&gt;") (lit ">")
       (replace (lit "&lt;") (lit "<")
          (replace (lit "&quot;") [dq] s))).

(** The same chain followed by [.replace('&#10;', '\n')], as it is applied
    to a [data-markdown-raw] value. *)
Definition decode_raw (s : str) : str :=
  replace (lit "&#10;") [nl] (decode_entities s).

(** [int(s)] for a string of decimal digits. *)
Definition int_of_str (s : str) : nat :=
  fold_left (fun n c => 10 * n + (nat_of_ascii c - 48)) s 0.

(** The separator ['\n\n'] of the extracted sections. *)
Definition blank_line : str := [nl; nl].

(** [_extract_text_from_html_regex]; the [print] calls write to the
    standard output and do not take part in the result. *)
Definition _extract_text_from_html_regex (html_content : str) : str :=
  let headers :=
    map (fun m => (group 1 m, group 2 m))
        (re_finditer re_html_header html_content) in
  let markdown_parts :=
    flat_map
      (fun lc : str * str =>
         let (level, content) := lc in
         let clean_content := re_sub false re_tag (expand []) content in
         let clean_content := decode_entities clean_content in
         let clean_content := strip clean_content in
         match clean_content with
         | _ :: _ =>
             if contains (lit "font-weight: 600") content
                || contains (lit "markdown-bold-text") content
             then [repeat "#"%char (int_of_str level) ++ lit " **"
                          ++ clean_content ++ lit "**"]
             else [repeat "#"%char (int_of_str level) ++ lit " "
                          ++ clean_content]
         | [] => []
         end)
      headers in
  join blank_line markdown_parts.

(** [_extract_markdown_with_regex] *)
Definition _extract_markdown_with_regex (html_content : str) : str :=
  let matches := map (group 1) (re_finditer re_markdown_raw html_content) in
  let markdown_sections :=
    flat_map
      (fun m : str =>
         let cleaned := decode_raw m in
         match strip cleaned with
         | _ :: _ => [strip cleaned]
         | [] => []
         end)
      matches in
  let result := join blank_line markdown_sections in
  match result with
  | [] => _extract_text_from_html_regex html_content
  | _ :: _ => result
  end.

(** *** The extraction from an element tree *)

(** An element of [xml.etree.ElementTree]: its tag, its attributes, the
    text before its first child, its children, and the text that follows
    it inside its parent.  A text that is [None] is written as the empty
    string; [itertext] passes over both. *)
#[warnings="-register-all"] Inductive Element : Type :=
| mkElement (tag : str) (attrib : list (str * str)) (text : str)
            (children : list Element) (tail : str).

Definition tag (e : Element) : str :=
  match e with mkElement t _ _ _ _ => t end.
Definition attrib (e : Element) : list (str * str) :=
  match e with mkElement _ a _ _ _ => a end.
Definition text (e : Element) : str :=
  match e with mkElement _ _ t _ _ => t end.
Definition children (e : Element) : list Element :=
  match e with mkElement _ _ _ cs _ => cs end.
Definition tail (e : Element) : str :=
  match e with mkElement _ _ _ _ t => t end.

(** [elem.iter()]: the element and its descendants, in document order. *)
Fixpoint iter (e : Element) : list Element :=
  e :: match e with mkElement _ _ _ cs _ => flat_map iter cs end.

(** A text, when it is not empty. *)
Definition some_text (t : str) : list str :=
  match t with
  | [] => []
  | _ :: _ => [t]
  end.

(** [elem.itertext()] *)
Fixpoint itertext (e : Element) : list str :=
  match e with
  | mkElement _ _ t cs _ =>
      some_text t
      ++ flat_map (fun c => itertext c ++ some_text (tail c)) cs
  end.

(** [elem.findall('.//' + name)]: the descendants with that tag. *)
Definition findall_descendants (name : str) (e : Element) : list Element :=
  filter (fun d => eqb_str (tag d) name) (flat_map iter (children e)).

(** [d.get(key)] on the attributes, [None] when the key is missing. *)
Definition attrib_lookup (key : str) (e : Element) : option str :=
  option_map snd (find (fun kv => eqb_str (fst kv) key) (attrib e)).

(** [elem.get(key, default)] *)
Definition get (e : Element) (key default : str) : str :=
  match attrib_lookup key e with
  | Some v => v
  | None => default
  end.

(** [x in xs] for a list of strings. *)
Definition among (xs : list string) (x : str) : bool :=
  existsb (fun y => eqb_str x (lit y)) xs.

(** [''.join(elem.itertext()).strip()] *)
Definition stripped_text (e : Element) : str := strip (concat (itertext e)).

(** [_convert_html_to_markdown_inline] *)
Definition _convert_html_to_markdown_inline (elem : Element) : str :=
  let all_text := stripped_text elem in
  match all_text with
  | _ :: _ =>
      let has_bold :=
        existsb
          (fun child =>
             among ["strong"; "b"]%string (tag child)
             || contains (lit "bold") (get child (lit "class") [])
             || contains (lit "font-weight: 600") (get child (lit "style") [])
             || contains (lit "font-weight:600") (get child (lit "style") []))
          (iter elem) in
      if has_bold then lit "**" ++ all_text ++ lit "**" else all_text
  | [] => []
  end.

(** What one element adds to [markdown_parts] when its text, stripped, is
    not empty. *)
Definition when_text (e : Element) (part : str -> str) : list str :=
  match stripped_text e with
  | [] => []
  | t => [part t]
  end.

(** One iteration of the loop of [_extract_text_to_markdown]: what the
    element adds to [markdown_parts]. *)
Definition markdown_parts_of (elem : Element) : list str :=
  if among ["script"; "style"; "head"]%string (tag elem) then []
  else if among ["h1"; "h2"; "h3"; "h4"; "h5"; "h6"]%string (tag elem) then
    let header_content := _convert_html_to_markdown_inline elem in
    let header_level := firstn 1 (skipn 1 (tag elem)) in
    match header_content with
    | _ :: _ =>
        [repeat "#"%char (int_of_str header_level) ++ lit " "
                ++ header_content]
    | [] => []
    end
  else if eqb_str (tag elem) (lit "p") then when_text elem (fun text => text)
  else if eqb_str (tag elem) (lit "strong") || eqb_str (tag elem) (lit "b")
  then when_text elem (fun text => lit "**" ++ text ++ lit "**")
  else if eqb_str (tag elem) (lit "em") || eqb_str (tag elem) (lit "i")
  then when_text elem (fun text => lit "*" ++ text ++ lit "*")
  else if eqb_str (tag elem) (lit "code")
  then when_text elem (fun text => lit "`" ++ text ++ lit "`")
  else if eqb_str (tag elem) (lit "ul") then
    flat_map (fun li => when_text li (fun text => lit "- " ++ text))
             (findall_descendants (lit "li") elem)
  else if eqb_str (tag elem) (lit "ol") then
    let items := findall_descendants (lit "li") elem in
    flat_map (fun ili : nat * Element =>
                let (i, li) := ili in
                when_text li (fun text => str_of_nat i ++ lit ". " ++ text))
             (combine (seq 1 (length items)) items)
  else if eqb_str (tag elem) (lit "blockquote")
  then when_text elem (fun text => lit "> " ++ text)
  else if eqb_str (tag elem) (lit "a") then
    let href := get elem (lit "href") [] in
    when_text elem
              (fun text =>
                 match href with
                 | _ :: _ => lit "[" ++ text ++ lit "](" ++ href ++ lit ")"
                 | [] => text
                 end)
  else [].

(** [_extract_text_to_markdown] *)
Definition _extract_text_to_markdown (root : Element) : str :=
  join blank_line (flat_map markdown_parts_of (iter root)).

(** [s.find(old)], [None] standing for [-1]. *)
Fixpoint str_find (old s : str) : option nat :=
  if startswith old s then Some 0
  else match s with
       | [] => None
       | _ :: s' => option_map S (str_find old s')
       end.

(** The entities replaced in the whole text before it is parsed. *)
Definition fix_entities (s : str) : str :=
  replace (lit "&apos;") (lit "'")
          (replace (lit "&#39;") (lit "'") (decode_entities s)).

(** [extract_markdown_from_html].  [ET.fromstring] is a parameter: it
    returns the root of the tree, or [None] when it raises
    [ParseError]. *)
Definition extract_markdown_from_html (fromstring : str -> option Element)
  (html_content : str) : str :=
  let html_content :=
    if startswith (lit "Version:") html_content then
      match str_find (lit "<html>") html_content with
      | Some html_start => skipn html_start html_content
      | None => html_content
      end
    else html_content in
  let html_content_fixed := fix_entities html_content in
  match fromstring html_content_fixed with
  | Some root =>
      let markdown_sections :=
        flat_map
          (fun elem =>
             match attrib_lookup (lit "data-markdown-raw") elem with
             | Some raw_markdown =>
                 let cleaned := decode_raw raw_markdown in
                 match strip cleaned with
                 | _ :: _ => [strip cleaned]
                 | [] => []
                 end
             | None => []
             end)
          (iter root) in
      match markdown_sections with
      | [] => _extract_text_to_markdown root
      | _ :: _ => join blank_line markdown_sections
      end
  | None => _extract_markdown_with_regex html_content
  end.

(** [convert_raw_html] *)
Definition convert_raw_html (fromstring : str -> option Element)
  (html_content : str) : outcome str :=
  let markdown := extract_markdown_from_html fromstring html_content in
  convert_text markdown.

(* ================================================================= *)
(** ** Vocabulary of the properties beyond the specification *)

(** A table separator row, as the block loop of [convert_text] tests
    it. *)
Definition separator_row (line : str) : bool :=
  contains (lit "|") line && startswith (lit "|") (strip line)
  && (eqb_str (strip line) (lit "|")
      || re_match re_table_separator (strip line)).

(** A line that [convert_text] reads without looking at its neighbours:
    no ordered-list item, no fence delimiter, no separator row. *)
Definition self_contained (l : str) : bool :=
  absent nl l && negb (is_ordinal (strip l))
  && negb (startswith (lit "```") (strip l)) && negb (separator_row l).

(** A condition on the first character of a text, if it has one. *)
Definition head_is (p : ascii -> bool) (l : str) : bool :=
  match l with
  | [] => true
  | c :: _ => p c
  end.

Definition not_chr (k c : ascii) : bool := negb (Ascii.eqb c k).
Definition not_space (c : ascii) : bool := negb (isspace c).

(** A condition under which the pattern of [self.patterns] with the given
    name finds nothing in [l]: the text does not begin the way a pattern
    anchored at the start needs (for the two list patterns, after its
    leading white space), or it lacks the character an inline pattern
    starts with. *)
Definition quiet (l : str) (pattern_name : string) : bool :=
  if String.eqb pattern_name "h2" then negb (startswith (lit "## ") l)
  else if String.eqb pattern_name "h3" then negb (startswith (lit "### ") l)
  else if String.eqb pattern_name "h4" then negb (startswith (lit "#### ") l)
  else if String.eqb pattern_name "h5" then negb (startswith (lit "##### ") l)
  else if String.eqb pattern_name "h6" then
    negb (startswith (lit "###### ") l)
  else if String.eqb pattern_name "code_inline" then absent "`" l
  else if String.eqb pattern_name "unordered_list" then
    match lstrip l with
    | [] => true
    | c :: s => negb (one_of (lit "-*+") c) || head_is not_space s
    end
  else if String.eqb pattern_name "ordered_list" then
    head_is (fun c => negb (cls_d c)) (lstrip l)
  else if existsb (String.eqb pattern_name) skipped_patterns then true
  else if String.eqb pattern_name "link" then absent "[" l
  else if String.eqb pattern_name "table_separator" then
    head_is (not_chr "|") l
  else if String.eqb pattern_name "hr" then
    negb (eqb_str l (lit "---")) && negb (eqb_str l (lit "---" ++ [nl]))
  else if String.eqb pattern_name "blockquote" then head_is (not_chr ">") l
  else if String.eqb pattern_name "strikethrough" then absent "~" l
  else false.

(** The matcher's first run of [r] from a cursor ends with [s'] left to
    read and the groups [caps']: this is the match Python reports. *)
Definition first_run (ml : bool) (r : re) (prev : option ascii) (s : str)
  (caps : captures) (s' : str) (caps' : captures) : Prop :=
  exists pv more, ms ml r prev s caps = (pv, s', caps') :: more.

(** The marker that [convert_text] gives a bullet that no ordered item
    owns: the second level from two columns of indentation on, whatever
    the depth. *)
Definition bullet_tier (i : indent) : str :=
  match i with
  | Spaces n => if n <? 2 then lit "* " else lit "** "
  | OneTab => lit "* "
  end.

(** A line that the list pass hands on as it is and that neither opens
    nor closes a fence, without the list placeholder in it. *)
Definition fence_safe (l : str) : bool :=
  absent nl l && negb (is_ordinal (strip l)) && negb (re_match re_bullet l)
  && negb (startswith (lit "```") (strip l))
  && negb (contains (lit "<<<JIRALIST2>>>") l).

(** The line that opens a Jira code block for a language tag. *)
Definition fence_open (lang : str) : str :=
  match lang with
  | _ :: _ => lit "{code:" ++ lang ++ lit "}"
  | [] => lit "{code}"
  end.

(** One of the strings [es] starts at the beginning of [s]. *)
Definition token_at (es : list str) (s : str) : bool :=
  existsb (fun e => startswith e s) es.

(** The text [s] with a backslash put in front of every place where one
    of the strings [es] starts. *)
Fixpoint mark_tokens (es : list str) (s : str) : str :=
  match s with
  | [] => []
  | c :: s' =>
      if token_at es s then "\"%char :: c :: mark_tokens es s'
      else c :: mark_tokens es s'
  end.

(** A token with no backslash in it. *)
Definition token_like (e : str) : bool :=
  token_shaped e && absent "\" e.

(** *** Texts cut at their attributes and headers *)

(** An attribute [data-markdown-raw] with its value, and the text that
    follows it up to the next such attribute. *)
Definition raw_section (vj : str * str) : str :=
  attr_open ++ fst vj ++ dq :: snd vj.

(** The sections that the extraction keeps: decoded, stripped, not
    empty. *)
Definition kept_sections (values : list str) : list str :=
  filter (fun t => negb (eqb_str t []))
         (map (fun v => strip (decode_raw v)) values).

(** No proper end of [p] is also a beginning of [p]. *)
Definition unbordered (p : str) : bool :=
  forallb (fun j => negb (startswith (skipn j p) p)) (seq 1 (length p - 1)).
(** The usual escaping of a text for HTML, which the decoding chains
    undo. *)
Definition escape_char (c : ascii) : str :=
  if Ascii.eqb c "&" then lit "&amp;"
  else if Ascii.eqb c "<" then lit "&lt;"
  else if Ascii.eqb c ">" then lit "&gt;"
  else if Ascii.eqb c dq then lit "&quot;"
  else [c].

Definition escape_entities (s : str) : str := flat_map escape_char s.

(** The escaping of an attribute value, where a line break is written as
    a character reference. *)
Definition escape_raw (s : str) : str :=
  flat_map (fun c => if Ascii.eqb c nl then lit "&#10;" else escape_char c) s.

(** The characters of [cs] written as entities, the others as they are. *)
Definition entity (c : ascii) : str :=
  if Ascii.eqb c "&" then lit "&amp;"
  else if Ascii.eqb c "<" then lit "&lt;"
  else if Ascii.eqb c ">" then lit "&gt;"
  else if Ascii.eqb c dq then lit "&quot;"
  else if Ascii.eqb c nl then lit "&#10;"
  else [c].

Definition escape_only (cs : str) (c : ascii) : str :=
  if one_of cs c then entity c else [c].
(** A header element of an HTML text: [<hN attrs>body</hM>], and the text
    that follows it up to the next one. *)
Record header_elem : Type := mkHeader {
  h_level : nat;
  h_attrs : str;
  h_body : str;
  h_close : nat;
  h_after : str
}.

Definition level_digit (n : nat) : ascii := ascii_of_nat (48 + n).

Definition header_html (h : header_elem) : str :=
  lit "<h" ++ level_digit (h_level h) :: h_attrs h ++ ">"%char :: h_body h
  ++ lit "</h" ++ level_digit (h_close h) :: ">"%char :: h_after h.

(** The text begins with [<h] and a level from 1 to 6. *)
Definition opens_header (s : str) : bool :=
  match s with
  | a :: b :: d :: _ => Ascii.eqb a "<" && Ascii.eqb b "h" && cls_level d
  | _ => false
  end.

(** No header opens anywhere in the text. *)
Fixpoint header_free (s : str) : bool :=
  match s with
  | [] => true
  | _ :: s' => negb (opens_header s) && header_free s'
  end.

Definition is_level (n : nat) : bool := (1 <=? n) && (n <=? 6).

Definition well_formed_header (h : header_elem) : bool :=
  is_level (h_level h) && is_level (h_close h)
  && absent ">" (h_attrs h) && negb (contains (lit "</h") (h_body h))
  && header_free (h_after h).

(** The text of a header: its body without the tags, decoded and
    stripped. *)
Definition header_text (h : header_elem) : str :=
  strip (decode_entities (re_sub false re_tag (expand []) (h_body h))).

Definition header_is_bold (h : header_elem) : bool :=
  contains (lit "font-weight: 600") (h_body h)
  || contains (lit "markdown-bold-text") (h_body h).

(** The Markdown line of a header; none when its text is empty. *)
Definition header_markdown (h : header_elem) : list str :=
  match header_text h with
  | [] => []
  | t =>
      [repeat "#"%char (h_level h)
       ++ (if header_is_bold h then lit " **" ++ t ++ lit "**"
           else lit " " ++ t)]
  end.

(** The content of an element: escaped texts, each followed by a tag,
    and a last escaped text. *)
Definition marked_up (segs : list (str * str)) (last : str) : str :=
  flat_map (fun seg : str * str =>
              escape_entities (fst seg) ++ "<"%char :: snd seg ++ [">"%char])
           segs
  ++ escape_entities last.

(** The inside of a tag: not empty, without [>]. *)
Definition tag_inside (t : str) : bool :=
  negb (eqb_str t []) && absent ">" t.

(** *** Trees of leaves *)

(** An element without children. *)
Definition leaf (name : string) (x : list (str * str) * str * str)
  : Element :=
  let '(a, t, tl) := x in mkElement (lit name) a t [] tl.

(** The text of a leaf, stripped. *)
Definition leaf_text (x : list (str * str) * str * str) : str :=
  strip (snd (fst x)).

(** A text on which no inline rule of the conversion can start. *)
Definition item_text (c : str) : bool :=
  forallb inline_free c && absent "<" c.

Definition nonblank (c : str) : bool := negb (eqb_str c []).

(** A heading of level [n] without children. *)
Definition heading (n : nat) (x : list (str * str) * str * str) : Element :=
  let '(a, t, tl) := x in mkElement ["h"%char; level_digit n] a t [] tl.

(** The class or the style of the element mentions a bold face. *)
Definition bold_styled (e : Element) : bool :=
  contains (lit "bold") (get e (lit "class") [])
  || contains (lit "font-weight: 600") (get e (lit "style") [])
  || contains (lit "font-weight:600") (get e (lit "style") []).

(** The inline elements that the extraction handles, with the tag and
    the Markdown marker of each. *)
Inductive inline_kind : Type := Strong | Bold | Em | Italic | Code.

Definition kind_tag (k : inline_kind) : string :=
  match k with
  | Strong => "strong" | Bold => "b" | Em => "em" | Italic => "i"
  | Code => "code"
  end.

Definition kind_mark (k : inline_kind) : str :=
  match k with
  | Strong | Bold => lit "**"
  | Em | Italic => lit "*"
  | Code => lit "`"
  end.

Definition inline_leaf (kx : inline_kind * (list (str * str) * str * str))
  : Element :=
  leaf (kind_tag (fst kx)) (snd kx).

(** The text of a leaf and the text that follows it. *)
Definition leaf_run (x : list (str * str) * str * str) : str :=
  snd (fst x) ++ snd x.

(** The tags for which the loop of [_extract_text_to_markdown] has a
    branch that adds something. *)
Definition handled_tag (tg : str) : bool :=
  among ["h1"; "h2"; "h3"; "h4"; "h5"; "h6"; "p"; "strong"; "b"; "em"; "i";
         "code"; "ul"; "ol"; "blockquote"; "a"]%string tg.

(* ================================================================= *)
(** * Properties *)

(** ** Lists and indices *)

Lemma index_skipn {A} (xs : list A) (i : nat) :
  i < length xs ->
  exists x, index xs i = Ok x /\ skipn i xs = x :: skipn (S i) xs.
Proof.
  revert i. induction xs as [|a xs IH]; intros i Hi; simpl in Hi.
  - lia.
  - destruct i as [|i].
    + exists a. split; reflexivity.
    + destruct (IH i) as [x [H1 H2]]; [lia|].
      exists x. split.
      * unfold index in *. simpl. exact H1.
      * simpl. exact H2.
Qed.

Lemma skipn_past {A} (xs : list A) (i : nat) :
  length xs <= i -> skipn i xs = [].
Proof. intros H. apply skipn_all2. exact H. Qed.

(** ** The indexed loops compute the two-mode scan *)

Lemma lookahead_norm (lines : list str) :
  forall fuel j out,
    length lines - j < fuel ->
    exists j' out',
      (exists hr,
          lookahead fuel lines j out = Ok (j', out', hr)
          /\ out ++ norm true (skipn j lines)
             = (if hr then out' ++ [[]] else out')
               ++ norm false (skipn j' lines))
      /\ j <= j'.
Proof.
  induction fuel as [|fuel IH]; intros j out Hf; [lia|].
  cbn [lookahead].
  destruct (j <? length lines) eqn:Hj.
  - apply Nat.ltb_lt in Hj.
    destruct (index_skipn lines j Hj) as [l [Hl Hs]].
    rewrite Hl. cbn [bind]. rewrite Hs. cbn [norm].
    destruct (eqb_str (strip l) (lit "---")) eqn:Hhr.
    { exists j, out. split; [exists true|lia].
      split; [reflexivity|]. rewrite Hs. cbn [norm].
      rewrite <- app_assoc. reflexivity. }
    destruct (starts_marker (strip l)
              || startswith (lit "   ") l && starts_marker (strip l)) eqn:Hm.
    { destruct (IH (S j) (out ++ [sub_item_out l])) as [j' [out' [[hr [E1 E2]] Hle]]];
        [lia|].
      exists j', out'. split; [exists hr|lia].
      split.
      - rewrite <- E1. unfold sub_item_out.
        destruct (starts_marker (strip l)); reflexivity.
      - rewrite <- E2. rewrite <- app_assoc. reflexivity. }
    destruct (is_ordinal (strip l)) eqn:Ho.
    { exists j, out. split; [exists false|lia].
      split; [reflexivity|]. rewrite Hs. reflexivity. }
    destruct (eqb_str (strip l) []) eqn:He.
    { destruct (IH (S j) out) as [j' [out' [[hr [E1 E2]] Hle]]]; [lia|].
      exists j', out'. split; [exists hr|lia]. split; assumption. }
    exists j, out. split; [exists false|lia].
    split; [reflexivity|]. rewrite Hs. reflexivity.
  - apply Nat.ltb_ge in Hj.
    exists j, out. split; [exists false|lia].
    split; [reflexivity|].
    rewrite (skipn_past lines j Hj). reflexivity.
Qed.

Lemma lists_loop_norm (lines : list str) :
  forall fuel i out,
    length lines - i < fuel ->
    lists_loop fuel lines i out = Ok (out ++ norm false (skipn i lines)).
Proof.
  induction fuel as [|fuel IH]; intros i out Hf; [lia|].
  cbn [lists_loop].
  destruct (i <? length lines) eqn:Hi.
  - apply Nat.ltb_lt in Hi.
    destruct (index_skipn lines i Hi) as [l [Hl Hs]].
    rewrite Hl. cbn [bind]. rewrite Hs. cbn [norm]. unfold top.
    replace (i + 1) with (S i) by lia.
    destruct (is_ordinal (strip l)) eqn:Ho.
    + set (out1 := if startswith (lit "#") (strip l)
                   then out ++ [lit "# " ++ strip (skipn 1 (strip l))]
                   else out ++ [lit "# " ++ re_sub false re_numbered
                                                  (expand []) (strip l)]).
      assert (Hout1 : out1 = out ++ [ordinal_out l]).
      { unfold out1, ordinal_out.
        destruct (startswith (lit "#") (strip l)); reflexivity. }
      destruct (lookahead_norm lines (S (length lines)) (S i) out1)
        as [j' [out' [[hr [E1 E2]] Hle]]]; [lia|].
      rewrite E1. cbn [bind].
      rewrite IH by lia.
      rewrite <- E2, Hout1, <- app_assoc. reflexivity.
    + destruct (re_match re_bullet l
                && negb (startswith (lit "---") (strip l))) eqn:Hb.
      * unfold bullet_out.
        destruct (2 <=? length l - length (lstrip l));
          rewrite IH by lia; rewrite <- app_assoc; reflexivity.
      * rewrite IH by lia. rewrite <- app_assoc. reflexivity.
  - apply Nat.ltb_ge in Hi.
    rewrite (skipn_past lines i Hi). rewrite app_nil_r. reflexivity.
Qed.

(** [_convert_lists_with_nesting] returns, and returns the scan. *)
Lemma convert_lists_norm (lines : list str) :
  _convert_lists_with_nesting lines = Ok (norm false lines).
Proof.
  unfold _convert_lists_with_nesting.
  rewrite lists_loop_norm by lia. reflexivity.
Qed.

Lemma convert_text_finish (text : str) :
  convert_text text = Ok (finish (norm false (split nl text))).
Proof.
  unfold convert_text. rewrite convert_lists_norm. reflexivity.
Qed.

(** ** Strings *)

Lemma eqb_str_eq (a b : str) : eqb_str a b = true <-> a = b.
Proof.
  revert b. induction a as [|x a IH]; intros [|y b]; simpl;
    try (split; [discriminate|discriminate]); try tauto.
  rewrite andb_true_iff, Ascii.eqb_eq, IH.
  split; [intros [-> ->]; reflexivity|intros H; inversion H; auto].
Qed.

Lemma eqb_str_refl (a : str) : eqb_str a a = true.
Proof. apply eqb_str_eq. reflexivity. Qed.

Lemma eqb_str_neq (a b : str) : eqb_str a b = false <-> a <> b.
Proof.
  rewrite <- eqb_str_eq. destruct (eqb_str a b); split; congruence.
Qed.

Lemma startswith_app (p s : str) : startswith p (p ++ s) = true.
Proof.
  induction p as [|x p IH]; simpl; [reflexivity|].
  rewrite Ascii.eqb_refl. exact IH.
Qed.

Lemma startswith_weaken (p a b : str) :
  startswith p a = true -> startswith p (a ++ b) = true.
Proof.
  revert a. induction p as [|x p IH]; intros [|y a]; simpl; try congruence.
  rewrite !andb_true_iff. intros [H1 H2]. split; [exact H1|apply IH, H2].
Qed.

Lemma contains_startswith (p s : str) :
  startswith p s = true -> contains p s = true.
Proof. intros H. destruct s; simpl in *; rewrite H; reflexivity. Qed.

Lemma contains_cons (p : str) (c : ascii) (s : str) :
  contains p s = true -> contains p (c :: s) = true.
Proof. intros H. simpl. rewrite H. apply orb_true_r. Qed.

Lemma contains_app_r (p a b : str) :
  contains p b = true -> contains p (a ++ b) = true.
Proof.
  intros H. induction a as [|c a IH]; [exact H|].
  simpl app. apply contains_cons, IH.
Qed.

Lemma contains_app_l (p a b : str) :
  contains p a = true -> contains p (a ++ b) = true.
Proof.
  induction a as [|c a IH]; simpl.
  - rewrite orb_false_r. intros H.
    destruct p; [destruct b; reflexivity|discriminate].
  - rewrite !orb_true_iff. intros [H|H].
    + left. exact (startswith_weaken p (c :: a) b H).
    + right. apply IH, H.
Qed.

(** [lstrip] keeps a suffix, [rstrip] a prefix. *)
Lemma lstrip_suffix (s : str) : exists w, s = w ++ lstrip s.
Proof.
  induction s as [|c s [w IH]]; simpl.
  - exists []. reflexivity.
  - destruct (isspace c).
    + exists (c :: w). simpl. f_equal. exact IH.
    + exists []. reflexivity.
Qed.

Lemma rstrip_prefix (s : str) : exists w, s = rstrip s ++ w.
Proof.
  induction s as [|c s [w IH]]; simpl.
  - exists []. reflexivity.
  - destruct (rstrip s) as [|a r] eqn:E.
    + destruct (isspace c).
      * exists (c :: s). reflexivity.
      * exists w. simpl. f_equal. exact IH.
    + exists w. simpl. f_equal. exact IH.
Qed.

Lemma contains_strip (p s : str) :
  contains p (strip s) = true -> contains p s = true.
Proof.
  unfold strip. intros H.
  destruct (lstrip_suffix s) as [w1 E1].
  destruct (rstrip_prefix (lstrip s)) as [w2 E2].
  rewrite E1. apply contains_app_r. rewrite E2. apply contains_app_l, H.
Qed.

Lemma rstrip_cons_keep (c : ascii) (s : str) :
  isspace c = false -> rstrip (c :: s) = c :: rstrip s.
Proof. intros H. simpl. rewrite H. destruct (rstrip s); reflexivity. Qed.

Lemma strip_cons_keep (c : ascii) (s : str) :
  isspace c = false -> strip (c :: s) = c :: rstrip s.
Proof.
  intros H. unfold strip. simpl. rewrite H. apply rstrip_cons_keep, H.
Qed.

Lemma rstrip_idem (s : str) : rstrip (rstrip s) = rstrip s.
Proof.
  induction s as [|c s IH]; [reflexivity|].
  simpl. destruct (rstrip s) as [|a r] eqn:E.
  - destruct (isspace c) eqn:Hc; simpl; [reflexivity|]. rewrite Hc. reflexivity.
  - change (rstrip (c :: a :: r)) with
      (match rstrip (a :: r) with
       | [] => if isspace c then [] else [c]
       | x :: r' => c :: x :: r'
       end).
    rewrite IH. reflexivity.
Qed.

Lemma lstrip_rstrip (s : str) : lstrip (rstrip s) = rstrip (lstrip s).
Proof.
  induction s as [|c s IH]; [reflexivity|].
  destruct (isspace c) eqn:Hc.
  - simpl lstrip at 2. rewrite Hc, <- IH. simpl.
    destruct (rstrip s) as [|a r]; rewrite ?Hc; simpl; rewrite ?Hc; reflexivity.
  - rewrite rstrip_cons_keep by exact Hc. simpl. rewrite Hc.
    symmetry. apply rstrip_cons_keep, Hc.
Qed.

Lemma strip_rstrip (s : str) : strip (rstrip s) = strip s.
Proof. unfold strip. rewrite lstrip_rstrip. apply rstrip_idem. Qed.

(** The last character of a stripped string is not white space. *)
Lemma rstrip_last (s u : str) (c : ascii) :
  rstrip s = u ++ [c] -> isspace c = false.
Proof.
  revert u. induction s as [|x s IH]; intros u; simpl.
  - destruct u; discriminate.
  - destruct (rstrip s) as [|a r] eqn:E.
    + destruct (isspace x) eqn:Hx.
      * destruct u; discriminate.
      * destruct u as [|y u]; simpl; intros H; inversion H; subst.
        -- exact Hx.
        -- destruct u; discriminate.
    + destruct u as [|y u]; simpl; intros H; [discriminate|].
      injection H as _ H2. exact (IH u H2).
Qed.

Lemma strip_last (s u : str) (c : ascii) :
  strip s = u ++ [c] -> isspace c = false.
Proof. apply rstrip_last. Qed.

Lemma lstrip_spaces (ws s : str) :
  forallb isspace ws = true -> lstrip (ws ++ s) = lstrip s.
Proof.
  induction ws as [|c ws IH]; simpl; [reflexivity|].
  rewrite andb_true_iff. intros [Hc H]. rewrite Hc. apply IH, H.
Qed.

Lemma startswith_cons_inv (c : ascii) (s : str) :
  startswith [c] s = true -> exists s', s = c :: s'.
Proof.
  destruct s as [|x s]; simpl; [discriminate|].
  rewrite andb_true_r, Ascii.eqb_eq. intros ->. eauto.
Qed.

(** ** The list pass *)

Lemma norm_consumed (mid rest : list str) :
  forallb consumed mid = true ->
  norm true (mid ++ rest) = items_out mid ++ norm true rest.
Proof.
  induction mid as [|l mid IH]; [reflexivity|].
  cbn [forallb]. rewrite andb_true_iff. intros [Hl Hmid].
  unfold consumed in Hl. rewrite andb_true_iff, negb_true_iff in Hl.
  destruct Hl as [Hhr Hk].
  cbn [app norm items_out flat_map]. rewrite Hhr.
  destruct (starts_marker (strip l)) eqn:Hm.
  - cbn [orb app]. f_equal. apply IH, Hmid.
  - cbn [orb] in Hk. rewrite andb_false_r. cbn [orb app].
    apply eqb_str_eq in Hk. rewrite Hk.
    change (is_ordinal []) with false. cbn [eqb_str]. apply IH, Hmid.
Qed.

Lemma top_rule (r : str) (a b : list str) :
  strip r = lit "---" -> top r a b = r :: b.
Proof.
  intros H. unfold top. rewrite H.
  change (is_ordinal (lit "---")) with false.
  change (startswith (lit "---") (lit "---")) with true.
  rewrite andb_false_r. reflexivity.
Qed.

Lemma top_ordinal (h : str) (a b : list str) :
  is_ordinal (strip h) = true -> top h a b = ordinal_out h :: a.
Proof. intros H. unfold top. rewrite H. reflexivity. Qed.

(** The white space of this model is closed under none of the bullet
    markers. *)
Lemma marker_not_space (m : ascii) :
  one_of (lit "-*+") m = true -> isspace m = false.
Proof.
  unfold one_of. cbn [lit list_ascii_of_string existsb].
  rewrite !orb_true_iff, !Ascii.eqb_eq.
  intros [->|[->|[->|H]]]; try reflexivity. discriminate.
Qed.

Lemma marker_starts (m : ascii) (s : str) :
  one_of (lit "-*+") m = true -> starts_marker (m :: s) = true.
Proof.
  unfold one_of. cbn [lit list_ascii_of_string existsb].
  rewrite !orb_true_iff, !Ascii.eqb_eq.
  intros [->|[->|[->|H]]]; try reflexivity. discriminate.
Qed.

Lemma indent_spaces (i : indent) : forallb isspace (indent_str i) = true.
Proof.
  destruct i as [n|]; [|reflexivity].
  induction n as [|n IH]; [reflexivity|]. simpl. exact IH.
Qed.

Lemma sub_item_strip (x : sub_item) :
  sub_item_ok x = true ->
  strip (sub_item_line x) = si_marker x :: rstrip (si_body x)
  /\ lstrip (sub_item_line x) = si_marker x :: si_body x.
Proof.
  unfold sub_item_ok, sub_item_line. rewrite andb_true_iff.
  intros [Hm _]. pose proof (marker_not_space _ Hm) as Hs.
  assert (E : lstrip (indent_str (si_indent x) ++ si_marker x :: si_body x)
              = si_marker x :: si_body x).
  { rewrite lstrip_spaces by apply indent_spaces. simpl. rewrite Hs.
    reflexivity. }
  split; [|exact E].
  unfold strip. rewrite E. apply rstrip_cons_keep, Hs.
Qed.

Lemma indent_length (i : indent) :
  (6 <=? length (indent_str i)) = match i with
                                  | Spaces n => negb (n <? 6)
                                  | OneTab => false
                                  end.
Proof.
  destruct i as [n|]; [|reflexivity].
  cbn [indent_str]. rewrite repeat_length.
  destruct (Nat.leb_spec 6 n), (Nat.ltb_spec n 6);
    cbn [negb]; try reflexivity; lia.
Qed.

Lemma sub_item_out_tier (x : sub_item) :
  sub_item_ok x = true ->
  sub_item_out (sub_item_line x) = tier (si_indent x) ++ strip (si_body x).
Proof.
  intros Hok. destruct (sub_item_strip x Hok) as [E1 E2].
  unfold sub_item_out. rewrite E1, E2. cbn [skipn].
  rewrite strip_rstrip.
  replace (length (sub_item_line x) - length (si_marker x :: si_body x))
    with (length (indent_str (si_indent x))).
  2:{ unfold sub_item_line. rewrite length_app. lia. }
  rewrite indent_length. unfold tier.
  destruct (si_indent x) as [n|]; [|reflexivity].
  destruct (n <? 6); reflexivity.
Qed.

Lemma entry_consumed (e : entry) :
  entry_ok e = true -> consumed (entry_line e) = true.
Proof.
  destruct e as [ws|x]; simpl; intros H; unfold consumed.
  - assert (E : strip ws = []).
    { unfold strip. rewrite <- (app_nil_r ws), lstrip_spaces by exact H.
      reflexivity. }
    rewrite E. reflexivity.
  - destruct (sub_item_strip x H) as [E _]. rewrite E.
    unfold sub_item_ok in H. rewrite andb_true_iff in H.
    destruct H as [Hm Hr]. rewrite Hr, (marker_starts _ _ Hm). reflexivity.
Qed.

Lemma entries_out (es : list entry) :
  forallb entry_ok es = true ->
  forallb consumed (map entry_line es) = true
  /\ items_out (map entry_line es) = flat_map entry_out es.
Proof.
  induction es as [|e es IH]; [split; reflexivity|].
  cbn [forallb map]. rewrite andb_true_iff. intros [He Hes].
  destruct (IH Hes) as [IH1 IH2].
  split.
  - rewrite (entry_consumed e He), IH1. reflexivity.
  - cbn [items_out flat_map]. fold (items_out (map entry_line es)).
    rewrite IH2. f_equal.
    destruct e as [ws|x]; simpl in *.
    + assert (E : strip ws = []).
      { unfold strip. rewrite <- (app_nil_r ws), lstrip_spaces by exact He.
        reflexivity. }
      rewrite E. reflexivity.
    + destruct (sub_item_strip x He) as [E _]. rewrite E.
      rewrite (sub_item_out_tier x He).
      unfold sub_item_ok in He. rewrite andb_true_iff in He.
      destruct He as [Hm _]. rewrite (marker_starts _ _ Hm). reflexivity.
Qed.

(** Each line contributes its own output and leaves the scan in one of
    its two modes. *)
Lemma norm_step (b : bool) (l : str) :
  exists items b', forall rest, norm b (l :: rest) = items ++ norm b' rest.
Proof.
  assert (T : exists items b',
             forall rest,
               top l (norm true rest) (norm false rest)
               = items ++ norm b' rest).
  { unfold top. destruct (is_ordinal (strip l)).
    - exists [ordinal_out l], true. reflexivity.
    - destruct (re_match re_bullet l
                && negb (startswith (lit "---") (strip l))).
      + exists [bullet_out l], false. reflexivity.
      + exists [l], false. reflexivity. }
  destruct T as (items & b' & T).
  destruct b; cbn [norm]; [|exists items, b'; exact T].
  destruct (eqb_str (strip l) (lit "---")).
  { exists ([] :: items), b'. intros rest. rewrite T. reflexivity. }
  destruct (starts_marker (strip l)
            || startswith (lit "   ") l && starts_marker (strip l)).
  { exists [sub_item_out l], true. reflexivity. }
  destruct (is_ordinal (strip l)); [exists items, b'; exact T|].
  destruct (eqb_str (strip l) []); [exists [], true; reflexivity|].
  exists items, b'. exact T.
Qed.

(** A rule line is handed on as it is, wherever it stands. *)
Lemma norm_rule_anywhere (r : str) (rest : list str) :
  strip r = lit "---" ->
  forall pre b,
    exists before,
      norm b (pre ++ r :: rest) = before ++ r :: norm false rest.
Proof.
  intros Hr. induction pre as [|l pre IH]; intros b.
  - destruct b; cbn [app norm].
    + rewrite Hr. change (eqb_str (lit "---") (lit "---")) with true.
      cbv iota. rewrite (top_rule _ _ _ Hr). exists [[]]. reflexivity.
    + rewrite (top_rule _ _ _ Hr). exists []. reflexivity.
  - destruct (norm_step b l) as (items & b' & E).
    destruct (IH b') as [before IHb].
    exists (items ++ before). cbn [app]. rewrite E, IHb.
    rewrite <- app_assoc. reflexivity.
Qed.

(** The scan of the first lines does not depend on the lines that
    follow, and hands them the mode it is in. *)
Lemma norm_app (pre rest : list str) :
  forall b,
    norm b (pre ++ rest) = norm b pre ++ norm (fold_left next_mode pre b) rest.
Proof.
  induction pre as [|l pre IH]; intros b; [reflexivity|].
  cbn [app fold_left].
  assert (T : forall X Y Z : list str,
             top l (X ++ Z) (Y ++ Z) = top l X Y ++ Z).
  { intros X Y Z. unfold top. destruct (is_ordinal (strip l)); [reflexivity|].
    destruct (re_match re_bullet l
              && negb (startswith (lit "---") (strip l))); reflexivity. }
  assert (H : top l (norm true (pre ++ rest)) (norm false (pre ++ rest))
              = top l (norm true pre) (norm false pre)
                ++ norm (fold_left next_mode pre (is_ordinal (strip l))) rest).
  { unfold top. destruct (is_ordinal (strip l)).
    - rewrite IH. reflexivity.
    - destruct (re_match re_bullet l
                && negb (startswith (lit "---") (strip l)));
        rewrite IH; reflexivity. }
  unfold next_mode. destruct b; cbn [norm]; [|exact H].
  destruct (eqb_str (strip l) (lit "---")).
  { rewrite H. reflexivity. }
  destruct (starts_marker (strip l)
            || startswith (lit "   ") l && starts_marker (strip l)).
  { rewrite IH. reflexivity. }
  destruct (is_ordinal (strip l)) eqn:Ho.
  { rewrite H. reflexivity. }
  destruct (eqb_str (strip l) []); [apply IH|].
  rewrite H. reflexivity.
Qed.

Lemma norm_prefix (pre rest : list str) :
  norm false (pre ++ rest) = norm false pre ++ norm (in_run_after pre) rest.
Proof. apply norm_app. Qed.

(** An ordinal head opens a run in whichever mode it is read. *)
Lemma ordinal_not_marker (s : str) :
  is_ordinal s = true ->
  starts_marker s = false /\ eqb_str s (lit "---") = false.
Proof.
  destruct s as [|c s]; [discriminate|]. intros H.
  assert (M : forall m, one_of (lit "-*+") m = true ->
                        is_ordinal (m :: s) = false).
  { intros m Hm. unfold one_of in Hm.
    cbn [lit list_ascii_of_string existsb] in Hm.
    rewrite !orb_true_iff, !Ascii.eqb_eq in Hm.
    destruct Hm as [->|[->|[->|Hm]]]; [reflexivity..|discriminate]. }
  unfold starts_marker. cbn [lit list_ascii_of_string startswith eqb_str].
  destruct (Ascii.eqb_spec "*" c) as [<-|N1];
    [rewrite (M "*"%char eq_refl) in H; discriminate|].
  destruct (Ascii.eqb_spec "-" c) as [<-|N2];
    [rewrite (M "-"%char eq_refl) in H; discriminate|].
  destruct (Ascii.eqb_spec "+" c) as [<-|N3];
    [rewrite (M "+"%char eq_refl) in H; discriminate|].
  split; [reflexivity|].
  destruct (Ascii.eqb_spec c "-") as [->|]; [congruence|reflexivity].
Qed.

Lemma norm_ordinal (h : str) (rest : list str) (b : bool) :
  is_ordinal (strip h) = true ->
  norm b (h :: rest) = ordinal_out h :: norm true rest.
Proof.
  intros H. destruct (ordinal_not_marker _ H) as [Hm Hr].
  destruct b; cbn [norm]; [|apply top_ordinal, H].
  rewrite Hr, Hm, H. rewrite andb_false_r. cbn [orb].
  apply top_ordinal, H.
Qed.

(** ** Claims about the list pass and about termination *)

(** C8.  [convert_text] returns a string for every input: the two indexed
    loops of the list pass finish within their fuel and never index
    outside [lines], and nothing else in the pipeline can fail.  The
    result is the block loop run on the two-mode scan of the input
    lines. *)
Theorem convert_text_total (text : str) :
  exists out : str,
    convert_text text = Ok out
    /\ out = finish (norm false (split nl text)).
Proof.
  exists (finish (norm false (split nl text))).
  split; [apply convert_text_finish|reflexivity].
Qed.

(** C9.  A line whose stripped form is [---] is never taken for a bullet
    by the list pass, wherever it stands.  After any lines [pre], an
    ordinal head [h] and the blank lines and sub-items [mid] that follow
    it, the rule line [r] ends the run: the pass appends exactly one
    empty line, then [r] itself unchanged, and goes on with the rest as
    it would from the top level.  After lines [pre] alone, [r] is passed
    on unchanged as well, with the one empty line before it exactly when
    [pre] ends inside the look-ahead of an ordinal head; at the top
    level, and so at the start of the text, nothing is added. *)
Theorem rule_line_not_a_bullet (h r : str) (pre mid rest : list str) :
  is_ordinal (strip h) = true ->
  forallb consumed mid = true ->
  strip r = lit "---" ->
  exists before tail : list str,
    _convert_lists_with_nesting pre = Ok before
    /\ _convert_lists_with_nesting rest = Ok tail
    /\ _convert_lists_with_nesting (pre ++ h :: mid ++ r :: rest)
       = Ok (before ++ ordinal_out h :: items_out mid ++ [] :: r :: tail)
    /\ _convert_lists_with_nesting (pre ++ r :: rest)
       = Ok (before ++ (if in_run_after pre then [[]] else []) ++ r :: tail).
Proof.
  intros Hh Hmid Hr. exists (norm false pre), (norm false rest).
  rewrite !convert_lists_norm, !norm_prefix.
  assert (R : forall b, norm b (r :: rest)
                        = (if b then [[]] else []) ++ r :: norm false rest).
  { intros b. destruct b; cbn [norm].
    - rewrite Hr. change (eqb_str (lit "---") (lit "---")) with true.
      cbv iota. rewrite (top_rule _ _ _ Hr). reflexivity.
    - rewrite (top_rule _ _ _ Hr). reflexivity. }
  repeat split.
  - rewrite (norm_ordinal h _ _ Hh), (norm_consumed _ _ Hmid), (R true).
    reflexivity.
  - rewrite R. reflexivity.
Qed.

Lemma rule_line_not_a_bullet_witness :
  exists before tail : list str,
    _convert_lists_with_nesting [lit "intro"; lit "2. b"] = Ok before
    /\ _convert_lists_with_nesting [lit "next"] = Ok tail
    /\ _convert_lists_with_nesting
         ([lit "intro"; lit "2. b"]
            ++ lit "1. Item one" :: [lit "   - sub item"; lit ""]
            ++ lit "---" :: [lit "next"])
       = Ok (before ++ ordinal_out (lit "1. Item one")
               :: items_out [lit "   - sub item"; lit ""]
               ++ [] :: lit "---" :: tail)
    /\ _convert_lists_with_nesting
         ([lit "intro"; lit "2. b"] ++ lit "---" :: [lit "next"])
       = Ok (before
               ++ (if in_run_after [lit "intro"; lit "2. b"] then [[]] else [])
               ++ lit "---" :: tail).
Proof.
  apply (rule_line_not_a_bullet (lit "1. Item one") (lit "---")
           [lit "intro"; lit "2. b"]
           [lit "   - sub item"; lit ""] [lit "next"]);
    vm_compute; reflexivity.
Defined.

(** C5 (amended).  Every sub-item consumed by the look-ahead after an
    ordinal head, wherever the head stands in the text, is appended with
    the marker [#*] when it is indented by fewer than six spaces or by
    one tab, and with [#**] when it is indented by six spaces or more,
    followed by its stripped text; blank lines in between are dropped.
    The lines [pre] before the head give what they give alone, and the
    lines after the last sub-item are read on by the same look-ahead.
    In particular ["1. Item\n   - sub"] converts to
    ["# Item\n#* sub"]. *)
Theorem sub_item_tier (h : str) (pre : list str) (es : list entry)
  (rest : list str) :
  is_ordinal (strip h) = true ->
  forallb entry_ok es = true ->
  (exists before : list str,
      _convert_lists_with_nesting pre = Ok before
      /\ _convert_lists_with_nesting (pre ++ h :: map entry_line es ++ rest)
         = Ok (before ++ ordinal_out h :: flat_map entry_out es
                 ++ norm true rest))
  /\ convert_text (unlines ["1. Item"; "   - sub"]%string)
     = Ok (unlines ["# Item"; "#* sub"]%string).
Proof.
  intros Hh Hes. split; [|vm_compute; reflexivity].
  destruct (entries_out es Hes) as [Hc Ho].
  exists (norm false pre).
  rewrite !convert_lists_norm, norm_prefix.
  rewrite (norm_ordinal h _ _ Hh), (norm_consumed _ _ Hc), Ho. auto.
Qed.

Lemma sub_item_tier_witness :
  (exists before : list str,
      _convert_lists_with_nesting [lit "Steps:"; lit "- first"] = Ok before
      /\ _convert_lists_with_nesting
           ([lit "Steps:"; lit "- first"]
              ++ lit "1. Item"
              :: map entry_line
                   [inr (mkSub (Spaces 3) "-" (lit " sub"));
                    inl (lit "  ");
                    inr (mkSub (Spaces 6) "*" (lit " deep"));
                    inr (mkSub OneTab "+" (lit " tab"))]
              ++ [lit "after"])
         = Ok (before
                 ++ ordinal_out (lit "1. Item")
                 :: flat_map entry_out
                      [inr (mkSub (Spaces 3) "-" (lit " sub"));
                       inl (lit "  ");
                       inr (mkSub (Spaces 6) "*" (lit " deep"));
                       inr (mkSub OneTab "+" (lit " tab"))]
                 ++ norm true [lit "after"]))
  /\ convert_text (unlines ["1. Item"; "   - sub"]%string)
     = Ok (unlines ["# Item"; "#* sub"]%string).
Proof.
  apply (sub_item_tier (lit "1. Item") [lit "Steps:"; lit "- first"]
           [inr (mkSub (Spaces 3) "-" (lit " sub"));
            inl (lit "  ");
            inr (mkSub (Spaces 6) "*" (lit " deep"));
            inr (mkSub OneTab "+" (lit " tab"))]
           [lit "after"]);
    vm_compute; reflexivity.
Defined.

(** The claim as first stated has a leading tab select the deeper tier;
    the look-ahead counts the tab as one character of indentation. *)
Lemma tab_is_shallow :
  convert_text (lit "1. Item" ++ [nl] ++ ["009"%char] ++ lit "- sub")
  = Ok (unlines ["# Item"; "#* sub"]%string)
  /\ convert_text (lit "1. Item" ++ [nl] ++ ["009"%char] ++ lit "- sub")
     <> Ok (unlines ["# Item"; "#** sub"]%string).
Proof. split; [vm_compute; reflexivity|vm_compute; discriminate]. Qed.

(** ** The matcher: when a run exists *)

Lemma re_match_true (r : re) (s : str) :
  re_match r s = true <-> exists st, In st (ms false r None s []).
Proof.
  unfold re_match, match_at.
  destruct (ms false r None s []) as [|[[pv s'] caps] l].
  - split; [discriminate|intros [st []]].
  - split; [intros _; eexists; left; reflexivity|reflexivity].
Qed.

Lemma re_match_false (r : re) (s : str) :
  re_match r s = false <-> ms false r None s [] = [].
Proof.
  unfold re_match, match_at.
  destruct (ms false r None s []) as [|[[pv s'] caps] l];
    split; congruence.
Qed.

Lemma in_ms_seq ml r1 r2 prev s caps (st : mstate) :
  In st (ms ml (Seq r1 r2) prev s caps) <->
  exists pv s' caps',
    In (pv, s', caps') (ms ml r1 prev s caps)
    /\ In st (ms ml r2 pv s' caps').
Proof.
  cbn [ms]. rewrite in_flat_map. split.
  - intros [[[pv s'] caps'] [H1 H2]]. exists pv, s', caps'. auto.
  - intros [pv [s' [caps' [H1 H2]]]]. exists (pv, s', caps'). auto.
Qed.

Lemma in_ms_chr ml c prev s caps (st : mstate) :
  In st (ms ml (Chr c) prev s caps) <->
  exists s', s = c :: s' /\ st = (Some c, s', caps).
Proof.
  cbn [ms]. destruct s as [|x s'].
  - split; [intros []|intros [s' [H _]]; discriminate].
  - destruct (Ascii.eqb_spec x c) as [->|Hne].
    + split.
      * intros [<-|[]]. eauto.
      * intros [s2 [H ->]]. inversion H. left. reflexivity.
    + split; [intros []|]. intros [s2 [H _]]. inversion H. contradiction.
Qed.

Lemma in_ms_cls ml p prev s caps (st : mstate) :
  In st (ms ml (Cls p) prev s caps) <->
  exists x s', s = x :: s' /\ p x = true /\ st = (Some x, s', caps).
Proof.
  cbn [ms]. destruct s as [|x s'].
  - split; [intros []|intros [x [s' [H _]]]; discriminate].
  - destruct (p x) eqn:Hp.
    + split.
      * intros [<-|[]]. eauto.
      * intros [y [s2 [H [_ ->]]]]. inversion H. left. reflexivity.
    + split; [intros []|]. intros [y [s2 [H [Hy _]]]]. inversion H.
      congruence.
Qed.

Lemma in_ms_bol ml prev s caps (st : mstate) :
  In st (ms ml Bol prev s caps) <->
  at_bol ml prev = true /\ st = (prev, s, caps).
Proof.
  cbn [ms]. destruct (at_bol ml prev).
  - split; [intros [<-|[]]; auto|intros [_ ->]; left; reflexivity].
  - split; [intros []|intros [H _]; discriminate].
Qed.

Lemma in_ms_eol ml prev s caps (st : mstate) :
  In st (ms ml Eol prev s caps) <->
  at_eol ml s = true /\ st = (prev, s, caps).
Proof.
  cbn [ms]. destruct (at_eol ml s).
  - split; [intros [<-|[]]; auto|intros [_ ->]; left; reflexivity].
  - split; [intros []|intros [H _]; discriminate].
Qed.

Lemma in_skipn {A} (x : A) (n : nat) (l : list A) :
  In x (skipn n l) -> In x l.
Proof.
  intros H. rewrite <- (firstn_skipn n l). apply in_or_app. right. exact H.
Qed.

(** The cursors a repetition offers are exactly the ends of the prefixes
    made of characters of the class, at least [lo] long. *)
Lemma rep_opts_sound (p : ascii -> bool) :
  forall s prev lo pv t,
    In (pv, t) (skipn lo (rep_opts p prev s)) ->
    exists u, s = u ++ t /\ forallb p u = true /\ lo <= length u.
Proof.
  induction s as [|c s IH]; intros prev lo pv t H.
  - destruct lo as [|lo]; simpl in H.
    + destruct H as [H|[]]. inversion H. exists []. auto.
    + destruct lo; destruct H.
  - destruct lo as [|lo].
    + cbn [skipn rep_opts] in H. destruct H as [H|H].
      * inversion H. exists []. simpl. auto with arith.
      * destruct (p c) eqn:Hp; [|destruct H].
        destruct (IH (Some c) 0 pv t H) as [u [E [Hu _]]].
        exists (c :: u). simpl. rewrite Hp, Hu, E. auto with arith.
    + cbn [rep_opts] in H. cbn [skipn] in H.
      destruct (p c) eqn:Hp; [|destruct lo; destruct H].
      destruct (IH (Some c) lo pv t H) as [u [E [Hu Hl]]].
      exists (c :: u). simpl. rewrite Hp, Hu, E. auto with arith.
Qed.

Lemma rep_opts_complete (p : ascii -> bool) :
  forall u prev lo t,
    forallb p u = true -> lo <= length u ->
    exists pv, In (pv, t) (skipn lo (rep_opts p prev (u ++ t))).
Proof.
  induction u as [|c u IH]; intros prev lo t Hu Hl.
  - simpl in Hl. assert (lo = 0) by lia. subst lo.
    exists prev. destruct t; left; reflexivity.
  - simpl in Hu. rewrite andb_true_iff in Hu. destruct Hu as [Hc Hu].
    cbn [app rep_opts]. rewrite Hc.
    destruct lo as [|lo].
    + destruct (IH (Some c) 0 t Hu) as [pv H]; [lia|].
      exists pv. right. exact H.
    + simpl in Hl. destruct (IH (Some c) lo t Hu) as [pv H]; [lia|].
      exists pv. exact H.
Qed.

Lemma in_ms_rep ml g lo p prev s caps pv t caps' :
  In (pv, t, caps') (ms ml (Rep g lo p) prev s caps) <->
  caps' = caps /\ In (pv, t) (skipn lo (rep_opts p prev s)).
Proof.
  cbn [ms]. rewrite in_map_iff. split.
  - intros [[pv' t'] [E H]]. simpl in E. inversion E; subst.
    split; [reflexivity|]. destruct g; [apply in_rev in H|]; exact H.
  - intros [-> H]. exists (pv, t). split; [reflexivity|].
    destruct g; [apply -> in_rev|]; exact H.
Qed.

(** [^\|[\s\-\|]+\|$] matches exactly the strings made of a pipe, one or
    more separator characters and a pipe, up to one final newline. *)
Lemma separator_match (s : str) :
  re_match re_table_separator s = true <->
  exists u t,
    s = "|"%char :: u ++ "|"%char :: t
    /\ forallb cls_sep u = true /\ 1 <= length u
    /\ (t = [] \/ t = [nl]).
Proof.
  rewrite re_match_true. unfold re_table_separator. cbn [seqs]. split.
  - intros [st H].
    apply in_ms_seq in H. destruct H as [pv0 [s0 [c0 [H0 H]]]].
    apply in_ms_bol in H0. destruct H0 as [_ E0]. inversion E0; subst.
    apply in_ms_seq in H. destruct H as [pv1 [s1 [c1 [H1 H]]]].
    apply in_ms_chr in H1. destruct H1 as [s1' [E1 E1']].
    inversion E1'; subst.
    apply in_ms_seq in H. destruct H as [pv2 [s2 [c2 [H2 H]]]].
    apply in_ms_rep in H2. destruct H2 as [-> H2].
    apply rep_opts_sound in H2. destruct H2 as [u [E2 [Hu Hl]]].
    apply in_ms_seq in H. destruct H as [pv3 [s3 [c3 [H3 H]]]].
    apply in_ms_chr in H3. destruct H3 as [s3' [E3 E3']].
    inversion E3'; subst.
    apply in_ms_eol in H. destruct H as [He _].
    exists u, s3'. repeat split; try assumption.
    destruct s3' as [|x [|y s4]]; simpl in He; auto.
    + rewrite andb_true_r in He. apply Ascii.eqb_eq in He. subst. auto.
    + rewrite andb_false_r in He. discriminate.
  - intros [u [t [-> [Hu [Hl Ht]]]]].
    destruct (rep_opts_complete cls_sep u (Some "|"%char) 1
                                 ("|"%char :: t) Hu Hl) as [pv Hin].
    exists (Some "|"%char, t, []).
    apply in_ms_seq. exists None, ("|"%char :: u ++ "|"%char :: t), [].
    split; [apply in_ms_bol; auto|].
    apply in_ms_seq. exists (Some "|"%char), (u ++ "|"%char :: t), [].
    split; [apply in_ms_chr; eauto|].
    apply in_ms_seq. exists pv, ("|"%char :: t), [].
    split; [apply in_ms_rep; auto|].
    apply in_ms_seq. exists (Some "|"%char), t, [].
    split; [apply in_ms_chr; eauto|].
    apply in_ms_eol. split; [|reflexivity].
    destruct Ht as [->| ->]; reflexivity.
Qed.

(** [^[\s]*[-*+]\s+] matches only lines whose stripped form starts with a
    bullet marker. *)
Lemma bullet_match_marker (l : str) :
  re_match re_bullet l = true -> starts_marker (strip l) = true.
Proof.
  rewrite re_match_true. unfold re_bullet. cbn [seqs].
  intros [st H].
  apply in_ms_seq in H. destruct H as [pv0 [s0 [c0 [H0 H]]]].
  apply in_ms_bol in H0. destruct H0 as [_ E0]. inversion E0; subst.
  apply in_ms_seq in H. destruct H as [pv1 [s1 [c1 [H1 H]]]].
  apply in_ms_rep in H1. destruct H1 as [-> H1].
  apply rep_opts_sound in H1. destruct H1 as [u [E1 [Hu _]]].
  apply in_ms_seq in H. destruct H as [pv2 [s2 [c2 [H2 _]]]].
  apply in_ms_cls in H2. destruct H2 as [m [s2' [E2 [Hm _]]]].
  subst. unfold strip. rewrite (lstrip_spaces _ _ Hu).
  pose proof (marker_not_space _ Hm) as Hs.
  cbn [lstrip]. rewrite Hs, (rstrip_cons_keep _ _ Hs).
  apply marker_starts, Hm.
Qed.

Lemma nil_no_in {A} (l : list A) : (forall x, ~ In x l) -> l = [].
Proof.
  destruct l as [|a l]; [reflexivity|]. intros H. destruct (H a). left.
  reflexivity.
Qed.

Lemma in_ms_neglook ml r prev s caps (st : mstate) :
  In st (ms ml (NegLook r) prev s caps) <->
  ms ml r prev s caps = [] /\ st = (prev, s, caps).
Proof.
  cbn [ms]. destruct (ms ml r prev s caps).
  - split; [intros [<-|[]]; auto|intros [_ ->]; left; reflexivity].
  - split; [intros []|intros [H _]; discriminate].
Qed.

Lemma rep_stops_at (p : ascii -> bool) (c : ascii) (s u t : str) :
  c :: s = u ++ t -> forallb p u = true -> p c = false ->
  u = [] /\ t = c :: s.
Proof.
  destruct u as [|x u]; simpl; intros E Hu Hc; [auto|].
  inversion E; subst x. rewrite Hc in Hu. discriminate.
Qed.

(** ** Every pattern of the converter consumes a character

    [sub_aux] and [finditer_aux] replace non-empty matches only; this is
    all there is to replace, because no pattern that the converter hands
    to [re.sub] or [re.finditer] can match the empty string. *)

Lemma ms_shorter ml (r : re) :
  forall prev s caps pv s' caps',
    In (pv, s', caps') (ms ml r prev s caps) ->
    length s' <= length s
    /\ (nullable r = false -> length s' < length s).
Proof.
  induction r; intros prev s caps pv s' caps' H.
  - cbn [ms] in H. destruct H as [H|[]]. inversion H; subst.
    split; [lia|discriminate].
  - apply in_ms_chr in H. destruct H as (t & -> & E). inversion E; subst.
    simpl. split; lia.
  - apply in_ms_cls in H. destruct H as (x & t & -> & _ & E).
    inversion E; subst. simpl. split; lia.
  - apply in_ms_seq in H. destruct H as (pv1 & s1 & c1 & H1 & H2).
    destruct (IHr1 _ _ _ _ _ _ H1) as [L1 P1].
    destruct (IHr2 _ _ _ _ _ _ H2) as [L2 P2].
    split; [lia|]. cbn [nullable]. rewrite andb_false_iff.
    intros [N|N]; [specialize (P1 N)|specialize (P2 N)]; lia.
  - cbn [ms] in H. apply in_app_or in H. cbn [nullable].
    destruct H as [H|H].
    + destruct (IHr1 _ _ _ _ _ _ H) as [L1 P1]. split; [exact L1|].
      rewrite orb_false_iff. intros [N _]. exact (P1 N).
    + destruct (IHr2 _ _ _ _ _ _ H) as [L2 P2]. split; [exact L2|].
      rewrite orb_false_iff. intros [_ N]. exact (P2 N).
  - apply in_ms_rep in H. destruct H as [_ H].
    apply rep_opts_sound in H. destruct H as (u & -> & _ & Hl).
    rewrite length_app. split; [lia|]. cbn [nullable].
    rewrite Nat.eqb_neq. lia.
  - cbn [ms] in H. apply in_map_iff in H.
    destruct H as ([[pv1 s1] c1] & E & H). inversion E; subst.
    exact (IHr _ _ _ _ _ _ H).
  - apply in_ms_bol in H. destruct H as [_ E]. inversion E; subst.
    split; [lia|discriminate].
  - apply in_ms_eol in H. destruct H as [_ E]. inversion E; subst.
    split; [lia|discriminate].
  - apply in_ms_neglook in H. destruct H as [_ E]. inversion E; subst.
    split; [lia|discriminate].
Qed.

Lemma match_at_consumes ml (r : re) prev (s : str) (n : nat) caps :
  nullable r = false -> match_at ml r prev s = Some (n, caps) ->
  0 < n <= length s.
Proof.
  intros Hn. unfold match_at.
  destruct (ms ml r prev s []) as [|[[pv s'] c'] l] eqn:E; [discriminate|].
  intros H. inversion H; subst.
  assert (Hin : In (pv, s', caps) (ms ml r prev s [])) by (rewrite E; left; reflexivity).
  destruct (ms_shorter ml r _ _ _ _ _ _ Hin) as [L P]. specialize (P Hn).
  lia.
Qed.

Lemma patterns_consume :
  Forall (fun e => nullable (fst (snd e)) = false) patterns
  /\ nullable re_bold = false /\ nullable re_italic = false
  /\ nullable re_numbered = false.
Proof.
  repeat split. unfold patterns. repeat constructor.
Qed.

(** ** Table lines *)

Lemma endswith_inv (c : ascii) (s : str) :
  endswith [c] s = true -> exists s0, s = s0 ++ [c].
Proof.
  unfold endswith. cbn [rev app]. intros H.
  apply startswith_cons_inv in H. destruct H as [r E].
  exists (rev r). rewrite <- (rev_involutive s), E. reflexivity.
Qed.

Lemma endswith_app (c : ascii) (s0 : str) : endswith [c] (s0 ++ [c]) = true.
Proof.
  unfold endswith. rewrite rev_app_distr. simpl.
  rewrite Ascii.eqb_refl. reflexivity.
Qed.

(** On a stripped line that starts and ends with a pipe, the test that
    drops separator rows says: made of pipes, dashes and white space
    only, and not the two-character string of two pipes. *)
Lemma separator_test (line : str) :
  startswith (lit "|") (strip line) = true ->
  endswith (lit "|") (strip line) = true ->
  eqb_str (strip line) (lit "|") || re_match re_table_separator (strip line)
  = forallb cls_sep (strip line) && negb (length (strip line) =? 2).
Proof.
  intros Hs He. apply eq_true_iff_eq.
  rewrite orb_true_iff, andb_true_iff, negb_true_iff, Nat.eqb_neq,
    eqb_str_eq, separator_match.
  split.
  - intros [E|[u [t [E [Hu [Hl Ht]]]]]].
    + rewrite E. split; [reflexivity|simpl; lia].
    + destruct Ht as [->| ->].
      * rewrite E. split.
        -- cbn [forallb]. rewrite forallb_app, Hu. reflexivity.
        -- cbn [length]. rewrite length_app. simpl. lia.
      * exfalso.
        assert (H : isspace nl = false).
        { apply (strip_last line ("|"%char :: u ++ ["|"%char]) nl).
          rewrite E. simpl. rewrite <- app_assoc. reflexivity. }
        discriminate H.
  - intros [Hall Hlen].
    apply startswith_cons_inv in Hs. destruct Hs as [s1 E1].
    apply endswith_inv in He. destruct He as [s0 E0].
    destruct s0 as [|x s0].
    + left. exact E0.
    + right. rewrite E0 in *. simpl in E1. inversion E1; subst x.
      exists s0, []. repeat split; auto.
      * cbn [forallb] in Hall. rewrite forallb_app in Hall.
        rewrite !andb_true_iff in Hall. tauto.
      * simpl in Hlen. rewrite length_app in Hlen. simpl in Hlen. lia.
Qed.

Lemma pipe_in_line (line : str) :
  startswith (lit "|") (strip line) = true ->
  contains (lit "|") line = true.
Proof. intros H. apply contains_strip, contains_startswith, H. Qed.

Lemma table_step (st : blocks) (line : str) :
  in_code_block st = false ->
  startswith (lit "|") (strip line) = true ->
  converted_lines (block_step st line)
  = converted_lines st
    ++ (if eqb_str (strip line) (lit "|")
           || re_match re_table_separator (strip line)
        then [] else [_convert_table_line line]).
Proof.
  intros Hc Hs. unfold block_step.
  destruct (startswith_cons_inv _ _ Hs) as [s1 E1].
  rewrite Hc, (pipe_in_line _ Hs), Hs, E1. cbn [lit list_ascii_of_string].
  change (startswith ["`"%char; "`"%char; "`"%char] ("|"%char :: s1))
    with false.
  cbv iota. cbn [andb].
  destruct (eqb_str ("|"%char :: s1) ["|"%char]
            || re_match re_table_separator ("|"%char :: s1)).
  - destruct (negb (in_table st)); simpl; rewrite app_nil_r; reflexivity.
  - destruct (negb (in_table st)); reflexivity.
Qed.

Lemma split_no_sep (c : ascii) (s : str) :
  ~ In c s -> split c s = [s].
Proof.
  induction s as [|x s IH]; intros H; [reflexivity|].
  simpl. destruct (Ascii.eqb_spec x c) as [->|Hne].
  - exfalso. apply H. left. reflexivity.
  - rewrite IH; [reflexivity|]. intros Hin. apply H. right. exact Hin.
Qed.

(** A line whose stripped form starts with a pipe goes through the list
    pass as it is. *)
Lemma top_pipe (line : str) (a b : list str) :
  startswith (lit "|") (strip line) = true -> top line a b = line :: b.
Proof.
  intros Hs. unfold top.
  destruct (startswith_cons_inv _ _ Hs) as [s1 E1]. rewrite E1.
  change (is_ordinal ("|"%char :: s1)) with false. cbv iota.
  destruct (re_match re_bullet line) eqn:Hb; [|reflexivity].
  apply bullet_match_marker in Hb. rewrite E1 in Hb. discriminate Hb.
Qed.

(** C6 (amended).  Outside a code fence, a line whose stripped form starts
    and ends with a pipe appends nothing when that form is made of pipes,
    dashes and white space only and is not the bare [||]; every other
    such line appends one row: the outer pipes removed, the cells split
    at pipes and stripped, and the cells framed and joined by [||] when
    the source line contains [||] and by [|] otherwise. *)
Theorem table_line_emission (st : blocks) (line : str) :
  in_code_block st = false ->
  startswith (lit "|") (strip line) = true ->
  endswith (lit "|") (strip line) = true ->
  converted_lines (block_step st line)
  = converted_lines st
    ++ (if forallb cls_sep (strip line) && negb (length (strip line) =? 2)
        then []
        else
          let d := if contains (lit "||") line then lit "||" else lit "|" in
          [d ++ join d (map strip (split "|" (slice_1_m1 (strip line))))
             ++ d]).
Proof.
  intros Hc Hs He.
  rewrite (table_step st line Hc Hs), (separator_test line Hs He).
  destruct (forallb cls_sep (strip line)
            && negb (length (strip line) =? 2)); [reflexivity|].
  f_equal. f_equal. unfold _convert_table_line. rewrite Hs, He. cbn [andb].
  destruct (startswith (lit "||") (strip line)) eqn:H2.
  - rewrite (contains_strip _ _ (contains_startswith _ _ H2)). reflexivity.
  - cbn [orb]. destruct (contains (lit "||") line); reflexivity.
Qed.

Lemma table_line_emission_witness :
  converted_lines (block_step (mkBlocks [] false false) (lit " | a |b | "))
  = converted_lines (mkBlocks [] false false)
    ++ (if forallb cls_sep (strip (lit " | a |b | "))
           && negb (length (strip (lit " | a |b | ")) =? 2)
        then []
        else
          let d := if contains (lit "||") (lit " | a |b | ")
                   then lit "||" else lit "|" in
          [d ++ join d (map strip
                          (split "|" (slice_1_m1 (strip (lit " | a |b | ")))))
             ++ d]).
Proof.
  apply (table_line_emission (mkBlocks [] false false) (lit " | a |b | "));
    reflexivity.
Defined.

(** The line [||] consists of pipes only, yet it produces an output
    line. *)
Lemma two_pipes_are_emitted :
  forallb cls_sep (strip (lit "||")) = true
  /\ startswith (lit "|") (strip (lit "||")) = true
  /\ endswith (lit "|") (strip (lit "||")) = true
  /\ convert_text (lit "||") = Ok (lit "||||").
Proof. repeat split; vm_compute; reflexivity. Qed.

(** C10 (amended).  Outside a code fence, a line whose stripped form
    starts with a pipe and does not end with one is appended exactly as
    it is: no cells, no inline rewriting, no escaping.  The only change
    such a line can still undergo is the last step of [convert_text],
    which replaces the list placeholder wherever it occurs. *)
Theorem malformed_row_unchanged (st : blocks) (line : str) :
  in_code_block st = false ->
  startswith (lit "|") (strip line) = true ->
  endswith (lit "|") (strip line) = false ->
  converted_lines (block_step st line) = converted_lines st ++ [line]
  /\ (~ In nl line ->
      convert_text line
      = Ok (replace (lit "<<<JIRALIST2>>>") (lit "** ") line)).
Proof.
  intros Hc Hs He.
  assert (Hstep : forall st', in_code_block st' = false ->
            converted_lines (block_step st' line)
            = converted_lines st' ++ [line]).
  { intros st' Hc'. rewrite (table_step st' line Hc' Hs).
    assert (H1 : eqb_str (strip line) (lit "|") = false).
    { apply eqb_str_neq. intros E. rewrite E in He. discriminate He. }
    assert (H2 : re_match re_table_separator (strip line) = false).
    { destruct (re_match re_table_separator (strip line)) eqn:Hm;
        [|reflexivity].
      apply separator_match in Hm.
      destruct Hm as [u [t [E [_ [_ [->| ->]]]]]].
      - rewrite E in He.
        pose proof (endswith_app "|" ("|"%char :: u)) as Hp.
        change (endswith (lit "|") ("|"%char :: u ++ ["|"%char]) = true)
          in Hp.
        congruence.
      - assert (H : isspace nl = false).
        { apply (strip_last line ("|"%char :: u ++ ["|"%char]) nl).
          rewrite E. simpl. rewrite <- app_assoc. reflexivity. }
        discriminate H. }
    rewrite H1, H2. cbn [orb]. unfold _convert_table_line.
    rewrite Hs, He. reflexivity. }
  split; [apply Hstep, Hc|].
  intros Hnl. rewrite convert_text_finish, (split_no_sep _ _ Hnl).
  cbn [norm]. rewrite (top_pipe line _ _ Hs).
  unfold finish. cbn [fold_left]. rewrite Hstep by reflexivity.
  reflexivity.
Qed.

Lemma malformed_row_unchanged_witness :
  converted_lines (block_step (mkBlocks [] false true) (lit "| a | (y) *b*"))
  = converted_lines (mkBlocks [] false true) ++ [lit "| a | (y) *b*"]
  /\ (~ In nl (lit "| a | (y) *b*") ->
      convert_text (lit "| a | (y) *b*")
      = Ok (replace (lit "<<<JIRALIST2>>>") (lit "** ")
                    (lit "| a | (y) *b*"))).
Proof.
  apply (malformed_row_unchanged (mkBlocks [] false true)
           (lit "| a | (y) *b*")); reflexivity.
Defined.

(** A malformed row that contains the list placeholder does not come out
    unchanged. *)
Lemma malformed_row_placeholder :
  startswith (lit "|") (strip (lit "| <<<JIRALIST2>>>x")) = true
  /\ endswith (lit "|") (strip (lit "| <<<JIRALIST2>>>x")) = false
  /\ convert_text (lit "| <<<JIRALIST2>>>x") = Ok (lit "| ** x")
  /\ convert_text (lit "| <<<JIRALIST2>>>x")
     <> Ok (lit "| <<<JIRALIST2>>>x").
Proof.
  repeat split; try (vm_compute; reflexivity). vm_compute. discriminate.
Qed.

(** ** Text that the inline rules leave alone *)

Lemma forallb_imp {A} (p q : A -> bool) (l : list A) :
  (forall x, p x = true -> q x = true) ->
  forallb p l = true -> forallb q l = true.
Proof.
  intros Hpq. induction l as [|x l IH]; simpl; [reflexivity|].
  rewrite !andb_true_iff. intros [H1 H2]. split; [apply Hpq, H1|apply IH, H2].
Qed.

Lemma none_of_absent (cs : str) (c x : ascii) :
  In c cs -> none_of cs x = true -> negb (Ascii.eqb x c) = true.
Proof.
  unfold none_of, one_of. rewrite !negb_true_iff. intros Hin H.
  destruct (Ascii.eqb_spec x c) as [->|]; [|reflexivity].
  rewrite <- H. symmetry. apply existsb_exists. exists c.
  split; [exact Hin|apply Ascii.eqb_refl].
Qed.

Lemma absent_of (cs s : str) (c : ascii) :
  In c cs -> forallb (none_of cs) s = true -> absent c s = true.
Proof.
  intros Hin. apply forallb_imp. intros x. apply none_of_absent, Hin.
Qed.

Lemma absent_cons (c x : ascii) (s : str) :
  absent c (x :: s) = true <-> Ascii.eqb x c = false /\ absent c s = true.
Proof.
  unfold absent. cbn [forallb]. rewrite andb_true_iff, negb_true_iff.
  reflexivity.
Qed.

Lemma absent_app (c : ascii) (a b : str) :
  absent c (a ++ b) = absent c a && absent c b.
Proof. apply forallb_app. Qed.

(** A pattern that must read [c] first finds nothing where the next
    character is another one, and nothing at the end of the text. *)
Lemma ms_first_chr ml (c : ascii) (r : re) :
  first_chr c r = true ->
  forall prev s caps,
    match s with
    | [] => True
    | x :: _ => Ascii.eqb x c = false
    end ->
    ms ml r prev s caps = [].
Proof.
  induction r; cbn [first_chr]; try discriminate; intros Hf prev s caps Hs.
  - apply Ascii.eqb_eq in Hf. subst c0. cbn [ms].
    destruct s as [|x s]; [reflexivity|]. rewrite Hs. reflexivity.
  - cbn [ms]. rewrite (IHr1 Hf prev s caps Hs). reflexivity.
  - cbn [ms]. rewrite (IHr Hf prev s caps Hs). reflexivity.
Qed.

Lemma match_at_first_chr ml (c : ascii) (r : re) prev (x : ascii) (s : str) :
  first_chr c r = true -> Ascii.eqb x c = false ->
  match_at ml r prev (x :: s) = None.
Proof.
  intros Hf Hx. unfold match_at.
  rewrite (ms_first_chr ml c r Hf prev (x :: s) [] Hx). reflexivity.
Qed.

Lemma sub_first_chr ml (c : ascii) (r : re) repl :
  first_chr c r = true ->
  forall s prev, absent c s = true -> sub_aux ml r repl 0 prev s = s.
Proof.
  intros Hf. induction s as [|x s IH]; intros prev Ha; [reflexivity|].
  apply absent_cons in Ha. destruct Ha as [Hx Ha].
  cbn [sub_aux]. rewrite (match_at_first_chr ml c r prev x s Hf Hx).
  rewrite IH by exact Ha. reflexivity.
Qed.

Lemma re_sub_first_chr ml (c : ascii) (r : re) repl (s : str) :
  first_chr c r = true -> absent c s = true -> re_sub ml r repl s = s.
Proof. intros Hf Ha. apply (sub_first_chr ml c r repl Hf s None Ha). Qed.

Lemma finditer_first_chr ml (c : ascii) (r : re) :
  first_chr c r = true ->
  forall s prev, absent c s = true -> finditer_aux ml r 0 prev s = [].
Proof.
  intros Hf. induction s as [|x s IH]; intros prev Ha; [reflexivity|].
  apply absent_cons in Ha. destruct Ha as [Hx Ha].
  cbn [finditer_aux]. rewrite (match_at_first_chr ml c r prev x s Hf Hx).
  apply IH, Ha.
Qed.

(** A pattern anchored with [^] finds nothing after the first
    character. *)
Lemma sub_anchored_tail (r : re) repl :
  forall s c, sub_aux false (Seq Bol r) repl 0 (Some c) s = s.
Proof.
  induction s as [|x s IH]; intros c; [reflexivity|].
  cbn [sub_aux]. unfold match_at. cbn [ms at_bol andb flat_map].
  rewrite IH. reflexivity.
Qed.

Lemma sub_anchored (r : re) repl (l : str) :
  match l with
  | [] => True
  | _ :: _ => ms false r None l [] = []
  end ->
  re_sub false (Seq Bol r) repl l = l.
Proof.
  destruct l as [|c s]; intros H; [reflexivity|].
  unfold re_sub. cbn [sub_aux]. unfold match_at.
  cbn [ms at_bol flat_map]. rewrite H. cbn [app].
  rewrite sub_anchored_tail. reflexivity.
Qed.

(** Replacing a string whose first character does not occur. *)
Lemma startswith_absent (c : ascii) (old' s : str) :
  absent c s = true -> startswith (c :: old') s = false.
Proof.
  destruct s as [|x s]; [reflexivity|]. intros H.
  apply absent_cons in H. destruct H as [Hx _]. cbn [startswith].
  rewrite Ascii.eqb_sym, Hx. reflexivity.
Qed.

Lemma contains_absent (c : ascii) (old' s : str) :
  absent c s = true -> contains (c :: old') s = false.
Proof.
  induction s as [|x s IH]; intros H; [reflexivity|].
  cbn [contains]. rewrite (startswith_absent _ _ _ H).
  apply absent_cons in H. destruct H as [_ H]. apply IH, H.
Qed.

Lemma replace_aux_absent (c : ascii) (old' new s : str) :
  absent c s = true -> replace_aux (c :: old') new 0 s = s.
Proof.
  induction s as [|x s IH]; intros H; [reflexivity|].
  cbn [replace_aux]. rewrite (startswith_absent _ _ _ H).
  apply absent_cons in H. destruct H as [_ H]. rewrite IH by exact H.
  reflexivity.
Qed.

Lemma replace_absent (c : ascii) (old' new s : str) :
  absent c s = true -> replace (c :: old') new s = s.
Proof. apply replace_aux_absent. Qed.

Lemma sorted_emoticons_paren :
  Forall (fun e => exists e', e = "("%char :: e')
         (sorted_len_desc jira_emoticons).
Proof.
  change (sorted_len_desc jira_emoticons)
    with (ltac:(let v := eval vm_compute in (sorted_len_desc jira_emoticons)
                in exact v)).
  repeat constructor; eexists; reflexivity.
Qed.

Lemma emoticons_absent (l : str) (d : dict) (n : nat) :
  absent "(" l = true ->
  fold_left emoticon_step (sorted_len_desc jira_emoticons) (mkPh l d n)
  = mkPh l d n.
Proof.
  intros Ha. induction sorted_emoticons_paren as [|e L [e' ->] _ IH];
    [reflexivity|].
  cbn [fold_left]. unfold emoticon_step at 2. cbn [ph_text].
  rewrite (contains_absent _ _ _ Ha). exact IH.
Qed.

(** What a plain line says about its first character. *)
Lemma neutral_start_facts (c : ascii) :
  neutral_start c = true ->
  isspace c = false /\ cls_d c = false
  /\ absent "#" [c] = true /\ absent "-" [c] = true
  /\ absent "+" [c] = true /\ absent "|" [c] = true
  /\ absent ">" [c] = true.
Proof.
  unfold neutral_start. rewrite !andb_true_iff, !negb_true_iff.
  intros [[Hs Hd] Hn].
  assert (H : forallb (none_of (lit "#-+|>")) [c] = true)
    by (cbn [forallb]; rewrite Hn; reflexivity).
  repeat split; try assumption;
    apply (absent_of (lit "#-+|>")); try exact H; simpl; tauto.
Qed.

Lemma inline_free_facts (s : str) :
  forallb inline_free s = true ->
  absent "(" s = true /\ absent "*" s = true /\ absent "`" s = true
  /\ absent "[" s = true /\ absent "~" s = true /\ absent nl s = true.
Proof.
  intros H. repeat split;
    apply (absent_of (lit "(*`[~" ++ [nl])); try exact H; simpl; tauto.
Qed.

Lemma absent_one (c x : ascii) :
  absent c [x] = true -> Ascii.eqb x c = false /\ Ascii.eqb c x = false.
Proof.
  intros H. apply absent_cons in H. destruct H as [H _].
  split; [exact H|]. rewrite Ascii.eqb_sym. exact H.
Qed.

Lemma absent_head (c x : ascii) (s : str) :
  absent c (x :: s) = true -> absent c [x] = true.
Proof.
  intros H. apply absent_cons in H. destruct H as [H _].
  apply absent_cons. split; [exact H|reflexivity].
Qed.

Lemma absent_in (c : ascii) (s : str) : absent c s = true -> ~ In c s.
Proof.
  induction s as [|x s IH]; intros H; [intros []|].
  apply absent_cons in H. destruct H as [Hx H].
  intros [->|Hin]; [rewrite Ascii.eqb_refl in Hx; discriminate|].
  exact (IH H Hin).
Qed.

(** The two list patterns of [self.patterns] find nothing on a line
    whose first character is neutral. *)
Lemma unordered_list_neutral (c : ascii) (s : str) :
  neutral_start c = true -> Ascii.eqb c "*" = false ->
  re_sub false re_unordered_list (expand [TLit (lit "* "); TGrp 1]) (c :: s)
  = c :: s.
Proof.
  intros Hn Hstar.
  destruct (neutral_start_facts c Hn) as (Hs & Hd & _ & H2 & H3 & _).
  apply absent_one in H2, H3.
  unfold re_unordered_list. cbn [seqs]. apply sub_anchored.
  apply nil_no_in. intros st H.
  apply in_ms_seq in H. destruct H as (pv0 & s0 & c0 & H0 & H).
  apply in_ms_neglook in H0. destruct H0 as [_ E0]. inversion E0; subst.
  apply in_ms_seq in H. destruct H as (pv1 & s1 & c1 & H1 & H).
  apply in_ms_rep in H1. destruct H1 as [-> H1].
  apply rep_opts_sound in H1. destruct H1 as (u & E1 & Hu & _).
  destruct (rep_stops_at cls_s c s u s1 E1 Hu Hs) as [-> ->].
  apply in_ms_seq in H. destruct H as (pv2 & s2 & c2 & H2' & _).
  apply in_ms_cls in H2'. destruct H2' as (x & s2' & E2 & Hm & _).
  inversion E2; subst x. unfold one_of in Hm.
  cbn [lit list_ascii_of_string existsb] in Hm.
  destruct H2 as [H2 _], H3 as [H3 _]. rewrite H2, Hstar, H3 in Hm.
  discriminate Hm.
Qed.

Lemma ordered_list_neutral (c : ascii) (s : str) :
  neutral_start c = true ->
  re_sub false re_ordered_list (expand [TLit (lit "# "); TGrp 1]) (c :: s)
  = c :: s.
Proof.
  intros Hn.
  destruct (neutral_start_facts c Hn) as (Hs & Hd & _).
  unfold re_ordered_list. cbn [seqs]. apply sub_anchored.
  apply nil_no_in. intros st H.
  apply in_ms_seq in H. destruct H as (pv1 & s1 & c1 & H1 & H).
  apply in_ms_rep in H1. destruct H1 as [-> H1].
  apply rep_opts_sound in H1. destruct H1 as (u & E1 & Hu & _).
  destruct (rep_stops_at cls_s c s u s1 E1 Hu Hs) as [-> ->].
  apply in_ms_seq in H. destruct H as (pv2 & s2 & c2 & H2 & _).
  apply in_ms_rep in H2. destruct H2 as [-> H2].
  apply rep_opts_sound in H2. destruct H2 as (u2 & E2 & Hu2 & Hl).
  destruct (rep_stops_at cls_d c s u2 s2 E2 Hu2 Hd) as [-> _].
  simpl in Hl. lia.
Qed.

(** A start-anchored pattern that must read [k] first finds nothing on a
    line that starts with another character. *)
Lemma anchored_first_chr (k : ascii) (r : re) repl (c : ascii) (s : str) :
  first_chr k r = true -> Ascii.eqb c k = false ->
  re_sub false (Seq Bol r) repl (c :: s) = c :: s.
Proof.
  intros Hf Hc. apply sub_anchored.
  apply (ms_first_chr false k r Hf None (c :: s) [] Hc).
Qed.

Lemma apply_pattern_plain (l : str) :
  plain_line l = true ->
  Forall (fun e => apply_pattern l e = l) patterns.
Proof.
  destruct l as [|c s]; [intros _; repeat constructor|].
  unfold plain_line. rewrite andb_true_iff. intros [Hn Hi].
  destruct (neutral_start_facts c Hn) as (Hs & Hd & H1 & H2 & H3 & H4 & H5).
  destruct (inline_free_facts _ Hi) as (I1 & I2 & I3 & I4 & I5 & I6).
  apply absent_one in H1, H2, H3, H4, H5.
  destruct H1 as [H1 _], H2 as [H2 _], H4 as [H4 _], H5 as [H5 _].
  assert (Hstar : Ascii.eqb c "*" = false)
    by (apply (absent_one "*" c), (absent_head "*" c s), I2).
  unfold patterns.
  repeat (apply Forall_cons; [try reflexivity|]); [..|apply Forall_nil];
    unfold apply_pattern;
    cbn [existsb String.eqb Ascii.eqb Bool.eqb orb skipped_patterns];
    cbv iota.
  - apply (anchored_first_chr "#"); [reflexivity|exact H1].
  - apply (anchored_first_chr "#"); [reflexivity|exact H1].
  - apply (anchored_first_chr "#"); [reflexivity|exact H1].
  - apply (anchored_first_chr "#"); [reflexivity|exact H1].
  - apply (anchored_first_chr "#"); [reflexivity|exact H1].
  - apply (re_sub_first_chr false "`"); [reflexivity|exact I3].
  - apply unordered_list_neutral; assumption.
  - apply ordered_list_neutral; assumption.
  - apply (re_sub_first_chr false "["); [reflexivity|exact I4].
  - apply (anchored_first_chr "|"); [reflexivity|exact H4].
  - apply (anchored_first_chr "-"); [reflexivity|exact H2].
  - apply (anchored_first_chr ">"); [reflexivity|exact H5].
  - apply (re_sub_first_chr false "~"); [reflexivity|exact I5].
Qed.

Lemma fold_left_fixed {A} (f : str -> A -> str) (l : str) (es : list A) :
  Forall (fun e => f l e = l) es -> fold_left f es l = l.
Proof.
  induction 1 as [|e es He _ IH]; [reflexivity|].
  cbn [fold_left]. rewrite He. exact IH.
Qed.

Lemma patterns_plain (l : str) :
  plain_line l = true -> fold_left apply_pattern patterns l = l.
Proof.
  intros Hp. apply fold_left_fixed, apply_pattern_plain, Hp.
Qed.

(** [_convert_line] returns a plain line as it is. *)
Lemma convert_line_plain (l : str) :
  plain_line l = true -> _convert_line l = l.
Proof.
  intros Hp.
  assert (Hi : forallb inline_free l = true).
  { unfold plain_line in Hp. rewrite andb_true_iff in Hp. tauto. }
  destruct (inline_free_facts _ Hi) as (I1 & I2 & _).
  unfold _convert_line.
  rewrite (emoticons_absent l [] 0 I1). cbn [ph_text ph_dict].
  unfold re_finditer.
  rewrite (finditer_first_chr false "*" re_bold eq_refl l None I2).
  cbn [fold_left ph_text ph_dict].
  rewrite (re_sub_first_chr false "*" re_italic _ l eq_refl I2).
  cbn [restore fold_left]. rewrite (patterns_plain l Hp).
  destruct (startswith (lit "#*") (strip l)); reflexivity.
Qed.

(** ** Lines that only the inline rules see *)

Lemma plain_neutral (l : str) : plain_line l = true -> neutral_line l = true.
Proof.
  destruct l as [|c s]; [reflexivity|].
  unfold plain_line, neutral_line. cbn [forallb].
  rewrite !andb_true_iff. intros [Hn [Hc _]]. split; [exact Hn|].
  unfold inline_free, none_of, one_of in *.
  cbn [lit list_ascii_of_string existsb app] in *.
  rewrite negb_true_iff in *. rewrite !orb_false_iff in *. tauto.
Qed.

Lemma neutral_line_facts (c : ascii) (s : str) :
  neutral_line (c :: s) = true ->
  neutral_start c = true /\ isspace c = false
  /\ Ascii.eqb c "*" = false /\ Ascii.eqb "`" c = false
  /\ Ascii.eqb "#" c = false /\ Ascii.eqb "|" c = false
  /\ starts_marker (c :: rstrip s) = false.
Proof.
  unfold neutral_line. rewrite andb_true_iff. intros [Hn Hx].
  destruct (neutral_start_facts c Hn) as (Hs & Hd & H1 & H2 & H3 & H4 & H5).
  assert (Hx' : forallb (none_of (lit "*`")) [c] = true)
    by (cbn [forallb]; rewrite Hx; reflexivity).
  assert (X1 : absent "*" [c] = true)
    by (apply (absent_of (lit "*`")); [simpl; tauto|exact Hx']).
  assert (X2 : absent "`" [c] = true)
    by (apply (absent_of (lit "*`")); [simpl; tauto|exact Hx']).
  apply absent_one in H1, H2, H3, H4, X1, X2.
  repeat split; try tauto.
  unfold starts_marker. cbn [lit list_ascii_of_string startswith].
  destruct X1 as [_ ->], H2 as [_ ->], H3 as [_ ->]. reflexivity.
Qed.

Lemma numbered_no_digit (c : ascii) (t : str) :
  cls_d c = false -> re_match re_numbered (c :: t) = false.
Proof.
  intros Hd. apply re_match_false. unfold re_numbered. cbn [seqs].
  apply nil_no_in. intros st H.
  apply in_ms_seq in H. destruct H as (pv0 & s0 & c0 & H0 & H).
  apply in_ms_bol in H0. destruct H0 as [_ E0]. inversion E0; subst.
  apply in_ms_seq in H. destruct H as (pv2 & s2 & c2 & H2 & _).
  apply in_ms_rep in H2. destruct H2 as [-> H2].
  apply rep_opts_sound in H2. destruct H2 as (u2 & E2 & Hu2 & Hl).
  destruct (rep_stops_at cls_d c t u2 s2 E2 Hu2 Hd) as [-> _].
  simpl in Hl. lia.
Qed.

(** The list pass hands such a line on as it is ... *)
Lemma top_neutral (l : str) (a b : list str) :
  neutral_line l = true -> top l a b = l :: b.
Proof.
  destruct l as [|c s]; [intros _; reflexivity|]. intros Hn.
  destruct (neutral_line_facts c s Hn) as (Hs & Hsp & _ & _ & Hh & _ & Hm).
  destruct (neutral_start_facts c Hs) as (_ & Hd & _).
  unfold top. rewrite (strip_cons_keep c s Hsp).
  unfold is_ordinal. cbn [lit list_ascii_of_string startswith].
  rewrite Hh, (numbered_no_digit c _ Hd). cbn [andb orb].
  destruct (re_match re_bullet (c :: s)) eqn:Hb; [|reflexivity].
  apply bullet_match_marker in Hb.
  rewrite (strip_cons_keep c s Hsp), Hm in Hb. discriminate Hb.
Qed.

(** ... and the block loop, outside a fence, sends it to
    [_convert_line]. *)
Lemma block_step_neutral (st : blocks) (l : str) :
  in_code_block st = false -> neutral_line l = true ->
  converted_lines (block_step st l) = converted_lines st ++ [_convert_line l].
Proof.
  intros Hc Hn. unfold block_step. rewrite Hc.
  assert (E : startswith (lit "```") (strip l) = false
              /\ startswith (lit "|") (strip l) = false).
  { destruct l as [|c s]; [split; reflexivity|].
    destruct (neutral_line_facts c s Hn) as (_ & Hsp & _ & Hb & _ & Hp & _).
    rewrite (strip_cons_keep c s Hsp). cbn [lit list_ascii_of_string startswith].
    rewrite Hb, Hp. split; reflexivity. }
  destruct E as [-> ->]. rewrite andb_false_r.
  destruct (in_table st); reflexivity.
Qed.

(** A one-line document of this kind. *)
Lemma convert_text_neutral (l : str) :
  neutral_line l = true -> absent nl l = true ->
  convert_text l
  = Ok (replace (lit "<<<JIRALIST2>>>") (lit "** ") (_convert_line l)).
Proof.
  intros Hn Hnl.
  rewrite convert_text_finish, (split_no_sep _ _ (absent_in _ _ Hnl)).
  cbn [norm]. rewrite (top_neutral l _ _ Hn).
  unfold finish. cbn [fold_left].
  rewrite (block_step_neutral (mkBlocks [] false false) l eq_refl Hn).
  reflexivity.
Qed.

Lemma convert_text_plain (l : str) :
  plain_line l = true -> absent "<" l = true -> convert_text l = Ok l.
Proof.
  intros Hp Hlt.
  assert (Hi : forallb inline_free l = true).
  { unfold plain_line in Hp. rewrite andb_true_iff in Hp. tauto. }
  destruct (inline_free_facts _ Hi) as (_ & _ & _ & _ & _ & Hnl).
  rewrite (convert_text_neutral l (plain_neutral l Hp) Hnl).
  rewrite (convert_line_plain l Hp).
  change (lit "<<<JIRALIST2>>>") with ("<"%char :: lit "<<JIRALIST2>>>").
  rewrite (replace_absent "<" _ _ l Hlt). reflexivity.
Qed.

(** ** Headers *)

Lemma Forall_skipn_keep {A} (P : A -> Prop) (k : nat) (l : list A) :
  Forall P l -> Forall P (skipn k l).
Proof.
  intros H. rewrite <- (firstn_skipn k l) in H.
  apply Forall_app in H. tauto.
Qed.

(** The literal part of a pattern reads exactly itself. *)
Lemma ms_lits ml (h : str) :
  forall prev s caps,
    exists pv, ms ml (lits h) prev (h ++ s) caps = [(pv, s, caps)].
Proof.
  induction h as [|c h IH]; intros prev s caps.
  - exists prev. reflexivity.
  - destruct (IH (Some c) s caps) as [pv E]. exists pv.
    cbn [lits ms app flat_map]. rewrite Ascii.eqb_refl.
    cbn [flat_map]. rewrite E. reflexivity.
Qed.

(** A repetition over text that is all of its class can reach the
    end. *)
Lemma rep_opts_end (p : ascii -> bool) :
  forall s prev,
    forallb p s = true ->
    exists init pv, rep_opts p prev s = init ++ [(pv, [])].
Proof.
  induction s as [|c s IH]; intros prev H.
  - exists [], prev. reflexivity.
  - simpl in H. rewrite andb_true_iff in H. destruct H as [Hc H].
    destruct (IH (Some c) H) as (init & pv & E).
    exists ((prev, c :: s) :: init), pv.
    cbn [rep_opts]. rewrite Hc, E. reflexivity.
Qed.

(** [(.+)$] takes the whole of a non-empty text without newline. *)
Lemma ms_rest_of_line (t : str) prev caps :
  t <> [] -> forallb cls_dot t = true ->
  exists pv more,
    ms false (Seq (Grp 1 (Rep true 1 cls_dot)) Eol) prev t caps
    = (pv, [], (1, t) :: caps) :: more.
Proof.
  intros Hne Hall. destruct t as [|c t]; [congruence|].
  simpl in Hall. rewrite andb_true_iff in Hall. destruct Hall as [Hc Hall].
  destruct (rep_opts_end cls_dot t (Some c) Hall) as (init & pv & E).
  exists pv. cbn [ms rep_opts skipn]. rewrite Hc, E.
  rewrite rev_app_distr. cbn [rev app map flat_map fst snd at_eol].
  rewrite Nat.sub_0_r, firstn_all. eexists. reflexivity.
Qed.

Lemma sub_aux_skip_all ml r repl :
  forall s prev, sub_aux ml r repl (length s) prev s = [].
Proof. induction s as [|c s IH]; intros prev; [reflexivity|apply IH]. Qed.

(** The header pattern for [hashes] rewrites the line made of [hashes],
    a space and a title. *)
Lemma header_hit (hashes : str) (tmpl : str) (title : str) :
  hashes <> [] -> title <> [] -> forallb cls_dot title = true ->
  re_sub false (re_header hashes) (expand [TLit tmpl; TGrp 1])
         (hashes ++ " "%char :: title)
  = tmpl ++ title.
Proof.
  intros Hh Ht Hall.
  destruct (ms_lits false hashes None (" "%char :: title) []) as [pv1 E1].
  destruct (ms_rest_of_line title (Some " "%char) [] Ht Hall)
    as (pv2 & more & E2).
  assert (M : match_at false (re_header hashes) None
                       (hashes ++ " "%char :: title)
              = Some (length (hashes ++ " "%char :: title), [(1, title)])).
  { unfold match_at, re_header. cbn [seqs].
    change (ms false (Seq Bol ?r) None ?s [])
      with (flat_map (fun st : mstate =>
                        let '(pv, s', caps') := st in ms false r pv s' caps')
                     [(None, s, [])]).
    cbn [flat_map]. rewrite app_nil_r.
    change (ms false (Seq (lits hashes) ?r) None ?s [])
      with (flat_map (fun st : mstate =>
                        let '(pv, s', caps') := st in ms false r pv s' caps')
                     (ms false (lits hashes) None s [])).
    rewrite E1. cbn [flat_map]. rewrite app_nil_r.
    change (ms false (Seq (Chr " ") ?r) pv1 (" "%char :: title) [])
      with (flat_map (fun st : mstate =>
                        let '(pv, s', caps') := st in ms false r pv s' caps')
                     [(Some " "%char, title, [])]).
    cbn [flat_map]. rewrite app_nil_r, E2.
    cbn [length]. rewrite Nat.sub_0_r. reflexivity. }
  destruct hashes as [|c h]; [congruence|].
  unfold re_sub. cbn [app sub_aux]. cbn [app] in M. rewrite M.
  cbn [length]. rewrite sub_aux_skip_all, app_nil_r.
  cbn [expand flat_map group Nat.eqb]. rewrite !app_nil_r. reflexivity.
Qed.

Lemma header_miss (hashes more : str) repl :
  re_sub false (re_header hashes) repl (hashes ++ "#"%char :: more)
  = hashes ++ "#"%char :: more.
Proof.
  assert (H : ms false (seqs [lits hashes; Chr " ";
                              Grp 1 (Rep true 1 cls_dot); Eol])
                 None (hashes ++ "#"%char :: more) [] = []).
  { destruct (ms_lits false hashes None ("#"%char :: more) []) as [pv E].
    cbn [seqs].
    change (ms false (Seq (lits hashes) ?r) None ?s [])
      with (flat_map (fun st : mstate =>
                        let '(pv, s', caps') := st in ms false r pv s' caps')
                     (ms false (lits hashes) None s [])).
    rewrite E. reflexivity. }
  unfold re_header. cbn [seqs] in *. apply sub_anchored.
  destruct (hashes ++ "#"%char :: more); [exact I|exact H].
Qed.

Lemma absent_header (c : ascii) (k : nat) (title : str) :
  Ascii.eqb "#" c = false -> Ascii.eqb " " c = false ->
  absent c title = true ->
  absent c (repeat "#"%char k ++ " "%char :: title) = true.
Proof.
  intros H1 H2 Ht. induction k as [|k IH]; apply absent_cons; auto.
Qed.

Lemma plain_header (n : nat) (title : str) :
  2 <= n <= 6 -> forallb inline_free title = true ->
  plain_line (header_prefix n ++ title) = true.
Proof.
  intros Hn Hi.
  assert (C : n = 2 \/ n = 3 \/ n = 4 \/ n = 5 \/ n = 6) by lia.
  destruct C as [->|[->|[->|[->| ->]]]];
    unfold plain_line; rewrite forallb_app, Hi; reflexivity.
Qed.

(** A line that starts with two [#] is neither a list item nor a fence
    nor a table row. *)
Lemma top_header (rest : str) (a b : list str) :
  top ("#"%char :: "#"%char :: rest) a b
  = ("#"%char :: "#"%char :: rest) :: b.
Proof.
  unfold top.
  rewrite (strip_cons_keep "#" ("#"%char :: rest) eq_refl),
    (rstrip_cons_keep "#" rest eq_refl).
  unfold is_ordinal. rewrite numbered_no_digit by reflexivity.
  cbn [lit list_ascii_of_string startswith Ascii.eqb Bool.eqb andb negb orb].
  destruct (re_match re_bullet ("#"%char :: "#"%char :: rest)) eqn:Hb;
    [|reflexivity].
  apply bullet_match_marker in Hb.
  rewrite (strip_cons_keep "#" ("#"%char :: rest) eq_refl) in Hb.
  discriminate Hb.
Qed.

Lemma block_step_header (st : blocks) (rest : str) :
  in_code_block st = false ->
  converted_lines (block_step st ("#"%char :: "#"%char :: rest))
  = converted_lines st ++ [_convert_line ("#"%char :: "#"%char :: rest)].
Proof.
  intros Hc. unfold block_step.
  rewrite Hc, (strip_cons_keep "#" ("#"%char :: rest) eq_refl).
  cbn [lit list_ascii_of_string startswith Ascii.eqb Bool.eqb andb].
  rewrite andb_false_r. destruct (in_table st); reflexivity.
Qed.

Lemma patterns_header (n : nat) (title : str) :
  2 <= n <= 6 -> title <> [] -> forallb inline_free title = true ->
  fold_left apply_pattern patterns (repeat "#"%char n ++ " "%char :: title)
  = header_prefix n ++ title.
Proof.
  intros Hn Ht Hi.
  assert (Hdot : forallb cls_dot title = true).
  { destruct (inline_free_facts _ Hi) as (_ & _ & _ & _ & _ & Hnl).
    exact Hnl. }
  pose proof (plain_header n title Hn Hi) as Hp.
  rewrite <- (firstn_skipn (n - 1) patterns), fold_left_app.
  assert (E : fold_left apply_pattern (firstn (n - 1) patterns)
                        (repeat "#"%char n ++ " "%char :: title)
              = header_prefix n ++ title).
  { assert (C : n = 2 \/ n = 3 \/ n = 4 \/ n = 5 \/ n = 6) by lia.
    destruct C as [->|[->|[->|[->| ->]]]];
      cbn [Nat.sub firstn patterns fold_left]; unfold apply_pattern;
      cbn [existsb String.eqb Ascii.eqb Bool.eqb orb skipped_patterns];
      cbv iota;
      repeat match goal with
        | |- context [re_sub false (re_header ?h) ?t ?L] =>
            lazymatch L with
            | context [re_sub] => fail
            | _ => idtac
            end;
            first
              [ change L with (h ++ " "%char :: title);
                rewrite (header_hit h _ title ltac:(discriminate) Ht Hdot)
              | change L with (h ++ "#"%char :: skipn (S (length h)) L);
                rewrite (header_miss h _ t) ]
        end; reflexivity. }
  rewrite E. apply fold_left_fixed, Forall_skipn_keep, apply_pattern_plain, Hp.
Qed.

Lemma convert_line_header (n : nat) (title : str) :
  2 <= n <= 6 -> title <> [] -> forallb inline_free title = true ->
  _convert_line (repeat "#"%char n ++ " "%char :: title)
  = header_prefix n ++ title.
Proof.
  intros Hn Ht Hi.
  destruct (inline_free_facts _ Hi) as (I1 & I2 & _).
  pose proof (absent_header "(" n title eq_refl eq_refl I1) as A1.
  pose proof (absent_header "*" n title eq_refl eq_refl I2) as A2.
  unfold _convert_line.
  rewrite (emoticons_absent _ [] 0 A1). cbn [ph_text ph_dict].
  unfold re_finditer.
  rewrite (finditer_first_chr false "*" re_bold eq_refl _ None A2).
  cbn [fold_left ph_text ph_dict].
  rewrite (re_sub_first_chr false "*" re_italic _ _ eq_refl A2).
  cbn [restore fold_left]. rewrite (patterns_header n title Hn Ht Hi).
  destruct (startswith (lit "#*") (strip _)); reflexivity.
Qed.

Lemma absent_header_prefix (n : nat) (title : str) :
  2 <= n <= 6 -> absent "<" title = true ->
  absent "<" (header_prefix n ++ title) = true.
Proof.
  intros Hn Ht.
  assert (C : n = 2 \/ n = 3 \/ n = 4 \/ n = 5 \/ n = 6) by lia.
  destruct C as [->|[->|[->|[->| ->]]]];
    rewrite absent_app, Ht; reflexivity.
Qed.

(** ** Replacing one occurrence *)

Lemma replace_aux_app_absent (c : ascii) (o new pre s : str) :
  absent c pre = true ->
  replace_aux (c :: o) new 0 (pre ++ s) = pre ++ replace_aux (c :: o) new 0 s.
Proof.
  induction pre as [|x pre IH]; intros H; [reflexivity|].
  apply absent_cons in H. destruct H as [Hx H].
  cbn [app replace_aux startswith]. rewrite Ascii.eqb_sym, Hx. cbn [andb].
  rewrite IH by exact H. reflexivity.
Qed.

Lemma replace_aux_skip (old new u s : str) :
  replace_aux old new (length u) (u ++ s) = replace_aux old new 0 s.
Proof. induction u as [|x u IH]; [reflexivity|exact IH]. Qed.

Lemma replace_aux_hit (c : ascii) (o new s : str) :
  replace_aux (c :: o) new 0 ((c :: o) ++ s)
  = new ++ replace_aux (c :: o) new 0 s.
Proof.
  cbn [app replace_aux].
  change (startswith (c :: o) (c :: o ++ s))
    with (startswith (c :: o) ((c :: o) ++ s)).
  rewrite startswith_app. cbn [length pred].
  rewrite replace_aux_skip. reflexivity.
Qed.

Lemma replace_once (c : ascii) (o new pre post : str) :
  absent c pre = true -> absent c post = true ->
  replace (c :: o) new (pre ++ (c :: o) ++ post) = pre ++ new ++ post.
Proof.
  intros H1 H2. unfold replace.
  rewrite (replace_aux_app_absent c o new pre _ H1), replace_aux_hit,
    (replace_aux_absent c o new post H2).
  reflexivity.
Qed.

Lemma contains_app_absent (c : ascii) (o pre s : str) :
  absent c pre = true -> contains (c :: o) (pre ++ s) = contains (c :: o) s.
Proof.
  induction pre as [|x pre IH]; intros H; [reflexivity|].
  apply absent_cons in H. destruct H as [Hx H].
  cbn [app contains startswith]. rewrite Ascii.eqb_sym, Hx. cbn [andb orb].
  apply IH, H.
Qed.

(** ** Tokens *)

Lemma sep_startswith (t : ascii) (b1 b2 post : str) :
  absent t b1 = true -> absent t b2 = true ->
  startswith (b1 ++ [t]) (b2 ++ t :: post)
  = eqb_str (b1 ++ [t]) (b2 ++ [t]).
Proof.
  revert b2. induction b1 as [|a b1 IH]; intros [|x b2] H1 H2.
  - cbn [app startswith eqb_str]. rewrite Ascii.eqb_refl. reflexivity.
  - apply absent_cons in H2. destruct H2 as [Hx _].
    cbn [app startswith eqb_str]. rewrite Ascii.eqb_sym, Hx. reflexivity.
  - apply absent_cons in H1. destruct H1 as [Ha _].
    cbn [app startswith eqb_str]. rewrite Ha. reflexivity.
  - apply absent_cons in H1. apply absent_cons in H2.
    cbn [app startswith eqb_str]. rewrite IH by tauto. reflexivity.
Qed.

Lemma token_shaped_inv (e : str) :
  token_shaped e = true ->
  exists b, e = "("%char :: b ++ [")"%char]
            /\ absent "(" b = true /\ absent ")" b = true.
Proof.
  destruct e as [|c r]; [discriminate|]. unfold token_shaped.
  rewrite !andb_true_iff, !Ascii.eqb_eq.
  intros [[[[-> Hr] Hl] H1] H2]. exists (removelast r).
  repeat split; try assumption. f_equal.
  rewrite <- Hl. apply app_removelast_last. destruct r; [discriminate|].
  discriminate.
Qed.

Lemma catalogue_member (tok : str) :
  In tok jira_emoticons ->
  token_shaped tok = true
  /\ existsb (fun e => eqb_str e tok) (sorted_len_desc jira_emoticons) = true.
Proof.
  unfold jira_emoticons. intros H.
  repeat (destruct H as [<-|H]; [split; vm_compute; reflexivity|]).
  destruct H.
Qed.

Lemma catalogue_chars (tok : str) :
  In tok jira_emoticons ->
  absent nl tok = true /\ absent "<" tok = true /\ absent "_" tok = true.
Proof.
  unfold jira_emoticons. intros H.
  repeat (destruct H as [<-|H]; [repeat split; vm_compute; reflexivity|]).
  destruct H.
Qed.


(** ** Placeholders *)

Lemma str_of_nat_digits (n : nat) : forallb cls_d (str_of_nat n) = true.
Proof.
  unfold str_of_nat, lit. generalize (Nat.to_uint n). intros u.
  induction u; simpl; try reflexivity; exact IHu.
Qed.

Lemma digit_plain (c : ascii) :
  cls_d c = true ->
  inline_free c = true /\ negb (Ascii.eqb c "<") = true.
Proof.
  intros H.
  assert (N : forall x, cls_d x = false -> Ascii.eqb c x = false).
  { intros x Hx. destruct (Ascii.eqb_spec c x) as [->|]; [|reflexivity].
    congruence. }
  split.
  - unfold inline_free, none_of, one_of.
    cbn [lit list_ascii_of_string app existsb].
    rewrite !N by reflexivity. reflexivity.
  - rewrite N by reflexivity. reflexivity.
Qed.

Lemma digits_plain (s : str) :
  forallb cls_d s = true ->
  forallb inline_free s = true /\ absent "<" s = true.
Proof.
  intros H. split.
  - revert H. apply forallb_imp. intros x Hx. apply digit_plain, Hx.
  - revert H. apply forallb_imp. intros x Hx. apply digit_plain, Hx.
Qed.

Lemma placeholder_plain (head : str) (k : nat) :
  plain_line head = true -> head <> [] -> absent "<" head = true ->
  plain_line (head ++ str_of_nat k ++ lit "__") = true
  /\ absent "<" (head ++ str_of_nat k ++ lit "__") = true.
Proof.
  intros Hp Hne Hlt.
  destruct (digits_plain _ (str_of_nat_digits k)) as [D1 D2].
  split.
  - unfold plain_line in *. rewrite andb_true_iff in *.
    destruct Hp as [Hp1 Hp2]. split.
    + destruct head; [congruence|exact Hp1].
    + rewrite !forallb_app, Hp2, D1. reflexivity.
  - rewrite !absent_app, Hlt, D2. reflexivity.
Qed.

(** ** Claims about placeholders *)




(** ** The scenarios of the specification *)

(** C2 (amended).  The three-line table of the scenario converts to its
    two rows with single pipes: the separator row is dropped, and neither
    row contains a double pipe, so neither is emitted as a header. *)
Theorem table_scenario :
  convert_text (unlines ["|A|B|"; "|--|--|"; "|1|2|"]%string)
  = Ok (unlines ["|A|B|"; "|1|2|"]%string).
Proof. vm_compute. reflexivity. Qed.

Lemma table_scenario_not_header :
  convert_text (unlines ["|A|B|"; "|--|--|"; "|1|2|"]%string)
  <> Ok (unlines ["||A||B||"; "|1|2|"]%string).
Proof. vm_compute. discriminate. Qed.

(** C1.  Inside a fence the block loop copies what it is given, but the
    list pass has already rewritten the lines that look like list items:
    an indented comment of a Python block loses its indentation, a dash
    becomes a bullet. *)
Theorem fence_content_rewritten :
  convert_text (unlines ["```python"; "    # comment"; "```"]%string)
  = Ok (unlines ["{code:python}"; "# comment"; "{code}"]%string)
  /\ convert_text (unlines ["```"; "- item"; "```"]%string)
     = Ok (unlines ["{code}"; "* item"; "{code}"]%string).
Proof. split; vm_compute; reflexivity. Qed.

(** What the block loop itself does inside a fence. *)
Lemma fence_copies (st : blocks) (line : str) :
  in_code_block st = true ->
  startswith (lit "```") (strip line) = false ->
  block_step st line = emit st line.
Proof. intros Hc Hf. unfold block_step. rewrite Hf, Hc. reflexivity. Qed.

(** ** A line of plain text and tokens, piece by piece *)

Lemma in_catalogue_In (e : str) : in_catalogue e = true -> In e jira_emoticons.
Proof.
  unfold in_catalogue. rewrite existsb_exists. intros (x & Hx & E).
  apply eqb_str_eq in E. subst x. exact Hx.
Qed.

Lemma char_context_facts (c : ascii) :
  char_context c = true ->
  inline_free c = true /\ Ascii.eqb c "_" = false /\ Ascii.eqb c "<" = false
  /\ Ascii.eqb c "(" = false /\ Ascii.eqb c nl = false.
Proof.
  unfold char_context. rewrite !andb_true_iff, !negb_true_iff.
  intros [[Hi Hu] Hl]. repeat split; try assumption.
  - apply negb_true_iff.
    apply (none_of_absent (lit "(*`[~" ++ [nl]) "(" c); [simpl; tauto|exact Hi].
  - apply negb_true_iff.
    apply (none_of_absent (lit "(*`[~" ++ [nl]) nl c); [simpl; tauto|exact Hi].
Qed.

Lemma hold_chars (k : nat) :
  plain_line (emoticon_placeholder k) = true
  /\ absent "<" (emoticon_placeholder k) = true
  /\ absent "(" (emoticon_placeholder k) = true.
Proof.
  destruct (placeholder_plain (lit "__EMOTICON_PLACEHOLDER_") k
              eq_refl ltac:(discriminate) eq_refl) as [H1 H2].
  repeat split; try assumption.
  unfold plain_line in H1. rewrite andb_true_iff in H1.
  destruct H1 as [_ H1]. apply (inline_free_facts _ H1).
Qed.

Lemma startswith_tok (e t rest : str) :
  token_shaped e = true -> token_shaped t = true ->
  startswith e (t ++ rest) = eqb_str e t.
Proof.
  intros He Ht.
  destruct (token_shaped_inv e He) as (be & -> & E1 & E2).
  destruct (token_shaped_inv t Ht) as (bt & -> & T1 & T2).
  cbn [app startswith eqb_str]. rewrite <- app_assoc. cbn [app].
  rewrite (sep_startswith ")" be bt rest E2 T2). reflexivity.
Qed.

(** After its first character a token has no [(] left. *)
Lemma tok_tail (t : str) :
  token_shaped t = true ->
  exists r, t = "("%char :: r /\ absent "(" r = true.
Proof.
  intros Ht. destruct (token_shaped_inv t Ht) as (bt & -> & T1 & _).
  exists (bt ++ [")"%char]). split; [reflexivity|].
  rewrite absent_app, T1. reflexivity.
Qed.

Lemma contains_tok (e t rest : str) :
  token_shaped e = true -> token_shaped t = true ->
  contains e (t ++ rest) = eqb_str e t || contains e rest.
Proof.
  intros He Ht.
  pose proof (startswith_tok e t rest He Ht) as S.
  destruct (tok_tail t Ht) as (r & -> & Hr).
  destruct (tok_tail e He) as (re' & -> & _).
  cbn [app contains] in *. rewrite S.
  rewrite (contains_app_absent "(" re' r rest Hr). reflexivity.
Qed.

Lemma replace_tok (e t new rest : str) :
  token_shaped e = true -> token_shaped t = true ->
  replace_aux e new 0 (t ++ rest)
  = (if eqb_str e t then new else t) ++ replace_aux e new 0 rest.
Proof.
  intros He Ht.
  pose proof (startswith_tok e t rest He Ht) as S.
  destruct (eqb_str e t) eqn:E.
  - apply eqb_str_eq in E. subst t.
    destruct (tok_tail e He) as (r & -> & _). apply replace_aux_hit.
  - destruct (tok_tail t Ht) as (r & -> & Hr).
    destruct (tok_tail e He) as (re' & -> & _).
    cbn [app replace_aux] in *. rewrite S.
    rewrite (replace_aux_app_absent "(" re' new r rest Hr). reflexivity.
Qed.

Lemma good_tok_shaped (e : str) : in_catalogue e = true -> token_shaped e = true.
Proof. intros H. apply catalogue_member, in_catalogue_In, H. Qed.

Lemma contains_render (e : str) (ps : list piece) :
  token_shaped e = true ->
  forallb good ps = true -> forallb no_esc ps = true ->
  contains e (render ps) = has_tok e ps.
Proof.
  intros He. induction ps as [|p ps IH]; [intros _ _|].
  - destruct (tok_tail e He) as (r & -> & _). reflexivity.
  - cbn [forallb]. rewrite !andb_true_iff. intros [Hp Hg] [Hn Hne].
    specialize (IH Hg Hne). unfold render in *.
    cbn [flat_map has_tok existsb]. fold (has_tok e ps).
    destruct p as [c|t|k|t]; cbn [render_piece good no_esc] in *.
    + destruct (char_context_facts c Hp) as (_ & _ & _ & Hc & _).
      destruct (tok_tail e He) as (r & -> & _).
      cbn [app contains startswith]. rewrite Ascii.eqb_sym, Hc.
      cbn [andb orb]. exact IH.
    + rewrite (contains_tok e t _ He (good_tok_shaped t Hp)), IH.
      reflexivity.
    + destruct (hold_chars k) as (_ & _ & Hk).
      destruct (tok_tail e He) as (r & -> & _).
      rewrite (contains_app_absent "(" r _ _ Hk). exact IH.
    + discriminate.
Qed.

Lemma replace_render (e : str) (n : nat) (ps : list piece) :
  token_shaped e = true ->
  forallb good ps = true -> forallb no_esc ps = true ->
  replace e (emoticon_placeholder n) (render ps)
  = render (map (swap e n) ps).
Proof.
  intros He Hg Hne.
  assert (R : replace_aux e (emoticon_placeholder n) 0 (render ps)
              = render (map (swap e n) ps)).
  { revert Hg Hne. induction ps as [|p ps IH]; [reflexivity|].
    cbn [forallb]. rewrite !andb_true_iff. intros [Hp Hg] [Hn Hne].
    specialize (IH Hg Hne). unfold render in *. cbn [flat_map map].
    destruct p as [c|t|k|t]; cbn [render_piece good no_esc swap] in *.
    - destruct (char_context_facts c Hp) as (_ & _ & _ & Hc & _).
      destruct (tok_tail e He) as (r & -> & _).
      cbn [app replace_aux startswith]. rewrite Ascii.eqb_sym, Hc.
      cbn [andb]. rewrite IH. reflexivity.
    - rewrite (replace_tok e t _ _ He (good_tok_shaped t Hp)), IH.
      destruct (eqb_str e t); reflexivity.
    - destruct (hold_chars k) as (_ & _ & Hk).
      destruct (tok_tail e He) as (r & -> & _).
      rewrite (replace_aux_app_absent "(" r _ _ _ Hk), IH. reflexivity.
    - discriminate. }
  destruct (tok_tail e He) as (r & -> & _). exact R.
Qed.

(** Placeholders of different numbers are different strings. *)
Lemma str_of_nat_inj (a b : nat) : str_of_nat a = str_of_nat b -> a = b.
Proof.
  unfold str_of_nat, lit. intros H.
  apply (f_equal string_of_list_ascii) in H.
  rewrite !string_of_list_ascii_of_string in H.
  apply (f_equal NilEmpty.uint_of_string) in H.
  rewrite !NilEmpty.usu in H. inversion H.
  apply DecimalNat.Unsigned.to_uint_inj. assumption.
Qed.

Lemma placeholder_neq (j k : nat) :
  j <> k -> eqb_str (emoticon_placeholder k) (emoticon_placeholder j) = false.
Proof.
  intros Hjk. apply eqb_str_neq. unfold emoticon_placeholder. intros E.
  apply app_inv_head, app_inv_tail, str_of_nat_inj in E. congruence.
Qed.

Lemma dict_from_app (es : list str) (e : str) :
  forall k,
    dict_from k (es ++ [e])
    = dict_from k es
      ++ [(emoticon_placeholder (k + length es), "\"%char :: e)].
Proof.
  induction es as [|x es IH]; intros k; cbn [app dict_from length].
  - rewrite Nat.add_0_r. reflexivity.
  - rewrite IH. replace (S k + length es) with (k + S (length es)) by lia.
    reflexivity.
Qed.

Lemma dict_set_fresh (es : list str) (v : str) :
  forall k,
    dict_set (dict_from k es) (emoticon_placeholder (k + length es)) v
    = dict_from k es ++ [(emoticon_placeholder (k + length es), v)].
Proof.
  induction es as [|x es IH]; intros k; cbn [dict_from dict_set length app].
  - reflexivity.
  - rewrite placeholder_neq by lia.
    replace (k + S (length es)) with (S k + length es) by lia.
    rewrite IH. reflexivity.
Qed.

(** One round of the first loop of [_convert_line], on pieces. *)
Lemma emoticon_step_alloc (ps : list piece) (es : list str) (e : str) :
  token_shaped e = true ->
  forallb good ps = true -> forallb no_esc ps = true ->
  emoticon_step (mkPh (render ps) (dict_from 0 es) (length es)) e
  = mkPh (render (fst (alloc (ps, es) e)))
         (dict_from 0 (snd (alloc (ps, es) e)))
         (length (snd (alloc (ps, es) e))).
Proof.
  intros He Hg Hne. unfold emoticon_step, alloc.
  cbn [ph_text ph_dict ph_count fst snd].
  rewrite (contains_render e ps He Hg Hne).
  destruct (has_tok e ps); [|reflexivity].
  cbn [fst snd]. rewrite (replace_render e _ ps He Hg Hne).
  rewrite (dict_set_fresh es _ 0), (dict_from_app es e 0).
  rewrite length_app. cbn [length Nat.add]. rewrite Nat.add_1_r.
  reflexivity.
Qed.

Lemma stands_for_grow (es : list str) (e : str) (p0 p : piece) :
  stands_for es p0 p ->
  stands_for (es ++ [e]) p0 (swap e (length es) p).
Proof.
  intros H. destruct H as [c|t|t k Hk]; cbn [swap].
  - constructor.
  - destruct (eqb_str e t) eqn:E; [|constructor].
    apply eqb_str_eq in E. subst t. constructor.
    rewrite nth_error_app2 by lia. rewrite Nat.sub_diag. reflexivity.
  - constructor. rewrite nth_error_app1; [exact Hk|].
    apply nth_error_Some. congruence.
Qed.

Lemma forallb_map_imp {A B} (p : A -> bool) (q : B -> bool) (f : A -> B)
  (l : list A) :
  (forall x, p x = true -> q (f x) = true) ->
  forallb p l = true -> forallb q (map f l) = true.
Proof.
  intros Hpq. induction l as [|x l IH]; simpl; [reflexivity|].
  rewrite !andb_true_iff. intros [H1 H2]. split; [apply Hpq, H1|apply IH, H2].
Qed.

Lemma alloc_keeps (ps0 ps : list piece) (es : list str) (e : str)
  (L : list str) :
  in_catalogue e = true ->
  Forall2 (stands_for es) ps0 ps ->
  forallb good ps = true -> forallb no_esc ps = true ->
  forallb in_catalogue es = true ->
  forallb (tok_in (e :: L)) ps = true ->
  Forall2 (stands_for (snd (alloc (ps, es) e))) ps0 (fst (alloc (ps, es) e))
  /\ forallb good (fst (alloc (ps, es) e)) = true
  /\ forallb no_esc (fst (alloc (ps, es) e)) = true
  /\ forallb in_catalogue (snd (alloc (ps, es) e)) = true
  /\ forallb (tok_in L) (fst (alloc (ps, es) e)) = true.
Proof.
  intros He HF Hg Hne Hes Ht. unfold alloc. cbn [fst snd].
  destruct (has_tok e ps) eqn:Hh; cbn [fst snd].
  - repeat split.
    + clear Hg Hne Ht Hh. induction HF; constructor; auto.
      apply stands_for_grow. assumption.
    + revert Hg. apply forallb_map_imp.
      intros [c|t|k|t]; cbn [swap good]; auto.
      destruct (eqb_str e t); auto.
    + revert Hne. apply forallb_map_imp.
      intros [c|t|k|t]; cbn [swap no_esc]; auto.
      destruct (eqb_str e t); auto.
    + rewrite forallb_app, Hes. cbn [forallb]. rewrite He. reflexivity.
    + revert Ht. apply forallb_map_imp.
      intros [c|t|k|t]; cbn [swap tok_in existsb]; auto.
      destruct (eqb_str e t); auto.
  - repeat split; try assumption.
    unfold has_tok in Hh. clear HF Hg Hne.
    induction ps as [|p ps IH]; [reflexivity|].
    cbn [existsb forallb] in *. rewrite orb_false_iff in Hh.
    rewrite andb_true_iff in *. destruct Hh as [Hp Hps], Ht as [Tp Tps].
    split; [|exact (IH Tps Hps)].
    destruct p as [c|t|k|t]; cbn [tok_in existsb] in *; auto.
    rewrite Hp in Tp. exact Tp.
Qed.

(** The whole first loop: every token of the line ends up held by a
    placeholder, and the dictionary remembers which. *)
Lemma emoticon_loop (ps0 : list piece) (L : list str) :
  forallb in_catalogue L = true ->
  forall ps es,
    Forall2 (stands_for es) ps0 ps ->
    forallb good ps = true -> forallb no_esc ps = true ->
    forallb in_catalogue es = true ->
    forallb (tok_in L) ps = true ->
    exists ps1 es1,
      fold_left emoticon_step L
                (mkPh (render ps) (dict_from 0 es) (length es))
      = mkPh (render ps1) (dict_from 0 es1) (length es1)
      /\ Forall2 (stands_for es1) ps0 ps1
      /\ forallb good ps1 = true /\ forallb no_tok ps1 = true
      /\ forallb no_esc ps1 = true
      /\ forallb in_catalogue es1 = true.
Proof.
  induction L as [|e L IH]; intros HL ps es HF Hg Hne Hes Ht.
  - exists ps, es. repeat split; assumption.
  - cbn [forallb] in HL. rewrite andb_true_iff in HL. destruct HL as [He HL].
    cbn [fold_left].
    rewrite (emoticon_step_alloc ps es e (good_tok_shaped e He) Hg Hne).
    destruct (alloc_keeps ps0 ps es e L He HF Hg Hne Hes Ht)
      as (A1 & A2 & A3 & A4 & A5).
    exact (IH HL _ _ A1 A2 A3 A4 A5).
Qed.

(** ** Restoring the placeholders *)

Lemma str_of_nat_nonempty (n : nat) : str_of_nat n <> [].
Proof.
  intros E. assert (H : str_of_nat n = str_of_nat 0 -> n = 0)
    by apply str_of_nat_inj.
  destruct n as [|n]; [discriminate E|].
  assert (N : Nat.to_uint (S n) = Decimal.Nil).
  { unfold str_of_nat, lit in E.
    apply (f_equal string_of_list_ascii) in E.
    rewrite string_of_list_ascii_of_string in E.
    apply (f_equal NilEmpty.uint_of_string) in E.
    rewrite NilEmpty.usu in E. inversion E. reflexivity. }
  apply (f_equal Nat.of_uint) in N.
  rewrite DecimalNat.Unsigned.of_to in N. discriminate N.
Qed.

Lemma digit_not_underscore (d : ascii) :
  cls_d d = true -> Ascii.eqb "_" d = false /\ Ascii.eqb d "_" = false.
Proof.
  intros H. split.
  - destruct (Ascii.eqb_spec "_"%char d) as [<-|]; [discriminate H|reflexivity].
  - destruct (Ascii.eqb_spec d "_"%char) as [->|]; [discriminate H|reflexivity].
Qed.

Lemma digits_no_underscore (s : str) :
  forallb cls_d s = true -> absent "_" s = true.
Proof.
  apply forallb_imp. intros x Hx. apply negb_true_iff.
  apply digit_not_underscore, Hx.
Qed.

Lemma startswith_app_same (h a b : str) :
  startswith (h ++ a) (h ++ b) = startswith a b.
Proof.
  induction h as [|c h IH]; [reflexivity|].
  cbn [app startswith]. rewrite Ascii.eqb_refl. exact IH.
Qed.

Lemma startswith_app_false (a b s : str) :
  startswith a s = false -> startswith (a ++ b) s = false.
Proof.
  revert s. induction a as [|c a IH]; intros s; [discriminate|].
  destruct s as [|x s]; [reflexivity|]. cbn [app startswith].
  rewrite !andb_false_iff. intros [H|H]; [left; exact H|right; apply IH, H].
Qed.

(** A placeholder does not start where another one starts. *)
Lemma hold_other_start (j k : nat) (rest : str) :
  j <> k ->
  startswith (emoticon_placeholder k) (emoticon_placeholder j ++ rest)
  = false.
Proof.
  intros Hjk. unfold emoticon_placeholder.
  rewrite <- !app_assoc, startswith_app_same.
  change (lit "__") with (["_"%char] ++ ["_"%char]).
  rewrite (app_assoc (str_of_nat k)). apply startswith_app_false.
  rewrite <- !app_assoc. cbn [app].
  rewrite sep_startswith
    by (apply digits_no_underscore, str_of_nat_digits).
  apply eqb_str_neq. intros E.
  apply app_inv_tail, str_of_nat_inj in E. congruence.
Qed.

(** What follows a placeholder can complete neither of the two windows
    that start on its last underscores. *)
Lemma window_letters (a x : str) (ps : list piece) :
  absent "_" a = true -> absent "\" a = true ->
  forallb good ps = true -> forallb no_tok ps = true ->
  startswith (a ++ "_"%char :: "P"%char :: x) (render ps) = false.
Proof.
  intros Ha Hb. revert ps. induction a as [|c a IH]; intros ps Hg Hn.
  - destruct ps as [|[c|t|k|t] ps]; try reflexivity; try discriminate Hn.
    cbn [forallb good] in Hg. rewrite andb_true_iff in Hg.
    destruct Hg as [Hc _].
    destruct (char_context_facts c Hc) as (_ & Hu & _).
    unfold render. cbn [flat_map render_piece app startswith].
    rewrite Ascii.eqb_sym, Hu. reflexivity.
  - apply absent_cons in Ha. apply absent_cons in Hb.
    destruct Ha as [Hc Ha], Hb as [Hc' Hb].
    destruct ps as [|[y|t|k|t] ps]; try reflexivity; try discriminate Hn.
    + cbn [forallb] in Hg, Hn. rewrite andb_true_iff in Hg, Hn.
      unfold render. cbn [flat_map render_piece app startswith].
      fold (render ps). rewrite (IH Ha Hb ps) by tauto.
      apply andb_false_r.
    + unfold render. cbn [flat_map render_piece].
      unfold emoticon_placeholder.
      cbn [lit list_ascii_of_string app startswith].
      rewrite Hc. reflexivity.
    + unfold render. cbn [flat_map render_piece app startswith].
      rewrite Hc'. reflexivity.
Qed.

Lemma window_underscore (x : str) (ps : list piece) :
  forallb good ps = true -> forallb no_tok ps = true ->
  startswith ("_"%char :: "E"%char :: x) (render ps) = false.
Proof.
  intros Hg Hn.
  destruct ps as [|[c|t|k|t] ps]; try reflexivity; try discriminate Hn.
  cbn [forallb good] in Hg. rewrite andb_true_iff in Hg.
  destruct Hg as [Hc _].
  destruct (char_context_facts c Hc) as (_ & Hu & _).
  unfold render. cbn [flat_map render_piece app startswith].
  rewrite Ascii.eqb_sym, Hu. reflexivity.
Qed.

Lemma replace_aux_miss (old new : str) (c : ascii) (s : str) :
  startswith old (c :: s) = false ->
  replace_aux old new 0 (c :: s) = c :: replace_aux old new 0 s.
Proof. intros H. cbn [replace_aux]. rewrite H. reflexivity. Qed.

(** The scan for the placeholder [k] passes over the placeholder [j]. *)
Lemma hold_miss (j k : nat) (new : str) (ps : list piece) :
  j <> k -> forallb good ps = true -> forallb no_tok ps = true ->
  replace_aux (emoticon_placeholder k) new 0
              (emoticon_placeholder j ++ render ps)
  = emoticon_placeholder j
    ++ replace_aux (emoticon_placeholder k) new 0 (render ps).
Proof.
  intros Hjk Hg Hn.
  pose proof (hold_other_start j k (render ps) Hjk) as H0.
  pose proof (window_letters (lit "EMOTICON")
                (lit "LACEHOLDER_" ++ str_of_nat k ++ lit "__") ps
                eq_refl eq_refl Hg Hn) as W1.
  pose proof (window_underscore
                (lit "MOTICON_PLACEHOLDER_" ++ str_of_nat k ++ lit "__") ps
                Hg Hn) as W2.
  pose proof (str_of_nat_digits j) as Dj.
  pose proof (str_of_nat_nonempty j) as Nj.
  unfold emoticon_placeholder in *.
  set (dk := str_of_nat k) in *.
  destruct (str_of_nat j) as [|d dj]; [congruence|].
  cbn [forallb] in Dj. rewrite andb_true_iff in Dj. destruct Dj as [Dd Dj].
  destruct (digit_not_underscore d Dd) as [U1 U2].
  pose proof (digits_no_underscore dj Dj) as Uj.
  set (old := lit "__EMOTICON_PLACEHOLDER_" ++ dk ++ lit "__") in *.
  rewrite <- !app_assoc in H0. rewrite <- !app_assoc.
  cbn [lit list_ascii_of_string app] in H0 |- *.
  rewrite replace_aux_miss by exact H0.
  do 21 (rewrite replace_aux_miss by reflexivity).
  rewrite replace_aux_miss
    by (subst old; cbn [lit list_ascii_of_string app startswith];
        rewrite U1; reflexivity).
  rewrite replace_aux_miss
    by (subst old; cbn [lit list_ascii_of_string app startswith];
        rewrite U1; reflexivity).
  subst old. cbn [lit list_ascii_of_string app].
  rewrite (replace_aux_app_absent "_" _ new dj _ Uj).
  rewrite replace_aux_miss
    by (cbn [startswith Ascii.eqb Bool.eqb andb];
        cbn [lit list_ascii_of_string app] in W1; exact W1).
  rewrite replace_aux_miss
    by (cbn [startswith Ascii.eqb Bool.eqb andb];
        cbn [lit list_ascii_of_string app] in W2; exact W2).
  reflexivity.
Qed.

Lemma replace_hold (k : nat) (e : str) (ps : list piece) :
  in_catalogue e = true ->
  forallb good ps = true -> forallb no_tok ps = true ->
  replace (emoticon_placeholder k) ("\"%char :: e) (render ps)
  = render (map (fill k e) ps).
Proof.
  intros He Hg Hn.
  assert (R : replace_aux (emoticon_placeholder k) ("\"%char :: e) 0
                          (render ps)
              = render (map (fill k e) ps)).
  { revert Hg Hn. induction ps as [|p ps IH]; [reflexivity|].
    cbn [forallb]. rewrite !andb_true_iff. intros [Hp Hg] [Np Hn].
    specialize (IH Hg Hn).
    destruct p as [c|t|j|t]; cbn [good no_tok] in *; try discriminate.
    - destruct (char_context_facts c Hp) as (_ & Hu & _).
      unfold render in *. cbn [flat_map map fill render_piece app].
      rewrite replace_aux_miss, IH; [reflexivity|].
      unfold emoticon_placeholder.
      cbn [lit list_ascii_of_string app startswith].
      rewrite Ascii.eqb_sym, Hu. reflexivity.
    - cbn [map fill]. destruct (Nat.eqb_spec j k) as [->|Hjk].
      + unfold render in *. cbn [flat_map render_piece].
        change (emoticon_placeholder k)
          with ("_"%char :: lit "_EMOTICON_PLACEHOLDER_" ++ str_of_nat k
                             ++ lit "__").
        rewrite replace_aux_hit.
        change ("_"%char :: lit "_EMOTICON_PLACEHOLDER_" ++ str_of_nat k
                           ++ lit "__")
          with (emoticon_placeholder k).
        rewrite IH. reflexivity.
      + change (render (Hold j :: ps))
          with (emoticon_placeholder j ++ render ps).
        rewrite (hold_miss j k _ ps Hjk Hg Hn), IH. reflexivity.
    - destruct (catalogue_chars t (in_catalogue_In t Hp)) as (_ & _ & Ht).
      change (render (Esc t :: ps)) with (("\"%char :: t) ++ render ps).
      change (emoticon_placeholder k)
        with ("_"%char :: lit "_EMOTICON_PLACEHOLDER_" ++ str_of_nat k
                           ++ lit "__") at 1.
      rewrite replace_aux_app_absent
        by (apply absent_cons; split; [reflexivity|exact Ht]).
      change ("_"%char :: lit "_EMOTICON_PLACEHOLDER_" ++ str_of_nat k
                         ++ lit "__")
        with (emoticon_placeholder k).
      rewrite IH. reflexivity. }
  exact R.
Qed.

(** The whole last loop. *)
Lemma restore_render (es : list str) :
  forallb in_catalogue es = true ->
  forall k ps,
    forallb good ps = true -> forallb no_tok ps = true ->
    restore (dict_from k es) (render ps) = render (fill_from k es ps).
Proof.
  induction es as [|e es IH]; intros Hes k ps Hg Hn; [reflexivity|].
  cbn [forallb] in Hes. rewrite andb_true_iff in Hes.
  destruct Hes as [He Hes].
  unfold restore in *. cbn [dict_from fold_left fst snd fill_from].
  rewrite (replace_hold k e ps He Hg Hn). apply (IH Hes).
  - revert Hg. apply forallb_map_imp. intros [c|t|j|t]; cbn [fill good]; auto.
    destruct (j =? k); auto.
  - revert Hn. apply forallb_map_imp. intros [c|t|j|t]; cbn [fill no_tok]; auto.
    destruct (j =? k); auto.
Qed.

Lemma fill_from_resolve (es : list str) :
  forall k ps, fill_from k es ps = map (resolve k es) ps.
Proof.
  induction es as [|e es IH]; intros k ps.
  - cbn [fill_from]. rewrite <- (map_id ps) at 1. apply map_ext.
    intros [c|t|j|t]; cbn [resolve]; try reflexivity.
    destruct (k <=? j); [|reflexivity].
    destruct (j - k); reflexivity.
  - cbn [fill_from]. rewrite IH, map_map. apply map_ext.
    intros [c|t|j|t]; cbn [fill resolve]; try reflexivity.
    destruct (Nat.eqb_spec j k) as [->|Hjk].
    + cbn [resolve]. rewrite Nat.leb_refl, Nat.sub_diag. reflexivity.
    + cbn [resolve].
      destruct (Nat.leb_spec (S k) j), (Nat.leb_spec k j);
        try lia; [|reflexivity].
      replace (j - k) with (S (j - S k)) by lia. reflexivity.
Qed.

Lemma resolve_stands_for (es : list str) (ps0 ps : list piece) :
  Forall2 (stands_for es) ps0 ps -> forallb no_tok ps = true ->
  map (resolve 0 es) ps = map escape ps0.
Proof.
  induction 1 as [|p0 p ps0 ps Hp _ IH]; [reflexivity|].
  cbn [forallb map]. rewrite andb_true_iff. intros [Np Hn].
  rewrite (IH Hn). f_equal.
  destruct Hp as [c|t|t k Hk]; cbn [resolve escape].
  - reflexivity.
  - discriminate Np.
  - cbn [Nat.leb]. rewrite Nat.sub_0_r, Hk. reflexivity.
Qed.

Lemma stands_for_start (ps : list piece) :
  forallb input_piece ps = true ->
  Forall2 (stands_for []) ps ps
  /\ forallb good ps = true /\ forallb no_esc ps = true
  /\ forallb (tok_in (sorted_len_desc jira_emoticons)) ps = true.
Proof.
  induction ps as [|p ps IH]; [repeat split; constructor|].
  cbn [forallb]. rewrite andb_true_iff. intros [Hp Hps].
  destruct (IH Hps) as (I1 & I2 & I3 & I4).
  destruct p as [c|t|k|t]; cbn [input_piece] in Hp; try discriminate.
  - repeat split; [constructor; [constructor|exact I1]| | |];
      cbn [forallb good no_esc tok_in]; rewrite ?Hp; assumption.
  - repeat split; [constructor; [constructor|exact I1]| | |];
      cbn [forallb good no_esc tok_in]; rewrite ?Hp; try assumption.
    destruct (catalogue_member t (in_catalogue_In t Hp)) as [_ ->].
    exact I4.
Qed.

Lemma sorted_in_catalogue :
  forallb in_catalogue (sorted_len_desc jira_emoticons) = true.
Proof. vm_compute. reflexivity. Qed.

(** The characters of a line of text and placeholders. *)
Lemma held_line_chars (ps : list piece) :
  forallb good ps = true -> forallb no_tok ps = true ->
  forallb no_esc ps = true ->
  forallb inline_free (render ps) = true.
Proof.
  induction ps as [|p ps IH]; [reflexivity|].
  cbn [forallb]. rewrite !andb_true_iff. intros [Hp Hg] [Np Hn] [Ep He].
  unfold render in *. cbn [flat_map]. rewrite forallb_app, (IH Hg Hn He).
  destruct p as [c|t|k|t]; cbn [render_piece good] in *; try discriminate.
  - destruct (char_context_facts c Hp) as (Hi & _).
    cbn [forallb]. rewrite Hi. reflexivity.
  - destruct (hold_chars k) as (Hk & _). unfold plain_line in Hk.
    rewrite andb_true_iff in Hk. destruct Hk as [_ ->]. reflexivity.
Qed.

Lemma held_line_plain (es : list str) (ps0 ps1 : list piece) :
  Forall2 (stands_for es) ps0 ps1 ->
  forallb good ps1 = true -> forallb no_tok ps1 = true ->
  forallb no_esc ps1 = true ->
  neutral_line (render ps0) = true ->
  plain_line (render ps1) = true.
Proof.
  intros HF Hg Hn He H0. unfold plain_line.
  rewrite (held_line_chars ps1 Hg Hn He), andb_true_r.
  destruct HF as [|p0 p ps0 ps1 Hp _]; [reflexivity|].
  destruct Hp as [c|t|t k Hk].
  - unfold render, neutral_line in *. cbn [flat_map render_piece app] in *.
    rewrite andb_true_iff in H0. tauto.
  - discriminate Hn.
  - reflexivity.
Qed.


(** [_convert_line] on a line of plain text and tokens. *)
Lemma convert_line_pieces (ps : list piece) :
  forallb input_piece ps = true ->
  neutral_line (render ps) = true ->
  _convert_line (render ps) = render (map escape ps).
Proof.
  intros Hin H0.
  destruct (stands_for_start ps Hin) as (I1 & I2 & I3 & I4).
  destruct (emoticon_loop ps _ sorted_in_catalogue ps [] I1 I2 I3 eq_refl I4)
    as (ps1 & es1 & E & F1 & F2 & F3 & F4 & F5).
  pose proof (held_line_plain es1 ps ps1 F1 F2 F3 F4 H0) as Hmid.
  assert (Hi : forallb inline_free (render ps1) = true)
    by exact (held_line_chars ps1 F2 F3 F4).
  destruct (inline_free_facts _ Hi) as (_ & Hstar & _).
  unfold _convert_line.
  change (mkPh (render ps) [] 0)
    with (mkPh (render ps) (dict_from 0 []) (@length str [])).
  rewrite E. cbn [ph_text ph_dict].
  unfold re_finditer.
  rewrite (finditer_first_chr false "*" re_bold eq_refl _ None Hstar).
  cbn [fold_left ph_text ph_dict].
  rewrite (re_sub_first_chr false "*" re_italic _ _ eq_refl Hstar).
  change (restore [] (render ps1)) with (render ps1).
  rewrite (patterns_plain _ Hmid).
  rewrite (restore_render es1 F5 0 ps1 F2 F3), fill_from_resolve.
  rewrite (resolve_stands_for es1 ps ps1 F1 F3).
  destruct (startswith (lit "#*") (strip _)); reflexivity.
Qed.

(** ** Claims about tokens *)



(** The witness, written out. *)
Lemma tokens_escaped_example :
  render (map Txt (lit "Light ") ++ [Tok (lit "(on)")]
            ++ map Txt (lit " or ")
            ++ [Tok (lit "(off)"); Tok (lit "(flagoff)"); Tok (lit "(on)")]
            ++ map Txt (lit ", star ") ++ [Tok (lit "(*r)")])
  = lit "Light (on) or (off)(flagoff)(on), star (*r)"
  /\ convert_text (lit "Light (on) or (off)(flagoff)(on), star (*r)")
     = Ok (lit "Light \(on) or \(off)\(flagoff)\(on), star \(*r)").
Proof. split; vm_compute; reflexivity. Qed.


(** Outside plain text the escaping can fail: here the text around the
    token and a bold span of the same line produce a string that the
    restore loop of the bold placeholders takes for one of its own, and
    the token is lost. *)
Lemma token_lost_among_markup :
  convert_text (lit "**x** *a**BOLD*PLACEHOLDER*0(y) *")
  = Ok (lit "*x* _a*x*EMOTICON_PLACEHOLDER_0__ _").
Proof. vm_compute. reflexivity. Qed.

(** ** The expectations of the repository's test suite

    The cases of [test_comprehensive.py] with a literal expected output,
    run on the model. *)

Lemma test_basic_formatting :
  convert_text (lit "## Header 2") = Ok (lit "h2. Header 2")
  /\ convert_text (lit "### Header 3") = Ok (lit "h3. Header 3")
  /\ convert_text (lit "**bold text**") = Ok (lit "*bold text*")
  /\ convert_text (lit "*italic text*") = Ok (lit "_italic text_")
  /\ convert_text (lit "`code`") = Ok (lit "{{code}}")
  /\ convert_text (lit "[link text](http://example.com)")
     = Ok (lit "[link text|http://example.com]")
  /\ convert_text (lit "~~strikethrough~~") = Ok (lit "-strikethrough-").
Proof. repeat split; vm_compute; reflexivity. Qed.

Lemma test_simple_lists :
  convert_text (unlines ["* item 1"; "* item 2"; "* item 3"]%string)
  = Ok (unlines ["* item 1"; "* item 2"; "* item 3"]%string)
  /\ convert_text
       (unlines ["1. first item"; "2. second item"; "3. third item"]%string)
     = Ok (unlines ["# first item"; "# second item"; "# third item"]%string)
  /\ convert_text
       (unlines ["# first item"; "# second item"; "# third item"]%string)
     = Ok (unlines ["# first item"; "# second item"; "# third item"]%string).
Proof. repeat split; vm_compute; reflexivity. Qed.

Lemma test_nested_lists :
  convert_text
    (unlines ["1. First item"; "   - sub item 1.1"; "   - sub item 1.2";
              "2. Second item"; "   - sub item 2.1"]%string)
  = Ok (unlines ["# First item"; "#* sub item 1.1"; "#* sub item 1.2";
                 "# Second item"; "#* sub item 2.1"]%string)
  /\ convert_text
       (unlines ["1. First item"; "   - sub 1.1"; ""; "   - sub 1.2";
                 "2. Second item"; "   - sub 2.1"]%string)
     = Ok (unlines ["# First item"; "#* sub 1.1"; "#* sub 1.2";
                    "# Second item"; "#* sub 2.1"]%string)
  /\ convert_text
       (unlines ["1. **Campaign Template Versioning**";
                 "   - System shall support multiple versions";
                 "";
                 "2. **Business Rule Flag**";
                 "   - Business Rules shall support a flag"]%string)
     = Ok (unlines ["# *Campaign Template Versioning*";
                    "#* System shall support multiple versions";
                    "# *Business Rule Flag*";
                    "#* Business Rules shall support a flag"]%string)
  /\ convert_text
       (unlines ["- Item 1"; "- Item 2 with sub-items:"; "  - Sub-item 2.1";
                 "  - Sub-item 2.2"; "- Item 3"]%string)
     = Ok (unlines ["* Item 1"; "* Item 2 with sub-items:"; "** Sub-item 2.1";
                    "** Sub-item 2.2"; "* Item 3"]%string).
Proof. repeat split; vm_compute; reflexivity. Qed.

Lemma test_mixed_content :
  convert_text
    (unlines ["## Acceptance Criteria"; "";
              "1. **First Requirement**"; "   - sub requirement 1.1";
              "   - sub requirement 1.2"; "";
              "2. **Second Requirement**"; "   - sub requirement 2.1"; "";
              "Some paragraph text here."; "";
              "3. **Third Requirement**"; "   - sub requirement 3.1"]%string)
  = Ok (unlines ["h2. Acceptance Criteria"; "";
                 "# *First Requirement*"; "#* sub requirement 1.1";
                 "#* sub requirement 1.2";
                 "# *Second Requirement*"; "#* sub requirement 2.1";
                 "Some paragraph text here."; "";
                 "# *Third Requirement*"; "#* sub requirement 3.1"]%string).
Proof. vm_compute. reflexivity. Qed.

Lemma test_code_blocks :
  convert_text
    (unlines ["Some text"; ""; "```python"; "def hello():";
              "    print(1)"; "```"; ""; "More text"]%string)
  = Ok (unlines ["Some text"; ""; "{code:python}"; "def hello():";
                 "    print(1)"; "{code}"; ""; "More text"]%string).
Proof. vm_compute. reflexivity. Qed.

Lemma test_horizontal_rules :
  convert_text (unlines ["Some text"; ""; "---"; ""; "More text"]%string)
  = Ok (unlines ["Some text"; ""; "----"; ""; "More text"]%string)
  /\ convert_text (unlines ["1. Item one"; "   - sub item"; ""; "---"]%string)
     = Ok (unlines ["# Item one"; "#* sub item"; ""; "----"]%string)
  /\ convert_text
       (unlines ["1. First list"; ""; "---"; ""; "2. Second list"]%string)
     = Ok (unlines ["# First list"; ""; "----"; ""; "# Second list"]%string).
Proof. repeat split; vm_compute; reflexivity. Qed.

Lemma test_jira_emoticon_escaping :
  convert_text (lit "This is (n) not good") = Ok (lit "This is \(n) not good")
  /\ convert_text (lit "Light (on) or (off)") = Ok (lit "Light \(on) or \(off)")
  /\ convert_text (lit "Star (*) rating") = Ok (lit "Star \(*) rating")
  /\ convert_text (lit "Plus (+) and minus (-)")
     = Ok (lit "Plus \(+) and minus \(-)")
  /\ convert_text (lit "Check (/) mark") = Ok (lit "Check \(/) mark")
  /\ convert_text
       (unlines ["1. Item with (n) in text"; "   - Sub item with (y)"]%string)
     = Ok (unlines ["# Item with \(n) in text";
                    "#* Sub item with \(y)"]%string).
Proof. repeat split; vm_compute; reflexivity. Qed.

(** Malformed input is converted as far as it goes. *)
Lemma malformed_input_converts :
  convert_text (lit "a ** b * c") = Ok (lit "a *_ b _ c")
  /\ convert_text (unlines ["```"; "never closed"]%string)
     = Ok (unlines ["{code}"; "never closed"]%string)
  /\ convert_text (lit "| a | b") = Ok (lit "| a | b").
Proof. repeat split; vm_compute; reflexivity. Qed.

(* ================================================================= *)
(** * Properties of the code beyond the specification *)

(** ** Documents of several lines *)

Lemma split_cons_line (l : str) (t : str) :
  absent nl l = true -> split nl (l ++ nl :: t) = l :: split nl t.
Proof.
  induction l as [|c l IH]; intros H.
  - cbn [app split]. rewrite Ascii.eqb_refl. reflexivity.
  - apply absent_cons in H. destruct H as [Hc H].
    cbn [app split]. rewrite Hc, (IH H). reflexivity.
Qed.

(** ['\n'.join(ls).split('\n')] gives the lines back. *)
Lemma split_join (ls : list str) :
  ls <> [] -> forallb (absent nl) ls = true -> split nl (join [nl] ls) = ls.
Proof.
  induction ls as [|l ls IH]; [congruence|]. intros _ H.
  cbn [forallb] in H. rewrite andb_true_iff in H. destruct H as [Hl H].
  destruct ls as [|l' ls].
  - cbn [join]. apply split_no_sep, absent_in, Hl.
  - change (join [nl] (l :: l' :: ls)) with (l ++ [nl] ++ join [nl] (l' :: ls)).
    cbn [app]. rewrite (split_cons_line l _ Hl), IH; [reflexivity|discriminate|exact H].
Qed.

Lemma startswith_length (p s : str) :
  startswith p s = true -> length p <= length s.
Proof.
  revert s. induction p as [|x p IH]; intros [|y s]; simpl; try lia;
    try discriminate.
  rewrite andb_true_iff. intros [_ H]. apply IH in H. lia.
Qed.

Lemma startswith_before (c : ascii) (p : str) :
  absent c p = true ->
  forall a b, startswith p (a ++ c :: b) = startswith p a.
Proof.
  induction p as [|x p IH]; intros H a b; [destruct a; reflexivity|].
  apply absent_cons in H. destruct H as [Hx H].
  destruct a as [|y a]; cbn [app startswith].
  - rewrite Hx. reflexivity.
  - rewrite (IH H). reflexivity.
Qed.

(** A replacement of a string without newline works line by line. *)
Lemma replace_aux_lines (old new : str) :
  old <> [] -> absent nl old = true ->
  forall a k b,
    k <= length a ->
    replace_aux old new k (a ++ nl :: b)
    = replace_aux old new k a ++ nl :: replace_aux old new 0 b.
Proof.
  intros Hne Ho. induction a as [|c a IH]; intros k b Hk.
  - simpl in Hk. assert (k = 0) by lia. subst k.
    cbn [app replace_aux].
    pose proof (startswith_before nl old Ho [] b) as S. cbn [app] in S.
    rewrite S. destruct old; [congruence|reflexivity].
  - cbn [app replace_aux]. destruct k as [|k].
    + pose proof (startswith_before nl old Ho (c :: a) b) as S.
      cbn [app] in S. rewrite S.
      destruct (startswith old (c :: a)) eqn:E.
      * apply startswith_length in E. simpl in E.
        rewrite IH by (destruct old; simpl in *; lia).
        rewrite <- app_assoc. reflexivity.
      * rewrite IH by lia. reflexivity.
    + simpl in Hk. apply IH. lia.
Qed.

Lemma replace_join (old new : str) (ls : list str) :
  old <> [] -> absent nl old = true ->
  replace old new (join [nl] ls) = join [nl] (map (replace old new) ls).
Proof.
  intros Hne Ho. destruct old as [|o old]; [congruence|]. unfold replace.
  induction ls as [|l ls IH]; [reflexivity|].
  destruct ls as [|l' ls]; [reflexivity|].
  change (join [nl] (l :: l' :: ls)) with (l ++ [nl] ++ join [nl] (l' :: ls)).
  cbn [app].
  rewrite (replace_aux_lines (o :: old) new Hne Ho l 0 _ (Nat.le_0_l _)).
  rewrite IH. reflexivity.
Qed.

(** Without ordered-list items the list pass has one mode only. *)
Lemma norm_no_ordinal (ls : list str) :
  forallb (fun l => negb (is_ordinal (strip l))) ls = true ->
  norm false ls = flat_map (fun l => norm false [l]) ls.
Proof.
  induction ls as [|l ls IH]; [reflexivity|]. cbn [forallb].
  rewrite andb_true_iff, negb_true_iff. intros [Hl H].
  cbn [norm flat_map]. unfold top. rewrite Hl.
  destruct (re_match re_bullet l && negb (startswith (lit "---") (strip l)));
    cbn [app]; rewrite (IH H); reflexivity.
Qed.

(** Outside a fence the block loop appends what it would append to an
    empty output, and stays outside. *)
Lemma block_step_local (st : blocks) (l : str) :
  in_code_block st = false ->
  startswith (lit "```") (strip l) = false ->
  converted_lines (block_step st l)
  = converted_lines st
    ++ converted_lines (block_step (mkBlocks [] false false) l)
  /\ in_code_block (block_step st l) = false.
Proof.
  intros Hc Hf. unfold block_step. rewrite Hc, Hf.
  cbn [in_code_block in_table converted_lines negb].
  destruct (contains (lit "|") l && startswith (lit "|") (strip l)).
  - destruct (eqb_str (strip l) (lit "|")
              || re_match re_table_separator (strip l));
      destruct (in_table st); cbn; rewrite ?app_nil_r; auto.
  - destruct (in_table st); cbn; auto.
Qed.

Lemma bullet_out_start (l : str) :
  exists c s, bullet_out l = c :: s /\ isspace c = false
              /\ Ascii.eqb "`" c = false /\ Ascii.eqb "|" c = false.
Proof.
  unfold bullet_out. destruct (2 <=? length l - length (lstrip l)).
  - exists "<"%char. eexists. repeat split.
  - exists "*"%char. eexists. repeat split.
Qed.

(** What the list pass makes of a line that is no ordered-list item is
    one line, and no fence delimiter or table line unless the line itself
    is one. *)
Lemma norm_single (l : str) :
  is_ordinal (strip l) = false ->
  exists t, norm false [l] = [t]
    /\ (startswith (lit "```") (strip l) = false ->
        startswith (lit "```") (strip t) = false)
    /\ (separator_row l = false -> separator_row t = false).
Proof.
  intros Ho. cbn [norm]. unfold top. rewrite Ho.
  destruct (re_match re_bullet l && negb (startswith (lit "---") (strip l))).
  - exists (bullet_out l). split; [reflexivity|].
    destruct (bullet_out_start l) as (c & s & E & Hs & Hb & Hp).
    rewrite E. unfold separator_row. rewrite (strip_cons_keep c s Hs).
    cbn [lit list_ascii_of_string startswith]. rewrite Hb, Hp.
    rewrite andb_false_r. auto.
  - exists l. auto.
Qed.

(** The lines a one-line document is made into, before they are joined. *)
Lemma line_alone (l : str) :
  self_contained l = true ->
  exists o,
    converted_lines (fold_left block_step (norm false [l])
                               (mkBlocks [] false false)) = [o]
    /\ convert_text l = Ok (replace (lit "<<<JIRALIST2>>>") (lit "** ") o)
    /\ forall st, in_code_block st = false ->
         converted_lines (fold_left block_step (norm false [l]) st)
         = converted_lines st ++ [o]
         /\ in_code_block (fold_left block_step (norm false [l]) st) = false.
Proof.
  unfold self_contained. rewrite !andb_true_iff, !negb_true_iff.
  intros [[[Hnl Ho] Hf] Hs].
  destruct (norm_single l Ho) as (t & E & Tf & Ts).
  specialize (Tf Hf). specialize (Ts Hs).
  assert (O : exists o, converted_lines (block_step (mkBlocks [] false false) t)
                        = [o]).
  { unfold block_step. rewrite Tf. cbn [in_code_block in_table negb].
    unfold separator_row in Ts.
    destruct (contains (lit "|") t && startswith (lit "|") (strip t)).
    - cbn [andb] in Ts. rewrite Ts. eexists. reflexivity.
    - eexists. reflexivity. }
  destruct O as [o Eo]. exists o. rewrite E. cbn [fold_left].
  split; [exact Eo|]. split.
  - rewrite convert_text_finish, (split_no_sep _ _ (absent_in _ _ Hnl)), E.
    unfold finish. cbn [fold_left]. rewrite Eo. reflexivity.
  - intros st Hc. destruct (block_step_local st t Hc Tf) as [B1 B2].
    rewrite B1, Eo. auto.
Qed.

Lemma fold_block_lines (ls : list str) :
  forallb self_contained ls = true ->
  exists outs,
    Forall2 (fun l o =>
               convert_text l
               = Ok (replace (lit "<<<JIRALIST2>>>") (lit "** ") o)) ls outs
    /\ forall st, in_code_block st = false ->
         converted_lines
           (fold_left block_step (flat_map (fun l => norm false [l]) ls) st)
         = converted_lines st ++ outs.
Proof.
  induction ls as [|l ls IH]; intros H.
  - exists []. split; [constructor|]. intros st _. cbn. rewrite app_nil_r.
    reflexivity.
  - cbn [forallb] in H. rewrite andb_true_iff in H. destruct H as [Hl H].
    destruct (line_alone l Hl) as (o & _ & Ec & Est).
    destruct (IH H) as (outs & F & Eouts).
    exists (o :: outs). split; [constructor; assumption|].
    intros st Hc. cbn [flat_map]. rewrite fold_left_app.
    destruct (Est st Hc) as [E1 E2].
    rewrite (Eouts _ E2), E1, <- app_assoc. reflexivity.
Qed.

Lemma self_contained_facts (ls : list str) :
  forallb self_contained ls = true ->
  forallb (absent nl) ls = true
  /\ forallb (fun l => negb (is_ordinal (strip l))) ls = true.
Proof.
  intros H. split; revert H; apply forallb_imp; intros l;
    unfold self_contained; rewrite !andb_true_iff; tauto.
Qed.

Lemma convert_text_lines (ls outs : list str) :
  ls <> [] -> forallb self_contained ls = true ->
  Forall2 (fun l o => convert_text l = Ok o) ls outs ->
  convert_text (join [nl] ls) = Ok (join [nl] outs).
Proof.
  intros Hne H F.
  destruct (self_contained_facts ls H) as [Hnl Ho].
  destruct (fold_block_lines ls H) as (outs0 & F0 & E).
  assert (O : outs = map (replace (lit "<<<JIRALIST2>>>") (lit "** ")) outs0).
  { clear - F F0. revert outs F. induction F0 as [|l o ls outs0 H0 _ IH];
      intros outs F; inversion F; subst; [reflexivity|].
    cbn [map]. f_equal; [congruence|]. apply IH. assumption. }
  rewrite convert_text_finish, (split_join ls Hne Hnl),
    (norm_no_ordinal ls Ho).
  unfold finish. rewrite (E (mkBlocks [] false false) eq_refl).
  cbn [converted_lines app].
  rewrite replace_join, O; [reflexivity|discriminate|reflexivity].
Qed.

(** X1.  A document in which no line is an ordered-list item, a fence
    delimiter or a table separator row is converted line by line: the
    result is made of the results for its lines, each converted as a
    document of its own, joined by newlines. *)
Theorem conversion_is_linewise (ls : list str) :
  ls <> [] -> forallb self_contained ls = true ->
  exists outs,
    Forall2 (fun l o => convert_text l = Ok o) ls outs
    /\ convert_text (join [nl] ls) = Ok (join [nl] outs).
Proof.
  intros Hne H.
  destruct (fold_block_lines ls H) as (outs & F & _).
  assert (F' : Forall2 (fun l o => convert_text l = Ok o) ls
                 (map (replace (lit "<<<JIRALIST2>>>") (lit "** ")) outs)).
  { clear - F. induction F; cbn [map]; constructor; assumption. }
  eexists. split; [exact F'|]. apply convert_text_lines; assumption.
Qed.

Lemma conversion_is_linewise_witness :
  exists outs,
    Forall2 (fun l o => convert_text l = Ok o)
            [lit "- a"; lit "**b** and `c`"; lit "| x | y |"] outs
    /\ convert_text (unlines ["- a"; "**b** and `c`"; "| x | y |"]%string)
       = Ok (join [nl] outs).
Proof.
  apply (conversion_is_linewise [lit "- a"; lit "**b** and `c`"; lit "| x | y |"]).
  - discriminate.
  - vm_compute. reflexivity.
Defined.

Lemma neutral_self_contained (l : str) :
  neutral_line l = true -> absent nl l = true -> self_contained l = true.
Proof.
  intros Hn Hnl. unfold self_contained, separator_row. rewrite Hnl.
  destruct l as [|c s]; [reflexivity|].
  destruct (neutral_line_facts c s Hn) as (Hs & Hsp & _ & Hb & Hh & Hp & _).
  destruct (neutral_start_facts c Hs) as (_ & Hd & _).
  rewrite (strip_cons_keep c s Hsp). unfold is_ordinal.
  cbn [lit list_ascii_of_string startswith].
  rewrite Hh, Hb, Hp, (numbered_no_digit c _ Hd). cbn [andb orb negb].
  rewrite andb_false_r. reflexivity.
Qed.

(** X2.  Prose is left alone.  A document whose lines are plain (no
    markup character, a neutral first character) and contain no [<] is
    returned as it is. *)
Theorem plain_document_unchanged (ls : list str) :
  forallb plain_line ls = true -> forallb (absent "<") ls = true ->
  convert_text (join [nl] ls) = Ok (join [nl] ls).
Proof.
  intros Hp Hlt. destruct ls as [|l0 ls0]; [reflexivity|].
  set (ls := l0 :: ls0) in *.
  assert (Hnl : forallb (absent nl) ls = true).
  { revert Hp. apply forallb_imp. intros l H. unfold plain_line in H.
    apply andb_true_iff in H. apply (inline_free_facts l (proj2 H)). }
  apply convert_text_lines; [discriminate| |].
  - clear Hlt. induction ls as [|l ls' IH]; [reflexivity|].
    cbn [forallb] in *. apply andb_true_iff in Hp, Hnl.
    rewrite (neutral_self_contained l (plain_neutral l (proj1 Hp)) (proj1 Hnl)).
    exact (IH (proj2 Hp) (proj2 Hnl)).
  - clear Hnl. induction ls as [|l ls' IH]; [constructor|].
    cbn [forallb] in *. apply andb_true_iff in Hp, Hlt.
    constructor; [|exact (IH (proj2 Hp) (proj2 Hlt))].
    apply convert_text_plain; tauto.
Qed.

Lemma plain_document_unchanged_witness :
  convert_text (unlines ["Dear all,"; ""; "the build is green."]%string)
  = Ok (unlines ["Dear all,"; ""; "the build is green."]%string).
Proof.
  apply (plain_document_unchanged
           [lit "Dear all,"; lit ""; lit "the build is green."]);
    reflexivity.
Defined.

(** ** The first run of a pattern *)

Lemma first_run_seq ml (r1 r2 : re) prev s caps s1 caps1 s2 caps2 :
  first_run ml r1 prev s caps s1 caps1 ->
  (forall pv, first_run ml r2 pv s1 caps1 s2 caps2) ->
  first_run ml (Seq r1 r2) prev s caps s2 caps2.
Proof.
  intros (pv1 & more1 & E1) H2. destruct (H2 pv1) as (pv2 & more2 & E2).
  exists pv2. cbn [ms]. rewrite E1. cbn [flat_map]. rewrite E2.
  eexists. reflexivity.
Qed.

Lemma first_run_chr ml (c : ascii) prev s caps :
  first_run ml (Chr c) prev (c :: s) caps s caps.
Proof.
  exists (Some c), []. cbn [ms]. rewrite Ascii.eqb_refl. reflexivity.
Qed.

Lemma first_run_cls ml (p : ascii -> bool) (c : ascii) prev s caps :
  p c = true -> first_run ml (Cls p) prev (c :: s) caps s caps.
Proof. intros H. exists (Some c), []. cbn [ms]. rewrite H. reflexivity. Qed.

Lemma first_run_lits ml (h : str) prev s caps :
  first_run ml (lits h) prev (h ++ s) caps s caps.
Proof.
  destruct (ms_lits ml h prev s caps) as [pv E]. exists pv, []. exact E.
Qed.

Lemma first_run_bol ml s caps : first_run ml Bol None s caps s caps.
Proof. exists None, []. reflexivity. Qed.

Lemma first_run_eol ml prev caps : first_run ml Eol prev [] caps [] caps.
Proof. exists prev, []. reflexivity. Qed.

Lemma first_run_neglook ml (r : re) prev s caps :
  ms ml r prev s caps = [] -> first_run ml (NegLook r) prev s caps s caps.
Proof. intros H. exists prev, []. cbn [ms]. rewrite H. reflexivity. Qed.

(** A repetition over the text [x ++ t], where [x] is of the class and
    [t] does not go on with it, can stop at [t] and no later. *)
Lemma rep_opts_stop (p : ascii -> bool) (t : str) :
  head_is (fun c => negb (p c)) t = true ->
  forall x prev,
    forallb p x = true ->
    exists init pv,
      rep_opts p prev (x ++ t) = init ++ [(pv, t)]
      /\ length init = length x.
Proof.
  intros Ht. induction x as [|c x IH]; intros prev Hx.
  - exists [], prev. split; [|reflexivity]. destruct t as [|d t]; [reflexivity|].
    cbn [app rep_opts]. cbn [head_is] in Ht. apply negb_true_iff in Ht.
    rewrite Ht. reflexivity.
  - cbn [forallb] in Hx. rewrite andb_true_iff in Hx. destruct Hx as [Hc Hx].
    destruct (IH (Some c) Hx) as (init & pv & E & L).
    exists ((prev, c :: x ++ t) :: init), pv. cbn [app rep_opts].
    rewrite Hc, E. split; [reflexivity|]. simpl. rewrite L. reflexivity.
Qed.

Lemma first_run_greedy ml (lo : nat) (p : ascii -> bool) (x t : str) prev caps :
  forallb p x = true -> head_is (fun c => negb (p c)) t = true ->
  lo <= length x ->
  first_run ml (Rep true lo p) prev (x ++ t) caps t caps.
Proof.
  intros Hx Ht Hl.
  destruct (rep_opts_stop p t Ht x prev Hx) as (init & pv & E & L).
  exists pv. cbn [ms]. rewrite E, skipn_app.
  replace (lo - length init) with 0 by lia. cbn [skipn].
  rewrite rev_app_distr. cbn [rev app map fst snd]. eexists. reflexivity.
Qed.

Lemma first_run_grp ml (n : nat) (r : re) prev (x t : str) caps caps' :
  first_run ml r prev (x ++ t) caps t caps' ->
  first_run ml (Grp n r) prev (x ++ t) caps t ((n, x) :: caps').
Proof.
  intros (pv & more & E). exists pv. cbn [ms]. rewrite E. cbn [map].
  rewrite length_app, Nat.add_sub, firstn_app, firstn_all, Nat.sub_diag.
  cbn [firstn]. rewrite app_nil_r. eexists. reflexivity.
Qed.

(** A lazy group followed by a closing pattern: the group takes the text
    up to the first place where the closing pattern can start. *)
Lemma lazy_scan ml (rclose : re) (k : ascii) (n : nat) (p : ascii -> bool)
  (t : str) (caps : captures) (s0 : str) :
  first_chr k rclose = true ->
  forall x done prev lo,
    forallb p x = true -> absent k x = true -> lo <= length x ->
    s0 = done ++ x ++ t ->
    exists pv more,
      flat_map (fun st : mstate =>
                  let '(pv, s', caps') := st in ms ml rclose pv s' caps')
        (map (fun st : mstate =>
                let '(pv, s', caps') := st in
                (pv, s', (n, firstn (length s0 - length s') s0) :: caps'))
             (map (fun o : option ascii * str => (fst o, snd o, caps))
                  (skipn lo (rep_opts p prev (x ++ t)))))
      = ms ml rclose pv t ((n, done ++ x) :: caps) ++ more.
Proof.
  intros Hk. induction x as [|c x IH]; intros done prev lo Hx Ha Hl E.
  - simpl in Hl. assert (lo = 0) by lia. subst lo.
    assert (T : exists tl, rep_opts p prev t = (prev, t) :: tl)
      by (destruct t; eexists; reflexivity).
    destruct T as [tl T]. cbn [app skipn]. rewrite T.
    cbn [map flat_map fst snd]. exists prev. eexists.
    rewrite E. cbn [app]. rewrite length_app, Nat.add_sub, firstn_app,
      firstn_all, Nat.sub_diag. cbn [firstn]. reflexivity.
  - cbn [forallb] in Hx. rewrite andb_true_iff in Hx. destruct Hx as [Hc Hx].
    apply absent_cons in Ha. destruct Ha as [Hck Ha].
    assert (E' : s0 = (done ++ [c]) ++ x ++ t)
      by (rewrite E, <- app_assoc; reflexivity).
    cbn [app rep_opts]. rewrite Hc.
    destruct lo as [|lo].
    + cbn [skipn map flat_map fst snd].
      rewrite (ms_first_chr ml k rclose Hk prev (c :: x ++ t) _ Hck).
      cbn [app].
      destruct (IH (done ++ [c]) (Some c) 0 Hx Ha (Nat.le_0_l _) E')
        as (pv & more & R).
      cbn [skipn] in R. rewrite R, <- app_assoc. exists pv, more. reflexivity.
    + cbn [skipn]. simpl in Hl.
      destruct (IH (done ++ [c]) (Some c) lo Hx Ha ltac:(lia) E')
        as (pv & more & R).
      rewrite R, <- app_assoc. exists pv, more. reflexivity.
Qed.

Lemma first_run_lazy ml (rclose : re) (k : ascii) (n lo : nat)
  (p : ascii -> bool) (x t t' : str) prev caps caps' :
  first_chr k rclose = true ->
  forallb p x = true -> absent k x = true -> lo <= length x ->
  (forall pv, first_run ml rclose pv t ((n, x) :: caps) t' caps') ->
  first_run ml (Seq (Grp n (Rep false lo p)) rclose) prev (x ++ t) caps
            t' caps'.
Proof.
  intros Hk Hx Ha Hl Hc.
  destruct (lazy_scan ml rclose k n p t caps (x ++ t) Hk x [] prev lo
                      Hx Ha Hl eq_refl) as (pv & more & R).
  destruct (Hc pv) as (pv' & more' & E).
  exists pv', (more' ++ more). cbn [ms]. cbn [app] in R. rewrite R.
  change ((pv', t', caps') :: more' ++ more)
    with (((pv', t', caps') :: more') ++ more).
  f_equal. exact E.
Qed.

Lemma match_at_first ml (r : re) prev (m rest : str) caps :
  first_run ml r prev (m ++ rest) [] rest caps ->
  match_at ml r prev (m ++ rest) = Some (length m, caps).
Proof.
  intros (pv & more & E). unfold match_at. rewrite E.
  rewrite length_app, Nat.add_sub. reflexivity.
Qed.

(** ** Scanning a text for matches *)

Lemma sub_aux_skip ml r repl (u s : str) :
  forall prev,
    exists prev', sub_aux ml r repl (length u) prev (u ++ s)
                  = sub_aux ml r repl 0 prev' s.
Proof.
  induction u as [|c u IH]; intros prev; [exists prev; reflexivity|].
  cbn [length app sub_aux]. apply IH.
Qed.

Lemma sub_aux_hit ml r repl (m rest : str) prev caps :
  m <> [] -> first_run ml r prev (m ++ rest) [] rest caps ->
  exists prev',
    sub_aux ml r repl 0 prev (m ++ rest)
    = repl ((0, m) :: caps) ++ sub_aux ml r repl 0 prev' rest.
Proof.
  intros Hm H. pose proof (match_at_first ml r prev m rest caps H) as M.
  destruct m as [|c m]; [congruence|].
  destruct (sub_aux_skip ml r repl m rest (Some c)) as [prev' E].
  exists prev'. cbn [app sub_aux]. cbn [app length] in M. rewrite M, E.
  change (firstn (S (length m)) (c :: m ++ rest))
    with (c :: firstn (length m) (m ++ rest)).
  rewrite firstn_app, firstn_all, Nat.sub_diag. cbn [firstn].
  rewrite app_nil_r. reflexivity.
Qed.

Lemma sub_aux_pre ml (c : ascii) (r : re) repl :
  first_chr c r = true ->
  forall pre s prev,
    absent c pre = true ->
    exists prev',
      sub_aux ml r repl 0 prev (pre ++ s)
      = pre ++ sub_aux ml r repl 0 prev' s.
Proof.
  intros Hf. induction pre as [|x pre IH]; intros s prev Ha.
  - exists prev. reflexivity.
  - apply absent_cons in Ha. destruct Ha as [Hx Ha].
    destruct (IH s (Some x) Ha) as [prev' E]. exists prev'.
    cbn [app sub_aux]. rewrite (match_at_first_chr ml c r prev x _ Hf Hx), E.
    reflexivity.
Qed.

(** One match in a text that has the pattern's first character nowhere
    else. *)
Lemma re_sub_once ml (c : ascii) (r : re) repl (pre m post : str) caps :
  first_chr c r = true -> absent c pre = true -> absent c post = true ->
  m <> [] ->
  (forall prev, first_run ml r prev (m ++ post) [] post caps) ->
  re_sub ml r repl (pre ++ m ++ post) = pre ++ repl ((0, m) :: caps) ++ post.
Proof.
  intros Hf Hpre Hpost Hm Hrun. unfold re_sub.
  destruct (sub_aux_pre ml c r repl Hf pre (m ++ post) None Hpre) as [p1 E1].
  destruct (sub_aux_hit ml r repl m post p1 caps Hm (Hrun p1)) as [p2 E2].
  rewrite E1, E2, (sub_first_chr ml c r repl Hf post p2 Hpost). reflexivity.
Qed.

Lemma finditer_aux_skip ml r (u s : str) :
  forall prev,
    exists prev', finditer_aux ml r (length u) prev (u ++ s)
                  = finditer_aux ml r 0 prev' s.
Proof.
  induction u as [|c u IH]; intros prev; [exists prev; reflexivity|].
  cbn [length app finditer_aux]. apply IH.
Qed.


Lemma finditer_aux_hit ml r (m rest : str) prev caps :
  m <> [] -> first_run ml r prev (m ++ rest) [] rest caps ->
  exists prev',
    finditer_aux ml r 0 prev (m ++ rest)
    = ((0, m) :: caps) :: finditer_aux ml r 0 prev' rest.
Proof.
  intros Hm H. pose proof (match_at_first ml r prev m rest caps H) as M.
  destruct m as [|c m]; [congruence|].
  destruct (finditer_aux_skip ml r m rest (Some c)) as [prev' E].
  exists prev'. cbn [app finditer_aux]. cbn [app length] in M. rewrite M, E.
  change (firstn (S (length m)) (c :: m ++ rest))
    with (c :: firstn (length m) (m ++ rest)).
  rewrite firstn_app, firstn_all, Nat.sub_diag. cbn [firstn].
  rewrite app_nil_r. reflexivity.
Qed.


(** ** Where a pattern of [self.patterns] finds nothing *)

Lemma in_ms_lits ml (h : str) :
  forall prev s caps pv s' caps',
    In (pv, s', caps') (ms ml (lits h) prev s caps) ->
    s = h ++ s' /\ caps' = caps.
Proof.
  induction h as [|c h IH]; intros prev s caps pv s' caps' H.
  - cbn [lits ms] in H. destruct H as [H|[]]. inversion H. auto.
  - cbn [lits] in H. apply in_ms_seq in H.
    destruct H as (pv1 & s1 & c1 & H1 & H2).
    apply in_ms_chr in H1. destruct H1 as (s2 & -> & E). inversion E; subst.
    destruct (IH _ _ _ _ _ _ H2) as [-> ->]. auto.
Qed.

Lemma header_quiet (hashes : str) repl (l : str) :
  startswith (hashes ++ lit " ") l = false ->
  re_sub false (re_header hashes) repl l = l.
Proof.
  intros Hs. unfold re_header. cbn [seqs]. apply sub_anchored.
  destruct l as [|c s]; [exact I|]. apply nil_no_in. intros st H.
  apply in_ms_seq in H. destruct H as (pv1 & s1 & c1 & H1 & H).
  apply in_ms_lits in H1. destruct H1 as [E1 ->].
  apply in_ms_seq in H. destruct H as (pv2 & s2 & c2 & H2 & _).
  apply in_ms_chr in H2. destruct H2 as (s3 & -> & _).
  rewrite E1 in Hs.
  change (hashes ++ " "%char :: s3) with (hashes ++ lit " " ++ s3) in Hs.
  rewrite app_assoc, startswith_app in Hs. discriminate Hs.
Qed.

Lemma lstrip_split (s : str) :
  exists ws, s = ws ++ lstrip s /\ forallb isspace ws = true
             /\ head_is not_space (lstrip s) = true.
Proof.
  induction s as [|c s IH]; [exists []; auto|].
  cbn [lstrip]. destruct (isspace c) eqn:Hc.
  - destruct IH as (ws & E & Hw & Hh). exists (c :: ws). cbn [app forallb].
    rewrite Hc, Hw, <- E. auto.
  - exists []. cbn [head_is]. unfold not_space. rewrite Hc. auto.
Qed.

Lemma lstrip_keep (c : ascii) (s : str) :
  isspace c = false -> lstrip (c :: s) = c :: s.
Proof. intros H. cbn [lstrip]. rewrite H. reflexivity. Qed.

Lemma digit_not_space (d : ascii) : cls_d d = true -> isspace d = false.
Proof.
  unfold cls_d, isspace. generalize (nat_of_ascii d). intros n.
  rewrite andb_true_iff, !Nat.leb_le. intros [H1 H2].
  repeat match goal with
    | |- context [?a <=? ?b] =>
        destruct (Nat.leb_spec a b); try lia
    | |- context [?a =? ?b] =>
        destruct (Nat.eqb_spec a b); try lia
    end; reflexivity.
Qed.

Lemma unordered_list_quiet repl (l : str) :
  match lstrip l with
  | [] => true
  | c :: s => negb (one_of (lit "-*+") c) || head_is not_space s
  end = true ->
  re_sub false re_unordered_list repl l = l.
Proof.
  intros Hq. unfold re_unordered_list. cbn [seqs]. apply sub_anchored.
  destruct l as [|c0 l0]; [exact I|]. apply nil_no_in. intros st H.
  apply in_ms_seq in H. destruct H as (pv0 & s0 & c0' & H0 & H).
  apply in_ms_neglook in H0. destruct H0 as [_ E0]. inversion E0; subst.
  apply in_ms_seq in H. destruct H as (pv1 & s1 & c1 & H1 & H).
  apply in_ms_rep in H1. destruct H1 as [-> H1].
  apply rep_opts_sound in H1. destruct H1 as (u & E1 & Hu & _).
  apply in_ms_seq in H. destruct H as (pv2 & s2 & c2 & H2 & H).
  apply in_ms_cls in H2. destruct H2 as (x & s2' & E2 & Hm & E2').
  inversion E2'; subst pv2 s2 c2.
  rewrite E1, E2, (lstrip_spaces u _ Hu),
    (lstrip_keep x s2' (marker_not_space x Hm)), Hm in Hq.
  cbn [negb orb] in Hq.
  apply in_ms_seq in H. destruct H as (pv3 & s3 & c3 & H3 & _).
  apply in_ms_rep in H3. destruct H3 as [_ H3].
  apply rep_opts_sound in H3. destruct H3 as (u3 & E3 & Hu3 & Hl).
  destruct u3 as [|d u3]; [simpl in Hl; lia|].
  rewrite E3 in Hq. cbn [app head_is] in Hq. cbn [forallb] in Hu3.
  unfold not_space in Hq. unfold cls_s in Hu3.
  destruct (isspace d); discriminate.
Qed.

Lemma ordered_list_quiet repl (l : str) :
  head_is (fun c => negb (cls_d c)) (lstrip l) = true ->
  re_sub false re_ordered_list repl l = l.
Proof.
  intros Hq. unfold re_ordered_list. cbn [seqs]. apply sub_anchored.
  destruct l as [|c0 l0]; [exact I|]. apply nil_no_in. intros st H.
  apply in_ms_seq in H. destruct H as (pv1 & s1 & c1 & H1 & H).
  apply in_ms_rep in H1. destruct H1 as [-> H1].
  apply rep_opts_sound in H1. destruct H1 as (u & E1 & Hu & _).
  apply in_ms_seq in H. destruct H as (pv2 & s2 & c2 & H2 & _).
  apply in_ms_rep in H2. destruct H2 as [-> H2].
  apply rep_opts_sound in H2. destruct H2 as (u2 & E2 & Hu2 & Hl).
  destruct u2 as [|d u2]; [simpl in Hl; lia|].
  cbn [forallb] in Hu2. apply andb_true_iff in Hu2. destruct Hu2 as [Hd _].
  rewrite E1, (lstrip_spaces u _ Hu), E2 in Hq. cbn [app] in Hq.
  rewrite (lstrip_keep d _ (digit_not_space d Hd)) in Hq.
  cbn [head_is] in Hq. rewrite Hd in Hq. discriminate Hq.
Qed.

Lemma hr_quiet repl (l : str) :
  eqb_str l (lit "---") = false -> eqb_str l (lit "---" ++ [nl]) = false ->
  re_sub false re_hr repl l = l.
Proof.
  intros H1 H2. unfold re_hr. cbn [seqs]. apply sub_anchored.
  destruct l as [|c s]; [exact I|]. apply nil_no_in. intros st H.
  apply in_ms_seq in H. destruct H as (pv1 & s1 & c1 & L1 & H).
  apply in_ms_lits in L1. destruct L1 as [E1 ->].
  apply in_ms_eol in H. destruct H as [He _].
  apply eqb_str_neq in H1, H2. rewrite E1 in H1, H2.
  destruct s1 as [|x [|y s1]]; cbn [at_eol] in He.
  - apply H1. reflexivity.
  - rewrite andb_true_r in He. apply Ascii.eqb_eq in He. subst x.
    apply H2. reflexivity.
  - rewrite andb_false_r in He. discriminate.
Qed.

Lemma anchored_head (k : ascii) (r : re) repl (l : str) :
  first_chr k r = true -> head_is (not_chr k) l = true ->
  re_sub false (Seq Bol r) repl l = l.
Proof.
  intros Hf Hh. destruct l as [|c s]; [reflexivity|].
  cbn [head_is] in Hh. unfold not_chr in Hh. apply negb_true_iff in Hh.
  apply (anchored_first_chr k r repl c s Hf Hh).
Qed.

(** [quiet] is what it says. *)
Lemma quiet_sound (l : str) :
  Forall (fun e => quiet l (fst e) = true -> apply_pattern l e = l) patterns.
Proof.
  unfold patterns.
  repeat (apply Forall_cons; [|]); [..|apply Forall_nil];
    cbn [fst]; unfold quiet, apply_pattern;
    cbn [existsb String.eqb Ascii.eqb Bool.eqb orb andb skipped_patterns];
    cbv iota; intros Q; try reflexivity.
  - apply header_quiet, negb_true_iff, Q.
  - apply header_quiet, negb_true_iff, Q.
  - apply header_quiet, negb_true_iff, Q.
  - apply header_quiet, negb_true_iff, Q.
  - apply header_quiet, negb_true_iff, Q.
  - apply (re_sub_first_chr false "`"); [reflexivity|exact Q].
  - apply unordered_list_quiet, Q.
  - apply ordered_list_quiet, Q.
  - apply (re_sub_first_chr false "["); [reflexivity|exact Q].
  - apply (anchored_head "|"); [reflexivity|exact Q].
  - apply andb_true_iff in Q. destruct Q as [Q1 Q2].
    apply hr_quiet; apply negb_true_iff; assumption.
  - apply (anchored_head ">"); [reflexivity|exact Q].
  - apply (re_sub_first_chr false "~"); [reflexivity|exact Q].
Qed.

Lemma Forall_firstn_keep {A} (P : A -> Prop) (k : nat) (l : list A) :
  Forall P l -> Forall P (firstn k l).
Proof.
  intros H. rewrite <- (firstn_skipn k l) in H.
  apply Forall_app in H. tauto.
Qed.

Lemma quiet_fold (l : str) (es : list (string * (re * replacement))) :
  Forall (fun e => quiet l (fst e) = true -> apply_pattern l e = l) es ->
  forallb (fun e => quiet l (fst e)) es = true ->
  fold_left apply_pattern es l = l.
Proof.
  induction 1 as [|e es He _ IH]; [reflexivity|].
  cbn [forallb]. rewrite andb_true_iff. intros [Q1 Q2].
  cbn [fold_left]. rewrite (He Q1). exact (IH Q2).
Qed.

(** The patterns before the one at position [k], that one, and the
    patterns after it. *)
Lemma fold_left_at {A B} (f : A -> B -> A) (l : list B) (k : nat) (d : B)
  (a : A) :
  k < length l ->
  fold_left f l a
  = fold_left f (skipn (S k) l) (f (fold_left f (firstn k l) a) (nth k l d)).
Proof.
  revert k a. induction l as [|x l IH]; intros k a Hk; [simpl in Hk; lia|].
  destruct k as [|k]; [reflexivity|].
  cbn [firstn skipn nth fold_left]. apply IH. simpl in Hk. lia.
Qed.

Lemma patterns_before (k : nat) (l : str) :
  forallb (fun e => quiet l (fst e)) (firstn k patterns) = true ->
  fold_left apply_pattern (firstn k patterns) l = l.
Proof. apply quiet_fold, Forall_firstn_keep, quiet_sound. Qed.

Lemma patterns_after (k : nat) (l : str) :
  forallb (fun e => quiet l (fst e)) (skipn k patterns) = true ->
  fold_left apply_pattern (skipn k patterns) l = l.
Proof. apply quiet_fold, Forall_skipn_keep, quiet_sound. Qed.

Lemma patterns_quiet (l : str) :
  forallb (fun e => quiet l (fst e)) patterns = true ->
  fold_left apply_pattern patterns l = l.
Proof. apply (patterns_after 0). Qed.

(** ** One line through [convert_text] and [_convert_line] *)

Lemma head_rstrip (p : ascii -> bool) (s : str) :
  head_is p s = true -> head_is p (rstrip s) = true.
Proof.
  destruct s as [|c s]; [reflexivity|]. cbn [head_is rstrip]. intros H.
  destruct (rstrip s); [destruct (isspace c)|]; auto.
Qed.

Lemma bullet_no_match (c : ascii) (s : str) :
  isspace c = false ->
  one_of (lit "-*+") c = false \/ head_is not_space s = true ->
  re_match re_bullet (c :: s) = false.
Proof.
  intros Hs Hq. apply re_match_false. unfold re_bullet. cbn [seqs].
  apply nil_no_in. intros st H.
  apply in_ms_seq in H. destruct H as (pv0 & s0 & c0 & H0 & H).
  apply in_ms_bol in H0. destruct H0 as [_ E0]. inversion E0; subst.
  apply in_ms_seq in H. destruct H as (pv1 & s1 & c1 & H1 & H).
  apply in_ms_rep in H1. destruct H1 as [-> H1].
  apply rep_opts_sound in H1. destruct H1 as (u & E1 & Hu & _).
  destruct (rep_stops_at cls_s c s u s1 E1 Hu Hs) as [-> ->].
  apply in_ms_seq in H. destruct H as (pv2 & s2 & c2 & H2 & H).
  apply in_ms_cls in H2. destruct H2 as (x & s2' & E2 & Hm & E2').
  inversion E2; subst x s2'. inversion E2'; subst.
  destruct Hq as [Hq|Hq]; [congruence|].
  destruct st as [[pv3 s3] c3].
  apply in_ms_rep in H. destruct H as [_ H3].
  apply rep_opts_sound in H3. destruct H3 as (u & E3 & Hu3 & Hl).
  destruct u as [|d u]; [simpl in Hl; lia|].
  rewrite E3 in Hq. cbn [app head_is] in Hq. cbn [forallb] in Hu3.
  unfold not_space in Hq. unfold cls_s in Hu3.
  destruct (isspace d); discriminate.
Qed.

(** A line that the list pass and the block loop hand to [_convert_line]
    as it is: it starts with a character that is neither white space nor
    a digit nor one of [#], [-], [+], [|]; a [*] at its start is not
    followed by white space, and a backtick there is not followed by
    another one. *)
Lemma convert_text_inline (c : ascii) (s : str) :
  absent nl (c :: s) = true ->
  isspace c = false -> cls_d c = false -> none_of (lit "#-+|") c = true ->
  Ascii.eqb c "*" = false \/ head_is not_space s = true ->
  Ascii.eqb c "`" = false \/ head_is (not_chr "`") s = true ->
  convert_text (c :: s)
  = Ok (replace (lit "<<<JIRALIST2>>>") (lit "** ") (_convert_line (c :: s))).
Proof.
  intros Hnl Hs Hd Hn Hstar Htick.
  assert (N : Ascii.eqb c "#" = false /\ Ascii.eqb c "-" = false
              /\ Ascii.eqb c "+" = false /\ Ascii.eqb c "|" = false).
  { unfold none_of, one_of in Hn. cbn [lit list_ascii_of_string existsb] in Hn.
    rewrite negb_true_iff, !orb_false_iff in Hn. tauto. }
  destruct N as (N1 & N2 & N3 & N4).
  rewrite convert_text_finish, (split_no_sep _ _ (absent_in _ _ Hnl)).
  assert (T : top (c :: s) [] [] = [c :: s]).
  { unfold top. rewrite (strip_cons_keep c s Hs). unfold is_ordinal.
    cbn [lit list_ascii_of_string startswith].
    rewrite (Ascii.eqb_sym "#" c), N1, (numbered_no_digit c _ Hd).
    cbn [andb orb]. rewrite bullet_no_match; [reflexivity|exact Hs|].
    destruct Hstar as [H|H]; [left|right; exact H].
    unfold one_of. cbn [lit list_ascii_of_string existsb].
    rewrite N2, N3, H. reflexivity. }
  cbn [norm]. rewrite T. unfold finish. cbn [fold_left]. unfold block_step.
  rewrite (strip_cons_keep c s Hs).
  assert (F : startswith (lit "```") (c :: rstrip s) = false).
  { cbn [lit list_ascii_of_string startswith].
    destruct Htick as [H|H].
    - rewrite Ascii.eqb_sym, H. reflexivity.
    - apply (head_rstrip _ s) in H. destruct (rstrip s) as [|d t].
      + apply andb_false_r.
      + cbn [head_is] in H. unfold not_chr in H. apply negb_true_iff in H.
        rewrite (Ascii.eqb_sym "`" d), H. cbn [andb]. apply andb_false_r. }
  rewrite F. cbn [in_code_block in_table lit list_ascii_of_string startswith].
  rewrite (Ascii.eqb_sym "|" c), N4. cbn [andb]. rewrite andb_false_r.
  reflexivity.
Qed.

Lemma convert_line_no_token (l : str) :
  absent "(" l = true ->
  _convert_line l
  = fold_left apply_pattern patterns
      (restore
         (ph_dict (fold_left bold_step (re_finditer re_bold l) (mkPh l [] 0)))
         (re_sub false re_italic
                 (expand [TLit (lit "_"); TGrp 1; TLit (lit "_")])
                 (ph_text (fold_left bold_step (re_finditer re_bold l)
                                     (mkPh l [] 0))))).
Proof.
  intros Ha. unfold _convert_line.
  rewrite (emoticons_absent l [] 0 Ha). cbn [ph_text ph_dict].
  cbn [restore fold_left].
  destruct (startswith (lit "#*") (strip l)); reflexivity.
Qed.

Lemma convert_line_no_star (l : str) :
  absent "(" l = true -> absent "*" l = true ->
  _convert_line l = fold_left apply_pattern patterns l.
Proof.
  intros H1 H2. rewrite (convert_line_no_token l H1). unfold re_finditer.
  rewrite (finditer_first_chr false "*" re_bold eq_refl l None H2).
  cbn [fold_left ph_text ph_dict].
  rewrite (re_sub_first_chr false "*" re_italic _ l eq_refl H2).
  reflexivity.
Qed.

Lemma no_sentinel (l : str) :
  absent "<" l = true ->
  replace (lit "<<<JIRALIST2>>>") (lit "** ") l = l.
Proof.
  intros H. change (lit "<<<JIRALIST2>>>") with ("<"%char :: lit "<<JIRALIST2>>>").
  apply replace_absent, H.
Qed.

Lemma forallb_app3 {A} (p : A -> bool) (a b c : list A) :
  forallb p (a ++ b ++ c) = true ->
  forallb p a = true /\ forallb p b = true /\ forallb p c = true.
Proof. rewrite !forallb_app, !andb_true_iff. tauto. Qed.

Lemma neutral_head_facts (c : ascii) :
  neutral_start c = true ->
  isspace c = false /\ cls_d c = false /\ none_of (lit "#-+|") c = true
  /\ Ascii.eqb c "#" = false /\ Ascii.eqb c "-" = false
  /\ Ascii.eqb c "+" = false /\ Ascii.eqb c "|" = false
  /\ Ascii.eqb c ">" = false.
Proof.
  unfold neutral_start, none_of, one_of.
  cbn [lit list_ascii_of_string existsb].
  rewrite !andb_true_iff, !negb_true_iff, !orb_false_iff.
  intros [[Hs Hd] (N1 & N2 & N3 & N4 & N5 & _)]. rewrite N1, N2, N3, N4.
  repeat split; auto.
Qed.

Lemma head_app (p : ascii -> bool) (pre rest : str) :
  head_is p pre = true -> head_is p rest = true ->
  head_is p (pre ++ rest) = true.
Proof. destruct pre; auto. Qed.

Lemma absent_head_is (k : ascii) (l : str) :
  absent k l = true -> head_is (not_chr k) l = true.
Proof.
  destruct l as [|c s]; [reflexivity|]. intros H. apply absent_cons in H.
  cbn [head_is]. unfold not_chr. rewrite (proj1 H). reflexivity.
Qed.

Lemma startswith_head (k : ascii) (o l : str) :
  head_is (not_chr k) l = true -> startswith (k :: o) l = false.
Proof.
  destruct l as [|c s]; [reflexivity|]. cbn [head_is startswith].
  unfold not_chr. rewrite negb_true_iff, Ascii.eqb_sym. intros ->.
  reflexivity.
Qed.

Lemma head_imp (p q : ascii -> bool) (l : str) :
  (forall c, p c = true -> q c = true) ->
  head_is p l = true -> head_is q l = true.
Proof. destruct l; simpl; auto. Qed.

(** The patterns anchored at the start of the line find nothing in a
    line with a neutral first character, unless that character is a [*]
    with white space behind it. *)
Lemma quiet_anchored (l : str) :
  head_is neutral_start l = true ->
  head_is (not_chr "*") l = true \/ head_is not_space (tl l) = true ->
  quiet l "h2" = true /\ quiet l "h3" = true /\ quiet l "h4" = true
  /\ quiet l "h5" = true /\ quiet l "h6" = true
  /\ quiet l "unordered_list" = true /\ quiet l "ordered_list" = true
  /\ quiet l "table_separator" = true /\ quiet l "hr" = true
  /\ quiet l "blockquote" = true.
Proof.
  intros Hn Hs. destruct l as [|c s]; [repeat split|].
  cbn [head_is tl] in *.
  destruct (neutral_head_facts c Hn) as (N0 & N1 & _ & N2 & N3 & N4 & N5 & N6).
  unfold quiet.
  cbn [existsb String.eqb Ascii.eqb Bool.eqb orb andb skipped_patterns].
  cbv iota. rewrite (lstrip_keep c s N0).
  cbn [lit list_ascii_of_string startswith eqb_str head_is app].
  unfold not_chr, not_space, one_of.
  cbn [lit list_ascii_of_string existsb].
  rewrite ?(Ascii.eqb_sym _ c), ?N0, ?N1, ?N2, ?N3, ?N4, ?N5, ?N6.
  cbn [andb orb negb]. repeat split.
  unfold not_chr in Hs. destruct Hs as [Hs|Hs].
  - apply negb_true_iff in Hs. rewrite Hs. reflexivity.
  - unfold not_space in Hs. rewrite Hs. apply orb_true_r.
Qed.

Lemma quiet_inline (l : str) :
  quiet l "code_inline" = absent "`" l /\ quiet l "link" = absent "[" l
  /\ quiet l "strikethrough" = absent "~" l
  /\ quiet l "code_block" = true /\ quiet l "code_block_no_lang" = true
  /\ quiet l "table_header" = true /\ quiet l "table_row" = true.
Proof. repeat split. Qed.

Lemma convert_text_inline_line (l : str) :
  absent nl l = true -> head_is neutral_start l = true ->
  head_is (not_chr "*") l = true \/ head_is not_space (tl l) = true ->
  head_is (not_chr "`") l = true \/ head_is (not_chr "`") (tl l) = true ->
  convert_text l
  = Ok (replace (lit "<<<JIRALIST2>>>") (lit "** ") (_convert_line l)).
Proof.
  intros Hnl Hn Hs Ht. destruct l as [|c s]; [reflexivity|].
  cbn [head_is tl] in *.
  destruct (neutral_head_facts c Hn) as (N0 & N1 & N2 & _).
  unfold not_chr in *. rewrite !negb_true_iff in *.
  apply convert_text_inline; auto.
Qed.

Lemma convert_line_no_emoticon (l : str) :
  fold_left emoticon_step (sorted_len_desc jira_emoticons) (mkPh l [] 0)
  = mkPh l [] 0 ->
  absent "*" l = true ->
  _convert_line l = fold_left apply_pattern patterns l.
Proof.
  intros H1 H2. unfold _convert_line. rewrite H1. cbn [ph_text ph_dict].
  unfold re_finditer.
  rewrite (finditer_first_chr false "*" re_bold eq_refl l None H2).
  cbn [fold_left ph_text ph_dict].
  rewrite (re_sub_first_chr false "*" re_italic _ l eq_refl H2).
  cbn [restore fold_left].
  destruct (startswith (lit "#*") (strip l)); reflexivity.
Qed.

(** A line in which exactly one pattern of [self.patterns] finds
    something. *)
Lemma convert_line_one_hit (k : nat) (l l' : str) :
  k < length patterns ->
  fold_left emoticon_step (sorted_len_desc jira_emoticons) (mkPh l [] 0)
  = mkPh l [] 0 ->
  absent "*" l = true ->
  forallb (fun e => quiet l (fst e)) (firstn k patterns) = true ->
  apply_pattern l (nth k patterns (""%string, (Eps, Template []))) = l' ->
  forallb (fun e => quiet l' (fst e)) (skipn (S k) patterns) = true ->
  _convert_line l = l'.
Proof.
  intros Hk He Hs Q1 Hit Q2.
  rewrite (convert_line_no_emoticon l He Hs).
  rewrite (fold_left_at apply_pattern patterns k
                        (""%string, (Eps, Template [])) l Hk).
  rewrite (patterns_before k l Q1), Hit. apply patterns_after, Q2.
Qed.

Lemma space_absent (k : ascii) (ws : str) :
  isspace k = false -> forallb isspace ws = true -> absent k ws = true.
Proof.
  intros Hk. apply forallb_imp. intros x Hx.
  destruct (Ascii.eqb_spec x k) as [->|]; [congruence|reflexivity].
Qed.

(** ** Inline markup *)

Lemma inline_free_parts (pre x post : str) :
  forallb inline_free (pre ++ x ++ post) = true ->
  forall c, In c (lit "(*`[~" ++ [nl]) ->
    absent c pre = true /\ absent c x = true /\ absent c post = true.
Proof.
  intros H c Hc. apply forallb_app3 in H. destruct H as (H1 & H2 & H3).
  repeat split; apply (absent_of (lit "(*`[~" ++ [nl])); assumption.
Qed.

Lemma absent_parts (c : ascii) (pre x post : str) :
  absent c (pre ++ x ++ post) = true ->
  absent c pre = true /\ absent c x = true /\ absent c post = true.
Proof. apply forallb_app3. Qed.

Ltac absent_span :=
  rewrite ?absent_app;
  repeat match goal with
    | H : absent _ _ = true |- _ => rewrite H
    end;
  reflexivity.

Ltac quiet_span QA QI :=
  repeat match goal with x := _ |- _ => subst x end;
  cbn [firstn skipn patterns forallb fst];
  destruct QA as (?Q & ?Q & ?Q & ?Q & ?Q & ?Q & ?Q & ?Q & ?Q & ?Q);
  destruct QI as (?Q & ?Q & ?Q & ?Q & ?Q & ?Q & ?Q);
  repeat match goal with
    | H : quiet _ _ = _ |- _ => rewrite H
    end;
  try absent_span.

Ltac span_facts pre x post Hi Hlt :=
  let P := fresh "P" in
  pose proof (inline_free_parts pre x post Hi) as P;
  destruct (P "("%char ltac:(simpl; tauto)) as (?A & ?A & ?A);
  destruct (P "*"%char ltac:(simpl; tauto)) as (?B & ?B & ?B);
  destruct (P "`"%char ltac:(simpl; tauto)) as (?C & ?C & ?C);
  destruct (P "["%char ltac:(simpl; tauto)) as (?D & ?D & ?D);
  destruct (P "~"%char ltac:(simpl; tauto)) as (?E & ?E & ?E);
  destruct (P nl ltac:(simpl; tauto)) as (?F & ?F & ?F);
  destruct (absent_parts _ _ _ _ Hlt) as (?G & ?G & ?G); clear P.

Ltac unfold_entry :=
  cbn [nth patterns]; unfold apply_pattern;
  cbn [existsb String.eqb Ascii.eqb Bool.eqb orb andb skipped_patterns];
  cbv iota.

(** X3.  Inline code.  In a line of plain text, a span between two
    backticks comes out between double braces, and nothing else
    changes. *)
Theorem inline_code_span (pre x post : str) :
  head_is neutral_start pre = true -> x <> [] ->
  forallb inline_free (pre ++ x ++ post) = true ->
  absent "<" (pre ++ x ++ post) = true ->
  convert_text (pre ++ lit "`" ++ x ++ lit "`" ++ post)
  = Ok (pre ++ lit "{{" ++ x ++ lit "}}" ++ post).
Proof.
  intros Hh Hx Hi Hlt. span_facts pre x post Hi Hlt.
  set (L := pre ++ lit "`" ++ x ++ lit "`" ++ post).
  set (L' := pre ++ lit "{{" ++ x ++ lit "}}" ++ post).
  assert (HL : head_is neutral_start L = true)
    by (apply head_app; [exact Hh|reflexivity]).
  assert (HL' : head_is neutral_start L' = true)
    by (apply head_app; [exact Hh|reflexivity]).
  assert (SL : head_is (not_chr "*") L = true)
    by (apply head_app; [apply absent_head_is; assumption|reflexivity]).
  assert (SL' : head_is (not_chr "*") L' = true)
    by (apply head_app; [apply absent_head_is; assumption|reflexivity]).
  rewrite (convert_text_inline_line L); auto.
  2:{ unfold L. absent_span. }
  2:{ unfold L. destruct pre as [|c pre].
      - right. destruct x as [|d x]; [congruence|].
        apply (absent_head_is "`" (d :: x)). assumption.
      - left. apply (absent_head_is "`" (c :: pre)). assumption. }
  f_equal.
  pose proof (quiet_anchored L HL (or_introl SL)) as QA.
  pose proof (quiet_anchored L' HL' (or_introl SL')) as QA'.
  pose proof (quiet_inline L) as QI. pose proof (quiet_inline L') as QI'.
  rewrite (convert_line_one_hit 5 L L').
  - apply no_sentinel. unfold L'. absent_span.
  - vm_compute. lia.
  - apply emoticons_absent. unfold L. absent_span.
  - unfold L. absent_span.
  - quiet_span QA QI.
  - unfold_entry. unfold L, L'.
    replace (pre ++ lit "`" ++ x ++ lit "`" ++ post)
      with (pre ++ (lit "`" ++ x ++ lit "`") ++ post)
      by (rewrite <- !app_assoc; reflexivity).
    rewrite (re_sub_once false "`" re_code_inline _ pre
               (lit "`" ++ x ++ lit "`") post [(1, x)] eq_refl C C1
               ltac:(discriminate)).
    + cbn [expand flat_map group Nat.eqb]. rewrite !app_nil_r, <- !app_assoc.
      reflexivity.
    + intros prev. unfold re_code_inline. cbn [seqs].
      rewrite <- !app_assoc.
      apply (first_run_seq false _ _ _ _ _ (x ++ lit "`" ++ post) []);
        [apply first_run_chr|]. intros pv.
      apply (first_run_lazy false (Chr "`") "`" 1 1 cls_dot x
                            (lit "`" ++ post) post pv [] [(1, x)]);
        try assumption; try reflexivity.
      * destruct x; [congruence|simpl; lia].
      * intros pv'. apply first_run_chr.
  - quiet_span QA' QI'.
Qed.

Lemma inline_code_span_witness :
  convert_text (lit "call `f x` now") = Ok (lit "call {{f x}} now").
Proof.
  apply (inline_code_span (lit "call ") (lit "f x") (lit " now"));
    [reflexivity|discriminate|reflexivity|reflexivity].
Defined.

(** X4.  Strikethrough.  In a line of plain text, a span between double
    tildes comes out between two dashes. *)
Theorem strikethrough_span (pre x post : str) :
  head_is neutral_start pre = true -> x <> [] ->
  forallb inline_free (pre ++ x ++ post) = true ->
  absent "<" (pre ++ x ++ post) = true ->
  convert_text (pre ++ lit "~~" ++ x ++ lit "~~" ++ post)
  = Ok (pre ++ lit "-" ++ x ++ lit "-" ++ post).
Proof.
  intros Hh Hx Hi Hlt. span_facts pre x post Hi Hlt.
  set (L := pre ++ lit "~~" ++ x ++ lit "~~" ++ post).
  set (L' := pre ++ lit "-" ++ x ++ lit "-" ++ post).
  assert (HL : head_is neutral_start L = true)
    by (apply head_app; [exact Hh|reflexivity]).
  assert (SL : head_is (not_chr "*") L = true)
    by (apply head_app; [apply absent_head_is; assumption|reflexivity]).
  rewrite (convert_text_inline_line L); auto.
  2:{ unfold L. absent_span. }
  2:{ left. apply head_app; [apply absent_head_is; assumption|reflexivity]. }
  f_equal.
  pose proof (quiet_anchored L HL (or_introl SL)) as QA.
  pose proof (quiet_inline L) as QI.
  rewrite (convert_line_one_hit 16 L L').
  - apply no_sentinel. unfold L'. absent_span.
  - vm_compute. lia.
  - apply emoticons_absent. unfold L. absent_span.
  - unfold L. absent_span.
  - quiet_span QA QI.
  - unfold_entry. unfold L, L'.
    replace (pre ++ lit "~~" ++ x ++ lit "~~" ++ post)
      with (pre ++ (lit "~~" ++ x ++ lit "~~") ++ post)
      by (rewrite <- !app_assoc; reflexivity).
    rewrite (re_sub_once false "~" re_strikethrough _ pre
               (lit "~~" ++ x ++ lit "~~") post [(1, x)] eq_refl E E1
               ltac:(discriminate)).
    + cbn [expand flat_map group Nat.eqb]. rewrite !app_nil_r, <- !app_assoc.
      reflexivity.
    + intros prev. unfold re_strikethrough. cbn [seqs].
      rewrite <- !app_assoc.
      apply (first_run_seq false _ _ _ _ _ (x ++ lit "~~" ++ post) []);
        [apply first_run_lits|]. intros pv.
      apply (first_run_lazy false (lits (lit "~~")) "~" 1 1 cls_dot x
                            (lit "~~" ++ post) post pv [] [(1, x)]);
        try assumption; try reflexivity.
      * destruct x; [congruence|simpl; lia].
      * intros pv'. apply first_run_lits.
  - reflexivity.
Qed.

Lemma strikethrough_span_witness :
  convert_text (lit "an ~~old~~ idea") = Ok (lit "an -old- idea").
Proof.
  apply (strikethrough_span (lit "an ") (lit "old") (lit " idea"));
    [reflexivity|discriminate|reflexivity|reflexivity].
Defined.

(** A parenthesised text that is no token of the catalogue is left alone
    by the first loop of [_convert_line]. *)
Lemma emoticons_not_listed (a tok b : str) (d : dict) (n : nat) :
  absent "(" a = true -> absent "(" b = true ->
  token_shaped tok = true -> in_catalogue tok = false ->
  fold_left emoticon_step (sorted_len_desc jira_emoticons)
            (mkPh (a ++ tok ++ b) d n)
  = mkPh (a ++ tok ++ b) d n.
Proof.
  intros Ha Hb Ht Hn.
  pose proof sorted_in_catalogue as S. revert S.
  generalize (sorted_len_desc jira_emoticons) as es.
  induction es as [|e es IH]; [reflexivity|]. cbn [forallb].
  rewrite andb_true_iff. intros [He Hes]. cbn [fold_left].
  unfold emoticon_step at 2. cbn [ph_text].
  pose proof (good_tok_shaped e He) as Se.
  destruct (tok_tail e Se) as (r & Er & _).
  assert (C : contains e (a ++ tok ++ b) = false).
  { rewrite Er, (contains_app_absent "(" r a _ Ha), <- Er,
      (contains_tok e tok b Se Ht).
    assert (E : eqb_str e tok = false).
    { apply eqb_str_neq. intros ->. congruence. }
    rewrite E, Er, (contains_absent "(" r b Hb). reflexivity. }
  rewrite C. exact (IH Hes).
Qed.

Lemma link_line_convert (pre t u post : str) :
  head_is neutral_start pre = true -> t <> [] -> u <> [] ->
  forallb inline_free (pre ++ t ++ post) = true ->
  forallb inline_free u = true ->
  absent "]" t = true -> absent ")" u = true ->
  absent "<" (pre ++ t ++ post) = true -> absent "<" u = true ->
  in_catalogue ("("%char :: u ++ lit ")") = false ->
  convert_text (pre ++ lit "[" ++ t ++ lit "](" ++ u ++ lit ")" ++ post)
  = Ok (pre ++ lit "[" ++ t ++ lit "|" ++ u ++ lit "]" ++ post).
Proof.
  intros Hh Ht Hu Hi Hiu Hbr Hpar Hlt Hltu Hcat.
  span_facts pre t post Hi Hlt.
  destruct (inline_free_facts _ Hiu) as (U1 & U2 & U3 & U4 & U5 & U6).
  set (L := pre ++ lit "[" ++ t ++ lit "](" ++ u ++ lit ")" ++ post).
  set (L' := pre ++ lit "[" ++ t ++ lit "|" ++ u ++ lit "]" ++ post).
  assert (HL : head_is neutral_start L = true)
    by (apply head_app; [exact Hh|reflexivity]).
  assert (HL' : head_is neutral_start L' = true)
    by (apply head_app; [exact Hh|reflexivity]).
  assert (SL : head_is (not_chr "*") L = true)
    by (apply head_app; [apply absent_head_is; assumption|reflexivity]).
  assert (SL' : head_is (not_chr "*") L' = true)
    by (apply head_app; [apply absent_head_is; assumption|reflexivity]).
  rewrite (convert_text_inline_line L); auto.
  2:{ unfold L. absent_span. }
  2:{ left. apply head_app; [apply absent_head_is; assumption|reflexivity]. }
  f_equal.
  pose proof (quiet_anchored L HL (or_introl SL)) as QA.
  pose proof (quiet_anchored L' HL' (or_introl SL')) as QA'.
  pose proof (quiet_inline L) as QI. pose proof (quiet_inline L') as QI'.
  rewrite (convert_line_one_hit 10 L L').
  - apply no_sentinel. unfold L'. absent_span.
  - vm_compute. lia.
  - unfold L.
    replace (pre ++ lit "[" ++ t ++ lit "](" ++ u ++ lit ")" ++ post)
      with ((pre ++ lit "[" ++ t ++ lit "]")
              ++ ("("%char :: u ++ lit ")") ++ post)
      by (rewrite <- !app_assoc; cbn [lit list_ascii_of_string app];
          rewrite <- !app_assoc; reflexivity).
    apply emoticons_not_listed; try assumption.
    + absent_span.
    + unfold token_shaped. change (lit ")") with [")"%char].
      rewrite last_last, removelast_last, U1, Hpar.
      destruct u; [congruence|reflexivity].
  - unfold L. absent_span.
  - quiet_span QA QI.
  - unfold_entry. unfold L, L'.
    replace (pre ++ lit "[" ++ t ++ lit "](" ++ u ++ lit ")" ++ post)
      with (pre ++ (lit "[" ++ t ++ lit "](" ++ u ++ lit ")") ++ post)
      by (rewrite <- !app_assoc; reflexivity).
    rewrite (re_sub_once false "[" re_link _ pre
               (lit "[" ++ t ++ lit "](" ++ u ++ lit ")") post
               [(2, u); (1, t)] eq_refl D D1 ltac:(discriminate)).
    + cbn [expand flat_map group Nat.eqb]. rewrite !app_nil_r, <- !app_assoc.
      reflexivity.
    + intros prev. unfold re_link. cbn [seqs]. rewrite <- !app_assoc.
      apply (first_run_seq false _ _ _ _ _
               (t ++ lit "](" ++ u ++ lit ")" ++ post) []);
        [apply first_run_chr|]. intros pv1.
      apply (first_run_seq false _ _ _ _ _
               (lit "](" ++ u ++ lit ")" ++ post) [(1, t)]).
      { apply first_run_grp, first_run_greedy.
        - revert Hbr. apply forallb_imp. intros c Hc. unfold none_of, one_of.
          cbn [lit list_ascii_of_string existsb]. rewrite orb_false_r.
          exact Hc.
        - reflexivity.
        - destruct t; [congruence|simpl; lia]. }
      intros pv2.
      apply (first_run_seq false _ _ _ _ _
               (lit "(" ++ u ++ lit ")" ++ post) [(1, t)]);
        [apply first_run_chr|]. intros pv3.
      apply (first_run_seq false _ _ _ _ _
               (u ++ lit ")" ++ post) [(1, t)]);
        [apply first_run_chr|]. intros pv4.
      apply (first_run_seq false _ _ _ _ _
               (lit ")" ++ post) [(2, u); (1, t)]).
      { apply first_run_grp, first_run_greedy.
        - revert Hpar. apply forallb_imp. intros c Hc. unfold none_of, one_of.
          cbn [lit list_ascii_of_string existsb]. rewrite orb_false_r.
          exact Hc.
        - reflexivity.
        - destruct u; [congruence|simpl; lia]. }
      intros pv5. apply first_run_chr.
  - quiet_span QA' QI'.
Qed.

(** X5.  Links.  In a line of plain text, a Markdown link comes out in
    Jira's form with the text and the target separated by a bar,
    provided the target in its parentheses does not read as one of the
    emoticon tokens. *)
Theorem link_span (pre t u post : str) :
  head_is neutral_start pre = true -> t <> [] -> u <> [] ->
  forallb inline_free (pre ++ t ++ post) = true ->
  forallb inline_free u = true ->
  absent "]" t = true -> absent ")" u = true ->
  absent "<" (pre ++ t ++ post) = true -> absent "<" u = true ->
  in_catalogue ("("%char :: u ++ lit ")") = false ->
  convert_text (pre ++ lit "[" ++ t ++ lit "](" ++ u ++ lit ")" ++ post)
  = Ok (pre ++ lit "[" ++ t ++ lit "|" ++ u ++ lit "]" ++ post).
Proof. exact (link_line_convert pre t u post). Qed.

Lemma link_span_witness :
  convert_text (lit "see [the docs](http://x.org/a) first")
  = Ok (lit "see [the docs|http://x.org/a] first").
Proof.
  apply (link_span (lit "see ") (lit "the docs") (lit "http://x.org/a")
                   (lit " first"));
    try reflexivity; discriminate.
Defined.

(** X6.  Block quotes.  A line made of [>], white space and a plain
    text (none of the characters [(], [*], backtick, [[], [~], [<], no
    line break) that is not empty and does not start with white space
    comes out as that text between two [{quote}] markers, without the
    white space after the [>]. *)
Theorem blockquote_line (ws x : str) :
  forallb isspace ws = true -> absent nl ws = true ->
  x <> [] -> head_is not_space x = true ->
  forallb inline_free x = true -> absent "<" x = true ->
  convert_text (">"%char :: ws ++ x)
  = Ok (lit "{quote}" ++ x ++ lit "{quote}").
Proof.
  intros Hws Hwnl Hx Hxs Hi Hlt.
  destruct (inline_free_facts _ Hi) as (U1 & U2 & U3 & U4 & U5 & U6).
  pose proof (space_absent "("%char ws eq_refl Hws) as W1.
  pose proof (space_absent "*"%char ws eq_refl Hws) as W2.
  pose proof (space_absent "`"%char ws eq_refl Hws) as W3.
  pose proof (space_absent "["%char ws eq_refl Hws) as W4.
  set (L := ">"%char :: ws ++ x).
  set (L' := lit "{quote}" ++ x ++ lit "{quote}").
  assert (AL : forall k, Ascii.eqb ">" k = false -> absent k ws = true ->
                         absent k x = true -> absent k L = true).
  { intros k K1 K2 K3. unfold L. apply absent_cons. split; [exact K1|].
    rewrite absent_app, K2, K3. reflexivity. }
  unfold L at 1.
  rewrite (convert_text_inline ">" (ws ++ x)) by (auto; apply AL; auto).
  f_equal. fold L.
  rewrite (convert_line_one_hit 15 L L').
  - apply no_sentinel. unfold L'. absent_span.
  - vm_compute. lia.
  - apply emoticons_absent, AL; auto.
  - apply AL; auto.
  - pose proof (AL "`"%char eq_refl W3 U3) as C.
    pose proof (AL "["%char eq_refl W4 U4) as D.
    cbn [firstn patterns forallb fst]. unfold quiet.
    cbn [existsb String.eqb Ascii.eqb Bool.eqb orb andb skipped_patterns].
    cbv iota. rewrite C, D. reflexivity.
  - unfold_entry. unfold re_sub.
    assert (R : first_run false re_blockquote None (L ++ []) [] [] [(1, x)]).
    { unfold re_blockquote, L. cbn [seqs]. rewrite app_nil_r.
      apply (first_run_seq false _ _ _ _ _ (">"%char :: ws ++ x) []);
        [apply first_run_bol|]. intros pv0.
      apply (first_run_seq false _ _ _ _ _ (ws ++ x) []);
        [apply first_run_chr|]. intros pv1.
      apply (first_run_seq false _ _ _ _ _ x []).
      { apply first_run_greedy; [exact Hws| |lia].
        destruct x as [|d x]; [reflexivity|]. exact Hxs. }
      intros pv2.
      destruct (ms_rest_of_line x pv2 [] Hx U6) as (pv & more & E).
      exists pv, more. exact E. }
    destruct (sub_aux_hit false re_blockquote
                (expand [TLit (lit "{quote}"); TGrp 1; TLit (lit "{quote}")])
                L [] None [(1, x)] ltac:(discriminate) R) as [prev' E].
    rewrite app_nil_r in E. rewrite E.
    cbn [expand flat_map group Nat.eqb sub_aux]. rewrite !app_nil_r.
    reflexivity.
  - cbn [skipn patterns forallb fst]. unfold quiet.
    cbn [existsb String.eqb Ascii.eqb Bool.eqb orb andb skipped_patterns].
    cbv iota. unfold L'. rewrite !absent_app, U5. reflexivity.
Qed.

Lemma blockquote_line_witness :
  convert_text (lit ">  quoted words") = Ok (lit "{quote}quoted words{quote}").
Proof.
  apply (blockquote_line (lit "  ") (lit "quoted words"));
    try reflexivity; discriminate.
Defined.

Lemma bold_none (s : str) :
  contains (lit "**") s = false ->
  forall prev, finditer_aux false re_bold 0 prev s = [].
Proof.
  induction s as [|c s IH]; intros H prev; [reflexivity|].
  cbn [contains] in H. apply orb_false_iff in H. destruct H as [H1 H2].
  cbn [finditer_aux].
  assert (M : match_at false re_bold prev (c :: s) = None).
  { unfold match_at, re_bold. cbn [seqs].
    assert (E : ms false (lits (lit "**")) prev (c :: s) [] = []).
    { apply nil_no_in. intros [[pv s'] caps] Hin.
      apply in_ms_lits in Hin. destruct Hin as [E _].
      rewrite E, startswith_app in H1. discriminate H1. }
    cbn [ms]. cbn [ms] in E. rewrite E. reflexivity. }
  rewrite M. apply IH, H2.
Qed.

Lemma contains_step (p : str) (c : ascii) (s : str) :
  contains p (c :: s) = startswith p (c :: s) || contains p s.
Proof. reflexivity. Qed.








(** ** List items that stand alone *)

Lemma strip_fixed (c : str) :
  strip c = c -> lstrip c = c /\ rstrip c = c.
Proof.
  intros H. destruct (lstrip_suffix c) as [w E1].
  destruct (rstrip_prefix (lstrip c)) as [w' E2].
  unfold strip in H. rewrite H in E2.
  assert (L : length c = length w + (length c + length w')).
  { rewrite E1 at 1. rewrite E2, !length_app. reflexivity. }
  assert (w = []) by (destruct w; [reflexivity|simpl in L; lia]).
  assert (w' = []) by (destruct w'; [reflexivity|simpl in L; lia]).
  subst. cbn [app] in E1. rewrite app_nil_r in E2.
  split; [congruence|]. rewrite <- E2 in H. congruence.
Qed.

Lemma rstrip_app_keep (a c : str) :
  c <> [] -> rstrip c = c -> rstrip (a ++ c) = a ++ c.
Proof.
  intros Hc H. induction a as [|x a IH]; [exact H|].
  cbn [app rstrip]. rewrite IH. destruct (a ++ c) eqn:E; [|reflexivity].
  apply app_eq_nil in E. tauto.
Qed.

Lemma lstrip_head (c : str) :
  c <> [] -> lstrip c = c -> head_is not_space c = true.
Proof.
  destruct c as [|x c]; [congruence|]. intros _. cbn [lstrip head_is].
  unfold not_space. destruct (isspace x) eqn:E; [|reflexivity].
  intros H. destruct (lstrip_suffix c) as [w Ew].
  apply (f_equal (@length ascii)) in H. rewrite Ew in H at 2.
  simpl in H. rewrite length_app in H. lia.
Qed.

Lemma first_run_match (r : re) (s s' : str) caps :
  first_run false r None s [] s' caps -> re_match r s = true.
Proof.
  intros (pv & more & E). apply re_match_true. rewrite E.
  eexists. left. reflexivity.
Qed.

Lemma marker_cases (m : ascii) :
  one_of (lit "-*+") m = true -> m = "-"%char \/ m = "*"%char \/ m = "+"%char.
Proof.
  unfold one_of. cbn [lit list_ascii_of_string existsb].
  rewrite !orb_true_iff, !Ascii.eqb_eq. intuition discriminate.
Qed.

Lemma head_space_not (ws : str) (k : ascii) :
  ws <> [] -> forallb isspace ws = true -> isspace k = false ->
  exists w ws', ws = w :: ws' /\ Ascii.eqb k w = false.
Proof.
  destruct ws as [|w ws]; [congruence|]. intros _ H Hk. exists w, ws.
  split; [reflexivity|]. cbn [forallb] in H. apply andb_true_iff in H.
  destruct (Ascii.eqb_spec k w) as [->|]; [|reflexivity].
  destruct H. congruence.
Qed.

(** The line of a bullet: indentation, marker, white space, text. *)
Lemma bullet_line_facts (i : indent) (m : ascii) (ws c : str) :
  one_of (lit "-*+") m = true ->
  ws <> [] -> forallb isspace ws = true ->
  c <> [] -> strip c = c ->
  let line := indent_str i ++ m :: ws ++ c in
  strip line = m :: ws ++ c /\ lstrip line = m :: ws ++ c
  /\ strip (ws ++ c) = c
  /\ re_match re_bullet line = true
  /\ startswith (lit "---") (m :: ws ++ c) = false.
Proof.
  intros Hm Hws Hsp Hc Hst line.
  destruct (strip_fixed c Hst) as [Hl Hr].
  pose proof (marker_not_space m Hm) as Hms.
  pose proof (lstrip_head c Hc Hl) as Hh.
  assert (E : lstrip line = m :: ws ++ c).
  { unfold line. rewrite lstrip_spaces by apply indent_spaces.
    apply lstrip_keep, Hms. }
  repeat split.
  - unfold strip. rewrite E, (rstrip_cons_keep m _ Hms),
      (rstrip_app_keep ws c Hc Hr). reflexivity.
  - exact E.
  - unfold strip. rewrite (lstrip_spaces ws c Hsp), Hl. exact Hr.
  - apply (first_run_match re_bullet line c []). unfold re_bullet, line.
    cbn [seqs].
    apply (first_run_seq false _ _ _ _ _ (indent_str i ++ m :: ws ++ c) []);
      [apply first_run_bol|]. intros pv0.
    apply (first_run_seq false _ _ _ _ _ (m :: ws ++ c) []).
    { apply first_run_greedy; [apply indent_spaces| |lia].
      cbn [head_is]. unfold cls_s. rewrite Hms. reflexivity. }
    intros pv1.
    apply (first_run_seq false _ _ _ _ _ (ws ++ c) []);
      [apply first_run_cls, Hm|]. intros pv2.
    apply first_run_greedy; [exact Hsp| |destruct ws; [congruence|simpl; lia]].
    destruct c as [|d c]; [congruence|]. exact Hh.
  - destruct (head_space_not ws "-" Hws Hsp eq_refl) as (w & ws' & -> & Hw).
    cbn [lit list_ascii_of_string startswith app]. rewrite Hw.
    rewrite andb_false_r. reflexivity.
Qed.

Lemma in_ms_grp ml (n : nat) (r : re) prev s caps (st : mstate) :
  In st (ms ml (Grp n r) prev s caps) ->
  exists pv s' caps',
    In (pv, s', caps') (ms ml r prev s caps)
    /\ st = (pv, s', (n, firstn (length s - length s') s) :: caps').
Proof.
  cbn [ms]. rewrite in_map_iff. intros ([[pv s'] caps'] & E & H).
  exists pv, s', caps'. auto.
Qed.

Lemma italic_no_close (s : str) prev :
  absent "*" s = true -> match_at false re_italic prev ("*"%char :: s) = None.
Proof.
  intros Ha. unfold match_at.
  assert (E : ms false re_italic prev ("*"%char :: s) [] = []).
  { apply nil_no_in. intros st H. unfold re_italic in H. cbn [seqs] in H.
    apply in_ms_seq in H. destruct H as (pv1 & s1 & c1 & H1 & H).
    apply in_ms_chr in H1. destruct H1 as (s1' & E1 & E1').
    inversion E1; subst s1'. inversion E1'; subst.
    apply in_ms_seq in H. destruct H as (pv2 & s2 & c2 & H2 & H).
    apply in_ms_grp in H2. destruct H2 as (pv3 & s3 & c3 & H3 & E3).
    inversion E3; subst.
    apply in_ms_rep in H3. destruct H3 as [_ H3].
    apply rep_opts_sound in H3. destruct H3 as (u & E & _ & _).
    apply in_ms_chr in H. destruct H as (s4 & E4 & _).
    rewrite E, E4, absent_app in Ha. apply andb_true_iff in Ha.
    destruct Ha as [_ Ha]. apply absent_cons in Ha. destruct Ha as [Ha _].
    discriminate Ha. }
  rewrite E. reflexivity.
Qed.

Lemma sub_aux_miss ml r repl prev (c : ascii) (s : str) :
  match_at ml r prev (c :: s) = None ->
  sub_aux ml r repl 0 prev (c :: s) = c :: sub_aux ml r repl 0 (Some c) s.
Proof. intros H. cbn [sub_aux]. rewrite H. reflexivity. Qed.

(** A first-level bullet with plain text goes through [_convert_line]
    unchanged: the bullet pattern of [self.patterns] rewrites it to
    itself. *)
Lemma star_item_line (c : str) :
  c <> [] -> head_is not_space c = true -> forallb inline_free c = true ->
  _convert_line (lit "* " ++ c) = lit "* " ++ c.
Proof.
  intros Hc Hh Hi.
  destruct (inline_free_facts _ Hi) as (U1 & U2 & U3 & U4 & U5 & U6).
  set (L := lit "* " ++ c).
  assert (AL : forall k, Ascii.eqb "*" k = false -> Ascii.eqb " " k = false ->
                         absent k c = true -> absent k L = true).
  { intros k K1 K2 K3. unfold L. cbn [lit list_ascii_of_string app].
    apply absent_cons. split; [exact K1|]. apply absent_cons. auto. }
  rewrite (convert_line_no_token L) by (apply AL; auto).
  unfold re_finditer. rewrite bold_none.
  2:{ unfold L. cbn [lit list_ascii_of_string app].
      rewrite !contains_step. cbn [startswith Ascii.eqb Bool.eqb andb orb].
      change (lit "**") with ("*"%char :: lit "*").
      apply contains_absent, U2. }
  cbn [fold_left ph_text ph_dict restore].
  assert (It : re_sub false re_italic
                 (expand [TLit (lit "_"); TGrp 1; TLit (lit "_")]) L = L).
  { unfold re_sub, L. cbn [lit list_ascii_of_string app].
    rewrite sub_aux_miss by (apply italic_no_close, absent_cons; auto).
    rewrite (sub_first_chr false "*" re_italic _ eq_refl (" "%char :: c));
      [reflexivity|apply absent_cons; auto]. }
  rewrite It.
  rewrite (fold_left_at apply_pattern patterns 6
                        (""%string, (Eps, Template [])) L)
    by (vm_compute; lia).
  rewrite patterns_before.
  2:{ cbn [firstn patterns forallb fst]. unfold quiet.
      cbn [existsb String.eqb Ascii.eqb Bool.eqb orb andb skipped_patterns].
      cbv iota. rewrite (AL "`"%char eq_refl eq_refl U3). reflexivity. }
  assert (Hit : apply_pattern L (nth 6 patterns (""%string, (Eps, Template [])))
                = L).
  { unfold_entry. unfold re_sub.
    assert (R : first_run false re_unordered_list None (L ++ []) [] []
                          [(1, c)]).
    { unfold re_unordered_list, L. cbn [seqs]. rewrite app_nil_r.
      cbn [lit list_ascii_of_string app].
      apply (first_run_seq false _ _ _ _ _ ("*"%char :: " "%char :: c) []);
        [apply first_run_bol|]. intros pv0.
      apply (first_run_seq false _ _ _ _ _ ("*"%char :: " "%char :: c) []);
        [apply first_run_neglook; reflexivity|]. intros pv1.
      apply (first_run_seq false _ _ _ _ _ ("*"%char :: " "%char :: c) []).
      { apply (first_run_greedy false 0 cls_s [] ("*"%char :: " "%char :: c));
          [reflexivity|reflexivity|simpl; lia]. }
      intros pv2.
      apply (first_run_seq false _ _ _ _ _ (" "%char :: c) []);
        [apply first_run_cls; reflexivity|]. intros pv3.
      apply (first_run_seq false _ _ _ _ _ c []).
      { apply (first_run_greedy false 1 cls_s [" "%char] c);
          [reflexivity| |simpl; lia].
        destruct c as [|d c]; [reflexivity|]. exact Hh. }
      intros pv4.
      destruct (ms_rest_of_line c pv4 [] Hc U6) as (pv & more & E).
      exists pv, more. exact E. }
    destruct (sub_aux_hit false re_unordered_list
                (expand [TLit (lit "* "); TGrp 1]) L [] None [(1, c)]
                ltac:(discriminate) R) as [prev' E].
    rewrite app_nil_r in E. rewrite E.
    cbn [expand flat_map group Nat.eqb sub_aux]. rewrite !app_nil_r.
    reflexivity. }
  rewrite Hit. apply patterns_after.
  cbn [skipn patterns forallb fst]. unfold quiet.
  cbn [existsb String.eqb Ascii.eqb Bool.eqb orb andb skipped_patterns].
  cbv iota. rewrite (AL "["%char eq_refl eq_refl U4),
    (AL "~"%char eq_refl eq_refl U5).
  unfold L. cbn. reflexivity.
Qed.

Lemma finish_one (o : str) :
  absent nl o = true ->
  head_is (fun c => not_space c && not_chr "`" c && not_chr "|" c) o = true ->
  finish [o]
  = replace (lit "<<<JIRALIST2>>>") (lit "** ") (_convert_line o).
Proof.
  intros Hnl Hh. unfold finish. cbn [fold_left]. unfold block_step.
  destruct o as [|c s]; [reflexivity|]. cbn [head_is] in Hh.
  unfold not_space, not_chr in Hh. rewrite !andb_true_iff, !negb_true_iff in Hh.
  destruct Hh as [[Hs Hb] Hp]. rewrite (strip_cons_keep c s Hs).
  cbn [lit list_ascii_of_string startswith in_code_block in_table].
  rewrite (Ascii.eqb_sym "`" c), Hb, (Ascii.eqb_sym "|" c), Hp.
  cbn [andb]. rewrite andb_false_r. reflexivity.
Qed.

Lemma bullet_line_convert (i : indent) (m : ascii) (ws c : str) :
  one_of (lit "-*+") m = true ->
  ws <> [] -> forallb isspace ws = true -> absent nl ws = true ->
  c <> [] -> strip c = c ->
  forallb inline_free c = true -> absent "<" c = true ->
  convert_text (indent_str i ++ m :: ws ++ c) = Ok (bullet_tier i ++ c).
Proof.
  intros Hm Hws Hsp Hwnl Hc Hst Hi Hlt.
  destruct (bullet_line_facts i m ws c Hm Hws Hsp Hc Hst)
    as (E1 & E2 & E3 & E4 & E5).
  destruct (inline_free_facts _ Hi) as (U1 & U2 & U3 & U4 & U5 & U6).
  destruct (strip_fixed c Hst) as [Hl Hr].
  pose proof (lstrip_head c Hc Hl) as Hh.
  set (line := indent_str i ++ m :: ws ++ c) in *.
  assert (Hnl : absent nl line = true).
  { unfold line. rewrite absent_app.
    assert (I : absent nl (indent_str i) = true).
    { clear. destruct i as [n|]; [|reflexivity].
      induction n; [reflexivity|exact IHn]. }
    rewrite I. apply absent_cons. split.
    - destruct (marker_cases m Hm) as [->|[->| ->]]; reflexivity.
    - rewrite absent_app, Hwnl, U6. reflexivity. }
  assert (Hord : is_ordinal (m :: ws ++ c) = false).
  { unfold is_ordinal. rewrite numbered_no_digit.
    - destruct (marker_cases m Hm) as [->|[->| ->]]; reflexivity.
    - destruct (marker_cases m Hm) as [->|[->| ->]]; reflexivity. }
  rewrite convert_text_finish, (split_no_sep _ _ (absent_in _ _ Hnl)).
  cbn [norm]. unfold top. rewrite E1, Hord, E4, E5. cbn [andb negb].
  assert (B : bullet_out line
              = (if 2 <=? length (indent_str i)
                 then lit "<<<JIRALIST2>>>" else lit "* ") ++ c).
  { unfold bullet_out. rewrite E1, E2. cbn [skipn]. rewrite E3.
    replace (length line - length (m :: ws ++ c))
      with (length (indent_str i))
      by (unfold line; rewrite length_app; lia).
    destruct (2 <=? length (indent_str i)); reflexivity. }
  rewrite B.
  assert (T : (2 <=? length (indent_str i))
              = match i with Spaces n => negb (n <? 2) | OneTab => false end).
  { destruct i as [n|]; [|reflexivity]. cbn [indent_str].
    rewrite repeat_length.
    destruct (Nat.leb_spec 2 n), (Nat.ltb_spec n 2); cbn [negb];
      try reflexivity; lia. }
  rewrite T. clear T B.
  assert (S2 : finish [lit "<<<JIRALIST2>>>" ++ c] = lit "** " ++ c).
  { rewrite finish_one; [|rewrite absent_app, U6; reflexivity|reflexivity].
    rewrite convert_line_plain.
    - change (lit "<<<JIRALIST2>>>") with ("<"%char :: lit "<<JIRALIST2>>>").
      apply (replace_once "<" (lit "<<JIRALIST2>>>") (lit "** ") [] c eq_refl
                          Hlt).
    - unfold plain_line. rewrite forallb_app, Hi. reflexivity. }
  assert (S1 : finish [lit "* " ++ c] = lit "* " ++ c).
  { rewrite finish_one; [|rewrite absent_app, U6; reflexivity|reflexivity].
    rewrite (star_item_line c Hc Hh Hi). apply no_sentinel.
    rewrite absent_app, Hlt. reflexivity. }
  unfold bullet_tier. destruct i as [n|]; [|f_equal; exact S1].
  destruct (n <? 2); f_equal; [exact S1|exact S2].
Qed.

(** X9.  A bullet that no ordered item owns, with a plain text (none of
    the characters [(], [*], backtick, [[], [~], [<], no line break, no
    white space at either end, not empty).  Whatever its marker, it comes
    out with one asterisk when it is indented by less than two columns
    (or by one tab) and with two asterisks otherwise, however deep:
    everything below the second level is flattened to it. *)
Theorem top_level_bullet (i : indent) (m : ascii) (ws c : str) :
  one_of (lit "-*+") m = true ->
  ws <> [] -> forallb isspace ws = true -> absent nl ws = true ->
  c <> [] -> strip c = c ->
  forallb inline_free c = true -> absent "<" c = true ->
  convert_text (indent_str i ++ m :: ws ++ c) = Ok (bullet_tier i ++ c).
Proof. exact (bullet_line_convert i m ws c). Qed.

Lemma top_level_bullet_witness :
  convert_text (lit "    - deep item") = Ok (lit "** deep item").
Proof.
  apply (top_level_bullet (Spaces 4) "-" (lit " ") (lit "deep item"));
    try reflexivity; discriminate.
Defined.

Lemma sub_aux_skip_some ml r repl (u s : str) :
  forall c,
    exists c', sub_aux ml r repl (length u) (Some c) (u ++ s)
               = sub_aux ml r repl 0 (Some c') s.
Proof.
  induction u as [|x u IH]; intros c; [exists c; reflexivity|].
  cbn [length app sub_aux]. apply IH.
Qed.

Lemma sub_aux_hit_some ml r repl (m rest : str) prev caps :
  m <> [] -> first_run ml r prev (m ++ rest) [] rest caps ->
  exists c',
    sub_aux ml r repl 0 prev (m ++ rest)
    = repl ((0, m) :: caps) ++ sub_aux ml r repl 0 (Some c') rest.
Proof.
  intros Hm H. pose proof (match_at_first ml r prev m rest caps H) as M.
  destruct m as [|c m]; [congruence|].
  destruct (sub_aux_skip_some ml r repl m rest c) as [c' E].
  exists c'. cbn [app sub_aux]. cbn [app length] in M. rewrite M, E.
  change (firstn (S (length m)) (c :: m ++ rest))
    with (c :: firstn (length m) (m ++ rest)).
  rewrite firstn_app, firstn_all, Nat.sub_diag. cbn [firstn].
  rewrite app_nil_r. reflexivity.
Qed.

(** The number, the dot and the white space of an ordered item. *)
Lemma numbered_run (ds ws c : str) :
  ds <> [] -> forallb cls_d ds = true ->
  ws <> [] -> forallb isspace ws = true -> head_is not_space c = true ->
  first_run false re_numbered None ((ds ++ "."%char :: ws) ++ c) [] c [].
Proof.
  intros Hd Hds Hw Hws Hc. unfold re_numbered. cbn [seqs].
  rewrite <- app_assoc. cbn [app].
  apply (first_run_seq false _ _ _ _ _ (ds ++ "."%char :: ws ++ c) []);
    [apply first_run_bol|]. intros pv0.
  apply (first_run_seq false _ _ _ _ _ ("."%char :: ws ++ c) []).
  { apply first_run_greedy; [exact Hds|reflexivity|].
    destruct ds; [congruence|simpl; lia]. }
  intros pv1.
  apply (first_run_seq false _ _ _ _ _ (ws ++ c) []);
    [apply first_run_chr|]. intros pv2.
  apply first_run_greedy; [exact Hws| |destruct ws; [congruence|simpl; lia]].
  destruct c as [|d c]; [reflexivity|]. exact Hc.
Qed.

Lemma hash_item_line (c : str) :
  forallb inline_free c = true ->
  _convert_line (lit "# " ++ c) = lit "# " ++ c.
Proof.
  intros Hi.
  destruct (inline_free_facts _ Hi) as (U1 & U2 & U3 & U4 & U5 & U6).
  set (L := lit "# " ++ c).
  assert (AL : forall k, Ascii.eqb "#" k = false -> Ascii.eqb " " k = false ->
                         absent k c = true -> absent k L = true).
  { intros k K1 K2 K3. unfold L. cbn [lit list_ascii_of_string app].
    apply absent_cons. split; [exact K1|]. apply absent_cons. auto. }
  rewrite (convert_line_no_star L) by (apply AL; auto).
  apply patterns_quiet.
  cbn [patterns forallb fst]. unfold quiet.
  cbn [existsb String.eqb Ascii.eqb Bool.eqb orb andb skipped_patterns].
  cbv iota.
  rewrite (AL "`"%char eq_refl eq_refl U3), (AL "["%char eq_refl eq_refl U4),
    (AL "~"%char eq_refl eq_refl U5).
  unfold L. cbn. reflexivity.
Qed.

(** X10.  A numbered item with a plain text (none of the characters [(],
    [*], backtick, [[], [~], [<], no line break, no white space at either
    end, not empty).  Whatever its number and its indentation, it comes
    out as [# text]: the numbers are not kept, and a nested numbered list
    is flattened into the first level. *)
Theorem numbered_item (ind ds ws c : str) :
  forallb isspace ind = true -> absent nl ind = true ->
  ds <> [] -> forallb cls_d ds = true ->
  ws <> [] -> forallb isspace ws = true -> absent nl ws = true ->
  c <> [] -> strip c = c ->
  forallb inline_free c = true -> absent "<" c = true ->
  convert_text (ind ++ ds ++ "."%char :: ws ++ c) = Ok (lit "# " ++ c).
Proof.
  intros Hind Hinl Hd Hds Hw Hws Hwnl Hc Hst Hi Hlt.
  destruct (inline_free_facts _ Hi) as (U1 & U2 & U3 & U4 & U5 & U6).
  destruct (strip_fixed c Hst) as [Hl Hr].
  pose proof (lstrip_head c Hc Hl) as Hh.
  set (line := ind ++ ds ++ "."%char :: ws ++ c).
  set (stripped := ds ++ "."%char :: ws ++ c).
  assert (Dnl : absent nl ds = true).
  { revert Hds. apply forallb_imp. intros x Hx.
    destruct (Ascii.eqb_spec x nl) as [->|]; [discriminate Hx|reflexivity]. }
  assert (Hnl : absent nl line = true).
  { unfold line. rewrite !absent_app, Hinl, Dnl. apply absent_cons.
    split; [reflexivity|]. rewrite absent_app, Hwnl, U6. reflexivity. }
  destruct ds as [|d ds']; [congruence|].
  pose proof Hds as Hds'. cbn [forallb] in Hds'.
  apply andb_true_iff in Hds'. destruct Hds' as [Hd0 _].
  pose proof (digit_not_space d Hd0) as Hdsp.
  pose proof (numbered_run (d :: ds') ws c Hd Hds Hw Hws Hh) as R.
  assert (E' : stripped = ((d :: ds') ++ "."%char :: ws) ++ c)
    by (unfold stripped; rewrite <- app_assoc; reflexivity).
  assert (E : strip line = stripped).
  { unfold strip, line. rewrite (lstrip_spaces ind _ Hind). fold stripped.
    rewrite E'. cbn [app]. rewrite (lstrip_keep d _ Hdsp).
    apply (rstrip_app_keep ((d :: ds') ++ "."%char :: ws) c Hc Hr). }
  assert (Ho : is_ordinal stripped = true).
  { unfold is_ordinal. rewrite E', (first_run_match _ _ _ _ R).
    apply orb_true_r. }
  assert (Hs : startswith (lit "#") stripped = false).
  { unfold stripped. cbn [lit list_ascii_of_string app startswith].
    destruct (Ascii.eqb_spec "#" d) as [Eq|]; [|reflexivity].
    rewrite <- Eq in Hd0. vm_compute in Hd0. discriminate Hd0. }
  assert (O : ordinal_out line = lit "# " ++ c).
  { unfold ordinal_out. rewrite E, Hs. f_equal. unfold re_sub. rewrite E'.
    destruct (sub_aux_hit_some false re_numbered (expand [])
                ((d :: ds') ++ "."%char :: ws) c None []
                ltac:(discriminate) R) as [c' Ec].
    rewrite Ec. unfold re_numbered. cbn [seqs].
    rewrite sub_anchored_tail. reflexivity. }
  rewrite convert_text_finish, (split_no_sep _ _ (absent_in _ _ Hnl)).
  cbn [norm]. rewrite (top_ordinal line _ _ ltac:(rewrite E; exact Ho)), O.
  rewrite finish_one; [|rewrite absent_app, U6; reflexivity|reflexivity].
  rewrite (hash_item_line c Hi). f_equal. apply no_sentinel.
  rewrite absent_app, Hlt. reflexivity.
Qed.

Lemma numbered_item_witness :
  convert_text (lit "   12. twelfth step") = Ok (lit "# twelfth step").
Proof.
  apply (numbered_item (lit "   ") (lit "12") (lit " ") (lit "twelfth step"));
    try reflexivity; discriminate.
Defined.

(** ** Rules and fences *)

Lemma rstrip_split (s : str) :
  exists w, s = rstrip s ++ w /\ forallb isspace w = true.
Proof.
  induction s as [|c s IH]; [exists []; auto|].
  destruct IH as (w & E & Hw).
  cbn [rstrip]. destruct (rstrip s) as [|a r] eqn:R.
  - cbn [app] in E. subst w. destruct (isspace c) eqn:Hc.
    + exists (c :: s). cbn [app forallb]. rewrite Hc, Hw. auto.
    + exists s. auto.
  - exists w. split; [|exact Hw]. cbn [app] in *. rewrite <- E. reflexivity.
Qed.

Lemma strip_split (s : str) :
  exists w1 w2, s = w1 ++ strip s ++ w2
                /\ forallb isspace w1 = true /\ forallb isspace w2 = true.
Proof.
  destruct (lstrip_split s) as (w1 & E1 & H1 & _).
  destruct (rstrip_split (lstrip s)) as (w2 & E2 & H2).
  exists w1, w2. unfold strip. rewrite <- E2, <- E1. auto.
Qed.

Lemma absent_padded (k : ascii) (w1 t w2 : str) :
  isspace k = false -> forallb isspace w1 = true ->
  forallb isspace w2 = true -> absent k t = true ->
  absent k (w1 ++ t ++ w2) = true.
Proof.
  intros Hk H1 H2 Ht.
  rewrite !absent_app, (space_absent k w1 Hk H1), (space_absent k w2 Hk H2), Ht.
  reflexivity.
Qed.

(** X11.  Horizontal rules.  A line that is a rule once stripped becomes
    [----] only when it is exactly [---]; with white space around it, it
    is returned as it is. *)
Theorem rule_line_exact (r : str) :
  absent nl r = true -> strip r = lit "---" ->
  convert_text r = Ok (if eqb_str r (lit "---") then lit "----" else r).
Proof.
  intros Hnl Hs.
  destruct (eqb_str r (lit "---")) eqn:Eq.
  { apply eqb_str_eq in Eq. subst r. reflexivity. }
  destruct (strip_split r) as (w1 & w2 & E & H1 & H2). rewrite Hs in E.
  assert (A : forall k, isspace k = false -> Ascii.eqb "-" k = false ->
                        absent k r = true).
  { intros k K1 K2. rewrite E. apply absent_padded; auto.
    repeat (apply absent_cons; split; [exact K2|]). reflexivity. }
  assert (Hh : head_is (fun c => isspace c || Ascii.eqb c "-") r = true).
  { rewrite E. destruct w1 as [|x w1]; [reflexivity|].
    cbn [forallb] in H1. apply andb_true_iff in H1. destruct H1 as [Hx _].
    cbn [app head_is]. rewrite Hx. reflexivity. }
  assert (Hk : forall k, isspace k = false -> Ascii.eqb "-" k = false ->
                         head_is (not_chr k) r = true).
  { intros k K1 K2. revert Hh. apply head_imp. intros c Hc. unfold not_chr.
    destruct (Ascii.eqb_spec c k) as [->|]; [|reflexivity].
    rewrite K1, Ascii.eqb_sym, K2 in Hc. discriminate Hc. }
  rewrite convert_text_finish, (split_no_sep _ _ (absent_in _ _ Hnl)).
  cbn [norm]. rewrite (top_rule r _ _ Hs). unfold finish. cbn [fold_left].
  unfold block_step. rewrite Hs.
  cbn [lit list_ascii_of_string startswith Ascii.eqb Bool.eqb andb
       in_code_block in_table converted_lines app join].
  rewrite andb_false_r. cbn [converted_lines app join]. f_equal.
  rewrite (convert_line_no_star r) by (apply A; reflexivity).
  rewrite patterns_quiet; [apply no_sentinel, A; reflexivity|].
  cbn [patterns forallb fst]. unfold quiet.
  cbn [existsb String.eqb Ascii.eqb Bool.eqb orb andb skipped_patterns].
  cbv iota.
  assert (N : eqb_str r (lit "---" ++ [nl]) = false).
  { apply eqb_str_neq. intros ->. discriminate Hnl. }
  assert (L : lstrip r = lit "---" ++ w2).
  { rewrite E, (lstrip_spaces w1 _ H1). reflexivity. }
  rewrite Eq, N, L.
  rewrite !(A "`"%char), !(A "["%char), !(A "~"%char) by reflexivity.
  rewrite (Hk "|"%char), (Hk ">"%char) by reflexivity.
  cbn [lit list_ascii_of_string].
  rewrite !(startswith_head "#") by (apply Hk; reflexivity).
  reflexivity.
Qed.

Lemma rule_line_exact_witness :
  convert_text (lit "  ---") = Ok (lit "  ---").
Proof. apply (rule_line_exact (lit "  ---")); reflexivity. Defined.

Lemma replace_not_contained (old new s : str) :
  old <> [] -> contains old s = false -> replace old new s = s.
Proof.
  intros Ho. destruct old as [|o old]; [congruence|]. unfold replace.
  induction s as [|c s IH]; [reflexivity|].
  rewrite contains_step, orb_false_iff. intros [H1 H2].
  cbn [replace_aux]. rewrite H1, (IH H2). reflexivity.
Qed.

Lemma fence_safe_facts (l : str) :
  fence_safe l = true ->
  absent nl l = true
  /\ (forall a b, top l a b = l :: b)
  /\ startswith (lit "```") (strip l) = false
  /\ replace (lit "<<<JIRALIST2>>>") (lit "** ") l = l.
Proof.
  unfold fence_safe. rewrite !andb_true_iff, !negb_true_iff.
  intros [[[[H1 H2] H3] H4] H5]. repeat split; try assumption.
  - intros a b. unfold top. rewrite H2, H3. reflexivity.
  - apply replace_not_contained; [discriminate|exact H5].
Qed.

Lemma fence_line_top (t : str) (a b : list str) :
  top ("`"%char :: t) a b = ("`"%char :: t) :: b.
Proof.
  unfold top. rewrite (strip_cons_keep "`" t eq_refl).
  unfold is_ordinal. rewrite numbered_no_digit by reflexivity.
  cbn [lit list_ascii_of_string startswith Ascii.eqb Bool.eqb andb orb].
  rewrite bullet_no_match; [reflexivity|reflexivity|left; reflexivity].
Qed.

Lemma norm_fence_body (body rest : list str) :
  forallb fence_safe body = true ->
  norm false (body ++ rest) = body ++ norm false rest.
Proof.
  induction body as [|l body IH]; [reflexivity|]. cbn [forallb].
  rewrite andb_true_iff. intros [Hl H].
  destruct (fence_safe_facts l Hl) as (_ & T & _).
  cbn [app norm]. rewrite T, (IH H). reflexivity.
Qed.

Lemma fold_in_fence (body : list str) :
  forallb fence_safe body = true ->
  forall st, in_code_block st = true ->
    fold_left block_step body st
    = mkBlocks (converted_lines st ++ body) true (in_table st).
Proof.
  induction body as [|l body IH]; intros H st Hc.
  - cbn [fold_left]. rewrite app_nil_r. destruct st. cbn in *. congruence.
  - cbn [forallb] in H. apply andb_true_iff in H. destruct H as [Hl H].
    destruct (fence_safe_facts l Hl) as (_ & _ & F & _).
    cbn [fold_left]. rewrite (fence_copies st l Hc F), (IH H) by exact Hc.
    cbn [emit converted_lines in_table]. rewrite <- app_assoc. reflexivity.
Qed.

Lemma fence_close (st : blocks) :
  in_code_block st = true ->
  block_step st ["`"%char; "`"%char; "`"%char]
  = mkBlocks (converted_lines st ++ [lit "{code}"]) false (in_table st).
Proof.
  intros Hc. unfold block_step.
  change (strip ["`"%char; "`"%char; "`"%char])
    with ["`"%char; "`"%char; "`"%char].
  change (startswith (lit "```") ["`"%char; "`"%char; "`"%char]) with true.
  cbv iota. rewrite Hc. reflexivity.
Qed.

Lemma absent_strip (k : ascii) (s : str) :
  absent k s = true -> absent k (strip s) = true.
Proof.
  destruct (strip_split s) as (w1 & w2 & E & _). intros H.
  rewrite E, !absent_app, !andb_true_iff in H. tauto.
Qed.

(** X12.  Code fences.  A document that is one fenced block, none of
    whose body lines is taken for a list item by the list pass, opens or
    closes a fence or contains the list placeholder: the body lines are
    copied character for character, whatever markup, tokens or pipes
    they contain; the opening fence becomes [{code}] or, with a language
    tag, [{code:tag}], and the closing one [{code}]. *)
Theorem fence_verbatim (lang : str) (body : list str) :
  absent nl lang = true -> absent "<" lang = true ->
  forallb fence_safe body = true ->
  convert_text (join [nl] ((lit "```" ++ lang) :: body ++ [lit "```"]))
  = Ok (join [nl] (fence_open (strip lang) :: body ++ [lit "{code}"])).
Proof.
  intros Hnl Hlt Hb.
  set (ls := (lit "```" ++ lang) :: body ++ [lit "```"]).
  assert (Hls : forallb (absent nl) ls = true).
  { unfold ls. cbn [forallb]. rewrite absent_app, Hnl, forallb_app.
    cbn [forallb]. rewrite andb_true_r. cbn [andb].
    change (absent nl (lit "```")) with true. cbn [andb].
    rewrite andb_true_r.
    revert Hb. apply forallb_imp. intros l Hl.
    apply (fence_safe_facts l Hl). }
  rewrite convert_text_finish, (split_join ls ltac:(discriminate) Hls).
  unfold ls. cbn [norm lit list_ascii_of_string app].
  rewrite fence_line_top, (norm_fence_body body _ Hb).
  cbn [norm]. rewrite fence_line_top.
  unfold finish. cbn [fold_left]. rewrite fold_left_app. cbn [fold_left].
  assert (O : block_step (mkBlocks [] false false)
                         ("`"%char :: "`"%char :: "`"%char :: lang)
              = mkBlocks [fence_open (strip lang)] true false).
  { unfold block_step.
    rewrite (strip_cons_keep "`" _ eq_refl), (rstrip_cons_keep "`" _ eq_refl),
      (rstrip_cons_keep "`" _ eq_refl).
    cbn [lit list_ascii_of_string startswith Ascii.eqb Bool.eqb andb
         in_code_block in_table converted_lines negb skipn app].
    rewrite strip_rstrip. unfold fence_open.
    destruct (strip lang); reflexivity. }
  rewrite O, (fold_in_fence body Hb
                (mkBlocks [fence_open (strip lang)] true false) eq_refl).
  cbn [converted_lines in_table app].
  rewrite (fence_close (mkBlocks (fence_open (strip lang) :: body) true false)
                       eq_refl).
  cbn [converted_lines app].
  rewrite replace_join by (discriminate || reflexivity).
  f_equal. f_equal. cbn [map app]. rewrite map_app. cbn [map].
  f_equal.
  - apply no_sentinel. unfold fence_open.
    pose proof (absent_strip "<" lang Hlt) as S.
    destruct (strip lang); [reflexivity|].
    rewrite !absent_app, S. reflexivity.
  - f_equal. clear - Hb. induction body as [|l body IH]; [reflexivity|].
    cbn [forallb] in Hb. apply andb_true_iff in Hb. destruct Hb as [Hl Hb].
    destruct (fence_safe_facts l Hl) as (_ & _ & _ & R).
    cbn [map]. rewrite R, (IH Hb). reflexivity.
Qed.

Lemma fence_verbatim_witness :
  convert_text
    (unlines ["```python"; "x = a ** b  # (y) **not bold**"; "| no | table |";
              "```"]%string)
  = Ok (unlines ["{code:python}"; "x = a ** b  # (y) **not bold**";
                 "| no | table |"; "{code}"]%string).
Proof.
  apply (fence_verbatim (lit "python")
           [lit "x = a ** b  # (y) **not bold**"; lit "| no | table |"]);
    reflexivity.
Defined.

(** ** [_escape_jira_emoticons] *)

Lemma startswith_split (p s : str) :
  startswith p s = true -> exists rest, s = p ++ rest.
Proof.
  revert s. induction p as [|x p IH]; intros s H; [exists s; reflexivity|].
  destruct s as [|y s]; [discriminate|]. cbn [startswith] in H.
  apply andb_true_iff in H. destruct H as [Hxy H].
  apply Ascii.eqb_eq in Hxy. subst y. destruct (IH s H) as [rest ->].
  exists rest. reflexivity.
Qed.

(** Two tokens that start at the same place are the same token. *)
Lemma distinct_start (e q s : str) :
  token_shaped e = true -> token_shaped q = true ->
  startswith e s = true -> startswith q s = true -> e = q.
Proof.
  intros He Hq H1 H2. destruct (startswith_split q s H2) as [rest ->].
  rewrite (startswith_tok e q rest He Hq) in H1. apply eqb_str_eq, H1.
Qed.

Lemma token_at_cons (e : str) (es : list str) (s : str) :
  token_at (e :: es) s = startswith e s || token_at es s.
Proof. reflexivity. Qed.

Lemma token_at_paren (es : list str) (c : ascii) (s : str) :
  forallb token_like es = true -> Ascii.eqb c "(" = false ->
  token_at es (c :: s) = false.
Proof.
  intros H Hc. induction es as [|e es IH]; [reflexivity|].
  cbn [forallb] in H. apply andb_true_iff in H. destruct H as [He H].
  unfold token_like in He. apply andb_true_iff in He. destruct He as [He _].
  destruct (tok_tail e He) as (r & -> & _).
  rewrite token_at_cons, (IH H). cbn [startswith].
  rewrite Ascii.eqb_sym, Hc. reflexivity.
Qed.

(** Nothing is marked inside a text without [(]. *)
Lemma mark_span (es : list str) (u rest : str) :
  forallb token_like es = true -> absent "(" u = true ->
  mark_tokens es (u ++ rest) = u ++ mark_tokens es rest.
Proof.
  intros H. induction u as [|c u IH]; intros Hu; [reflexivity|].
  apply absent_cons in Hu. destruct Hu as [Hc Hu].
  cbn [app mark_tokens]. rewrite (token_at_paren es c _ H Hc), (IH Hu).
  reflexivity.
Qed.

Lemma mark_token (es : list str) (e rest : str) :
  forallb token_like es = true -> token_shaped e = true ->
  mark_tokens es (e ++ rest)
  = (if token_at es (e ++ rest) then ["\"%char] else [])
      ++ e ++ mark_tokens es rest.
Proof.
  intros H He. destruct (tok_tail e He) as (r & -> & Hr).
  cbn [app mark_tokens]. rewrite (mark_span es r rest H Hr).
  destruct (token_at es ("("%char :: r ++ rest)); reflexivity.
Qed.

(** A token is found in the marked text where it is found in the text. *)
Lemma startswith_marked_tail (es : list str) :
  forallb token_like es = true ->
  forall tl s,
    absent "(" tl = true -> absent "\" tl = true ->
    startswith tl (mark_tokens es s) = startswith tl s.
Proof.
  intros H. induction tl as [|x tl IH]; intros s H1 H2; [reflexivity|].
  apply absent_cons in H1, H2. destruct H1 as [X1 H1], H2 as [X2 H2].
  destruct s as [|d s]; [reflexivity|]. cbn [mark_tokens].
  destruct (token_at es (d :: s)) eqn:T.
  - cbn [startswith]. rewrite X2. cbn [andb].
    destruct (Ascii.eqb_spec d "(") as [->|Hd].
    + rewrite X1. reflexivity.
    + apply Ascii.eqb_neq in Hd.
      rewrite (token_at_paren es d s H Hd) in T. discriminate T.
  - cbn [startswith]. rewrite (IH s H1 H2). reflexivity.
Qed.

Lemma startswith_marked (es : list str) (e : str) (c : ascii) (s : str) :
  forallb token_like es = true -> token_like e = true ->
  startswith e (c :: mark_tokens es s) = startswith e (c :: s).
Proof.
  intros H He. unfold token_like in He. apply andb_true_iff in He.
  destruct He as [He Hb]. destruct (tok_tail e He) as (r & -> & Hr).
  apply absent_cons in Hb. destruct Hb as [_ Hb]. cbn [startswith].
  rewrite (startswith_marked_tail es H r s Hr Hb). reflexivity.
Qed.

(** One round of the loop: the occurrences of one more token are
    marked. *)
Lemma replace_marks (es : list str) (e : str) :
  forallb token_like es = true -> token_like e = true ->
  existsb (eqb_str e) es = false ->
  forall n s, length s <= n ->
    replace e ("\"%char :: e) (mark_tokens es s) = mark_tokens (e :: es) s.
Proof.
  intros H He Hnew.
  pose proof He as He'. unfold token_like in He'.
  apply andb_true_iff in He'. destruct He' as [Hsh Hbs].
  destruct (tok_tail e Hsh) as (r & Er & Hr).
  assert (R : forall s, replace e ("\"%char :: e) s
                        = replace_aux e ("\"%char :: e) 0 s)
    by (intros s; rewrite Er; reflexivity).
  assert (Hq : forall q, In q es -> token_shaped q = true /\ q <> e).
  { intros q Hin. split.
    - rewrite forallb_forall in H. specialize (H q Hin). unfold token_like in H.
      apply andb_true_iff in H. tauto.
    - intros ->. assert (existsb (eqb_str e) es = true); [|congruence].
      apply existsb_exists. exists e. split; [exact Hin|apply eqb_str_refl]. }
  induction n as [|n IH]; intros s Hn.
  - destruct s; [rewrite R; reflexivity|simpl in Hn; lia].
  - destruct s as [|c s]; [rewrite R; reflexivity|].
    destruct (startswith e (c :: s)) eqn:Hs.
    + destruct (startswith_split e (c :: s) Hs) as [rest Erest].
      assert (T : token_at es (e ++ rest) = false).
      { rewrite <- Erest. unfold token_at.
        destruct (existsb (fun q => startswith q (c :: s)) es) eqn:X;
          [|reflexivity].
        apply existsb_exists in X. destruct X as (q & Hin & Hqs).
        destruct (Hq q Hin) as [Q1 Q2]. destruct Q2.
        symmetry. exact (distinct_start e q (c :: s) Hsh Q1 Hs Hqs). }
      rewrite Erest, (mark_token es e rest H Hsh), T.
      assert (He2 : forallb token_like (e :: es) = true)
        by (cbn [forallb]; rewrite He, H; reflexivity).
      rewrite (mark_token (e :: es) e rest He2 Hsh), token_at_cons,
        startswith_app.
      cbn [orb app]. rewrite R.
      pose proof (replace_aux_hit "(" r ("\"%char :: e)
                                  (mark_tokens es rest)) as Hit.
      rewrite <- Er in Hit. rewrite Hit, <- R, IH; [reflexivity|].
      apply (f_equal (@length ascii)) in Erest. rewrite length_app in Erest.
      simpl in Erest, Hn. rewrite Er in Erest. simpl in Erest. lia.
    + cbn [mark_tokens]. rewrite token_at_cons, Hs. cbn [orb].
      assert (Step : replace_aux e ("\"%char :: e) 0
                                 (c :: mark_tokens es s)
                     = c :: replace_aux e ("\"%char :: e) 0
                                        (mark_tokens es s)).
      { apply replace_aux_miss.
        rewrite (startswith_marked es e c s H He). exact Hs. }
      simpl in Hn. specialize (IH s ltac:(lia)). rewrite R in IH.
      destruct (token_at es (c :: s)).
      * rewrite R, replace_aux_miss, Step, IH; [reflexivity|].
        rewrite Er. reflexivity.
      * rewrite R, Step, IH. reflexivity.
Qed.

Lemma mark_nothing (s : str) : mark_tokens [] s = s.
Proof. induction s as [|c s IH]; [reflexivity|]. cbn. rewrite IH. reflexivity. Qed.

(** The whole loop, for any list of distinct tokens. *)
Lemma escape_loop (es : list str) :
  forall done s,
    forallb token_like (es ++ done) = true -> NoDup (es ++ done) ->
    fold_left (fun text emoticon =>
                 replace emoticon ("\"%char :: emoticon) text)
              es (mark_tokens done s)
    = mark_tokens (rev es ++ done) s.
Proof.
  induction es as [|e es IH]; intros done s H N; [reflexivity|].
  cbn [app] in H, N. cbn [forallb] in H. apply andb_true_iff in H.
  destruct H as [He H]. inversion N as [|x l Hnot N']; subst.
  rewrite forallb_app in H. apply andb_true_iff in H. destruct H as [H1 H2].
  cbn [fold_left].
  assert (Hn : existsb (eqb_str e) done = false).
  { destruct (existsb (eqb_str e) done) eqn:X; [|reflexivity].
    apply existsb_exists in X. destruct X as (q & Hin & Eq).
    apply eqb_str_eq in Eq. subst q. destruct Hnot.
    apply in_or_app. right. exact Hin. }
  rewrite (replace_marks done e H2 He Hn (length s) s (le_n _)).
  rewrite (IH (e :: done) s).
  - cbn [rev]. rewrite <- app_assoc. reflexivity.
  - rewrite forallb_app. cbn [forallb]. rewrite H1, He, H2. reflexivity.
  - apply (NoDup_Add (Add_app e es done)). split; assumption.
Qed.

Lemma token_at_incl (a b : list str) (s : str) :
  (forall e, In e a -> In e b) ->
  token_at a s = true -> token_at b s = true.
Proof.
  intros I. unfold token_at. rewrite !existsb_exists.
  intros (e & Hin & Hs). exists e. auto.
Qed.

Lemma mark_tokens_ext (a b : list str) (s : str) :
  (forall e, In e a <-> In e b) -> mark_tokens a s = mark_tokens b s.
Proof.
  intros I. induction s as [|c s IH]; [reflexivity|]. cbn [mark_tokens].
  assert (T : token_at a (c :: s) = token_at b (c :: s)).
  { apply eq_true_iff_eq. split; apply token_at_incl; intros e; apply I. }
  rewrite T, IH. reflexivity.
Qed.

Lemma in_by_eqb (a b : list str) :
  forallb (fun e => existsb (eqb_str e) b) a = true ->
  forall e, In e a -> In e b.
Proof.
  rewrite forallb_forall. intros H e Hin. specialize (H e Hin).
  apply existsb_exists in H. destruct H as (q & Hq & E).
  apply eqb_str_eq in E. subst q. exact Hq.
Qed.

Lemma NoDup_by_eqb (a : list str) :
  (fix nodup (l : list str) : bool :=
     match l with
     | [] => true
     | x :: l' => negb (existsb (eqb_str x) l') && nodup l'
     end) a = true ->
  NoDup a.
Proof.
  induction a as [|x a IH]; [constructor|].
  rewrite andb_true_iff, negb_true_iff. intros [H1 H2]. constructor.
  - intros Hin. assert (existsb (eqb_str x) a = true); [|congruence].
    apply existsb_exists. exists x. split; [exact Hin|apply eqb_str_refl].
  - apply IH, H2.
Qed.

Lemma escape_scan (text : str) :
  _escape_jira_emoticons text = mark_tokens jira_emoticons text.
Proof.
  unfold _escape_jira_emoticons. cbv zeta.
  assert (L : forallb token_like (sorted_len_desc jira_emoticons ++ []) = true)
    by (vm_compute; reflexivity).
  assert (N : NoDup (sorted_len_desc jira_emoticons ++ []))
    by (apply NoDup_by_eqb; vm_compute; reflexivity).
  pose proof (escape_loop (sorted_len_desc jira_emoticons) [] text L N) as E.
  rewrite mark_nothing, app_nil_r in E.
  etransitivity; [exact E|].
  apply mark_tokens_ext. intros e.
  rewrite <- in_rev. split; apply in_by_eqb; vm_compute; reflexivity.
Qed.

(** X13.  [_escape_jira_emoticons] puts exactly one backslash in front of
    every place of the text where a token of the catalogue starts, and
    changes nothing else; the text may be anything, and the order in
    which the catalogue is gone through does not matter. *)
Theorem escape_emoticons_marks (text : str) :
  _escape_jira_emoticons text = mark_tokens jira_emoticons text.
Proof. exact (escape_scan text). Qed.

Lemma catalogue_like : forallb token_like jira_emoticons = true.
Proof. vm_compute. reflexivity. Qed.

Lemma token_at_member (e rest : str) :
  in_catalogue e = true -> token_at jira_emoticons (e ++ rest) = true.
Proof.
  intros H. unfold token_at. apply existsb_exists. exists e.
  split; [apply in_catalogue_In, H|apply startswith_app].
Qed.

Lemma mark_render (ps : list piece) :
  forallb input_piece ps = true ->
  mark_tokens jira_emoticons (render ps) = render (map escape ps).
Proof.
  induction ps as [|p ps IH]; [reflexivity|]. cbn [forallb].
  rewrite andb_true_iff. intros [Hp H]. specialize (IH H).
  unfold render in *. cbn [flat_map map].
  destruct p as [c|t|k|t]; cbn [input_piece] in Hp; try discriminate;
    cbn [render_piece escape].
  - destruct (char_context_facts c Hp) as (_ & _ & _ & Hc & _).
    cbn [app mark_tokens].
    rewrite (token_at_paren jira_emoticons c _ catalogue_like Hc), IH.
    reflexivity.
  - rewrite (mark_token jira_emoticons t _ catalogue_like
                        (good_tok_shaped t Hp)),
      (token_at_member t _ Hp), IH.
    reflexivity.
Qed.

(** X14.  On a line of plain text and tokens, [_convert_line], which
    escapes the tokens through placeholders, returns what the helper
    [_escape_jira_emoticons] returns. *)
Theorem convert_line_escapes_like_helper (ps : list piece) :
  forallb input_piece ps = true -> neutral_line (render ps) = true ->
  _convert_line (render ps) = _escape_jira_emoticons (render ps).
Proof.
  intros Hin Hn.
  rewrite (convert_line_pieces ps Hin Hn), escape_scan, (mark_render ps Hin).
  reflexivity.
Qed.

Lemma convert_line_escapes_like_helper_witness :
  _convert_line (lit "ok (y) or not (n)?")
  = _escape_jira_emoticons (lit "ok (y) or not (n)?").
Proof.
  apply (convert_line_escapes_like_helper
           (map Txt (lit "ok ") ++ [Tok (lit "(y)")] ++ map Txt (lit " or not ")
              ++ [Tok (lit "(n)")] ++ map Txt (lit "?")));
    reflexivity.
Defined.

(** Marking twice. *)
Lemma mark_twice (es : list str) :
  forallb token_like es = true ->
  forall n s, length s <= n ->
    mark_tokens es (mark_tokens es s) = mark_tokens es s ->
    mark_tokens es s = s.
Proof.
  intros H. induction n as [|n IH]; intros s Hn E.
  - destruct s; [reflexivity|simpl in Hn; lia].
  - destruct s as [|c s]; [reflexivity|]. simpl in Hn.
    cbn [mark_tokens] in *.
    destruct (token_at es (c :: s)) eqn:T.
    + exfalso. cbn [mark_tokens] in E.
      rewrite (token_at_paren es "\" _ H eq_refl) in E.
      assert (T' : token_at es (c :: mark_tokens es s) = true).
      { unfold token_at in *. rewrite existsb_exists in *.
        destruct T as (e & Hin & Hs). exists e. split; [exact Hin|].
        rewrite startswith_marked; [exact Hs|exact H|].
        rewrite forallb_forall in H. exact (H e Hin). }
      cbn [mark_tokens] in E. rewrite T' in E.
      inversion E as [[Ec E']]. subst c.
      rewrite (token_at_paren es "\" _ H eq_refl) in T. discriminate T.
    + cbn [mark_tokens] in E.
      assert (T' : token_at es (c :: mark_tokens es s) = false).
      { destruct (token_at es (c :: mark_tokens es s)) eqn:X; [|reflexivity].
        rewrite <- T. unfold token_at in *. rewrite existsb_exists in X.
        destruct X as (e & Hin & Hs). symmetry. apply existsb_exists.
        exists e. split; [exact Hin|].
        rewrite startswith_marked in Hs; [exact Hs|exact H|].
        rewrite forallb_forall in H. exact (H e Hin). }
      rewrite T' in E. inversion E as [E']. rewrite E'.
      f_equal. apply IH; [lia|exact E'].
Qed.

(** X15.  [_escape_jira_emoticons] is not idempotent: a second
    application changes the text again, unless the first one had nothing
    to escape. *)
Theorem escape_twice_escapes_again (text : str) :
  _escape_jira_emoticons (_escape_jira_emoticons text)
  = _escape_jira_emoticons text
  <-> _escape_jira_emoticons text = text.
Proof.
  rewrite !escape_scan. split.
  - apply (mark_twice jira_emoticons catalogue_like (length text) text).
    apply le_n.
  - intros E. rewrite E. exact E.
Qed.

(** ** The [data-markdown-raw] attributes found by the regular expression *)

Lemma startswith_app_short (p u rest : str) :
  length u < length p -> startswith p (u ++ rest) = true ->
  u = firstn (length u) p /\ startswith (skipn (length u) p) rest = true.
Proof.
  revert p. induction u as [|x u IH]; intros p Hl H; [auto|].
  destruct p as [|y p]; [simpl in Hl; lia|].
  cbn [app startswith] in H. apply andb_true_iff in H. destruct H as [Hxy H].
  apply Ascii.eqb_eq in Hxy. subst y. simpl in Hl.
  destruct (IH p ltac:(lia) H) as [E1 E2]. cbn [length firstn skipn].
  rewrite <- E1. auto.
Qed.

Lemma startswith_app_long (p u rest : str) :
  length p <= length u -> startswith p (u ++ rest) = startswith p u.
Proof.
  revert u. induction p as [|y p IH]; intros u Hl; [destruct u; reflexivity|].
  destruct u as [|x u]; [simpl in Hl; lia|]. cbn [app startswith].
  rewrite IH by (simpl in Hl; lia). reflexivity.
Qed.

Lemma startswith_trans_prefix (q p rest : str) :
  length q <= length p -> startswith q (p ++ rest) = startswith q p.
Proof. apply startswith_app_long. Qed.

Lemma contains_head_false (p : str) (c : ascii) (s : str) :
  contains p (c :: s) = false ->
  startswith p (c :: s) = false /\ contains p s = false.
Proof. rewrite contains_step. apply orb_false_iff. Qed.

(** An unbordered string that does not occur in [u] does not start
    inside [u] when [u] is followed by nothing or by the string
    itself. *)
Lemma no_straddle (p u rest : str) :
  unbordered p = true -> u <> [] -> startswith p u = false ->
  rest = [] \/ startswith p rest = true ->
  startswith p (u ++ rest) = false.
Proof.
  intros Hb Hu Hs Hr.
  destruct (startswith p (u ++ rest)) eqn:E; [|reflexivity]. exfalso.
  destruct (Nat.le_gt_cases (length p) (length u)) as [L|L].
  - rewrite (startswith_app_long p u rest L) in E. congruence.
  - destruct (startswith_app_short p u rest L E) as [E1 E2].
    assert (J : 1 <= length u) by (destruct u; [congruence|simpl; lia]).
    destruct Hr as [->|Hr].
    + destruct (skipn (length u) p) eqn:K; [|discriminate E2].
      apply (f_equal (@length ascii)) in K. rewrite length_skipn in K.
      simpl in K. lia.
    + destruct (startswith_split p rest Hr) as [rest' ->].
      rewrite (startswith_app_long _ p rest') in E2
        by (rewrite length_skipn; lia).
      unfold unbordered in Hb. rewrite forallb_forall in Hb.
      specialize (Hb (length u)). rewrite E2 in Hb.
      assert (In (length u) (seq 1 (length p - 1))) by (apply in_seq; lia).
      specialize (Hb H). discriminate Hb.
Qed.

Lemma ms_lits_miss ml (h : str) prev (s : str) caps :
  startswith h s = false -> ms ml (lits h) prev s caps = [].
Proof.
  intros H. apply nil_no_in. intros [[pv s'] c'] Hin.
  apply in_ms_lits in Hin. destruct Hin as [E _].
  rewrite E, startswith_app in H. discriminate H.
Qed.

Lemma match_at_lits_miss ml (h : str) (r : re) prev (s : str) :
  startswith h s = false -> match_at ml (Seq (lits h) r) prev s = None.
Proof.
  intros H. unfold match_at. cbn [ms].
  rewrite (ms_lits_miss ml h prev s [] H). reflexivity.
Qed.

(** Scanning the text between two occurrences of an unbordered literal
    with which the pattern begins. *)
Lemma finditer_between ml (h : str) (r : re) :
  unbordered h = true ->
  forall junk rest prev,
    contains h junk = false ->
    rest = [] \/ startswith h rest = true ->
    exists prev',
      finditer_aux ml (Seq (lits h) r) 0 prev (junk ++ rest)
      = finditer_aux ml (Seq (lits h) r) 0 prev' rest.
Proof.
  intros Hb. induction junk as [|c junk IH]; intros rest prev Hc Hr.
  - exists prev. reflexivity.
  - destruct (contains_head_false h c junk Hc) as [H1 H2].
    destruct (IH rest (Some c) H2 Hr) as [prev' E]. exists prev'.
    cbn [app finditer_aux].
    pose proof (no_straddle h (c :: junk) rest Hb ltac:(discriminate) H1 Hr)
      as N.
    cbn [app] in N. rewrite (match_at_lits_miss ml h r prev _ N). exact E.
Qed.

Lemma raw_section_run (v rest : str) prev :
  absent dq v = true ->
  first_run false re_markdown_raw prev ((attr_open ++ v ++ [dq]) ++ rest) []
            rest [(1, v)].
Proof.
  intros Hv. unfold re_markdown_raw. cbn [seqs]. rewrite <- !app_assoc.
  apply (first_run_seq false _ _ _ _ _ (v ++ [dq] ++ rest) []);
    [apply first_run_lits|]. intros pv1.
  apply (first_run_seq false _ _ _ _ _ ([dq] ++ rest) [(1, v)]).
  - apply first_run_grp, first_run_greedy; [|reflexivity|lia].
    revert Hv. apply forallb_imp. intros c Hc. unfold none_of, one_of.
    cbn [existsb]. rewrite orb_false_r. exact Hc.
  - intros pv2. apply first_run_chr.
Qed.

Lemma sections_start (secs : list (str * str)) :
  flat_map raw_section secs = []
  \/ startswith attr_open (flat_map raw_section secs) = true.
Proof.
  destruct secs as [|[v j] secs]; [left; reflexivity|right].
  cbn [flat_map]. unfold raw_section at 1. rewrite <- app_assoc.
  apply startswith_app.
Qed.

(** What [re.findall] returns on a text cut at its [data-markdown-raw]
    attributes. *)
Lemma findall_sections (secs : list (str * str)) :
  forallb (fun vj => absent dq (fst vj)
                     && negb (contains attr_open (snd vj))) secs = true ->
  forall prev,
    map (group 1)
        (finditer_aux false re_markdown_raw 0 prev (flat_map raw_section secs))
    = map fst secs.
Proof.
  induction secs as [|[v j] secs IH]; intros H prev; [reflexivity|].
  cbn [forallb fst snd] in H. rewrite !andb_true_iff, negb_true_iff in H.
  destruct H as [[Hv Hj] H].
  cbn [flat_map]. unfold raw_section at 1. cbn [fst snd].
  replace ((attr_open ++ v ++ dq :: j) ++ flat_map raw_section secs)
    with ((attr_open ++ v ++ [dq]) ++ j ++ flat_map raw_section secs)
    by (rewrite <- !app_assoc; reflexivity).
  destruct (finditer_aux_hit false re_markdown_raw (attr_open ++ v ++ [dq])
              (j ++ flat_map raw_section secs) prev [(1, v)]
              ltac:(discriminate) (raw_section_run v _ prev Hv))
    as [p1 E1].
  rewrite E1. cbn [map group Nat.eqb]. f_equal.
  unfold re_markdown_raw. cbn [seqs].
  destruct (finditer_between false attr_open
              (Seq (Grp 1 (Rep true 0 (none_of [dq]))) (Chr dq))
              eq_refl j (flat_map raw_section secs) p1 Hj
              (sections_start secs)) as [p2 E2].
  rewrite E2. apply (IH H).
Qed.

(** X16.  The regular-expression fallback for [data-markdown-raw]: on a
    text cut at these attributes, whose values contain no double quote,
    it returns the values, entity-decoded and stripped, the empty ones
    left out, separated by blank lines; when none is left it hands the
    text to the header extraction. *)
Theorem markdown_raw_sections (junk : str) (secs : list (str * str)) :
  contains attr_open junk = false ->
  forallb (fun vj => absent dq (fst vj)
                     && negb (contains attr_open (snd vj))) secs = true ->
  _extract_markdown_with_regex (junk ++ flat_map raw_section secs)
  = match kept_sections (map fst secs) with
    | [] => _extract_text_from_html_regex (junk ++ flat_map raw_section secs)
    | parts => join blank_line parts
    end.
Proof.
  intros Hj Hs. unfold _extract_markdown_with_regex, re_finditer.
  assert (F : map (group 1)
                  (finditer_aux false re_markdown_raw 0 None
                                (junk ++ flat_map raw_section secs))
              = map fst secs).
  { unfold re_markdown_raw. cbn [seqs].
    destruct (finditer_between false attr_open
                (Seq (Grp 1 (Rep true 0 (none_of [dq]))) (Chr dq))
                eq_refl junk (flat_map raw_section secs) None Hj
                (sections_start secs)) as [p E].
    rewrite E. apply (findall_sections secs Hs). }
  rewrite F.
  assert (K : forall vs,
             flat_map (fun m : str =>
                         match strip (decode_raw m) with
                         | _ :: _ => [strip (decode_raw m)]
                         | [] => []
                         end) vs
             = kept_sections vs).
  { unfold kept_sections. induction vs as [|v vs IHv]; [reflexivity|].
    cbn [flat_map map filter]. rewrite IHv.
    destruct (strip (decode_raw v)); reflexivity. }
  rewrite K.
  assert (J : forall parts,
             forallb (fun t => negb (eqb_str t [])) parts = true ->
             parts <> [] -> join blank_line parts <> []).
  { intros [|[|c t] parts]; cbn [forallb]; try congruence; try discriminate.
    intros _ _. cbn [join]. destruct parts; discriminate. }
  destruct (kept_sections (map fst secs)) as [|p parts] eqn:E; [reflexivity|].
  assert (N : join blank_line (p :: parts) <> []).
  { apply J; [|discriminate]. rewrite <- E. unfold kept_sections.
    apply forallb_forall. intros x Hx. apply filter_In in Hx. tauto. }
  destruct (join blank_line (p :: parts)); [congruence|reflexivity].
Qed.
(** ** Decoding the entities *)

Ltac entity_miss :=
  repeat (rewrite replace_aux_miss by reflexivity).

Ltac entity_step c :=
  unfold escape_only, entity, one_of; cbn [existsb];
  repeat
    (match goal with
     | |- context [Ascii.eqb c ?k] =>
         let E := fresh "E" in
         destruct (Ascii.eqb c k) eqn:E;
         [apply Ascii.eqb_eq in E; subst c; cbn|]
     end);
  cbn [orb andb app];
  try (rewrite replace_aux_hit; reflexivity);
  try (entity_miss; reflexivity);
  try (rewrite replace_aux_miss;
       [reflexivity
       |cbn [lit list_ascii_of_string startswith]; rewrite Ascii.eqb_sym;
        match goal with
        | H : Ascii.eqb c "&" = false |- _ => rewrite H
        end; reflexivity]).

(** Replacing one entity in a text whose ampersands all begin an
    entity. *)
Lemma decode_step (k : ascii) (old cs : str) (s : str) :
  In (k, old, cs)
     [ (dq, lit "&quot;", lit "<>&"); ("<"%char, lit "&lt;", lit ">&");
       (">"%char, lit "&gt;", lit "&");
       (dq, lit "&quot;", lit "<>&" ++ [nl]);
       ("<"%char, lit "&lt;", lit ">&" ++ [nl]);
       (">"%char, lit "&gt;", lit "&" ++ [nl]) ] ->
  replace old [k] (flat_map (escape_only (k :: cs)) s)
  = flat_map (escape_only cs) s.
Proof.
  intros H.
  assert (P : forall c rest,
             replace_aux old [k] 0 (escape_only (k :: cs) c ++ rest)
             = escape_only cs c ++ replace_aux old [k] 0 rest).
  { intros c rest. cbn [In] in H.
    repeat (destruct H as [H|H]; [inversion H; subst k old cs; clear H|]);
      try contradiction.
    all: entity_step c. }
  assert (N : exists x o, old = x :: o).
  { cbn [In] in H.
    repeat (destruct H as [H|H]; [inversion H; eexists; eexists; reflexivity|]).
    contradiction. }
  destruct N as (x & o & N). unfold replace. rewrite N. rewrite <- N.
  induction s as [|c s IH]; [reflexivity|].
  cbn [flat_map]. rewrite P, IH. reflexivity.
Qed.

(** The last step: the ampersands themselves. *)
Lemma decode_amp (cs : str) (s : str) :
  cs = [] \/ cs = [nl] ->
  replace (lit "&amp;") (lit "&") (flat_map (escape_only ("&"%char :: cs)) s)
  = flat_map (escape_only cs) s.
Proof.
  intros H.
  assert (P : forall c rest,
             replace_aux (lit "&amp;") (lit "&") 0
                         (escape_only ("&"%char :: cs) c ++ rest)
             = escape_only cs c ++ replace_aux (lit "&amp;") (lit "&") 0 rest).
  { intros c rest. destruct H as [->| ->]; entity_step c. }
  unfold replace. cbn [lit list_ascii_of_string].
  induction s as [|c s IH]; [reflexivity|].
  cbn [flat_map]. cbn [lit list_ascii_of_string] in P. rewrite P, IH.
  reflexivity.
Qed.
Lemma escape_only_nil (s : str) : flat_map (escape_only []) s = s.
Proof. induction s as [|c s IH]; [reflexivity|]. cbn. rewrite IH. reflexivity. Qed.

Lemma escape_entities_only (s : str) :
  escape_entities s = flat_map (escape_only (dq :: lit "<>&")) s.
Proof.
  unfold escape_entities. apply flat_map_ext. intros c.
  unfold escape_char, escape_only, entity, one_of. cbn [existsb lit list_ascii_of_string].
  destruct (Ascii.eqb c "&") eqn:E1;
    [apply Ascii.eqb_eq in E1; subst c; reflexivity|].
  destruct (Ascii.eqb c "<") eqn:E2;
    [apply Ascii.eqb_eq in E2; subst c; reflexivity|].
  destruct (Ascii.eqb c ">") eqn:E3;
    [apply Ascii.eqb_eq in E3; subst c; reflexivity|].
  destruct (Ascii.eqb c dq) eqn:E4; reflexivity.
Qed.

Lemma escape_raw_only (s : str) :
  escape_raw s = flat_map (escape_only (dq :: lit "<>&" ++ [nl])) s.
Proof.
  unfold escape_raw. apply flat_map_ext. intros c.
  unfold escape_char, escape_only, entity, one_of.
  cbn [existsb lit list_ascii_of_string app].
  destruct (Ascii.eqb c nl) eqn:E0.
  - apply Ascii.eqb_eq in E0. subst c. reflexivity.
  - destruct (Ascii.eqb c "&") eqn:E1;
      [apply Ascii.eqb_eq in E1; subst c; reflexivity|].
    destruct (Ascii.eqb c "<") eqn:E2;
      [apply Ascii.eqb_eq in E2; subst c; reflexivity|].
    destruct (Ascii.eqb c ">") eqn:E3;
      [apply Ascii.eqb_eq in E3; subst c; reflexivity|].
    destruct (Ascii.eqb c dq) eqn:E4; [reflexivity|]. cbn [orb].
    reflexivity.
Qed.

Lemma decode_escaped (s : str) : decode_entities (escape_entities s) = s.
Proof.
  unfold decode_entities. rewrite escape_entities_only.
  rewrite (decode_step dq (lit "&quot;") (lit "<>&")) by (cbn; auto).
  rewrite (decode_step "<" (lit "&lt;") (lit ">&")) by (cbn; auto).
  rewrite (decode_step ">" (lit "&gt;") (lit "&")) by (cbn; auto).
  etransitivity; [exact (decode_amp [] s (or_introl eq_refl))|].
  apply escape_only_nil.
Qed.

(** X17.  The decoding chain undoes the usual escaping of the four
    characters: a text escaped for HTML comes back as it was, whatever it
    contains. *)
Theorem decode_entities_round_trip (s : str) :
  decode_entities (escape_entities s) = s.
Proof. exact (decode_escaped s). Qed.

Lemma startswith_escaped (p s : str) :
  absent nl p = true -> absent "&" p = true ->
  startswith p (flat_map (escape_only [nl]) s) = startswith p s.
Proof.
  revert s. induction p as [|x p IH]; intros s Hn Ha; [reflexivity|].
  apply absent_cons in Hn. destruct Hn as [Hn1 Hn].
  apply absent_cons in Ha. destruct Ha as [Ha1 Ha].
  destruct s as [|c s]; [reflexivity|]. cbn [flat_map].
  unfold escape_only at 1, entity, one_of. cbn [existsb]. rewrite orb_false_r.
  destruct (Ascii.eqb c nl) eqn:E.
  - apply Ascii.eqb_eq in E. subst c. cbn [Ascii.eqb]. cbn.
    rewrite Ha1, Hn1. reflexivity.
  - cbn [app startswith]. rewrite (IH s Hn Ha). reflexivity.
Qed.

Lemma decode_line_breaks (n : nat) :
  forall s, length s <= n ->
    replace_aux (lit "&#10;") [nl] 0 (flat_map (escape_only [nl]) s)
    = replace_aux (lit "&#10;") [nl] 0 s.
Proof.
  pose proof (replace_aux_hit "&"%char (lit "#10;") [nl]) as HIT.
  change ("&"%char :: lit "#10;") with (lit "&#10;") in HIT.
  induction n as [|n IH]; intros s L.
  - destruct s; [reflexivity|simpl in L; lia].
  - destruct s as [|c s]; [reflexivity|]. simpl in L. cbn [flat_map].
    unfold escape_only at 1, entity, one_of. cbn [existsb]. rewrite orb_false_r.
    destruct (Ascii.eqb c nl) eqn:E.
    + apply Ascii.eqb_eq in E. subst c.
      change (replace_aux (lit "&#10;") [nl] 0
                (lit "&#10;" ++ flat_map (escape_only [nl]) s)
              = replace_aux (lit "&#10;") [nl] 0 (nl :: s)).
      rewrite HIT.
      rewrite (replace_aux_miss _ _ nl s) by reflexivity.
      rewrite IH by lia. reflexivity.
    + cbv iota. cbn [app].
      destruct (startswith (lit "&#10;") (c :: s)) eqn:S.
      * destruct (startswith_split _ _ S) as [s' E'].
        cbn [lit list_ascii_of_string app] in E'. inversion E'. subst c s.
        change ("&"%char :: flat_map (escape_only [nl])
                  ("#"%char :: "1"%char :: "0"%char :: ";"%char :: s'))
          with (lit "&#10;" ++ flat_map (escape_only [nl]) s').
        change ("&"%char :: "#"%char :: "1"%char :: "0"%char :: ";"%char :: s')
          with (lit "&#10;" ++ s').
        rewrite !HIT. rewrite IH by (simpl in L; lia). reflexivity.
      * rewrite (replace_aux_miss _ _ c s S).
        rewrite replace_aux_miss; [rewrite IH by lia; reflexivity|].
        cbn [lit list_ascii_of_string startswith] in *.
        destruct (Ascii.eqb "&" c); [|reflexivity]. cbn [andb] in *.
        change (startswith (lit "#10;") (flat_map (escape_only [nl]) s) = false).
        rewrite startswith_escaped by reflexivity. exact S.
Qed.

(** X18.  A [data-markdown-raw] value is decoded once more than it was
    escaped: after the entities, the character reference of the line
    break is replaced, so the value comes back with a line break wherever
    it spelled out that reference itself. *)
Theorem decode_raw_of_escaped (s : str) :
  decode_raw (escape_raw s) = replace (lit "&#10;") [nl] s.
Proof.
  unfold decode_raw, decode_entities. rewrite escape_raw_only.
  rewrite (decode_step dq (lit "&quot;") (lit "<>&" ++ [nl])) by (cbn; auto 10).
  rewrite (decode_step "<" (lit "&lt;") (lit ">&" ++ [nl])) by (cbn; auto 10).
  rewrite (decode_step ">" (lit "&gt;") (lit "&" ++ [nl])) by (cbn; auto 10).
  replace (replace (lit "&amp;") (lit "&")
             (flat_map (escape_only (lit "&" ++ [nl])) s))
    with (flat_map (escape_only [nl]) s)
    by (symmetry; exact (decode_amp [nl] s (or_intror eq_refl))).
  unfold replace. cbn [lit list_ascii_of_string].
  apply (decode_line_breaks (length s) s (Nat.le_refl _)).
Qed.
(** ** The headers found by the regular expression *)

Lemma level_digit_ok (n : nat) :
  is_level n = true ->
  cls_level (level_digit n) = true /\ int_of_str [level_digit n] = n.
Proof.
  unfold is_level. rewrite andb_true_iff, Nat.leb_le, Nat.leb_le. intros [A B].
  assert (H : n = 1 \/ n = 2 \/ n = 3 \/ n = 4 \/ n = 5 \/ n = 6) by lia.
  repeat (destruct H as [->|H]; [split; reflexivity|]). subst n.
  split; reflexivity.
Qed.

Lemma opens_header_run ml prev (s : str) :
  ms ml re_html_header prev s [] <> [] -> opens_header s = true.
Proof.
  intros H. destruct (ms ml re_html_header prev s []) as [|[[pv s'] c'] l] eqn:E;
    [congruence|]. clear H.
  assert (I : In (pv, s', c') (ms ml re_html_header prev s []))
    by (rewrite E; left; reflexivity).
  unfold re_html_header in I. cbn [seqs] in I.
  apply in_ms_seq in I. destruct I as (p1 & s1 & c1 & I1 & I).
  apply in_ms_lits in I1. destruct I1 as [-> ->].
  apply in_ms_seq in I. destruct I as (p2 & s2 & c2 & I2 & _).
  apply in_ms_grp in I2. destruct I2 as (p3 & s3 & c3 & I2 & _).
  apply in_ms_cls in I2. destruct I2 as (x & t & -> & Hx & _).
  cbn. exact Hx.
Qed.

Lemma no_header_no_match ml prev (s : str) :
  opens_header s = false -> match_at ml re_html_header prev s = None.
Proof.
  intros H. unfold match_at.
  destruct (ms ml re_html_header prev s []) as [|[[pv s'] c'] l] eqn:E;
    [reflexivity|].
  rewrite (opens_header_run ml prev s) in H; [discriminate|].
  rewrite E. discriminate.
Qed.

(** A header cannot open across the end of a text without headers that
    is followed by nothing or by a header. *)
Lemma opens_header_straddle (u rest : str) :
  u <> [] -> opens_header u = false ->
  rest = [] \/ startswith (lit "<h") rest = true ->
  opens_header (u ++ rest) = false.
Proof.
  intros Hu H Hr. destruct u as [|a [|b [|d u]]]; [congruence| | |exact H].
  - destruct Hr as [->|Hr]; [reflexivity|].
    destruct (startswith_split _ _ Hr) as [r' ->]. cbn.
    rewrite andb_false_r. reflexivity.
  - destruct Hr as [->|Hr]; [reflexivity|].
    destruct (startswith_split _ _ Hr) as [r' ->]. cbn.
    rewrite andb_false_r. reflexivity.
Qed.

Lemma finditer_header_free (junk rest : str) :
  rest = [] \/ startswith (lit "<h") rest = true ->
  forall prev,
    header_free junk = true ->
    exists prev',
      finditer_aux false re_html_header 0 prev (junk ++ rest)
      = finditer_aux false re_html_header 0 prev' rest.
Proof.
  intros Hr. induction junk as [|c junk IH]; intros prev H.
  - exists prev. reflexivity.
  - cbn [header_free] in H. rewrite andb_true_iff, negb_true_iff in H.
    destruct H as [H1 H2]. destruct (IH (Some c) H2) as [prev' E].
    exists prev'. cbn [app finditer_aux].
    pose proof (opens_header_straddle (c :: junk) rest ltac:(discriminate)
                  H1 Hr) as N.
    cbn [app] in N. rewrite (no_header_no_match false prev _ N). exact E.
Qed.

(** A lazy group followed by a closing pattern that cannot start inside
    the text [x]: the group takes [x]. *)
Lemma lazy_scan_to ml (rclose : re) (n : nat) (p : ascii -> bool)
  (t : str) (caps : captures) (s0 : str) :
  forall x done prev,
    forallb p x = true ->
    (forall a c b pv caps', x = a ++ c :: b ->
                            ms ml rclose pv (c :: b ++ t) caps' = []) ->
    s0 = done ++ x ++ t ->
    exists pv more,
      flat_map (fun st : mstate =>
                  let '(pv, s', caps') := st in ms ml rclose pv s' caps')
        (map (fun st : mstate =>
                let '(pv, s', caps') := st in
                (pv, s', (n, firstn (length s0 - length s') s0) :: caps'))
             (map (fun o : option ascii * str => (fst o, snd o, caps))
                  (rep_opts p prev (x ++ t))))
      = ms ml rclose pv t ((n, done ++ x) :: caps) ++ more.
Proof.
  induction x as [|c x IH]; intros done prev Hx Hf E.
  - assert (T : exists tl, rep_opts p prev t = (prev, t) :: tl)
      by (destruct t; eexists; reflexivity).
    destruct T as [tl T]. cbn [app]. rewrite T.
    cbn [map flat_map fst snd]. exists prev. eexists.
    rewrite E. cbn [app]. rewrite length_app, Nat.add_sub, firstn_app,
      firstn_all, Nat.sub_diag. cbn [firstn]. reflexivity.
  - cbn [forallb] in Hx. rewrite andb_true_iff in Hx. destruct Hx as [Hc Hx].
    assert (E' : s0 = (done ++ [c]) ++ x ++ t)
      by (rewrite E, <- app_assoc; reflexivity).
    cbn [app rep_opts]. rewrite Hc. cbn [map flat_map fst snd].
    rewrite (Hf [] c x prev _ eq_refl). cbn [app].
    destruct (IH (done ++ [c]) (Some c) Hx) as (pv & more & R).
    + intros a c0 b pv caps' Ex. apply (Hf (c :: a) c0 b pv caps').
      rewrite Ex. reflexivity.
    + exact E'.
    + rewrite R, <- app_assoc. exists pv, more. reflexivity.
Qed.

Lemma first_run_lazy_to ml (rclose : re) (n : nat)
  (p : ascii -> bool) (x t t' : str) prev caps caps' :
  forallb p x = true ->
  (forall a c b pv caps', x = a ++ c :: b ->
                          ms ml rclose pv (c :: b ++ t) caps' = []) ->
  (forall pv, first_run ml rclose pv t ((n, x) :: caps) t' caps') ->
  first_run ml (Seq (Grp n (Rep false 0 p)) rclose) prev (x ++ t) caps
            t' caps'.
Proof.
  intros Hx Hf Hc.
  destruct (lazy_scan_to ml rclose n p t caps (x ++ t) x [] prev
                         Hx Hf eq_refl) as (pv & more & R).
  destruct (Hc pv) as (pv' & more' & E).
  exists pv', (more' ++ more). cbn [ms skipn]. cbn [app] in R. rewrite R.
  change ((pv', t', caps') :: more' ++ more)
    with (((pv', t', caps') :: more') ++ more).
  f_equal. exact E.
Qed.

Lemma forallb_any (x : str) : forallb cls_any x = true.
Proof. induction x; [reflexivity|assumption]. Qed.

Lemma header_run (h : header_elem) (rest : str) prev :
  well_formed_header h = true ->
  exists m,
    header_html h ++ rest = m ++ h_after h ++ rest
    /\ m <> []
    /\ first_run false re_html_header prev (m ++ h_after h ++ rest) []
                 (h_after h ++ rest)
                 [(2, h_body h); (1, [level_digit (h_level h)])].
Proof.
  unfold well_formed_header.
  rewrite !andb_true_iff, negb_true_iff. intros [[[[L1 L2] Ha] Hb] _].
  destruct (level_digit_ok _ L1) as [D1 _].
  destruct (level_digit_ok _ L2) as [D2 _].
  set (t := h_after h ++ rest).
  exists (lit "<h" ++ level_digit (h_level h) :: h_attrs h ++ ">"%char
          :: h_body h ++ lit "</h" ++ [level_digit (h_close h); ">"%char]).
  split; [|split; [discriminate|]].
  - unfold header_html, t. cbn [lit list_ascii_of_string app].
    rewrite <- !app_assoc. cbn [app]. do 4 f_equal.
    rewrite <- !app_assoc. reflexivity.
  - unfold re_html_header. cbn [seqs].
    replace ((lit "<h" ++ level_digit (h_level h) :: h_attrs h ++ ">"%char
               :: h_body h ++ lit "</h" ++ [level_digit (h_close h); ">"%char])
             ++ t)
      with (lit "<h" ++ [level_digit (h_level h)] ++ h_attrs h ++ ">"%char
              :: h_body h ++ lit "</h" ++ level_digit (h_close h)
              :: ">"%char :: t)
      by (cbn [lit list_ascii_of_string app]; rewrite <- !app_assoc;
          cbn [app]; do 4 f_equal; rewrite <- !app_assoc; reflexivity).
    eapply first_run_seq; [apply first_run_lits|]. intros pv1.
    eapply first_run_seq;
      [apply first_run_grp, first_run_cls; exact D1|]. intros pv2.
    eapply first_run_seq.
    { apply first_run_greedy; [|reflexivity|lia].
      revert Ha. apply forallb_imp. intros c Hc. unfold none_of, one_of.
      cbn [lit list_ascii_of_string existsb]. rewrite orb_false_r. exact Hc. }
    intros pv3. eapply first_run_seq; [apply first_run_chr|]. intros pv4.
    apply first_run_lazy_to; [apply forallb_any| |].
    + intros a c b pv caps' Ex.
      change (Seq (lits (lit "</h")) (Seq (Cls cls_level) (Chr ">")))
        with (Seq (lits (lit "</h")) (seqs [Cls cls_level; Chr ">"])).
      cbn [ms]. rewrite ms_lits_miss; [reflexivity|].
      change (c :: b ++ lit "</h" ++ level_digit (h_close h) :: ">"%char :: t)
        with ((c :: b) ++ lit "</h" ++ level_digit (h_close h)
                :: ">"%char :: t).
      apply no_straddle; [reflexivity|discriminate| |right; apply startswith_app].
      destruct (contains (lit "</h") (c :: b)) eqn:K.
      * rewrite Ex, (contains_app_r _ a _ K) in Hb. discriminate Hb.
      * apply contains_head_false in K. tauto.
    + intros pv5. eapply first_run_seq; [apply first_run_lits|]. intros pv6.
      eapply first_run_seq; [apply first_run_cls; exact D2|]. intros pv7.
      apply first_run_chr.
Qed.

Lemma headers_start (hs : list header_elem) :
  flat_map header_html hs = []
  \/ startswith (lit "<h") (flat_map header_html hs) = true.
Proof. destruct hs as [|h hs]; [left|right]; reflexivity. Qed.

(** What [re.findall] returns on a text cut at its headers. *)
Lemma findall_headers (hs : list header_elem) :
  forallb well_formed_header hs = true ->
  forall prev,
    map (fun m => (group 1 m, group 2 m))
        (finditer_aux false re_html_header 0 prev (flat_map header_html hs))
    = map (fun h => ([level_digit (h_level h)], h_body h)) hs.
Proof.
  induction hs as [|h hs IH]; intros H prev; [reflexivity|].
  cbn [forallb] in H. rewrite andb_true_iff in H. destruct H as [Hh H].
  cbn [flat_map].
  destruct (header_run h (flat_map header_html hs) prev Hh)
    as (m & Em & Nm & R).
  rewrite Em.
  destruct (finditer_aux_hit false re_html_header m _ prev _ Nm R) as [p1 E1].
  rewrite E1. cbn [map group Nat.eqb]. f_equal.
  assert (Hf : header_free (h_after h) = true).
  { unfold well_formed_header in Hh. rewrite !andb_true_iff in Hh. tauto. }
  destruct (finditer_header_free (h_after h) (flat_map header_html hs)
              (headers_start hs) p1 Hf) as [p2 E2].
  rewrite E2. apply (IH H).
Qed.

(** X19.  The header extraction of the regular-expression fallback: on a
    text cut at its header elements, it returns one Markdown header per
    element whose text is not empty, of the level of the opening tag
    whatever the closing tag says, in bold when the body mentions the
    bold style, and separated by blank lines; the text outside the
    headers is dropped. *)
Theorem html_headers_extracted (junk : str) (hs : list header_elem) :
  header_free junk = true ->
  forallb well_formed_header hs = true ->
  _extract_text_from_html_regex (junk ++ flat_map header_html hs)
  = join blank_line (flat_map header_markdown hs).
Proof.
  intros Hj Hs. unfold _extract_text_from_html_regex, re_finditer.
  destruct (finditer_header_free junk (flat_map header_html hs)
              (headers_start hs) None Hj) as [p E].
  rewrite E, (findall_headers hs Hs p). f_equal.
  clear E Hj junk p. induction hs as [|h hs IH]; [reflexivity|].
  cbn [forallb] in Hs. rewrite andb_true_iff in Hs. destruct Hs as [Hh Hs].
  cbn [map flat_map]. rewrite (IH Hs). f_equal.
  unfold well_formed_header in Hh. rewrite !andb_true_iff in Hh.
  destruct Hh as [[[[L1 _] _] _] _].
  destruct (level_digit_ok _ L1) as [_ D]. rewrite D.
  unfold header_markdown, header_text, header_is_bold.
  destruct (strip (decode_entities (re_sub false re_tag (expand []) (h_body h))));
    [reflexivity|].
  destruct (contains (lit "font-weight: 600") (h_body h)
            || contains (lit "markdown-bold-text") (h_body h)); reflexivity.
Qed.
(** ** The text of an element *)

Lemma escaped_no_lt (s : str) : absent "<" (escape_entities s) = true.
Proof.
  unfold escape_entities. induction s as [|c s IH]; [reflexivity|].
  cbn [flat_map]. rewrite absent_app, IH, andb_true_r. unfold escape_char.
  destruct (Ascii.eqb c "&"); [reflexivity|].
  destruct (Ascii.eqb c "<") eqn:E; [reflexivity|].
  destruct (Ascii.eqb c ">"); [reflexivity|].
  destruct (Ascii.eqb c dq); [reflexivity|].
  apply absent_cons. split; [exact E|reflexivity].
Qed.

Lemma tag_run (t rest : str) prev :
  tag_inside t = true ->
  first_run false re_tag prev (("<"%char :: t ++ [">"%char]) ++ rest) []
            rest [].
Proof.
  unfold tag_inside. rewrite andb_true_iff, negb_true_iff, eqb_str_neq.
  intros [Hn Ha]. unfold re_tag. cbn [seqs].
  cbn [app]. rewrite <- app_assoc.
  eapply first_run_seq; [apply first_run_chr|]. intros pv1.
  eapply first_run_seq; [|intros pv2; apply first_run_chr].
  apply first_run_greedy.
  - revert Ha. apply forallb_imp. intros c Hc. unfold none_of, one_of.
    cbn [lit list_ascii_of_string existsb]. rewrite orb_false_r. exact Hc.
  - reflexivity.
  - destruct t; [congruence|simpl; lia].
Qed.

Lemma tags_removed (segs : list (str * str)) (last : str) :
  forallb (fun seg => tag_inside (snd seg)) segs = true ->
  forall prev,
    sub_aux false re_tag (expand []) 0 prev (marked_up segs last)
    = escape_entities (flat_map fst segs ++ last).
Proof.
  unfold marked_up.
  induction segs as [|[x t] segs IH]; intros H prev.
  - cbn [flat_map app].
    apply (sub_first_chr false "<" re_tag (expand []) eq_refl _ prev
                         (escaped_no_lt last)).
  - cbn [forallb fst snd] in H. rewrite andb_true_iff in H.
    destruct H as [Ht H]. cbn [flat_map fst snd]. rewrite <- app_assoc.
    specialize (IH H).
    set (r := flat_map _ segs ++ escape_entities last) in *.
    change (escape_entities x ++ "<"%char :: t ++ [">"%char])
      with (escape_entities x ++ ("<"%char :: t ++ [">"%char])).
    rewrite <- app_assoc.
    destruct (sub_aux_pre false "<" re_tag (expand []) eq_refl
                (escape_entities x) (("<"%char :: t ++ [">"%char]) ++ r)
                prev (escaped_no_lt x)) as [p1 E1].
    rewrite E1. clear E1.
    destruct (sub_aux_hit false re_tag (expand [])
                ("<"%char :: t ++ [">"%char]) r p1 []
                ltac:(discriminate) (tag_run t r p1 Ht)) as [p2 E2].
    rewrite E2. cbn [expand flat_map app]. rewrite (IH p2).
    unfold escape_entities. rewrite !flat_map_app, <- app_assoc. reflexivity.
Qed.

(** X20.  The text of a header is recovered as it was written: the tags
    inside the element are removed before the entities are decoded, so
    the escaped texts around them come back concatenated and unchanged,
    whatever characters they contain. *)
Theorem element_text_recovered (segs : list (str * str)) (last : str) :
  forallb (fun seg => tag_inside (snd seg)) segs = true ->
  decode_entities (re_sub false re_tag (expand []) (marked_up segs last))
  = flat_map fst segs ++ last.
Proof.
  intros H. unfold re_sub. rewrite (tags_removed segs last H None).
  apply decode_escaped.
Qed.
Lemma markdown_raw_sections_witness :
  _extract_markdown_with_regex
    (lit "<div " ++ flat_map raw_section
                      [(lit " # Plan&#10;a &lt; b ", lit "><p ");
                       (lit "  ", lit ">x</p></div>")])
  = lit "# Plan" ++ nl :: lit "a < b".
Proof.
  exact (markdown_raw_sections
           (lit "<div ")
           [(lit " # Plan&#10;a &lt; b ", lit "><p ");
            (lit "  ", lit ">x</p></div>")]
           eq_refl eq_refl).
Defined.

Lemma html_headers_extracted_witness :
  _extract_text_from_html_regex
    (lit "<html><body>"
     ++ flat_map header_html
          [mkHeader 2 (lit " class=x") (lit "<span>Plan &amp; scope</span>") 3
                    (lit "<p>text</p>");
           mkHeader 1 [] (lit " ") 1 (lit "</body></html>")])
  = lit "## Plan & scope".
Proof.
  exact (html_headers_extracted
           (lit "<html><body>")
           [mkHeader 2 (lit " class=x") (lit "<span>Plan &amp; scope</span>") 3
                     (lit "<p>text</p>");
            mkHeader 1 [] (lit " ") 1 (lit "</body></html>")]
           eq_refl eq_refl).
Defined.

Lemma element_text_recovered_witness :
  decode_entities
    (re_sub false re_tag (expand [])
            (marked_up [(lit "a < b", lit "br/"); (lit " & ", lit "i")]
                       (lit "c")))
  = lit "a < b & c".
Proof.
  exact (element_text_recovered
           [(lit "a < b", lit "br/"); (lit " & ", lit "i")] (lit "c") eq_refl).
Defined.

(** ** Numbered items separated by blank lines *)

Lemma numbered_line_facts (ds c : str) :
  ds <> [] -> forallb cls_d ds = true -> c <> [] -> strip c = c ->
  let p := ds ++ lit ". " ++ c in
  strip p = p /\ is_ordinal p = true /\ ordinal_out p = lit "# " ++ c
  /\ starts_marker p = false /\ eqb_str p (lit "---") = false
  /\ absent nl ds = true.
Proof.
  intros Hd Hds Hc Hst p.
  destruct (strip_fixed c Hst) as [Hl Hr].
  pose proof (lstrip_head c Hc Hl) as Hh.
  assert (Dnl : absent nl ds = true).
  { revert Hds. apply forallb_imp. intros x Hx.
    destruct (Ascii.eqb_spec x nl) as [->|]; [discriminate Hx|reflexivity]. }
  destruct ds as [|d ds']; [congruence|].
  pose proof Hds as Hds'. cbn [forallb] in Hds'.
  apply andb_true_iff in Hds'. destruct Hds' as [Hd0 _].
  pose proof (digit_not_space d Hd0) as Hdsp.
  pose proof (numbered_run (d :: ds') (lit " ") c Hd Hds ltac:(discriminate)
                           eq_refl Hh) as R.
  assert (E' : p = ((d :: ds') ++ "."%char :: lit " ") ++ c)
    by (unfold p; rewrite <- app_assoc; reflexivity).
  assert (E : strip p = p).
  { unfold strip. rewrite E' at 1. cbn [app]. rewrite (lstrip_keep d _ Hdsp).
    rewrite E'. apply (rstrip_app_keep ((d :: ds') ++ "."%char :: lit " ") c
                                       Hc Hr). }
  assert (ND : forall k, cls_d k = false -> Ascii.eqb k d = false).
  { intros k Hk. destruct (Ascii.eqb_spec k d) as [->|]; [congruence|].
    reflexivity. }
  assert (Ho : is_ordinal p = true).
  { unfold is_ordinal. rewrite E', (first_run_match _ _ _ _ R).
    apply orb_true_r. }
  assert (Hs : startswith (lit "#") p = false).
  { unfold p. cbn [lit list_ascii_of_string app startswith].
    rewrite (ND "#"%char eq_refl). reflexivity. }
  repeat split.
  - exact E.
  - exact Ho.
  - unfold ordinal_out. rewrite E, Hs. f_equal. unfold re_sub. rewrite E'.
    destruct (sub_aux_hit_some false re_numbered (expand [])
                ((d :: ds') ++ "."%char :: lit " ") c None []
                ltac:(discriminate) R) as [c' Ec].
    rewrite Ec. unfold re_numbered. cbn [seqs].
    rewrite sub_anchored_tail. reflexivity.
  - unfold starts_marker, p. cbn [lit list_ascii_of_string app startswith].
    rewrite (ND "*"%char eq_refl), (ND "-"%char eq_refl), (ND "+"%char eq_refl).
    reflexivity.
  - unfold p. cbn [lit list_ascii_of_string app eqb_str].
    rewrite Ascii.eqb_sym, (ND "-"%char eq_refl). reflexivity.
  - exact Dnl.
Qed.

(** The look-ahead over numbered items that blank lines separate. *)
Lemma norm_numbered (ps : list str) :
  Forall (fun p => strip p = p /\ is_ordinal p = true
                   /\ starts_marker p = false
                   /\ eqb_str p (lit "---") = false) ps ->
  norm true (flat_map (fun p => [[]; p]) ps) = map ordinal_out ps.
Proof.
  induction 1 as [|p ps (E & Ho & Hm & Hr) _ IH]; [reflexivity|].
  cbn [flat_map app map].
  change (norm true ([] :: p :: flat_map (fun p => [[]; p]) ps))
    with (norm true (p :: flat_map (fun p => [[]; p]) ps)).
  cbn [norm]. rewrite E, Hr, Hm, Ho. cbn [orb andb].
  rewrite andb_false_r. cbn [orb].
  rewrite (top_ordinal p _ _ ltac:(rewrite E; exact Ho)), IH. reflexivity.
Qed.

Lemma join_blank_lines (p : str) (ps : list str) :
  join blank_line (p :: ps) = join [nl] (p :: flat_map (fun q => [[]; q]) ps).
Proof.
  revert p. induction ps as [|q ps IH]; intros p; [reflexivity|].
  change (join blank_line (p :: q :: ps))
    with (p ++ blank_line ++ join blank_line (q :: ps)).
  rewrite IH. cbn [flat_map app].
  change (join [nl] (p :: [] :: q :: flat_map (fun q => [[]; q]) ps))
    with (p ++ [nl] ++ [] ++ [nl]
            ++ join [nl] (q :: flat_map (fun q => [[]; q]) ps)).
  reflexivity.
Qed.

Lemma fold_hash_items (cs : list str) :
  forallb (forallb inline_free) cs = true ->
  forall st, in_code_block st = false ->
    converted_lines (fold_left block_step (map (app (lit "# ")) cs) st)
    = converted_lines st ++ map (app (lit "# ")) cs.
Proof.
  induction cs as [|c cs IH]; intros H st Hst.
  - cbn. rewrite app_nil_r. reflexivity.
  - cbn [forallb] in H. rewrite andb_true_iff in H. destruct H as [Hc H].
    cbn [map fold_left].
    assert (B : block_step st (lit "# " ++ c)
                = mkBlocks (converted_lines st ++ [lit "# " ++ c]) false false).
    { destruct st as [cl icb it]. cbn [in_code_block] in Hst. subst icb.
      unfold block_step. cbn [lit list_ascii_of_string app].
      rewrite (strip_cons_keep "#" _ eq_refl).
      cbn [lit list_ascii_of_string startswith Ascii.eqb Bool.eqb andb].
      rewrite andb_false_r.
      pose proof (hash_item_line c Hc) as L.
      cbn [lit list_ascii_of_string app] in L.
      cbn [in_code_block in_table negb]. rewrite L.
      destruct it; reflexivity. }
    rewrite B.
    rewrite (IH H (mkBlocks (converted_lines st ++ [lit "# " ++ c]) false false)
                eq_refl).
    cbn [converted_lines].
    rewrite <- app_assoc. reflexivity.
Qed.

Lemma absent_join (k : ascii) (sep : str) (ls : list str) :
  absent k sep = true -> forallb (absent k) ls = true ->
  absent k (join sep ls) = true.
Proof.
  intros Hs. induction ls as [|l ls IH]; [reflexivity|]. intros H.
  cbn [forallb] in H. rewrite andb_true_iff in H. destruct H as [Hl H].
  destruct ls as [|l' ls]; [exact Hl|].
  change (join sep (l :: l' :: ls)) with (l ++ sep ++ join sep (l' :: ls)).
  rewrite !absent_app, Hl, Hs, (IH H). reflexivity.
Qed.

(** Numbered items with blank lines between them come out as one
    contiguous list. *)
Lemma numbered_parts_convert (parts cs : list str) :
  Forall2 (fun p c => exists ds, p = ds ++ lit ". " ++ c /\ ds <> []
                                 /\ forallb cls_d ds = true /\ c <> []
                                 /\ strip c = c /\ item_text c = true)
          parts cs ->
  convert_text (join blank_line parts)
  = Ok (join [nl] (map (app (lit "# ")) cs)).
Proof.
  intros F.
  assert (G : Forall (fun p => strip p = p /\ is_ordinal p = true
                               /\ starts_marker p = false
                               /\ eqb_str p (lit "---") = false) parts
              /\ map ordinal_out parts = map (app (lit "# ")) cs
              /\ forallb (absent nl) parts = true
              /\ forallb (forallb inline_free) cs = true
              /\ forallb (absent "<") cs = true).
  { induction F as [|p c parts cs (ds & -> & Hd & Hds & Hc & Hst & Hit) _ IH].
    - repeat split; constructor.
    - destruct IH as (I1 & I2 & I3 & I4 & I5).
      destruct (numbered_line_facts ds c Hd Hds Hc Hst)
        as (E & Ho & Hout & Hm & Hr & Dnl).
      unfold item_text in Hit. rewrite andb_true_iff in Hit.
      destruct Hit as [Hi Hlt].
      destruct (inline_free_facts _ Hi) as (_ & _ & _ & _ & _ & U6).
      repeat split.
      + constructor; [|exact I1]. auto.
      + cbn [map]. rewrite Hout, I2. reflexivity.
      + cbn [forallb]. rewrite I3, !absent_app, Dnl, U6. reflexivity.
      + cbn [forallb]. rewrite Hi, I4. reflexivity.
      + cbn [forallb]. rewrite Hlt, I5. reflexivity. }
  destruct G as (G1 & G2 & G3 & G4 & G5).
  destruct parts as [|p parts].
  - inversion F. subst. reflexivity.
  - rewrite join_blank_lines, convert_text_finish.
    inversion G1 as [|? ? (E & Ho & Hm & Hr) G1']. subst.
    rewrite split_join.
    + cbn [norm].
      rewrite (top_ordinal p _ _ ltac:(rewrite E; exact Ho)).
      rewrite (norm_numbered parts G1').
      change (ordinal_out p :: map ordinal_out parts)
        with (map ordinal_out (p :: parts)).
      rewrite G2. unfold finish.
      rewrite (fold_hash_items cs G4 (mkBlocks [] false false) eq_refl).
      cbn [converted_lines app]. f_equal. apply no_sentinel.
      apply absent_join; [reflexivity|].
      clear - G5. induction cs as [|c cs IH]; [reflexivity|].
      cbn [forallb] in G5. rewrite andb_true_iff in G5. destruct G5 as [A B].
      cbn [map forallb]. rewrite (IH B), absent_app, A. reflexivity.
    + discriminate.
    + cbn [forallb] in *. rewrite andb_true_iff in G3. destruct G3 as [A B].
      rewrite A. clear - B. induction parts as [|q parts IH]; [reflexivity|].
      cbn [forallb] in B. rewrite andb_true_iff in B. destruct B as [B1 B2].
      cbn [flat_map app forallb]. rewrite B1, (IH B2). reflexivity.
Qed.

(** ** Lists of leaves *)

Lemma iter_leaves (name : string) (items : list (list (str * str) * str * str)) :
  flat_map iter (map (leaf name) items) = map (leaf name) items.
Proof.
  induction items as [|[[a t] tl] items IH]; [reflexivity|].
  cbn [map flat_map]. rewrite IH. reflexivity.
Qed.

Lemma leaf_stripped_text (name : string) (x : list (str * str) * str * str) :
  stripped_text (leaf name x) = leaf_text x.
Proof.
  destruct x as [[a t] tl]. unfold stripped_text, leaf_text, leaf.
  cbn [itertext flat_map fst snd]. rewrite app_nil_r.
  destruct t; [reflexivity|]. cbn [some_text concat]. rewrite app_nil_r.
  reflexivity.
Qed.

Lemma findall_li_leaves (a : list (str * str)) (t0 tl : str) (name : string)
  (items : list (list (str * str) * str * str)) :
  findall_descendants (lit "li") (mkElement (lit name) a t0
                                            (map (leaf "li") items) tl)
  = map (leaf "li") items.
Proof.
  unfold findall_descendants. cbn [children]. rewrite iter_leaves.
  induction items as [|[[a' t'] tl'] items IH]; [reflexivity|].
  cbn [map filter]. cbn [leaf tag]. cbn [map] in IH.
  change (eqb_str (lit "li") (lit "li")) with true. cbv iota.
  f_equal. exact IH.
Qed.

Lemma li_adds_nothing (items : list (list (str * str) * str * str)) :
  flat_map markdown_parts_of (map (leaf "li") items) = [].
Proof.
  induction items as [|[[a t] tl] items IH]; [reflexivity|].
  cbn [map flat_map]. rewrite IH, app_nil_r. reflexivity.
Qed.

(** The parts that an [ol] of leaves adds. *)
Lemma lstrip_idem (s : str) : lstrip (lstrip s) = lstrip s.
Proof.
  induction s as [|c s IH]; [reflexivity|]. cbn [lstrip].
  destruct (isspace c) eqn:E; [exact IH|]. cbn [lstrip]. rewrite E.
  reflexivity.
Qed.

Lemma strip_idem (s : str) : strip (strip s) = strip s.
Proof.
  unfold strip. rewrite lstrip_rstrip, rstrip_idem, lstrip_idem.
  reflexivity.
Qed.

Lemma ordered_parts (k : nat) (items : list (list (str * str) * str * str)) :
  forallb (fun x => item_text (leaf_text x)) items = true ->
  Forall2 (fun p c => exists ds, p = ds ++ lit ". " ++ c /\ ds <> []
                                 /\ forallb cls_d ds = true /\ c <> []
                                 /\ strip c = c /\ item_text c = true)
    (flat_map (fun ili : nat * Element =>
                 let (i, li) := ili in
                 when_text li (fun text => str_of_nat i ++ lit ". " ++ text))
              (combine (seq k (length (map (leaf "li") items)))
                       (map (leaf "li") items)))
    (filter nonblank (map leaf_text items)).
Proof.
  revert k. induction items as [|x items IH]; intros k H; [constructor|].
  cbn [forallb] in H. rewrite andb_true_iff in H. destruct H as [Hx H].
  cbn [map length seq combine flat_map filter].
  unfold when_text at 1. rewrite leaf_stripped_text.
  unfold nonblank at 1.
  destruct (leaf_text x) as [|c0 c] eqn:E; cbn [eqb_str negb app].
  - apply (IH (S k) H).
  - constructor; [|apply (IH (S k) H)].
    exists (str_of_nat k). repeat split.
    + apply str_of_nat_nonempty.
    + apply str_of_nat_digits.
    + discriminate.
    + rewrite <- E. unfold leaf_text. apply strip_idem.
    + exact Hx.
Qed.

(** X22.  An ordered list of the HTML comes out as one Jira numbered
    list.  The extraction numbers the items by their position among all
    the items (the empty ones counted, so the numbers may skip) and puts
    blank lines between them; the conversion drops both the numbers and
    the blank lines. *)
Theorem ordered_list_to_jira (a : list (str * str)) (t0 tl : str)
  (items : list (list (str * str) * str * str)) :
  forallb (fun x => item_text (leaf_text x)) items = true ->
  convert_text
    (_extract_text_to_markdown
       (mkElement (lit "ol") a t0 (map (leaf "li") items) tl))
  = Ok (join [nl]
          (map (app (lit "# ")) (filter nonblank (map leaf_text items)))).
Proof.
  intros H. unfold _extract_text_to_markdown. cbn [iter flat_map].
  rewrite iter_leaves, li_adds_nothing, app_nil_r.
  change (markdown_parts_of
            (mkElement (lit "ol") a t0 (map (leaf "li") items) tl))
    with (let lis := findall_descendants (lit "li")
                       (mkElement (lit "ol") a t0 (map (leaf "li") items) tl) in
          flat_map (fun ili : nat * Element =>
                      let (i, li) := ili in
                      when_text li
                                (fun text => str_of_nat i ++ lit ". " ++ text))
                   (combine (seq 1 (length lis)) lis)).
  cbv zeta. rewrite (findall_li_leaves a t0 tl "ol" items).
  apply numbered_parts_convert, ordered_parts, H.
Qed.

Lemma ordered_list_to_jira_witness :
  convert_text
    (_extract_text_to_markdown
       (mkElement (lit "ol") [] (lit " ")
                  (map (leaf "li")
                       [([], lit "first", lit " ");
                        ([(lit "class", lit "x")], lit "  ", []);
                        ([], lit " third ", [])])
                  []))
  = Ok (lit "# first" ++ nl :: lit "# third").
Proof.
  exact (ordered_list_to_jira
           [] (lit " ") []
           [([], lit "first", lit " ");
            ([(lit "class", lit "x")], lit "  ", []);
            ([], lit " third ", [])] eq_refl).
Defined.

(** ** Bullets separated by blank lines *)

Lemma bullet_self_contained (c : str) :
  c <> [] -> strip c = c -> absent nl c = true ->
  self_contained (lit "- " ++ c) = true.
Proof.
  intros Hc Hst Hnl. destruct (strip_fixed c Hst) as [_ Hr].
  assert (E : strip (lit "- " ++ c) = lit "- " ++ c).
  { cbn [lit list_ascii_of_string app].
    rewrite (strip_cons_keep "-" _ eq_refl). f_equal.
    apply (rstrip_app_keep [" "%char] c Hc Hr). }
  unfold self_contained, separator_row. rewrite E.
  rewrite absent_app, Hnl.
  unfold is_ordinal. cbn [lit list_ascii_of_string app].
  rewrite numbered_no_digit by reflexivity.
  cbn [lit list_ascii_of_string app startswith Ascii.eqb Bool.eqb andb orb negb].
  rewrite andb_false_r. reflexivity.
Qed.

Lemma spaced_forall2 {A B} (R : A -> B -> Prop) (a0 : A) (b0 : B)
  (xs : list A) (ys : list B) :
  R a0 b0 -> Forall2 R xs ys ->
  Forall2 R (flat_map (fun q => [a0; q]) xs) (flat_map (fun q => [b0; q]) ys).
Proof.
  intros H0. induction 1; cbn [flat_map app]; repeat constructor; assumption.
Qed.

Lemma spaced_forallb {A} (P : A -> bool) (a0 : A) (xs : list A) :
  P a0 = true -> forallb P xs = true ->
  forallb P (flat_map (fun q => [a0; q]) xs) = true.
Proof.
  intros H0. induction xs as [|x xs IH]; [reflexivity|]. cbn [forallb].
  rewrite andb_true_iff. intros [Hx H]. cbn [flat_map app forallb].
  rewrite H0, Hx, (IH H). reflexivity.
Qed.

(** Bullets with blank lines between them keep the blank lines. *)
Lemma bullet_parts_convert (cs : list str) :
  forallb (fun c => nonblank c && eqb_str (strip c) c && item_text c) cs
  = true ->
  convert_text (join blank_line (map (app (lit "- ")) cs))
  = Ok (join blank_line (map (app (lit "* ")) cs)).
Proof.
  intros H.
  assert (G : forallb self_contained (map (app (lit "- ")) cs) = true
              /\ Forall2 (fun l o => convert_text l = Ok o)
                         (map (app (lit "- ")) cs) (map (app (lit "* ")) cs)).
  { induction cs as [|c cs IH]; [split; [reflexivity|constructor]|].
    cbn [forallb] in H. rewrite !andb_true_iff in H.
    destruct H as [[[Hn Hs] Hi] H]. destruct (IH H) as [I1 I2].
    unfold nonblank in Hn. rewrite negb_true_iff, eqb_str_neq in Hn.
    apply eqb_str_eq in Hs. unfold item_text in Hi.
    rewrite andb_true_iff in Hi. destruct Hi as [Hi Hlt].
    destruct (inline_free_facts _ Hi) as (_ & _ & _ & _ & _ & U6).
    cbn [map forallb]. split.
    - rewrite (bullet_self_contained c Hn Hs U6), I1. reflexivity.
    - constructor; [|exact I2].
      exact (bullet_line_convert (Spaces 0) "-" (lit " ") c eq_refl
               ltac:(discriminate) eq_refl eq_refl Hn Hs Hi Hlt). }
  destruct G as [G1 G2].
  destruct cs as [|c cs]; [reflexivity|]. cbn [map] in *.
  rewrite !join_blank_lines.
  cbn [forallb] in G1. rewrite andb_true_iff in G1. destruct G1 as [A1 A2].
  inversion G2 as [|? ? ? ? B1 B2]. subst.
  apply convert_text_lines.
  - discriminate.
  - cbn [forallb]. rewrite A1. apply spaced_forallb; [reflexivity|exact A2].
  - constructor; [exact B1|]. apply spaced_forall2; [reflexivity|exact B2].
Qed.

Lemma unordered_parts (items : list (list (str * str) * str * str)) :
  flat_map (fun li => when_text li (fun text => lit "- " ++ text))
           (map (leaf "li") items)
  = map (app (lit "- ")) (filter nonblank (map leaf_text items)).
Proof.
  induction items as [|x items IH]; [reflexivity|].
  cbn [map flat_map filter]. rewrite IH. unfold when_text at 1.
  rewrite leaf_stripped_text. unfold nonblank at 2.
  destruct (leaf_text x); reflexivity.
Qed.

(** X23.  An unordered list of the HTML comes out as Jira bullets that
    blank lines keep apart: unlike the items of an ordered list, which
    the conversion pulls together, every bullet stands alone. *)
Theorem unordered_list_to_jira (a : list (str * str)) (t0 tl : str)
  (items : list (list (str * str) * str * str)) :
  forallb (fun x => item_text (leaf_text x)) items = true ->
  convert_text
    (_extract_text_to_markdown
       (mkElement (lit "ul") a t0 (map (leaf "li") items) tl))
  = Ok (join blank_line
          (map (app (lit "* ")) (filter nonblank (map leaf_text items)))).
Proof.
  intros H. unfold _extract_text_to_markdown. cbn [iter flat_map].
  rewrite iter_leaves, li_adds_nothing, app_nil_r.
  change (markdown_parts_of
            (mkElement (lit "ul") a t0 (map (leaf "li") items) tl))
    with (flat_map (fun li => when_text li (fun text => lit "- " ++ text))
                   (findall_descendants (lit "li")
                      (mkElement (lit "ul") a t0 (map (leaf "li") items) tl))).
  rewrite (findall_li_leaves a t0 tl "ul" items), unordered_parts.
  apply bullet_parts_convert.
  clear - H. induction items as [|x items IH]; [reflexivity|].
  cbn [forallb] in H. rewrite andb_true_iff in H. destruct H as [Hx H].
  cbn [map filter]. destruct (nonblank (leaf_text x)) eqn:N; [|exact (IH H)].
  cbn [forallb]. rewrite N, Hx, (IH H). unfold leaf_text at 1 2.
  rewrite strip_idem, eqb_str_refl. reflexivity.
Qed.

Lemma unordered_list_to_jira_witness :
  convert_text
    (_extract_text_to_markdown
       (mkElement (lit "ul") [] []
                  (map (leaf "li")
                       [([], lit "milk", []); ([], [], []);
                        ([], lit " eggs", lit " ")])
                  []))
  = Ok (lit "* milk" ++ nl :: nl :: lit "* eggs").
Proof.
  exact (unordered_list_to_jira
           [] [] []
           [([], lit "milk", []); ([], [], []); ([], lit " eggs", lit " ")]
           eq_refl).
Defined.

(** ** Headings *)

Lemma heading_parts (tg : str) (a : list (str * str)) (t : str)
  (cs : list Element) (tl : str) :
  among ["script"; "style"; "head"]%string tg = false ->
  among ["h1"; "h2"; "h3"; "h4"; "h5"; "h6"]%string tg = true ->
  markdown_parts_of (mkElement tg a t cs tl)
  = match _convert_html_to_markdown_inline (mkElement tg a t cs tl) with
    | [] => []
    | hc => [repeat "#"%char (int_of_str (firstn 1 (skipn 1 tg))) ++ lit " "
                    ++ hc]
    end.
Proof.
  intros H1 H2. unfold markdown_parts_of. cbn [tag]. rewrite H1, H2.
  destruct (_convert_html_to_markdown_inline (mkElement tg a t cs tl));
    reflexivity.
Qed.

Lemma heading_extracted (n : nat) (x : list (str * str) * str * str) :
  is_level n = true -> bold_styled (heading n x) = false ->
  _extract_text_to_markdown (heading n x)
  = match leaf_text x with
    | [] => []
    | c => repeat "#"%char n ++ lit " " ++ c
    end.
Proof.
  intros Hn Hb. destruct (level_digit_ok n Hn) as [_ D].
  destruct x as [[a t] tl]. unfold heading in *.
  assert (T : among ["script"; "style"; "head"]%string ["h"%char; level_digit n]
              = false
              /\ among ["h1"; "h2"; "h3"; "h4"; "h5"; "h6"]%string
                       ["h"%char; level_digit n] = true
              /\ among ["strong"; "b"]%string ["h"%char; level_digit n]
                 = false).
  { unfold is_level in Hn. rewrite andb_true_iff, Nat.leb_le, Nat.leb_le in Hn.
    assert (C : n = 1 \/ n = 2 \/ n = 3 \/ n = 4 \/ n = 5 \/ n = 6) by lia.
    destruct C as [->|[->|[->|[->|[->| ->]]]]]; repeat split; reflexivity. }
  destruct T as (T1 & T2 & T3).
  unfold _extract_text_to_markdown. cbn [iter flat_map app].
  rewrite app_nil_r, (heading_parts _ a t [] tl T1 T2).
  cbn [skipn firstn]. rewrite D.
  pose proof (leaf_stripped_text "x" (a, t, tl)) as ST.
  change (stripped_text (leaf "x" (a, t, tl)))
    with (stripped_text (mkElement ["h"%char; level_digit n] a t [] tl)) in ST.
  unfold _convert_html_to_markdown_inline. cbv zeta. rewrite !ST.
  destruct (leaf_text (a, t, tl)) as [|c0 c]; [reflexivity|].
  cbn [iter flat_map existsb tag]. rewrite T3.
  unfold bold_styled in Hb. cbn [orb]. rewrite orb_false_r.
  rewrite <- !orb_assoc in Hb |- *.
  rewrite Hb. reflexivity.
Qed.

Lemma convert_text_header_line (n : nat) (title : str) :
  2 <= n <= 6 -> title <> [] -> forallb inline_free title = true ->
  absent "<" title = true ->
  convert_text (repeat "#"%char n ++ " "%char :: title)
  = Ok (header_prefix n ++ title).
Proof.
  intros Hn Ht Hi Hlt.
  destruct (inline_free_facts _ Hi) as (_ & _ & _ & _ & _ & Hnl).
  pose proof (absent_header nl n title eq_refl eq_refl Hnl) as A.
  rewrite convert_text_finish, (split_no_sep _ _ (absent_in _ _ A)).
  rewrite <- (convert_line_header n title Hn Ht Hi).
  destruct n as [|[|k]]; try lia.
  cbn [repeat app norm]. rewrite top_header.
  unfold finish. cbn [fold_left].
  rewrite (block_step_header (mkBlocks [] false false) _ eq_refl).
  cbn [converted_lines app join].
  change (lit "<<<JIRALIST2>>>") with ("<"%char :: lit "<<JIRALIST2>>>").
  rewrite replace_absent; [reflexivity|].
  change ("#"%char :: "#"%char :: repeat "#"%char k ++ " "%char :: title)
    with (repeat "#"%char (S (S k)) ++ " "%char :: title).
  rewrite (convert_line_header (S (S k)) title Hn Ht Hi).
  apply absent_header_prefix; assumption.
Qed.

Lemma convert_text_hash_line (c : str) :
  c <> [] -> strip c = c -> forallb inline_free c = true ->
  absent "<" c = true ->
  convert_text (lit "# " ++ c) = Ok (lit "# " ++ c).
Proof.
  intros Hc Hst Hi Hlt.
  destruct (inline_free_facts _ Hi) as (_ & _ & _ & _ & _ & U6).
  destruct (strip_fixed c Hst) as [Hl Hr].
  assert (Hnl : absent nl (lit "# " ++ c) = true)
    by (rewrite absent_app, U6; reflexivity).
  assert (E : strip (lit "# " ++ c) = lit "# " ++ c).
  { cbn [lit list_ascii_of_string app].
    rewrite (strip_cons_keep "#" _ eq_refl). f_equal.
    apply (rstrip_app_keep [" "%char] c Hc Hr). }
  assert (Ho : is_ordinal (lit "# " ++ c) = true) by reflexivity.
  rewrite convert_text_finish, (split_no_sep _ _ (absent_in _ _ Hnl)).
  cbn [norm]. rewrite (top_ordinal _ _ _ ltac:(rewrite E; exact Ho)).
  assert (O : ordinal_out (lit "# " ++ c) = lit "# " ++ c).
  { unfold ordinal_out. rewrite E.
    cbn [lit list_ascii_of_string app startswith Ascii.eqb Bool.eqb andb skipn].
    f_equal. f_equal. unfold strip. cbn [lstrip].
    change (isspace " ") with true. cbv iota. exact Hst. }
  rewrite O, finish_one; [|exact Hnl|reflexivity].
  rewrite (hash_item_line c Hi). f_equal. apply no_sentinel.
  rewrite absent_app, Hlt. reflexivity.
Qed.

(** X24.  The headings of the HTML.  A heading of level 2 to 6 comes out
    as the Jira heading of that level; a heading of level 1 comes out as
    [# title], which Jira reads as the item of a numbered list. *)
Theorem heading_levels (n : nat) (x : list (str * str) * str * str) :
  is_level n = true -> bold_styled (heading n x) = false ->
  nonblank (leaf_text x) = true -> item_text (leaf_text x) = true ->
  convert_text (_extract_text_to_markdown (heading n x))
  = Ok (if n =? 1 then lit "# " ++ leaf_text x
        else header_prefix n ++ leaf_text x).
Proof.
  intros Hn Hb Hc Hi. rewrite (heading_extracted n x Hn Hb).
  assert (Hst : strip (leaf_text x) = leaf_text x) by apply strip_idem.
  unfold nonblank in Hc. rewrite negb_true_iff, eqb_str_neq in Hc.
  unfold item_text in Hi. rewrite andb_true_iff in Hi. destruct Hi as [Hi Hlt].
  destruct (leaf_text x) as [|c0 c] eqn:E; [congruence|].
  unfold is_level in Hn. rewrite andb_true_iff, Nat.leb_le, Nat.leb_le in Hn.
  destruct (Nat.eqb_spec n 1) as [->|N].
  - exact (convert_text_hash_line (c0 :: c) Hc Hst Hi Hlt).
  - exact (convert_text_header_line n (c0 :: c) ltac:(lia) Hc Hi Hlt).
Qed.

Lemma heading_levels_witness :
  convert_text
    (_extract_text_to_markdown
       (heading 1 ([(lit "class", lit "title")], lit " Release notes ", [])))
  = Ok (lit "# Release notes").
Proof.
  exact (heading_levels
           1 ([(lit "class", lit "title")], lit " Release notes ", [])
           eq_refl eq_refl eq_refl eq_refl).
Defined.

(** ** The clipboard header *)

Lemma str_find_after (p u rest : str) :
  unbordered p = true -> contains p u = false -> startswith p rest = true ->
  str_find p (u ++ rest) = Some (length u).
Proof.
  intros Hb Hu Hr. induction u as [|c u IH].
  - destruct rest; cbn [app str_find]; rewrite Hr; reflexivity.
  - destruct (contains_head_false p c u Hu) as [H1 H2].
    pose proof (no_straddle p (c :: u) rest Hb ltac:(discriminate) H1
                            (or_intror Hr)) as N.
    cbn [app] in N. cbn [app str_find]. rewrite N, (IH H2). reflexivity.
Qed.

(** X25.  The header that the clipboard puts before the HTML does not
    count: a text that begins with [Version:] is cut at its first
    [<html>], and the extraction, and so the conversion, of the whole
    clipboard text is that of the document alone, whatever the parser
    does. *)
Theorem clipboard_header_ignored (fromstring : str -> option Element)
  (header doc : str) :
  startswith (lit "Version:") header = true ->
  contains (lit "<html>") header = false ->
  startswith (lit "<html>") doc = true ->
  extract_markdown_from_html fromstring (header ++ doc)
  = extract_markdown_from_html fromstring doc
  /\ convert_raw_html fromstring (header ++ doc)
     = convert_raw_html fromstring doc.
Proof.
  intros Hv Hh Hd.
  assert (E : extract_markdown_from_html fromstring (header ++ doc)
              = extract_markdown_from_html fromstring doc).
  { unfold extract_markdown_from_html.
    rewrite (startswith_weaken _ header doc Hv).
    rewrite (str_find_after (lit "<html>") header doc eq_refl Hh Hd).
    rewrite skipn_app, skipn_all, Nat.sub_diag. cbn [skipn app].
    destruct (startswith_split _ _ Hd) as [r ->]. reflexivity. }
  split; [exact E|]. unfold convert_raw_html. rewrite E. reflexivity.
Qed.

Lemma clipboard_header_ignored_witness :
  extract_markdown_from_html
    (fun _ => None)
    ((lit "Version:0.9" ++ nl :: lit "StartHTML:0000000105" ++ [nl])
     ++ lit "<html><body><h2>Plan</h2></body></html>")
  = extract_markdown_from_html
      (fun _ => None) (lit "<html><body><h2>Plan</h2></body></html>")
  /\ convert_raw_html
       (fun _ => None)
       ((lit "Version:0.9" ++ nl :: lit "StartHTML:0000000105" ++ [nl])
        ++ lit "<html><body><h2>Plan</h2></body></html>")
     = convert_raw_html
         (fun _ => None) (lit "<html><body><h2>Plan</h2></body></html>").
Proof.
  apply (clipboard_header_ignored
           (fun _ => None)
           (lit "Version:0.9" ++ nl :: lit "StartHTML:0000000105" ++ [nl])
           (lit "<html><body><h2>Plan</h2></body></html>"));
    reflexivity.
Defined.

(** ** Inline elements inside a paragraph *)

Lemma itertext_leaves (kids : list (inline_kind * (list (str * str) * str * str))) :
  concat (flat_map (fun c => itertext c ++ some_text (tail c))
                   (map inline_leaf kids))
  = concat (map (fun kx => leaf_run (snd kx)) kids).
Proof.
  induction kids as [|[k [[a t] tl]] kids IH]; [reflexivity|].
  cbn [map flat_map]. rewrite concat_app, IH. cbn [concat]. f_equal.
  unfold inline_leaf, leaf_run, leaf. cbn [fst snd itertext flat_map tail].
  rewrite app_nil_r, concat_app. destruct t, tl; cbn; rewrite ?app_nil_r;
    reflexivity.
Qed.

Lemma inline_leaf_parts (kx : inline_kind * (list (str * str) * str * str)) :
  markdown_parts_of (inline_leaf kx)
  = match leaf_text (snd kx) with
    | [] => []
    | c => [kind_mark (fst kx) ++ c ++ kind_mark (fst kx)]
    end.
Proof.
  destruct kx as [k x]. cbn [fst snd].
  pose proof (leaf_stripped_text (kind_tag k) x) as ST.
  destruct x as [[a t] tl]. unfold inline_leaf. cbn [fst snd] in *.
  destruct k; unfold markdown_parts_of, when_text; cbn [leaf tag kind_tag];
    cbn [leaf kind_tag] in ST; rewrite ST;
    destruct (leaf_text (a, t, tl)); reflexivity.
Qed.

(** X26.  Inline elements inside a paragraph are not marked in place.
    The paragraph comes out as its whole text without any marker, and
    each inline element that is not blank comes out once more after it,
    as a block of its own with its marker. *)
Theorem paragraph_markup_repeated (a : list (str * str)) (t0 tl : str)
  (kids : list (inline_kind * (list (str * str) * str * str))) :
  _extract_text_to_markdown
    (mkElement (lit "p") a t0 (map inline_leaf kids) tl)
  = join blank_line
      (some_text
         (strip (t0 ++ concat (map (fun kx => leaf_run (snd kx)) kids)))
       ++ map (fun kx => kind_mark (fst kx) ++ leaf_text (snd kx)
                                   ++ kind_mark (fst kx))
              (filter (fun kx => nonblank (leaf_text (snd kx))) kids)).
Proof.
  unfold _extract_text_to_markdown. cbn [iter flat_map]. f_equal.
  assert (K : flat_map iter (map inline_leaf kids) = map inline_leaf kids).
  { clear. induction kids as [|[k [[a t] tl]] kids IH]; [reflexivity|].
    cbn [map flat_map]. rewrite IH. reflexivity. }
  rewrite K. f_equal.
  - change (markdown_parts_of
              (mkElement (lit "p") a t0 (map inline_leaf kids) tl))
      with (when_text (mkElement (lit "p") a t0 (map inline_leaf kids) tl)
                      (fun text => text)).
    unfold when_text, stripped_text. cbn [itertext].
    rewrite concat_app, itertext_leaves.
    replace (concat (some_text t0)) with t0
      by (destruct t0; cbn; rewrite ?app_nil_r; reflexivity).
    destruct (strip _); reflexivity.
  - clear. induction kids as [|kx kids IH]; [reflexivity|].
    cbn [map flat_map filter]. rewrite inline_leaf_parts, IH.
    unfold nonblank at 2.
    destruct (leaf_text (snd kx)) as [|c0 c] eqn:E; [reflexivity|].
    cbn [eqb_str negb map app]. rewrite E. reflexivity.
Qed.

(** ** Links *)

(** X27.  A link of the HTML comes out as a Jira link, when its text and
    its target are plain (none of the characters [(], [*], backtick, [[],
    [~], [<], no line break), the text has no [\]] and the target no
    [)]: the extraction writes the Markdown link of the text and the
    target, and the conversion turns it into Jira's form, provided the
    target in parentheses does not read as one of the emoticon tokens. *)
Theorem anchor_to_jira_link (x : list (str * str) * str * str) (u : str) :
  attrib_lookup (lit "href") (leaf "a" x) = Some u ->
  nonblank (leaf_text x) = true -> u <> [] ->
  item_text (leaf_text x) = true -> item_text u = true ->
  absent "]" (leaf_text x) = true -> absent ")" u = true ->
  in_catalogue ("("%char :: u ++ lit ")") = false ->
  convert_text (_extract_text_to_markdown (leaf "a" x))
  = Ok (lit "[" ++ leaf_text x ++ lit "|" ++ u ++ lit "]").
Proof.
  intros Hh Hc Hu Hi Hiu Hbr Hpar Hcat.
  unfold nonblank in Hc. rewrite negb_true_iff, eqb_str_neq in Hc.
  unfold item_text in Hi, Hiu. rewrite andb_true_iff in Hi, Hiu.
  destruct Hi as [Hi Hlt]. destruct Hiu as [Hiu Hltu].
  assert (E : _extract_text_to_markdown (leaf "a" x)
              = lit "[" ++ leaf_text x ++ lit "](" ++ u ++ lit ")").
  { pose proof (leaf_stripped_text "a" x) as ST.
    unfold _extract_text_to_markdown.
    destruct x as [[a t] tl]. cbn [leaf iter flat_map app] in *.
    rewrite app_nil_r.
    change (markdown_parts_of (mkElement (lit "a") a t [] tl))
      with (when_text (mkElement (lit "a") a t [] tl)
              (fun text =>
                 match get (mkElement (lit "a") a t [] tl) (lit "href") [] with
                 | _ :: _ =>
                     lit "[" ++ text ++ lit "]("
                         ++ get (mkElement (lit "a") a t [] tl) (lit "href") []
                         ++ lit ")"
                 | [] => text
                 end)).
    unfold when_text, get. rewrite ST, Hh.
    destruct (leaf_text (a, t, tl)) as [|c0 c]; [congruence|].
    destruct u; [congruence|reflexivity]. }
  rewrite E.
  pose proof (link_line_convert [] (leaf_text x) u [] eq_refl Hc Hu) as L.
  cbn [app] in L. rewrite !app_nil_r in L. apply L; assumption.
Qed.

Lemma anchor_to_jira_link_witness :
  convert_text
    (_extract_text_to_markdown
       (leaf "a" ([(lit "class", lit "ext"); (lit "href", lit "https://a.io/x")],
                  lit " the docs ", [])))
  = Ok (lit "[the docs|https://a.io/x]").
Proof.
  exact (anchor_to_jira_link
           ([(lit "class", lit "ext"); (lit "href", lit "https://a.io/x")],
            lit " the docs ", [])
           (lit "https://a.io/x")
           eq_refl eq_refl ltac:(discriminate) eq_refl eq_refl eq_refl eq_refl
           eq_refl).
Defined.

(** ** Elements that the extraction passes over *)

Lemma unhandled_adds_nothing (e : Element) :
  handled_tag (tag e) = false -> markdown_parts_of e = [].
Proof.
  unfold handled_tag, among. cbn [existsb]. rewrite !orb_false_iff.
  intros (H1 & H2 & H3 & H4 & H5 & H6 & Hp & Hs & Hb & He & Hi & Hc & Hu
          & Ho & Hq & Ha & _).
  unfold markdown_parts_of, among. cbn [existsb].
  rewrite H1, H2, H3, H4, H5, H6, Hp, Hs, Hb, He, Hi, Hc, Hu, Ho, Hq, Ha.
  cbn [orb]. destruct (_ || _); reflexivity.
Qed.

(** X28.  Text outside the handled elements is dropped.  A tree in which
    no element is a heading, a paragraph, an inline element, a list, a
    quotation or a link gives the empty text, whatever its elements
    contain: the cells of a table, preformatted text, or list items
    without their list. *)
Theorem unhandled_text_dropped (root : Element) :
  forallb (fun e => negb (handled_tag (tag e))) (iter root) = true ->
  _extract_text_to_markdown root = [].
Proof.
  intros H. unfold _extract_text_to_markdown.
  replace (flat_map markdown_parts_of (iter root)) with (@nil str);
    [reflexivity|].
  induction (iter root) as [|e l IH]; [reflexivity|].
  cbn [forallb] in H. rewrite andb_true_iff, negb_true_iff in H.
  destruct H as [He H]. cbn [flat_map].
  rewrite (unhandled_adds_nothing e He). exact (IH H).
Qed.

Lemma unhandled_text_dropped_witness :
  _extract_text_to_markdown
    (mkElement (lit "table") [] []
               [mkElement (lit "tr") [] []
                          [leaf "td" ([], lit "cell", []);
                           leaf "td" ([], lit "other", [])] [];
                leaf "pre" ([], lit "x = 1", lit "after")] [])
  = [].
Proof.
  exact (unhandled_text_dropped
           (mkElement (lit "table") [] []
                      [mkElement (lit "tr") [] []
                                 [leaf "td" ([], lit "cell", []);
                                  leaf "td" ([], lit "other", [])] [];
                       leaf "pre" ([], lit "x = 1", lit "after")] [])
           eq_refl).
Defined.

(** ** Elements that the loop skips *)

Lemma parts_of_children (cs : list Element) :
  flat_map markdown_parts_of (flat_map iter cs)
  = flat_map (fun c => flat_map markdown_parts_of (iter c)) cs.
Proof.
  induction cs as [|c cs IH]; [reflexivity|].
  cbn [flat_map]. rewrite flat_map_app, IH. reflexivity.
Qed.

Lemma paragraph_leaves (items : list (list (str * str) * str * str)) :
  flat_map markdown_parts_of (map (leaf "p") items)
  = filter nonblank (map leaf_text items).
Proof.
  induction items as [|x items IH]; [reflexivity|].
  cbn [map flat_map filter]. rewrite IH.
  pose proof (leaf_stripped_text "p" x) as ST.
  destruct x as [[a t] tl]. cbn [leaf] in *.
  change (markdown_parts_of (mkElement (lit "p") a t [] tl))
    with (when_text (mkElement (lit "p") a t [] tl) (fun text => text)).
  unfold when_text, nonblank. rewrite ST.
  destruct (leaf_text (a, t, tl)); reflexivity.
Qed.

(** X21.  The loop skips an element with the tag [script], [style] or
    [head], and only that element: its own text adds nothing, and the
    loop goes on with its descendants, so the extraction is made of the
    parts of the sub-trees of its children.  Paragraphs that are
    children of such an element are extracted like paragraphs anywhere
    else. *)
Theorem skip_is_shallow (tg : str) (a : list (str * str)) (t0 tl : str)
  (cs : list Element) (items : list (list (str * str) * str * str)) :
  among ["script"; "style"; "head"]%string tg = true ->
  _extract_text_to_markdown (mkElement tg a t0 cs tl)
  = join blank_line
      (flat_map (fun c => flat_map markdown_parts_of (iter c)) cs)
  /\ _extract_text_to_markdown (mkElement tg a t0 (map (leaf "p") items) tl)
     = join blank_line (filter nonblank (map leaf_text items)).
Proof.
  intros H.
  assert (E : forall cs0, markdown_parts_of (mkElement tg a t0 cs0 tl) = []).
  { intros cs0. unfold markdown_parts_of. cbn [tag]. rewrite H. reflexivity. }
  unfold _extract_text_to_markdown. cbn [iter flat_map]. rewrite !E.
  cbn [app]. split.
  - rewrite parts_of_children. reflexivity.
  - rewrite iter_leaves, paragraph_leaves. reflexivity.
Qed.

Lemma skip_is_shallow_witness :
  _extract_text_to_markdown
    (mkElement (lit "head") [] (lit "own text")
               [mkElement (lit "div") [] (lit "lost")
                          [leaf "p" ([], lit " kept ", [])] []]
               [])
  = join blank_line
      (flat_map (fun c => flat_map markdown_parts_of (iter c))
                [mkElement (lit "div") [] (lit "lost")
                           [leaf "p" ([], lit " kept ", [])] []])
  /\ _extract_text_to_markdown
       (mkElement (lit "head") [] (lit "own text")
                  (map (leaf "p") [([], lit " one ", []); ([], lit " ", [])])
                  [])
     = join blank_line
         (filter nonblank
                 (map leaf_text [([], lit " one ", []); ([], lit " ", [])])).
Proof.
  apply (skip_is_shallow
           (lit "head") [] (lit "own text") []
           [mkElement (lit "div") [] (lit "lost")
                      [leaf "p" ([], lit " kept ", [])] []]
           [([], lit " one ", []); ([], lit " ", [])]).
  reflexivity.
Defined.

(* ================================================================= *)
(** * Lines inside a document *)

(** ** A line in its document *)








(** ** Lines in which nothing matches *)









(** ** Header lines *)







(** ** Claims about a second run *)







